(* ===== verification/_CoqProject ===== *)
-Q . S2P
Prelude.v
GoStrings.v
Json.v
JsonFacts.v
JsonRead.v
Floats.v
FloatFacts.v
Errors.v
Policy.v
Hostname.v
Encoding.v
Prog.v
Template.v
Manifest.v
Tokens.v
Url.v
Origin.v
BoshClient.v
UaaClient.v
Broker.v
Http.v
StateFile.v
Store.v
Provision.v
Update.v
Deprovision.v
LastOperation.v
Binding.v
Catalog.v
Admin.v
Concurrency.v
Typed.v
Restarts.v
Lifecycle.v
Durability.v
Journey.v
Server.v
Effects.v
Config.v
System.v
Routes.v
Wire.v
Metadata.v
Connections.v
Shutdown.v
Mutex.v
TokenMutex.v
Budget.v
StartupLog.v
