(* ===== verification/Prelude.v ===== *)
(** * bosh-openclaw service broker: verification library (root)

    ** The program

    The repository is a BOSH release with an Open Service Broker written in Go,
    under src/src/openclaw-broker/.  The broker deploys one virtual machine with
    an OpenClaw agent per service instance.  Its packages:
    - [security]: the minimum-version gate (policy.go) and random tokens (token.go);
    - [bosh]: the HTTP client of the BOSH director (client.go) and the agent
      manifest, a text template (manifest.go);
    - [uaa]: the client that registers an OAuth2 client per instance (client.go);
    - [broker]: the service broker handlers over one shared map of instances that
      is saved to a state file after each operation (broker.go, provision.go,
      update.go, deprovision.go, last_operation.go, binding.go, catalog.go,
      admin.go);
    - [main]: configuration, routes, basic authentication (main.go).
    A request passes the router and the authentication, then one handler; the
    handler takes decisions on the map in short critical sections and calls the
    director and the UAA outside them, so handlers interleave at those calls.

    ** The files

    Foundations:
    - Prelude: this header, the result type of Go calls, error values, tactics,
      the hint databases [bytes] and [store];
    - GoStrings, Encoding, Url, Template: what the code uses of the packages
      strings, strconv, path, encoding/base64, encoding/hex, net/url and
      text/template, on byte strings, with their lemmas;
    - Json, JsonFacts, JsonRead: encoding/json on bytes.  The printer of compact and
      indented texts, the scanner and decoder as one parser, and the decoding of
      members into struct fields; then that printed values read back, that decoded
      texts are well-formed UTF-8 whatever the bytes, and that a text which was cut
      off does not decode;
    - Floats: 64-bit floating-point numbers, their parsing with correct rounding and
      their printing with the fewest digits; FloatFacts: that what is printed reads
      back; Errors: the text of an error, with strconv.Quote;
    - Prog: effectful code.  A program is a tree of atomic steps on the store (one
      per critical section), HTTP exchanges, clock readings, random reads, file
      operations and range orders.  It runs alone against an oracle ([run]), its
      weakest precondition quantifies over every answer of the environment ([wp]),
      and a pool of programs interleaves ([pool]).  [steps_in] says that each step
      keeps an invariant and stays within a relation, which is what interleaving
      preserves.  The classes [Director] and [ClientRegistry] are the two
      interfaces of the handlers to the outside; [DirectorFrame],
      [DirectorContract], [DirectorRange] and [RegistryFrame] are what the clients
      promise.

    Components, named after the Go identifiers they translate:
    - Policy and Origin (security/policy.go); Tokens (security/token.go and the
      generators of uaa/client.go); Hostname (instance ids and route hostnames, provision.go);
      Manifest (bosh/manifest.go, with the template text byte for byte);
    - BoshClient (bosh/client.go) implements [Director] over a store with a token
      cache; UaaClient (uaa/client.go) implements [ClientRegistry];
    - Broker (broker.go): configuration, plans, instances, quotas, the shared store.
      The Go map of pointers is a map from ids to locations of a heap of records,
      because handlers keep pointers across their critical sections: a record can
      be written after it has left the map.  The disk has names and inodes,
      because a file can be truncated by one save while another renames it;
    - StateFile (broker.go): the text of the state file, saveState and loadState;
    - Store: the invariant [wf] of the store, the relation [evolves] between the
      stores of a history, save and load;
    - Provision, Update, Deprovision, LastOperation, Binding, Catalog, Admin: one
      handler (or two) per file, decoded requests to responses;
    - Concurrency: all handlers in a pool, a scheduler for concrete interleavings;
    - Lifecycle: the abstract service contract and that the handlers refine it;
    - Typed: the types of the records, and that the handlers keep them;
    - Restarts: what a new process reads back, whatever was on the disk;
    - Durability: what an acknowledged request leaves in the state directory;
    - Journey: the handlers in the order a platform calls them, from the provision of
      an instance to the end of its deletion;
    - Http: answers as bytes; Server (main.go: authentication, query, bodies, routes);
    - Config (main.go: configuration, credentials, model discovery, [main]);
    - System (main.go): processes that start, serve, shut down or are killed, and
      start again on the same state directory; the definitions of all other files
      come together here;
    - Routes: the route hostnames of all instances of a system;
    - Effects: what holds of every handler because it holds of the two clients and of
      every step that leaves the token alone;
    - Wire: what a client of the started broker reads; Metadata: the metadata of plans
      from the configuration to that client; Connections: the servers the
      handlers of the started broker talk to; Shutdown: the end of its process;
    - Mutex: the world in which Lock waits and time passes; TokenMutex: the token cache
      of the director client in that world; Budget: how long the exchanges of a request
      may take; StartupLog: the lines main logs about its configuration.

    ** The theorems

    - The whole system: system_invariant, from the bytes of the configuration file
      and of the requests to the state directory, over any number of processes;
      shutdown_answers, that a shutdown ends and answers what it serves.
    - The handlers together: service_lifecycle, from provision to deletion.
    - The network: answers_decode, from the bytes of the configuration to the bytes a
      client decodes; metadata_kept, that the metadata of a plan come out as they went
      in; connections, where requests go, with which credentials and over which kind
      of connection; request_seconds, how long the exchanges of a request may take;
      startup_log_sound, what the operator is told.
    - The mutex: token_requests_spaced, that one token serves all requests for as long
      as it lasts, and mutex_requests_answered, that no request waits for ever.
    - What each handler does on every branch and whatever the environment answers:
      Provision_accepted, Provision_refused, Provision_admits, Update_redeploys,
      Update_recovers, Deprovision_known, Deprovision_orphan,
      Deprovision_idempotent, LastOperation_polls, Bind_spec, AdminUpgrade_spec,
      AdminUpgradeStatus_spec, Catalog_provisionable.
    - Refinement: handle_refines_lifecycle, against the abstract life cycle
      deploying / ready / failed / deleting.
    - Interleaving: served_invariant and served_typed for every pool of requests,
      served_quota for the limits; the executions deprovision_exceeds_quota,
      last_operation_race, concurrent_saves_lose and saveState_race show what
      interleaving does break.
    - Persistence: saveState_crash_safe, restart_restores (through the JSON text),
      cut_off_unreadable, acknowledged_durable for every handler and
      session_durable for any sequence of them.
    - The edge: ServeHTTP_unauthenticated, authorized_spec, ServeHTTP_routes,
      main_safe.
    - Text: hostnames are DNS labels and distinct for canonical ids, and so are the
      routes of a running system (routes_distinct); the manifest
      always renders, and a user-supplied owner cannot leave its YAML scalar;
      the version gate is the lexicographic order; the origin check compares host
      names up to the case of letters (ValidateWebSocketOrigin_host); what is parsed
      as a floating-point number is the nearest one (of_quotient_nearest), and what
      encoding/json writes for one is read as it (ParseFloat_format_json).
    - Clients: the token cache and its safety margin in 64-bit durations, task ids,
      the outcomes of registering an OAuth2 client.
    - Behaviour worth knowing, proved of concrete runs: Provision_leaks_client,
      Update_injects, AdminUpgrade_stale_version, uniqueRouteHostname_collides,
      invalid_id_forgotten.

    ** Bounds and fuel

    Recursion is structural except in six places that carry fuel: the lexer and the
    parsers of Template are called with the length of their input plus one and
    consume some of it at each call, and RenderAgentManifest_total shows that the
    template of the repository does parse and render; [skip_spaces] is called with
    the length of the string; the parser of JSON is called with two for every byte
    plus two, and decode_first_total shows that any greater number gives the same
    answer on every text.  Its nesting is limited to 10000, as Go's is.  The search
    for the fewest digits of a floating-point number stops at 17, and shortest_found
    shows that it always has a result by then.
    Integers are Go's 64-bit ones: Atoi refuses what does
    not fit, the duration of the token margin wraps as the code's arithmetic does.
    Counts of instances, plans and tasks are unbounded [Z].

    ** Modelling choices

    - A critical section of the instance map is one step, its lock is not modelled.  The
      mutex of the token cache is held during an exchange: Mutex models it, and shows
      that the executions with it are among those of the pool, where it never waits.  Writes that
      the code makes outside the lock (the single sign-on fields in Provision) are
      one step each.
    - Environments are unrestricted: a transport may fail, the director may answer
      anything.  Bodies of requests and responses and the contents of files are
      bytes, decoded by the definitions of Json.
    - Credentials that the code generates while it holds the lock are generated
      inside the step ([locked]), in the branches that generate them.
    - A handler returns a response: a status, a JSON value and, for a refused version,
      the error that describes it.  Http makes its bytes and the headers the code sets;
      those that net/http adds itself (Date, Content-Length) are left out.
    - A request carries the settings of the http.Client it is sent with.  What they
      mean for the exchange, a failed handshake, an elapsed timeout or a redirect that
      is followed, is among the answers of the environment.
    - A write replaces the contents of its file at once; one that fails leaves a
      content from which nothing is read (cut_off_unreadable: a proper prefix of a
      state text does not decode).  Two saves write the same temporary file, and the
      shorter text then overwrites the beginning of the longer one.
    - A null member of the state file, which no save writes, is left out when it is
      read, and a file that holds null gives the empty map.  Of the log, the lines
      about the configuration are modelled (StartupLog).
    - In System the paths of requests are well-formed UTF-8 once unescaped
      (invalid_id_forgotten shows what other paths do).  Every start is by [main] on
      any two configuration files; a process can be replaced by its successor at any
      moment, with requests under way.
    - Strings are bytes.  Where Go's functions work on runes the definitions
      follow the UTF-8 decoding the code depends on (ToLower, TrimSpace, EqualFold,
      encoding/json).  Two tables of the Unicode standard are parameters: the case
      folding behind EqualFold (Origin) and the printable code points behind %q
      (Errors), which no theorem constrains.  Errors of libraries that are only
      logged carry no text.

    ** Not modelled

    TLS handshakes, the passing of time (but the deadline of the shutdown is a step and
    TokenMutex has a clock), the enforcement of timeouts, connections and the listener,
    the parsing of request lines and headers by net/http, log lines other than those of
    StartupLog, the empty query mark that a redirect keeps, the parts of gorilla/mux that main.go does not use,
    unlocked data races beyond single-field writes, the panic when the random
    source fails, and everything outside the Go broker (job templates, tile,
    packages, the JavaScript gateway). *)

From stdpp Require Export base tactics list gmap strings pretty.
From Stdlib Require Export Ascii.

Declare Scope broker_scope.
Delimit Scope broker_scope with broker.
#[global] Open Scope broker_scope.
#[global] Open Scope string_scope.
#[global] Open Scope list_scope.

(** String concatenation reduces on constructors. *)
#[global] Arguments String.append !s1 s2 / : simpl nomatch.

(** ** Hint databases of the development

    [bytes] holds the closure facts about byte predicates and string
    transformations; [store] holds well-formedness facts about the broker
    state.  Later files add their own lemmas to them. *)
Create HintDb bytes discriminated.
Create HintDb store discriminated.

(** ** Go results: a value or an error *)

Inductive result (E A : Type) : Type :=
| Ok (val : A)
| Err (err : E).
Arguments Ok {E A} val.
Arguments Err {E A} err.

Definition rbind {E A B} (r : result E A) (k : A → result E B) : result E B :=
  match r with
  | Ok a => k a
  | Err e => Err e
  end.

Definition rmap_err {E F A} (g : E → F) (r : result E A) : result F A :=
  match r with
  | Ok a => Ok a
  | Err e => Err (g e)
  end.

Notation "x ←? r ; k" := (rbind r (fun x => k))
  (at level 20, r at level 100, k at level 200, only parsing) : broker_scope.
Notation "' x ←? r ; k" := (rbind r (fun x => k))
  (at level 20, x pattern, r at level 100, k at level 200, only parsing) : broker_scope.

Definition is_ok {E A} (r : result E A) : bool :=
  match r with Ok _ => true | Err _ => false end.

(** ** Go error values

    An error is the format of the [fmt.Errorf] call that made it, with its
    arguments, or the wrapping ([%w]) of another error; [Errors.v] makes its text.
    An error of a library that is only logged stands without its text. *)
Inductive GoError : Type :=
| Errorf (format : string) (args : list string)
| Wrapf (format : string) (args : list string) (inner : GoError).

#[export] Instance GoError_eq_dec : EqDecision GoError.
Proof. solve_decision. Defined.

(** An option turned into a result with the given error. *)
Definition ok_or {E A} (o : option A) (e : E) : result E A :=
  match o with Some a => Ok a | None => Err e end.

#[export] Instance result_eq_dec {E A} `{EqDecision E} `{EqDecision A} :
  EqDecision (result E A).
Proof. solve_decision. Defined.

Lemma rbind_ok {E A B} (r : result E A) (k : A → result E B) b :
  rbind r k = Ok b ↔ ∃ a, r = Ok a ∧ k a = Ok b.
Proof. destruct r; simpl; [|by split; [|intros (?&?&?)]]. split; [eauto|]. by intros (? & [= ->] & ?). Qed.

(** ** Tactics *)

(** [bool_split]: conjunctions and negations of boolean tests, taken apart but
    left as boolean equations, ready to rewrite with. *)
Ltac bool_split :=
  repeat match goal with
  | H : (_ && _) = true |- _ => apply andb_true_iff in H; destruct H
  | H : (_ || _) = false |- _ => apply orb_false_iff in H; destruct H
  | H : negb _ = true |- _ => apply negb_true_iff in H
  | H : negb _ = false |- _ => apply negb_false_iff in H
  end.

(** [bool_prop]: boolean connectives of the hypotheses as propositions. *)
Ltac bool_prop :=
  repeat match goal with
  | H : (_ && _) = true |- _ => apply andb_true_iff in H; destruct H
  | H : (_ || _) = false |- _ => apply orb_false_iff in H; destruct H
  | H : negb _ = true |- _ => apply negb_true_iff in H
  | H : negb _ = false |- _ => apply negb_false_iff in H
  | H : bool_decide _ = true |- _ => apply bool_decide_eq_true in H
  | H : bool_decide _ = false |- _ => apply bool_decide_eq_false in H
  | H : String.eqb _ _ = true |- _ => apply String.eqb_eq in H
  | H : String.eqb _ _ = false |- _ => apply String.eqb_neq in H
  | H : Ascii.eqb _ _ = true |- _ => apply Ascii.eqb_eq in H
  | H : Ascii.eqb _ _ = false |- _ => apply Ascii.eqb_neq in H
  | H : (_ <? _)%Z = true |- _ => apply Z.ltb_lt in H
  | H : (_ <? _)%Z = false |- _ => apply Z.ltb_ge in H
  | H : (_ <=? _)%Z = true |- _ => apply Z.leb_le in H
  | H : (_ <=? _)%Z = false |- _ => apply Z.leb_gt in H
  | H : (_ =? _)%Z = true |- _ => apply Z.eqb_eq in H
  | H : (_ =? _)%Z = false |- _ => apply Z.eqb_neq in H
  | H : (_ <? _)%nat = true |- _ => apply Nat.ltb_lt in H
  | H : (_ <? _)%nat = false |- _ => apply Nat.ltb_ge in H
  | H : (_ <=? _)%nat = true |- _ => apply Nat.leb_le in H
  | H : (_ <=? _)%nat = false |- _ => apply Nat.leb_gt in H
  end.

(** [by_bytes c]: a fact about one byte, by the 256 cases. *)
Ltac by_bytes c :=
  destruct c as [[] [] [] [] [] [] [] []]; vm_compute; try done; try congruence.

(** [div_lia]: linear arithmetic with division and remainder by constants. *)
Ltac div_lia := zify; Z.to_euclidean_division_equations; lia.

(** The Standard Library's filter over a mapped list, and sublists of it. *)
Lemma list_filter_map {A B} (f : A → B) (p : B → bool) l :
  List.filter p (f <$> l) = f <$> List.filter (fun x => p (f x)) l.
Proof.
  induction l as [|x l IH]; [done|]. rewrite fmap_cons. cbn [List.filter].
  destruct (p (f x)); by rewrite ?fmap_cons, IH.
Qed.

Lemma list_filter_sublist {A} (p : A → bool) l : List.filter p l `sublist_of` l.
Proof.
  induction l as [|x l IH]; [done|]. simpl. destruct (p x); [by apply sublist_skip|by apply sublist_cons].
Qed.

Lemma elem_of_list_filter_bool {A} (p : A → bool) l x :
  x ∈ List.filter p l ↔ x ∈ l ∧ p x = true.
Proof. by rewrite !list_elem_of_In, filter_In. Qed.
