(* ===== verification/GoStrings.v ===== *)
(** * Go strings: byte strings and the parts of package strings, strconv and
    unicode that the broker uses.

    A Go string is a sequence of bytes: [String.string], each [ascii] a byte. *)

From S2P Require Import Prelude.

(** ** Byte classes *)

Definition byte_in (lo hi c : ascii) : bool :=
  (N_of_ascii lo <=? N_of_ascii c)%N && (N_of_ascii c <=? N_of_ascii hi)%N.

Definition is_lower (c : ascii) : bool := byte_in "a" "z" c.
Definition is_upper (c : ascii) : bool := byte_in "A" "Z" c.
Definition is_digit (c : ascii) : bool := byte_in "0" "9" c.
Definition is_alnum (c : ascii) : bool := is_lower c || is_upper c || is_digit c.

(** Printable ASCII, the class \x20-\x7E of the source's regular expressions. *)
Definition is_printable (c : ascii) : bool := byte_in " " "~" c.

Definition lf : ascii := "010".
Definition cr : ascii := "013".
Definition dquote : ascii := "034".
Definition backslash : ascii := "092".

(** ** Iterating over the bytes *)

Fixpoint sall (p : ascii → bool) (s : string) : bool :=
  match s with
  | EmptyString => true
  | String c r => p c && sall p r
  end.

Fixpoint sfilter (p : ascii → bool) (s : string) : string :=
  match s with
  | EmptyString => EmptyString
  | String c r => if p c then String c (sfilter p r) else sfilter p r
  end.

Fixpoint smap (f : ascii → ascii) (s : string) : string :=
  match s with
  | EmptyString => EmptyString
  | String c r => String (f c) (smap f r)
  end.

Fixpoint sflat_map (f : ascii → string) (s : string) : string :=
  match s with
  | EmptyString => EmptyString
  | String c r => f c +:+ sflat_map f r
  end.

Fixpoint stake (n : nat) (s : string) : string :=
  match n, s with
  | S n, String c r => String c (stake n r)
  | _, _ => EmptyString
  end.

Fixpoint sdrop (n : nat) (s : string) : string :=
  match n, s with
  | S n, String _ r => sdrop n r
  | _, _ => s
  end.

(** ** strings.Trim, TrimLeft, TrimRight with a byte cutset *)

Fixpoint trim_left (p : ascii → bool) (s : string) : string :=
  match s with
  | EmptyString => EmptyString
  | String c r => if p c then trim_left p r else s
  end.

Fixpoint trim_right (p : ascii → bool) (s : string) : string :=
  match s with
  | EmptyString => EmptyString
  | String c r =>
      match trim_right p r with
      | EmptyString => if p c then EmptyString else String c EmptyString
      | r' => String c r'
      end
  end.

Definition trim (p : ascii → bool) (s : string) : string :=
  trim_right p (trim_left p s).

(** ** unicode.IsSpace and strings.TrimSpace

    The space runes: six in ASCII, and in UTF-8 C2 85, C2 A0, E1 9A 80,
    E2 80 80-8A, E2 80 A8, E2 80 A9, E2 80 AF, E2 81 9F, E3 80 80. *)

Definition ascii_space (c : ascii) : bool := Ascii.eqb c " " || byte_in "009" "013" c.

(** The text after a leading space rune, when there is one. *)
Definition after_space (s : string) : option string :=
  match s with
  | EmptyString => None
  | String c r =>
      if ascii_space c then Some r
      else match r with
           | EmptyString => None
           | String d r =>
               if Ascii.eqb c "194" && (Ascii.eqb d "133" || Ascii.eqb d "160") then Some r
               else match r with
                    | EmptyString => None
                    | String e r =>
                        if (Ascii.eqb c "225" && Ascii.eqb d "154" && Ascii.eqb e "128")
                           || (Ascii.eqb c "226" && Ascii.eqb d "128"
                               && (byte_in "128" "138" e || Ascii.eqb e "168"
                                   || Ascii.eqb e "169" || Ascii.eqb e "175"))
                           || (Ascii.eqb c "226" && Ascii.eqb d "129" && Ascii.eqb e "159")
                           || (Ascii.eqb c "227" && Ascii.eqb d "128" && Ascii.eqb e "128")
                        then Some r else None
                    end
           end
  end.

(** Leading space runes removed; the first argument bounds their number. *)
Fixpoint skip_spaces (n : nat) (s : string) : string :=
  match n with
  | O => s
  | S n => match after_space s with Some r => skip_spaces n r | None => s end
  end.

Definition trim_left_space (s : string) : string := skip_spaces (String.length s) s.

(** The text without the longest suffix made of space runes only. *)
Fixpoint trim_right_space (s : string) : string :=
  if String.eqb (trim_left_space s) "" then EmptyString
  else match s with
       | EmptyString => EmptyString
       | String c r => String c (trim_right_space r)
       end.

Definition TrimSpace (s : string) : string := trim_right_space (trim_left_space s).

(** ** strings.Split and strings.Cut at one byte, strings.Join,
    strings.ReplaceAll of one byte, strings.Index *)

Fixpoint split_on (c : ascii) (s : string) : list string :=
  match s with
  | EmptyString => [EmptyString]
  | String a r =>
      if Ascii.eqb a c then EmptyString :: split_on c r
      else match split_on c r with
           | [] => [String a EmptyString]
           | p :: ps => String a p :: ps
           end
  end.

(** The text before the first [c] (all of it when there is none). *)
Fixpoint before (c : ascii) (s : string) : string :=
  match s with
  | EmptyString => EmptyString
  | String a r => if Ascii.eqb a c then EmptyString else String a (before c r)
  end.

Fixpoint join (sep : string) (l : list string) : string :=
  match l with
  | [] => EmptyString
  | [x] => x
  | x :: r => x +:+ sep +:+ join sep r
  end.

Definition replace_byte (c : ascii) (by_ : string) (s : string) : string :=
  sflat_map (fun a => if Ascii.eqb a c then by_ else String a EmptyString) s.

(** strings.Cut at a separator: the text before its first occurrence and the text
    after it. *)
Fixpoint cut (sep s : string) : option (string * string) :=
  if String.prefix sep s then Some (EmptyString, sdrop (String.length sep) s)
  else match s with
       | EmptyString => None
       | String a r =>
           match cut sep r with
           | Some (x, y) => Some (String a x, y)
           | None => None
           end
       end.

(** strings.Index: the suffix of [s] that starts at the first occurrence of
    [sub], with its position. *)
Fixpoint find_from (sub s : string) : option string :=
  if String.prefix sub s then Some s
  else match s with
       | EmptyString => None
       | String _ r => find_from sub r
       end.

(** ** strings.ToLower

    The simple case mapping of the bytes A-Z, and of the two non-ASCII letters
    whose lower case is ASCII: U+0130 (C4 B0) to i and U+212A (E2 84 AA) to k.
    The other non-ASCII letters keep their bytes here: their lower case is
    non-ASCII too, and both callers delete every non-ASCII byte of the result. *)

Definition lower_byte (c : ascii) : ascii :=
  if is_upper c then ascii_of_N (N_of_ascii c + 32) else c.

Fixpoint ToLower (s : string) : string :=
  match s with
  | EmptyString => EmptyString
  | String c r =>
      match r with
      | String d r1 =>
          if Ascii.eqb c "196" && Ascii.eqb d "176" then String "i" (ToLower r1)
          else match r1 with
               | String e r2 =>
                   if Ascii.eqb c "226" && Ascii.eqb d "132" && Ascii.eqb e "170"
                   then String "k" (ToLower r2)
                   else String (lower_byte c) (ToLower r)
               | EmptyString => String (lower_byte c) (ToLower r)
               end
      | EmptyString => String (lower_byte c) EmptyString
      end
  end.

(** ** strconv.Atoi (a 64-bit int) and Itoa *)

Definition min_int64 : Z := - 2 ^ 63.
Definition max_int64 : Z := 2 ^ 63 - 1.
Definition in_int64 (z : Z) : bool := (min_int64 <=? z)%Z && (z <=? max_int64)%Z.

Definition digit_val (c : ascii) : Z := Z.of_N (N_of_ascii c) - 48.

Fixpoint digits_val (acc : Z) (s : string) : option Z :=
  match s with
  | EmptyString => Some acc
  | String c r => if is_digit c then digits_val (acc * 10 + digit_val c) r else None
  end.

(** The sign and the digits that follow it. *)
Definition cut_sign (s : string) : bool * string :=
  match s with
  | String "-" r => (true, r)
  | String "+" r => (false, r)
  | _ => (false, s)
  end.

Definition Atoi (s : string) : option Z :=
  let '(neg, body) := cut_sign s in
  if String.eqb body "" then None
  else match digits_val 0 body with
       | None => None
       | Some n =>
           let v := if neg then (- n)%Z else n in
           if in_int64 v then Some v else None
       end.

(** Why Atoi fails: a text of digits that exceeds 64 bits is out of range, also when
    something else follows. *)
Fixpoint too_large (acc : Z) (s : string) : bool :=
  match s with
  | EmptyString => true
  | String c r =>
      if is_digit c then
        let n := (acc * 10 + digit_val c)%Z in
        if (2 ^ 64 - 1 <? n)%Z then true else too_large n r
      else false
  end.

Definition Atoi_reason (s : string) : string :=
  let '(_, body) := cut_sign s in
  if negb (String.eqb body "") && too_large 0 body then "value out of range" else "invalid syntax".

Definition Itoa (z : Z) : string := pretty z.

(** * Lemmas *)

Lemma string_ind_length (P : string → Prop) :
  (∀ s, (∀ t, (String.length t < String.length s)%nat → P t) → P s) → ∀ s, P s.
Proof.
  intros H s. remember (String.length s) as n eqn:E. revert s E.
  induction (lt_wf n) as [n _ IH]. intros s ->. apply H. eauto.
Qed.

Lemma app_nil_r_s s : s +:+ "" = s.
Proof. induction s; simpl; congruence. Qed.

Lemma app_assoc_s s t u : s +:+ (t +:+ u) = (s +:+ t) +:+ u.
Proof. induction s; simpl; congruence. Qed.

Lemma length_app_s s t : String.length (s +:+ t) = (String.length s + String.length t)%nat.
Proof. induction s; simpl; congruence. Qed.

Lemma app_inj_suffix s1 s2 t1 t2 :
  String.length t1 = String.length t2 → s1 +:+ t1 = s2 +:+ t2 → t1 = t2.
Proof.
  intros Hl. revert s2. induction s1 as [|c s1 IH]; intros [|d s2] E; simpl in *.
  - done.
  - apply (f_equal String.length) in E. simpl in E. rewrite length_app_s in E. lia.
  - apply (f_equal String.length) in E. simpl in E. rewrite length_app_s in E. lia.
  - injection E. intros. eapply IH. done.
Qed.

(** ** sall *)

Lemma sall_app p s t : sall p (s +:+ t) = sall p s && sall p t.
Proof. induction s; simpl; [done|]. rewrite IHs. by destruct (p a). Qed.

Lemma sall_impl (p q : ascii → bool) s :
  (∀ c, p c = true → q c = true) → sall p s = true → sall q s = true.
Proof.
  intros Hpq. induction s; simpl; [done|]. intros. bool_split.
  rewrite Hpq by done. auto.
Qed.

Lemma sall_sfilter_self p s : sall p (sfilter p s) = true.
Proof. induction s; simpl; [done|]. destruct (p a) eqn:E; simpl; rewrite ?E; done. Qed.

Lemma sall_sfilter p q s : sall p s = true → sall p (sfilter q s) = true.
Proof.
  induction s; simpl; [done|]. intros. bool_split.
  destruct (q a); simpl; rewrite ?H; auto.
Qed.

Lemma sfilter_id p s : sall p s = true → sfilter p s = s.
Proof. induction s; simpl; [done|]. intros. bool_split. rewrite H. f_equal. auto. Qed.

Lemma sfilter_app p s t : sfilter p (s +:+ t) = sfilter p s +:+ sfilter p t.
Proof. induction s; simpl; [done|]. rewrite IHs. by destruct (p a). Qed.

Lemma sfilter_length p s : (String.length (sfilter p s) ≤ String.length s)%nat.
Proof. induction s; simpl; [lia|]. destruct (p a); simpl; lia. Qed.

Lemma sall_smap p f s : (∀ c, p c = true → p (f c) = true) →
  sall p s = true → sall p (smap f s) = true.
Proof.
  intros Hf. induction s; simpl; [done|]. intros. bool_split. rewrite Hf; auto.
Qed.

Lemma smap_id f s : sall (fun c => Ascii.eqb (f c) c) s = true → smap f s = s.
Proof. induction s; simpl; [done|]. intros. bool_prop. rewrite H. f_equal. auto. Qed.

Lemma smap_length f s : String.length (smap f s) = String.length s.
Proof. induction s; simpl; congruence. Qed.

Lemma sall_sflat_map p q f s :
  (∀ c, q c = true → sall p (f c) = true) → sall q s = true →
  sall p (sflat_map f s) = true.
Proof.
  intros Hf. induction s; simpl; [done|]. intros. bool_split.
  rewrite sall_app, Hf by done. auto.
Qed.

Lemma sflat_map_app f s t : sflat_map f (s +:+ t) = sflat_map f s +:+ sflat_map f t.
Proof. induction s; simpl; [done|]. by rewrite IHs, app_assoc_s. Qed.

Lemma sflat_map_singleton f s :
  sall (fun c => String.eqb (f c) (String c "")) s = true → sflat_map f s = s.
Proof. induction s; simpl; [done|]. intros. bool_prop. rewrite H. simpl. f_equal. auto. Qed.

(** ** Taking and trimming *)

Lemma stake_length n s : String.length (stake n s) = Nat.min n (String.length s).
Proof. revert s. induction n; intros [|c s]; simpl; auto. Qed.

Lemma stake_sdrop n s : stake n s +:+ sdrop n s = s.
Proof. revert s. induction n; intros [|c s]; simpl; auto. by rewrite IHn. Qed.

Lemma sdrop_app s t : sdrop (String.length s) (s +:+ t) = t.
Proof. by induction s. Qed.

Lemma stake_all n s : (String.length s ≤ n)%nat → stake n s = s.
Proof. revert s. induction n; intros [|c s]; simpl; auto; try lia. intros. f_equal. apply IHn. lia. Qed.

Lemma sall_stake p n s : sall p s = true → sall p (stake n s) = true.
Proof.
  revert s. induction n; intros [|c s]; simpl; auto. intros. bool_split.
  rewrite H. simpl. auto.
Qed.

Lemma sall_sdrop p n s : sall p s = true → sall p (sdrop n s) = true.
Proof.
  revert s. induction n as [|n IH]; intros [|c s]; try done. cbn [sall sdrop].
  intros [_ H]%andb_true_iff. by apply IH.
Qed.

Lemma sall_trim_left p q s : sall p s = true → sall p (trim_left q s) = true.
Proof.
  induction s; simpl; [done|]. intros. bool_split.
  destruct (q a); simpl; rewrite ?H; auto.
Qed.

Lemma sall_trim_right p q s : sall p s = true → sall p (trim_right q s) = true.
Proof.
  induction s; simpl; [done|]. intros. bool_split. specialize (IHs H0).
  destruct (trim_right q s); [destruct (q a)|]; simpl in *; rewrite ?H; auto.
Qed.

Lemma sall_trim p q s : sall p s = true → sall p (trim q s) = true.
Proof. intros. by apply sall_trim_right, sall_trim_left. Qed.

Lemma trim_right_length q s : (String.length (trim_right q s) ≤ String.length s)%nat.
Proof. induction s; simpl; [lia|]. destruct (trim_right q s); [destruct (q a)|]; simpl in *; lia. Qed.

Lemma trim_left_length q s : (String.length (trim_left q s) ≤ String.length s)%nat.
Proof. induction s; simpl; [lia|]. destruct (q a); simpl in *; lia. Qed.

Lemma trim_length q s : (String.length (trim q s) ≤ String.length s)%nat.
Proof. unfold trim. pose proof (trim_right_length q (trim_left q s)). pose proof (trim_left_length q s). lia. Qed.

(** First and last byte. *)
Definition head_ok (p : ascii → bool) (s : string) : bool :=
  match s with EmptyString => true | String c _ => p c end.

Fixpoint last_ok (p : ascii → bool) (s : string) : bool :=
  match s with
  | EmptyString => true
  | String c EmptyString => p c
  | String _ r => last_ok p r
  end.

Lemma head_ok_trim_left q s : head_ok (fun c => negb (q c)) (trim_left q s) = true.
Proof. induction s; simpl; [done|]. destruct (q a) eqn:E; simpl; rewrite ?E; done. Qed.

Lemma last_ok_trim_right q s : last_ok (fun c => negb (q c)) (trim_right q s) = true.
Proof.
  induction s; simpl; [done|].
  destruct (trim_right q s); [destruct (q a) eqn:E|]; simpl in *; rewrite ?E; done.
Qed.

Lemma head_ok_trim_right p q s : head_ok p s = true → head_ok p (trim_right q s) = true.
Proof. destruct s; simpl; [done|]. destruct (trim_right q s); [destruct (q a)|]; done. Qed.

Lemma trim_right_id q s : last_ok (fun c => negb (q c)) s = true → trim_right q s = s.
Proof.
  induction s; simpl; [done|]. destruct s; simpl in *.
  - intros. bool_split. by rewrite H.
  - intros. by rewrite IHs.
Qed.

Lemma trim_left_id q s : head_ok (fun c => negb (q c)) s = true → trim_left q s = s.
Proof. destruct s; simpl; [done|]. intros. bool_split. by rewrite H. Qed.

Lemma trim_right_nonempty q s c :
  head_ok (fun c => negb (q c)) (String c s) = true → trim_right q (String c s) ≠ "".
Proof. simpl. intros. bool_split. rewrite H. by destruct (trim_right q s). Qed.

Lemma last_ok_app p s t : t ≠ "" → last_ok p (s +:+ t) = last_ok p t.
Proof.
  intros Ht. induction s; simpl; [done|].
  destruct (s +:+ t) eqn:E; [|done]. destruct s; simpl in *; subst; done.
Qed.

(** ** Splitting *)

Lemma split_on_nonempty c s : split_on c s ≠ [].
Proof. destruct s; simpl; [done|]. destruct (Ascii.eqb a c); [done|]. by destruct (split_on c s). Qed.

Lemma join_cons sep x l : l ≠ [] → join sep (x :: l) = x +:+ sep +:+ join sep l.
Proof. by destruct l. Qed.

Lemma join_split_on c s : join (String c "") (split_on c s) = s.
Proof.
  induction s; simpl; [done|]. destruct (Ascii.eqb a c) eqn:E.
  - apply Ascii.eqb_eq in E. subst. rewrite join_cons by apply split_on_nonempty. by rewrite IHs.
  - pose proof (split_on_nonempty c s). destruct (split_on c s) as [|x l]; [done|].
    destruct l; simpl in *; by rewrite <- IHs.
Qed.

Lemma split_on_none c s : sall (fun a => negb (Ascii.eqb a c)) s = true → split_on c s = [s].
Proof. induction s; simpl; [done|]. intros. bool_split. rewrite H, IHs; done. Qed.

Lemma split_on_app c s t :
  sall (fun a => negb (Ascii.eqb a c)) s = true →
  split_on c (s +:+ String c t) = s :: split_on c t.
Proof.
  induction s; simpl; [by rewrite Ascii.eqb_refl|]. intros. bool_split.
  rewrite H, IHs; done.
Qed.

Lemma split_on_join c l :
  l ≠ [] → Forall (fun x => sall (fun a => negb (Ascii.eqb a c)) x = true) l →
  split_on c (join (String c "") l) = l.
Proof.
  intros Hl HF. induction HF as [|x l Hx HF IH]; [done|].
  destruct l as [|y l]; [by apply split_on_none|].
  rewrite join_cons by done. change (String c "" +:+ ?t) with (String c t).
  by rewrite split_on_app, IH.
Qed.

Lemma split_on_sep_free c s :
  Forall (fun x => sall (fun a => negb (Ascii.eqb a c)) x = true) (split_on c s).
Proof.
  induction s as [|a s IH]; simpl; [by repeat constructor|].
  destruct (Ascii.eqb a c) eqn:E; [by constructor|].
  destruct (split_on c s) as [|x l]; [|apply Forall_cons in IH as [Hx Hl]];
    apply Forall_cons; simpl; rewrite E; auto.
Qed.

(** Every piece is free of the separator, and every byte of a piece comes from
    the input. *)
Lemma split_on_sall p c s :
  sall p s = true → Forall (fun x => sall p x = true) (split_on c s).
Proof.
  induction s; simpl; [by repeat constructor|]. intros. bool_split. specialize (IHs H0).
  destruct (Ascii.eqb a c); [by constructor|].
  destruct (split_on c s); inv IHs; repeat constructor; simpl; rewrite ?H; auto.
Qed.

Lemma before_split c s : before c s = default "" (head (split_on c s)).
Proof.
  induction s; simpl; [done|]. destruct (Ascii.eqb a c); [done|].
  rewrite IHs. pose proof (split_on_nonempty c s). by destruct (split_on c s).
Qed.

Lemma sall_before p c s : sall p s = true → sall p (before c s) = true.
Proof.
  induction s; simpl; [done|]. intros. bool_split.
  destruct (Ascii.eqb a c); simpl; rewrite ?H; auto.
Qed.

Lemma before_none c s : sall (fun a => negb (Ascii.eqb a c)) s = true → before c s = s.
Proof. induction s; simpl; [done|]. intros. bool_split. rewrite H. f_equal. auto. Qed.

Lemma before_app c s t :
  sall (fun a => negb (Ascii.eqb a c)) s = true → before c (s +:+ String c t) = s.
Proof. induction s; simpl; [by rewrite Ascii.eqb_refl|]. intros. bool_split. rewrite H. f_equal. auto. Qed.

(** ** Byte classes, by cases on the byte *)

Lemma lower_byte_not_upper c : is_upper (lower_byte c) = false.
Proof. by_bytes c. Qed.

Lemma lower_byte_id c : is_upper c = false → lower_byte c = c.
Proof. unfold lower_byte. by intros ->. Qed.

(** ToLower on ASCII text is bytewise, and it leaves no capital letter. *)
Definition is_ascii (c : ascii) : bool := (N_of_ascii c <? 128)%N.

Lemma ToLower_cons c r :
  ToLower (String c r) = String (lower_byte c) (ToLower r) ∨
  (∃ a t, ToLower (String c r) = String a (ToLower t) ∧ (a = "i" ∨ a = "k")%char ∧
     (String.length t < String.length r)%nat ∧ is_ascii c = false).
Proof.
  destruct r as [|d r1]; [by left|].
  assert (Hc : ∀ b, is_ascii b = false → Ascii.eqb c b = true → is_ascii c = false).
  { intros b Hb E. apply Ascii.eqb_eq in E. by subst. }
  cbn -[Ascii.eqb lower_byte ascii_of_N].
  destruct (Ascii.eqb c "196" && Ascii.eqb d "176") eqn:E.
  - right. apply andb_true_iff in E as [E _]. exists "i"%char, r1.
    split_and!; [done|by left|simpl; lia|by apply (Hc "196"%char)].
  - destruct r1 as [|e r2]; [by left|].
    destruct (Ascii.eqb c "226" && Ascii.eqb d "132" && Ascii.eqb e "170") eqn:E'; [|by left].
    right. bool_split. exists "k"%char, r2.
    split_and!; [done|by right|simpl; lia|by apply (Hc "226"%char)].
Qed.

Lemma ToLower_no_upper s : sall (fun c => negb (is_upper c)) (ToLower s) = true.
Proof.
  induction s as [[|c r] IH] using string_ind_length; [done|].
  destruct (ToLower_cons c r) as [->|(a & t & -> & Ha & Ht & _)]; simpl.
  - rewrite lower_byte_not_upper. apply IH. simpl. lia.
  - rewrite IH by (simpl; lia). by destruct Ha as [-> | ->].
Qed.

Lemma ToLower_ascii s : sall is_ascii s = true → ToLower s = smap lower_byte s.
Proof.
  induction s as [|c r IH]; [done|]. simpl sall. intros. bool_split.
  destruct (ToLower_cons c r) as [->|(a & t & _ & _ & _ & Hc)]; [|congruence].
  simpl. f_equal. auto.
Qed.

Lemma ToLower_id s : sall (fun c => is_ascii c && negb (is_upper c)) s = true → ToLower s = s.
Proof.
  intros H. rewrite ToLower_ascii.
  - apply smap_id. eapply sall_impl, H. cbn beta. intros c Hc. bool_split.
    rewrite lower_byte_id by done. by apply Ascii.eqb_eq.
  - eapply sall_impl, H. cbn beta. intros c Hc. by bool_split.
Qed.

(** ** Atoi is a left inverse of Itoa on 64-bit integers *)

Lemma digit_char (x : N) : (x < 10)%N →
  is_digit (pretty_N_char x) = true ∧ digit_val (pretty_N_char x) = Z.of_N x.
Proof.
  intros. assert (x = 0 ∨ x = 1 ∨ x = 2 ∨ x = 3 ∨ x = 4 ∨ x = 5 ∨ x = 6 ∨ x = 7
    ∨ x = 8 ∨ x = 9)%N as Hx by lia. by destruct Hx as [->|[->|[->|[->|[->|[->|[->|[->|[->| ->]]]]]]]]].
Qed.

Lemma pretty_N_go_digits x s : sall is_digit s = true → sall is_digit (pretty_N_go x s) = true.
Proof.
  revert s. induction (N.lt_wf_0 x) as [x _ IH]. intros s Hs.
  destruct (decide (0 < x)%N) as [Hx|Hx].
  - rewrite pretty_N_go_step by done. apply IH; [apply N.div_lt; lia|]. simpl.
    rewrite (proj1 (digit_char (x mod 10) ltac:(apply N.mod_lt; lia))). done.
  - replace x with 0%N by lia. done.
Qed.

Lemma pretty_N_digits (x : N) : sall is_digit (pretty x) = true.
Proof. unfold pretty, pretty_N. case_decide; [done|]. by apply pretty_N_go_digits. Qed.

Lemma pretty_N_go_nonempty x s : s ≠ "" → pretty_N_go x s ≠ "".
Proof.
  revert s. induction (N.lt_wf_0 x) as [x _ IH]. intros s Hs.
  destruct (decide (0 < x)%N) as [Hx|Hx].
  - rewrite pretty_N_go_step by done. apply IH; [apply N.div_lt; lia|done].
  - replace x with 0%N by lia. done.
Qed.

Lemma pretty_N_nonempty (x : N) : pretty x ≠ "".
Proof.
  unfold pretty, pretty_N. case_decide; [done|].
  rewrite pretty_N_go_step by lia. by apply pretty_N_go_nonempty.
Qed.

Lemma digits_val_go x s : digits_val 0 (pretty_N_go x s) = digits_val (Z.of_N x) s.
Proof.
  revert s. induction (N.lt_wf_0 x) as [x _ IH]. intros s.
  destruct (decide (0 < x)%N) as [Hx|Hx].
  - rewrite pretty_N_go_step by done. rewrite IH by (apply N.div_lt; lia). simpl.
    destruct (digit_char (x mod 10)) as [-> ->]; [apply N.mod_lt; lia|].
    f_equal. pose proof (N.div_mod x 10 ltac:(lia)). lia.
  - replace x with 0%N by lia. done.
Qed.

Lemma digits_val_pretty (x : N) : digits_val 0 (pretty x) = Some (Z.of_N x).
Proof.
  unfold pretty, pretty_N. case_decide as E; [by subst|]. by rewrite digits_val_go.
Qed.

Lemma cut_sign_digits s : sall is_digit s = true → cut_sign s = (false, s).
Proof. destruct s as [|c s]; [done|]. simpl sall. intros. bool_split. revert H. clear. by_bytes c. Qed.

Lemma Itoa_nonneg (z : Z) : (0 ≤ z)%Z → Itoa z = pretty (Z.to_N z).
Proof. by destruct z. Qed.

Lemma Itoa_neg (z : Z) : (z < 0)%Z → Itoa z = String "-" (pretty (Z.to_N (- z))).
Proof. by destruct z. Qed.

Lemma Itoa_nonempty z : Itoa z ≠ "".
Proof.
  destruct (decide (0 ≤ z)%Z); [rewrite Itoa_nonneg by done; apply pretty_N_nonempty|].
  by rewrite Itoa_neg by lia.
Qed.

Lemma Atoi_Itoa z : in_int64 z = true → Atoi (Itoa z) = Some z.
Proof.
  intros Hz. unfold Atoi. destruct (decide (0 ≤ z)%Z) as [Hp|Hp].
  - rewrite Itoa_nonneg by done. rewrite cut_sign_digits by apply pretty_N_digits.
    rewrite (proj2 (String.eqb_neq _ _)) by apply pretty_N_nonempty.
    rewrite digits_val_pretty, Z2N.id by done. by rewrite Hz.
  - rewrite Itoa_neg by lia. simpl.
    rewrite (proj2 (String.eqb_neq _ _)) by apply pretty_N_nonempty.
    rewrite digits_val_pretty, Z2N.id, Z.opp_involutive by lia. by rewrite Hz.
Qed.

(** A number never contains a byte that is neither a digit nor a minus sign. *)
Lemma Itoa_sall (p : ascii → bool) z :
  p "-"%char = true → (∀ c, is_digit c = true → p c = true) → sall p (Itoa z) = true.
Proof.
  intros Hd Hp. destruct (decide (0 ≤ z)%Z).
  - rewrite Itoa_nonneg by done. eapply sall_impl, pretty_N_digits. auto.
  - rewrite Itoa_neg by lia. simpl. rewrite Hd. eapply sall_impl, pretty_N_digits. auto.
Qed.

Lemma Itoa_nonneg_digits z : (0 ≤ z)%Z → sall is_digit (Itoa z) = true.
Proof. intros. rewrite Itoa_nonneg by done. apply pretty_N_digits. Qed.
