(* ===== verification/Json.v ===== *)
(** * Package encoding/json: values, texts, and reading texts back

    UTF-8 as package unicode/utf8 reads it; the string literals [Marshal] writes
    and [Unmarshal] reads; a printer for compact and indented texts; the scanner
    and the decoder as one parser; at the end the decoding of fields into Go
    structs. The facts about them are in JsonFacts. *)

From S2P Require Import Prelude GoStrings.

(** ** UTF-8 *)

Definition ascii_between (lo hi : N) (c : ascii) : bool :=
  (lo <=? N_of_ascii c)%N && (N_of_ascii c <=? hi)%N.

Definition continuation : ascii → bool := ascii_between 128 191.

(** The second byte a three-byte or four-byte sequence may have after the first. *)
Definition second_byte (a b : ascii) : bool :=
  let x := N_of_ascii a in
  ascii_between (if (x =? 224)%N then 160 else if (x =? 240)%N then 144 else 128)
    (if (x =? 237)%N then 159 else if (x =? 244)%N then 143 else 191) b.

(** The length of the multi-byte sequence at the head of a string; 0: there is none,
    and the first byte, if not ASCII, is an encoding error of width one. *)
Definition rune_len (s : string) : nat :=
  match s with
  | String a (String b r) =>
      if ascii_between 194 223 a then if continuation b then 2 else 0
      else match r with
      | String c r =>
          if ascii_between 224 239 a then if second_byte a b && continuation c then 3 else 0
          else match r with
          | String d _ =>
              if ascii_between 240 244 a && second_byte a b && continuation c && continuation d then 4 else 0
          | EmptyString => 0
          end
      | EmptyString => 0
      end
  | _ => 0
  end.

Definition bits (c : ascii) (m : N) : N := (N_of_ascii c mod m)%N.

(** The code points of a text, U+FFFD for every encoding error; [k] bytes of a
    sequence are still to come and [acc] holds the bits read so far. *)
Fixpoint runes_go (k : nat) (acc : N) (s : string) : list N :=
  match s with
  | EmptyString => []
  | String c r =>
      match k with
      | S O => (acc * 64 + bits c 64)%N :: runes_go 0 0 r
      | S k => runes_go k (acc * 64 + bits c 64) r
      | O =>
          if is_ascii c then N_of_ascii c :: runes_go 0 0 r
          else match rune_len s with
               | 2 => runes_go 1 (bits c 32) r
               | 3 => runes_go 2 (bits c 16) r
               | 4 => runes_go 3 (bits c 8) r
               | _ => 65533%N :: runes_go 0 0 r
               end
      end
  end.

Definition runes (s : string) : list N := runes_go 0 0 s.

(** U+FFFD, the replacement character. *)
Definition rune_error : string := String "239" (String "191" (String "189" "")).

(** The text with every encoding error replaced; [k] bytes of a sequence are still
    to be copied. *)
Fixpoint to_utf8 (k : nat) (s : string) : string :=
  match s with
  | EmptyString => EmptyString
  | String c r =>
      match k with
      | S k => String c (to_utf8 k r)
      | O =>
          if is_ascii c then String c (to_utf8 0 r)
          else match rune_len s with
               | S k => String c (to_utf8 k r)
               | O => rune_error +:+ to_utf8 0 r
               end
      end
  end.

Definition sanitize_utf8 (s : string) : string := to_utf8 0 s.

Definition valid_utf8 (s : string) : bool := String.eqb (sanitize_utf8 s) s.

(** ** Writing string literals *)

Definition hex_digit (n : N) : ascii :=
  match String.get (N.to_nat n) "0123456789abcdef" with Some c => c | None => "0" end%char.

(** One ASCII byte; angle brackets and the ampersand are escaped for HTML. *)
Definition escape_byte (c : ascii) : string :=
  if Ascii.eqb c dquote then String backslash (String dquote "")
  else if Ascii.eqb c backslash then String backslash (String backslash "")
  else if Ascii.eqb c "008" then String backslash "b"
  else if Ascii.eqb c "012" then String backslash "f"
  else if Ascii.eqb c lf then String backslash "n"
  else if Ascii.eqb c cr then String backslash "r"
  else if Ascii.eqb c "009" then String backslash "t"
  else if (N_of_ascii c <? 32)%N || Ascii.eqb c "<" || Ascii.eqb c ">" || Ascii.eqb c "&" then
    String backslash ("u00" +:+
      String (hex_digit (N_of_ascii c / 16)) (String (hex_digit (N_of_ascii c mod 16)) ""))
  else String c "".

(** U+2028 and U+2029 end lines in JavaScript and are escaped. *)
Definition line_separator (s : string) : option string :=
  match s with
  | String a (String b (String c _)) =>
      if Ascii.eqb a "226" && Ascii.eqb b "128" then
        if Ascii.eqb c "168" then Some (String backslash "u2028")
        else if Ascii.eqb c "169" then Some (String backslash "u2029") else None
      else None
  | _ => None
  end.

(** The inside of a literal; [k] bytes are still to be copied, or skipped. *)
Fixpoint quote_go (copy : bool) (k : nat) (s : string) : string :=
  match s with
  | EmptyString => EmptyString
  | String c r =>
      match k with
      | S k => if copy then String c (quote_go copy k r) else quote_go copy k r
      | O =>
          if is_ascii c then escape_byte c +:+ quote_go true 0 r
          else match rune_len s with
               | S k =>
                   match line_separator s with
                   | Some e => e +:+ quote_go false k r
                   | None => String c (quote_go true k r)
                   end
               | O => String backslash ("ufffd" +:+ quote_go true 0 r)
               end
      end
  end.

Definition quote (s : string) : string :=
  String dquote (quote_go true 0 s +:+ String dquote "").

(** ** Reading string literals *)

Definition hex_val (c : ascii) : option N :=
  let n := N_of_ascii c in
  if is_digit c then Some (n - 48)%N
  else if byte_in "a" "f" c then Some (n - 87)%N
  else if byte_in "A" "F" c then Some (n - 55)%N
  else None.

(** Four hexadecimal digits, and what follows them. *)
Definition hex4 (s : string) : option (N * string) :=
  match s with
  | String a (String b (String c (String d r))) =>
      a ← hex_val a; b ← hex_val b; c ← hex_val c; d ← hex_val d;
      Some (a * 4096 + b * 256 + c * 16 + d, r)%N
  | _ => None
  end.

(** utf8.AppendRune of a code point that is no surrogate. *)
Definition encode_rune (n : N) : string :=
  let c x := ascii_of_N x in
  if (n <? 128)%N then String (c n) ""
  else if (n <? 2048)%N then String (c (192 + n / 64)%N) (String (c (128 + n mod 64)%N) "")
  else if (n <? 65536)%N then
    String (c (224 + n / 4096)%N) (String (c (128 + n / 64 mod 64)%N) (String (c (128 + n mod 64)%N) ""))
  else
    String (c (240 + n / 262144)%N) (String (c (128 + n / 4096 mod 64)%N)
      (String (c (128 + n / 64 mod 64)%N) (String (c (128 + n mod 64)%N) ""))).

Definition in_range (lo hi n : N) : bool := (lo <=? n)%N && (n <=? hi)%N.

(** What follows a backslash: the text it stands for and the bytes it takes. A pair
    of surrogates is one code point, a lone surrogate the replacement character. *)
Definition escape (s : string) : option (string * nat) :=
  match s with
  | String "u" r =>
      '(n, r) ← hex4 r;
      if in_range 55296 57343 n then
        Some (match r with
              | String "\" (String "u" r) =>
                  match hex4 r with
                  | Some (m, _) =>
                      if in_range 55296 56319 n && in_range 56320 57343 m then
                        (encode_rune (65536 + (n - 55296) * 1024 + (m - 56320)), 11)
                      else (rune_error, 5)
                  | None => (rune_error, 5)
                  end
              | _ => (rune_error, 5)
              end)
      else Some (encode_rune n, 5)
  | String c _ =>
      if Ascii.eqb c dquote then Some (String dquote "", 1)
      else if Ascii.eqb c "\" then Some ("\", 1)
      else if Ascii.eqb c "/" then Some ("/", 1)
      else if Ascii.eqb c "b" then Some (String "008" "", 1)
      else if Ascii.eqb c "f" then Some (String "012" "", 1)
      else if Ascii.eqb c "n" then Some (String lf "", 1)
      else if Ascii.eqb c "r" then Some (String cr "", 1)
      else if Ascii.eqb c "t" then Some (String "009" "", 1)
      else None
  | EmptyString => None
  end.

Definition prepend (t : string) (r : option (string * string)) : option (string * string) :=
  (fun p => (t +:+ p.1, p.2)) <$> r.

(** The rest of a literal after its opening quote: its value and what follows. *)
Fixpoint read_string (copy : bool) (k : nat) (s : string) : option (string * string) :=
  match s with
  | EmptyString => None
  | String c r =>
      match k with
      | S k => if copy then prepend (String c "") (read_string copy k r) else read_string copy k r
      | O =>
          if Ascii.eqb c dquote then Some ("", r)
          else if Ascii.eqb c backslash then
            match escape r with
            | Some (t, n) => prepend t (read_string false n r)
            | None => None
            end
          else if (N_of_ascii c <? 32)%N then None
          else if is_ascii c then prepend (String c "") (read_string true 0 r)
          else match rune_len s with
               | S k => prepend (String c "") (read_string true k r)
               | O => prepend rune_error (read_string true 0 r)
               end
      end
  end.

(** ** Values *)

Inductive json : Type :=
| JNull
| JBool (b : bool)
| JNum (lit : string)
| JStr (s : string)
| JArr (l : list json)
| JObj (fields : list (string * json)).

(** ** Writing values

    [nl d] is what starts a line at depth [d], [colon] what follows a key: both
    blank apart from the colon itself. *)

Section Print.
Context (nl : nat → string) (colon : string).

Definition enclose (opening closing : string) (d : nat) (items : list string) : string :=
  match items with
  | [] => opening +:+ closing
  | _ => opening +:+ nl (S d) +:+ join ("," +:+ nl (S d)) items +:+ nl d +:+ closing
  end.

Fixpoint print (d : nat) (j : json) : string :=
  match j with
  | JNull => "null"
  | JBool b => if b then "true" else "false"
  | JNum lit => lit
  | JStr s => quote s
  | JArr l => enclose "[" "]" d (map (print (S d)) l)
  | JObj fs => enclose "{" "}" d
      (map (fun kv : string * json => let (k, v) := kv in quote k +:+ colon +:+ print (S d) v) fs)
  end.
End Print.

Definition Marshal (j : json) : string := print (fun _ => "") ":" 0 j.

Fixpoint spaces (n : nat) : string :=
  match n with O => "" | S n => String " " (spaces n) end.

(** MarshalIndent without prefix, indenting by two spaces. *)
Definition MarshalIndent (j : json) : string :=
  print (fun d => String lf (spaces (2 * d))) ": " 0 j.

(** ** Reading values *)

Definition is_ws (c : ascii) : bool :=
  Ascii.eqb c " " || Ascii.eqb c "009" || Ascii.eqb c lf || Ascii.eqb c cr.

Definition skip_ws (s : string) : string := trim_left is_ws s.

(** The next byte after blanks is [c]: what follows it. *)
Definition expect (c : ascii) (s : string) : option string :=
  match skip_ws s with
  | String a r => if Ascii.eqb a c then Some r else None
  | EmptyString => None
  end.

Fixpoint span (p : ascii → bool) (s : string) : string * string :=
  match s with
  | String c r => if p c then let (a, b) := span p r in (String c a, b) else ("", s)
  | EmptyString => ("", "")
  end.

(** One digit at least. *)
Definition digits1 (s : string) : option (string * string) :=
  let (a, b) := span is_digit s in if String.eqb a "" then None else Some (a, b).

Definition sign_part (minus_only : bool) (s : string) : string * string :=
  match s with
  | String c r =>
      if Ascii.eqb c "-" || (negb minus_only && Ascii.eqb c "+") then (String c "", r) else ("", s)
  | EmptyString => ("", s)
  end.

Definition int_part (s : string) : option (string * string) :=
  match s with
  | String c r => if Ascii.eqb c "0" then Some ("0", r) else digits1 s
  | EmptyString => None
  end.

Definition frac_part (s : string) : option (string * string) :=
  match s with
  | String c r => if Ascii.eqb c "." then prepend "." (digits1 r) else Some ("", s)
  | EmptyString => Some ("", s)
  end.

Definition exp_part (s : string) : option (string * string) :=
  match s with
  | String c r =>
      if Ascii.eqb c "e" || Ascii.eqb c "E" then
        let (sg, r) := sign_part false r in prepend (String c sg) (digits1 r)
      else Some ("", s)
  | EmptyString => Some ("", s)
  end.

Definition read_number (s : string) : option (string * string) :=
  let (sg, s) := sign_part true s in
  '(i, s) ← int_part s;
  '(f, s) ← frac_part s;
  '(e, s) ← exp_part s;
  Some (sg +:+ i +:+ f +:+ e, s).

(** The decoder: a value, then what follows it. [n] is fuel: a call without a byte
    read is followed by one with, so two per byte are enough. [d] is the number of
    open brackets, which is limited to 10000. *)
Fixpoint parse_value (n : nat) (d : N) (s : string) {struct n} : option (json * string) :=
  match n with
  | O => None
  | S n =>
      match skip_ws s with
      | EmptyString => None
      | String c r =>
          if Ascii.eqb c "{" then
            if (10000 <=? d)%N then None
            else match expect "}" r with
                 | Some r => Some (JObj [], r)
                 | None => '(fs, r) ← parse_members n (N.succ d) r; Some (JObj fs, r)
                 end
          else if Ascii.eqb c "[" then
            if (10000 <=? d)%N then None
            else match expect "]" r with
                 | Some r => Some (JArr [], r)
                 | None => '(l, r) ← parse_elements n (N.succ d) r; Some (JArr l, r)
                 end
          else if Ascii.eqb c dquote then '(t, r) ← read_string true 0 r; Some (JStr t, r)
          else if String.prefix "null" (String c r) then Some (JNull, sdrop 4 (String c r))
          else if String.prefix "true" (String c r) then Some (JBool true, sdrop 4 (String c r))
          else if String.prefix "false" (String c r) then Some (JBool false, sdrop 5 (String c r))
          else '(lit, r) ← read_number (String c r); Some (JNum lit, r)
      end
  end
with parse_elements (n : nat) (d : N) (s : string) {struct n} : option (list json * string) :=
  match n with
  | O => None
  | S n =>
      '(v, r) ← parse_value n d s;
      match expect "," r with
      | Some r => '(l, r) ← parse_elements n d r; Some (v :: l, r)
      | None => r ← expect "]" r; Some ([v], r)
      end
  end
with parse_members (n : nat) (d : N) (s : string) {struct n} : option (list (string * json) * string) :=
  match n with
  | O => None
  | S n =>
      r ← expect dquote s;
      '(k, r) ← read_string true 0 r;
      r ← expect ":" r;
      '(v, r) ← parse_value n d r;
      match expect "," r with
      | Some r => '(fs, r) ← parse_members n d r; Some ((k, v) :: fs, r)
      | None => r ← expect "}" r; Some ([(k, v)], r)
      end
  end.

(** Decoder.Decode: the first value of a stream; what follows it is not looked at. *)
Definition decode_first (s : string) : option (json * string) :=
  parse_value (2 + 2 * String.length s) 0 s.

Definition Decode (s : string) : option json := fst <$> decode_first s.

(** Unmarshal: one value and nothing else. *)
Definition Unmarshal (s : string) : option json :=
  '(v, r) ← decode_first s; if String.eqb (skip_ws r) "" then Some v else None.

Example Unmarshal_ex :
  Unmarshal (MarshalIndent (JObj [("a", JArr [JNum "-1.5e+3"; JNull; JBool true]); ("b", JObj [])]))
  = Some (JObj [("a", JArr [JNum "-1.5e+3"; JNull; JBool true]); ("b", JObj [])]).
Proof. vm_compute. reflexivity. Qed.

(** ** Go values as JSON

    Empty fields with the option omitempty are left out; the keys of a map are written
    in increasing order. *)

Definition omitempty (k v : string) : list (string * json) :=
  if String.eqb v "" then [] else [(k, JStr v)].

Definition json_strings (l : list string) : json := JArr (map JStr l).

Fixpoint insert_key {A} (kv : string * A) (l : list (string * A)) : list (string * A) :=
  match l with
  | [] => [kv]
  | kv' :: r => if String.leb kv.1 kv'.1 then kv :: l else kv' :: insert_key kv r
  end.

Definition sorted_entries {A} (m : gmap string A) : list (string * A) :=
  foldr insert_key [] (map_to_list m).

Definition map_json (m : gmap string json) : json := JObj (sorted_entries m).

(** ** Reading JSON bodies into Go structs

    A field takes the value of the last key equal to its name up to case
    folding; null leaves it alone; a missing key leaves the zero value; a value
    of another type is an error. *)

(** Case folding of a key: ASCII letters, and the two other runes that fold to
    an ASCII letter (C5 BF to s, E2 84 AA to k). *)
Fixpoint fold_name (s : string) : string :=
  match s with
  | EmptyString => EmptyString
  | String c r =>
      match r with
      | String d r1 =>
          if Ascii.eqb c "197" && Ascii.eqb d "191" then String "s" (fold_name r1)
          else match r1 with
               | String e r2 =>
                   if Ascii.eqb c "226" && Ascii.eqb d "132" && Ascii.eqb e "170"
                   then String "k" (fold_name r2)
                   else String (lower_byte c) (fold_name r)
               | EmptyString => String (lower_byte c) (fold_name r)
               end
      | EmptyString => String (lower_byte c) EmptyString
      end
  end.

Section Decode.
Context {X : Type} (name : string) (get : json → option X).

Fixpoint decode_fields (acc : X) (fs : list (string * json)) : result GoError X :=
  match fs with
  | [] => Ok acc
  | (k, v) :: fs =>
      if String.eqb (fold_name k) (fold_name name) then
        match v with
        | JNull => decode_fields acc fs
        | _ => match get v with
               | Some x => decode_fields x fs
               | None => Err (Errorf "json: cannot unmarshal into Go struct field %s" [name])
               end
        end
      else decode_fields acc fs
  end.

Definition decode_field (zero : X) (body : option json) : result GoError X :=
  match body with
  | None => Err (Errorf "invalid JSON" [])
  | Some JNull => Ok zero
  | Some (JObj fs) => decode_fields zero fs
  | Some _ => Err (Errorf "json: cannot unmarshal into Go struct" [])
  end.
End Decode.

Definition json_string (j : json) : option string :=
  match j with JStr s => Some s | _ => None end.
(** An int field takes an integer literal of the 64-bit range. *)
Definition json_int (j : json) : option Z :=
  match j with JNum lit => Atoi lit | _ => None end.

(** A field of a decoded object. *)
Definition field {X} (get : json → option X) (zero : X) (name : string)
    (fs : list (string * json)) : option X :=
  match decode_fields name get zero fs with Ok x => Some x | Err _ => None end.

Definition json_bool (j : json) : option bool :=
  match j with JBool b => Some b | _ => None end.

Definition str : string → list (string * json) → option string := field json_string "".
Definition int : string → list (string * json) → option Z := field json_int 0%Z.
Definition boolean : string → list (string * json) → option bool := field json_bool false.
