(* ===== verification/JsonFacts.v ===== *)
(** * Facts about encoding/json: what was written reads back

    The parser of Json reads back what its printer wrote, blanks and following text
    included, with encoding errors of texts replaced; its fuel is enough for that. *)

From S2P Require Import Prelude GoStrings Json.

(** ** Lemmas on literals *)

Lemma rune_len_spec s k : rune_len s = S k →
  (S k <= String.length s)%nat ∧ ∀ u, rune_len (stake (S k) s +:+ u) = S k.
Proof.
  unfold rune_len. destruct s as [|a [|b r]]; [done..|].
  destruct (ascii_between 194 223 a) eqn:E1.
  { destruct (continuation b) eqn:E2; [|done]. intros [= <-]. split; [simpl; lia|].
    intros u. cbn [stake String.append]. by rewrite E1, E2. }
  destruct r as [|c r]; [done|]. destruct (ascii_between 224 239 a) eqn:E3.
  { destruct (second_byte a b && continuation c) eqn:E4; [|done]. intros [= <-]. split; [simpl; lia|].
    intros u. cbn [stake String.append]. by rewrite E1, E3, E4. }
  destruct r as [|d r]; [done|].
  destruct (ascii_between 240 244 a && second_byte a b && continuation c && continuation d) eqn:E5; [|done].
  intros [= <-]. split; [simpl; lia|]. intros u. cbn [stake String.append]. by rewrite E1, E3, E5.
Qed.

Lemma to_utf8_skip k s : to_utf8 k s = stake k s +:+ to_utf8 0 (sdrop k s).
Proof. revert k. induction s as [|c s IH]; intros [|k]; try done. simpl. by rewrite IH. Qed.

Lemma quote_go_copied k s : quote_go true k s = stake k s +:+ quote_go true 0 (sdrop k s).
Proof. revert k. induction s as [|c s IH]; intros [|k]; try done. simpl. by rewrite IH. Qed.

Lemma quote_go_skipped k s : quote_go false k s = quote_go true 0 (sdrop k s).
Proof. revert k. induction s as [|c s IH]; intros [|k]; try done. apply IH. Qed.

Lemma prepend_prepend t u r : prepend t (prepend u r) = prepend (t +:+ u) r.
Proof. destruct r as [[x y]|]; [|done]. unfold prepend. simpl. by rewrite app_assoc_s. Qed.

Lemma prepend_nil r : prepend "" r = r.
Proof. by destruct r as [[x y]|]. Qed.

Lemma read_string_copied t u :
  read_string true (String.length t) (t +:+ u) = prepend t (read_string true 0 u).
Proof.
  induction t as [|c t IH]; [by rewrite prepend_nil|]. simpl. rewrite IH. apply prepend_prepend.
Qed.

Lemma read_string_skipped t u :
  read_string false (String.length t) (t +:+ u) = read_string true 0 u.
Proof. induction t as [|c t IH]; [by destruct u|]. simpl. apply IH. Qed.

Lemma read_nonascii c r : is_ascii c = false →
  read_string true 0 (String c r) =
    match rune_len (String c r) with
    | S k => prepend (String c "") (read_string true k r)
    | O => prepend rune_error (read_string true 0 r)
    end.
Proof.
  intros Hc. cbn [read_string].
  assert (Ascii.eqb c dquote = false ∧ Ascii.eqb c backslash = false ∧ (N_of_ascii c <? 32)%N = false)
    as (-> & -> & ->) by (revert Hc; by_bytes c).
  by rewrite Hc.
Qed.

Lemma read_escape r t n : escape r = Some (t, n) →
  read_string true 0 (String backslash r) = prepend t (read_string false n r).
Proof. intros H. simpl. by rewrite H. Qed.

Lemma escape_u00 c u : is_ascii c = true →
  escape (String "u" (String "0" (String "0" (String (hex_digit (N_of_ascii c / 16))
    (String (hex_digit (N_of_ascii c mod 16)) u))))) = Some (String c "", 5%nat).
Proof. by_bytes c. Qed.

(** One ASCII byte, escaped or not, reads back. *)
Lemma read_escape_byte c u : is_ascii c = true →
  read_string true 0 (escape_byte c +:+ u) = prepend (String c "") (read_string true 0 u).
Proof.
  intros Hc. unfold escape_byte.
  repeat match goal with |- context [if Ascii.eqb c ?x then _ else _] =>
    destruct (Ascii.eqb_spec c x) as [->|?];
      [etrans; [by apply read_escape|]; f_equal; by apply (read_string_skipped (String _ ""))|] end.
  destruct (_ || _ || _ || _) eqn:E.
  - etrans; [apply (read_escape _ _ _ (escape_u00 c u Hc))|]. f_equal.
    by apply (read_string_skipped (String "u" (String "0" (String "0" (String _ (String _ "")))))).
  - cbn [String.append read_string]. rewrite (proj2 (Ascii.eqb_neq _ _)), (proj2 (Ascii.eqb_neq _ _)) by done.
    bool_prop. rewrite Hc. by destruct (N_of_ascii c <? 32)%N.
Qed.

Definition is_ascii_head (s : string) : bool :=
  match s with String c _ => is_ascii c | EmptyString => true end.

Lemma rune_len_head s k : rune_len s = S k → is_ascii_head s = false.
Proof.
  unfold rune_len. destruct s as [|c [|b r]]; [done..|]. simpl.
  destruct (ascii_between 194 223 c) eqn:E1; [intros _; revert E1; by_bytes c|].
  destruct r as [|c' r]; [done|].
  destruct (ascii_between 224 239 c) eqn:E2; [intros _; revert E2; by_bytes c|].
  destruct r as [|d r]; [done|].
  destruct (ascii_between 240 244 c) eqn:E3; [intros _; revert E3; by_bytes c|done].
Qed.

(** One well-formed sequence reads back, in its escaped form too. *)
Lemma read_sequence s k u : rune_len s = S k →
  read_string true 0 (stake (S k) s +:+ u) = prepend (stake (S k) s) (read_string true 0 u).
Proof.
  intros Hk. destruct (rune_len_spec s k Hk) as [Hl Hr]. destruct s as [|c s]; [done|].
  pose proof (rune_len_head _ _ Hk) as Hc. simpl in Hc.
  specialize (Hr u). cbn [stake String.append] in Hr |- *. rewrite read_nonascii, Hr by done.
  simpl in Hl. assert (E : String.length (stake k s) = k) by (rewrite stake_length; lia).
  rewrite <- E at 1. by rewrite read_string_copied, prepend_prepend.
Qed.

Lemma read_separator s k e u : rune_len s = S k → line_separator s = Some e →
  read_string true 0 (e +:+ u) = prepend (stake (S k) s) (read_string true 0 u).
Proof.
  unfold line_separator. destruct s as [|a [|b [|c r]]]; [done..|].
  intros Hk. destruct (Ascii.eqb a "226" && Ascii.eqb b "128") eqn:E; [|done].
  apply andb_true_iff in E as [->%Ascii.eqb_eq ->%Ascii.eqb_eq].
  destruct (Ascii.eqb_spec c "168") as [->|_]; [|destruct (Ascii.eqb_spec c "169") as [->|_]; [|done]];
    intros [= <-]; vm_compute in Hk; injection Hk as <-;
    (etrans; [by apply read_escape|]); f_equal;
    [apply (read_string_skipped "u2028")|apply (read_string_skipped "u2029")].
Qed.

Lemma sdrop_length k s : (String.length (sdrop k s) <= String.length s)%nat.
Proof. revert s. induction k; intros [|c s]; simpl; auto. Qed.

(** A literal reads back as the text with its encoding errors replaced. *)
Lemma read_quote_go s rest :
  read_string true 0 (quote_go true 0 s +:+ String dquote rest) = Some (sanitize_utf8 s, rest).
Proof.
  unfold sanitize_utf8. induction s as [s IH] using string_ind_length. destruct s as [|c r]; [done|].
  cbn [quote_go to_utf8]. destruct (is_ascii c) eqn:Hc.
  { rewrite <- app_assoc_s, read_escape_byte by done. rewrite IH by (simpl; lia). done. }
  destruct (rune_len (String c r)) as [|k] eqn:Hk.
  { cbn [String.append]. rewrite (read_escape _ rune_error 5) by done.
    change (String "u" ?x) with ("ufffd" +:+ (quote_go true 0 r +:+ String dquote rest)).
    change 5%nat with (String.length "ufffd").
    rewrite read_string_skipped, IH by (simpl; lia). done. }
  destruct (rune_len_spec _ _ Hk) as [Hl _]. simpl in Hl.
  assert (Hs : sanitize_utf8 (sdrop k r) = to_utf8 0 (sdrop k r)) by done.
  rewrite (to_utf8_skip k r).
  destruct (line_separator (String c r)) as [e|] eqn:He.
  - rewrite <- app_assoc_s, (read_separator _ _ _ _ Hk He), quote_go_skipped, IH
      by (pose proof (sdrop_length k r); simpl; lia). done.
  - cbn [String.append]. rewrite quote_go_copied, <- app_assoc_s.
    change (String c (stake k r +:+ ?u)) with (stake (S k) (String c r) +:+ u).
    rewrite (read_sequence _ _ _ Hk), IH by (pose proof (sdrop_length k r); simpl; lia). done.
Qed.

(** ** Induction over values *)

Section JsonInd.
Context (P : json → Prop)
  (Hnull : P JNull) (Hbool : ∀ b, P (JBool b)) (Hnum : ∀ lit, P (JNum lit)) (Hstr : ∀ s, P (JStr s))
  (Harr : ∀ l, Forall P l → P (JArr l))
  (Hobj : ∀ fs : list (string * json), Forall (fun kv => P kv.2) fs → P (JObj fs)).

Fixpoint json_strong_ind (j : json) : P j :=
  match j with
  | JNull => Hnull
  | JBool b => Hbool b
  | JNum lit => Hnum lit
  | JStr s => Hstr s
  | JArr l => Harr l ((fix go l : Forall P l :=
      match l with [] => Forall_nil_2 _ | x :: l => Forall_cons_2 _ x l (json_strong_ind x) (go l) end) l)
  | JObj fs => Hobj fs ((fix go fs : Forall (fun kv : string * json => P kv.2) fs :=
      match fs with
      | [] => Forall_nil_2 _
      | kv :: fs => Forall_cons_2 (fun kv : string * json => P kv.2) kv fs (json_strong_ind kv.2) (go fs)
      end) fs)
  end.
End JsonInd.

(** ** Round trip *)

(** What a printed value reads back as: texts with encoding errors replaced. *)
Fixpoint utf8_json (j : json) : json :=
  match j with
  | JStr s => JStr (sanitize_utf8 s)
  | JArr l => JArr (map utf8_json l)
  | JObj fs => JObj (map (fun kv : string * json => let (k, v) := kv in (sanitize_utf8 k, utf8_json v)) fs)
  | _ => j
  end.

Definition number_ok (lit : string) : bool :=
  match read_number lit with Some (l, "") => String.eqb l lit | _ => false end.

(** Well-formed number literals, and at most [n] brackets inside one another. *)
Fixpoint json_ok (n : nat) (j : json) : bool :=
  match j, n with
  | JNum lit, _ => number_ok lit
  | JArr l, S n => forallb (json_ok n) l
  | JObj fs, S n => forallb (fun kv : string * json => let (_, v) := kv in json_ok n v) fs
  | (JArr _ | JObj _), O => false
  | _, _ => true
  end.

(** The fuel a value takes. *)
Fixpoint json_fuel (j : json) : nat :=
  match j with
  | JArr l => S (list_sum (map (fun x => S (json_fuel x)) l))
  | JObj fs => S (list_sum (map (fun kv : string * json => let (_, v) := kv in S (json_fuel v)) fs))
  | _ => 1
  end.

Definition blank (s : string) : bool := sall is_ws s.

(** A byte that cannot continue a number. *)
Definition stop_byte (c : ascii) : bool :=
  negb (is_digit c || Ascii.eqb c "." || Ascii.eqb c "e" || Ascii.eqb c "E").

Definition stops (s : string) : bool := match s with String c _ => stop_byte c | "" => true end.

(** What may follow a value: anything, but a number must stop. *)
Definition tail_ok (j : json) (rest : string) : bool :=
  match j with JNum _ => stops rest | _ => true end.

Lemma tail_ok_stops j rest : stops rest = true → tail_ok j rest = true.
Proof. by destruct j. Qed.

Lemma skip_ws_blank w s : blank w = true → skip_ws (w +:+ s) = skip_ws s.
Proof.
  unfold blank, skip_ws. induction w as [|c w IH]; [done|]. cbn [sall String.append trim_left].
  intros [-> H]%andb_true_iff. auto.
Qed.

Lemma skip_ws_id c s : is_ws c = false → skip_ws (String c s) = String c s.
Proof. unfold skip_ws. simpl. by intros ->. Qed.

Lemma expect_blank c w s : blank w = true → expect c (w +:+ s) = expect c s.
Proof. intros H. unfold expect. by rewrite skip_ws_blank. Qed.

Lemma parse_blank n d w s : blank w = true →
  parse_value n d (w +:+ s) = parse_value n d s ∧
  parse_elements n d (w +:+ s) = parse_elements n d s ∧
  parse_members n d (w +:+ s) = parse_members n d s.
Proof.
  intros H. assert (Hv : ∀ n, parse_value n d (w +:+ s) = parse_value n d s).
  { intros [|m]; [done|]. cbn [parse_value]. by rewrite skip_ws_blank. }
  split_and!; [apply Hv| |]; destruct n as [|n]; try done.
  - cbn [parse_elements]. by rewrite Hv.
  - cbn [parse_members]. by rewrite expect_blank.
Qed.

Lemma stops_blank w s : blank w = true → stops s = true → stops (w +:+ s) = true.
Proof.
  destruct w as [|c w]; [done|]. unfold blank. simpl. intros [H _]%andb_true_iff _. revert H. by_bytes c.
Qed.

(** Reading a number goes on until a byte that stops it. *)
Lemma span_more s rest a b : stops rest = true →
  span is_digit s = (a, b) → span is_digit (s +:+ rest) = (a, b +:+ rest).
Proof.
  intros Hr. revert a b. induction s as [|c s IH]; intros a b.
  - simpl. intros [= <- <-]. destruct rest as [|c r]; [done|]. simpl in *. unfold stop_byte in Hr.
    by destruct (is_digit c).
  - cbn [span String.append]. destruct (is_digit c); [|by intros [= <- <-]].
    destruct (span is_digit s) as [a' b']. rewrite (IH a' b') by done. by intros [= <- <-].
Qed.

Lemma digits1_more s rest a b : stops rest = true →
  digits1 s = Some (a, b) → digits1 (s +:+ rest) = Some (a, b +:+ rest).
Proof.
  intros Hr. unfold digits1. destruct (span is_digit s) as [x y] eqn:E.
  rewrite (span_more _ _ _ _ Hr E). by destruct (String.eqb x ""); intros [= <- <-].
Qed.

Lemma int_part_more s rest a b : stops rest = true →
  int_part s = Some (a, b) → int_part (s +:+ rest) = Some (a, b +:+ rest).
Proof.
  intros Hr. destruct s as [|c s]; [done|]. cbn [int_part String.append].
  destruct (Ascii.eqb c "0"); [by intros [= <- <-]|]. by apply (digits1_more (String c s)).
Qed.

Lemma frac_part_more s rest a b : stops rest = true →
  frac_part s = Some (a, b) → frac_part (s +:+ rest) = Some (a, b +:+ rest).
Proof.
  intros Hr. destruct s as [|c s]; cbn [frac_part String.append].
  - intros [= <- <-]. destruct rest as [|c r]; [done|]. simpl in *. revert Hr.
    unfold stop_byte. destruct (Ascii.eqb c "."); [by rewrite orb_true_r|done].
  - destruct (Ascii.eqb c "."); [|by intros [= <- <-]].
    destruct (digits1 s) as [[x y]|] eqn:E; [|done]. rewrite (digits1_more _ _ _ _ Hr E).
    by intros [= <- <-].
Qed.

Lemma exp_part_more s rest a b : stops rest = true →
  exp_part s = Some (a, b) → exp_part (s +:+ rest) = Some (a, b +:+ rest).
Proof.
  intros Hr. destruct s as [|c s]; cbn [exp_part String.append].
  - intros [= <- <-]. destruct rest as [|c r]; [done|]. simpl in *. revert Hr.
    unfold stop_byte. destruct (Ascii.eqb c "e"), (Ascii.eqb c "E"); by rewrite ?orb_true_r.
  - destruct (_ || _); [|by intros [= <- <-]]. destruct s as [|c' s]; [done|].
    cbn [sign_part String.append]. destruct (_ || _).
    + destruct (digits1 s) as [[x y]|] eqn:E; [|done]. rewrite (digits1_more _ _ _ _ Hr E).
      by intros [= <- <-].
    + destruct (digits1 (String c' s)) as [[x y]|] eqn:E; [|done].
      pose proof (digits1_more _ _ _ _ Hr E) as E'. cbn [String.append] in E'. rewrite E'.
      by intros [= <- <-].
Qed.

Lemma read_number_more s rest a b : stops rest = true →
  read_number s = Some (a, b) → read_number (s +:+ rest) = Some (a, b +:+ rest).
Proof.
  intros Hr. unfold read_number. destruct s as [|c s]; [done|].
  cbn [sign_part String.append negb andb]. rewrite orb_false_r.
  assert (H : ∀ sg s, ('(i, s0) ← int_part s; '(f, s1) ← frac_part s0; '(e, s2) ← exp_part s1;
      Some (sg +:+ i +:+ f +:+ e, s2)) = Some (a, b) →
    ('(i, s0) ← int_part (s +:+ rest); '(f, s1) ← frac_part s0; '(e, s2) ← exp_part s1;
      Some (sg +:+ i +:+ f +:+ e, s2)) = Some (a, b +:+ rest)).
  { intros sg t. destruct (int_part t) as [[i t1]|] eqn:Ei; [|done].
    rewrite (int_part_more _ _ _ _ Hr Ei). cbn [mbind option_bind].
    destruct (frac_part t1) as [[f t2]|] eqn:Ef; [|done].
    rewrite (frac_part_more _ _ _ _ Hr Ef). cbn [mbind option_bind].
    destruct (exp_part t2) as [[e t3]|] eqn:Ee; [|done].
    rewrite (exp_part_more _ _ _ _ Hr Ee). by intros [= <- <-]. }
  destruct (Ascii.eqb c "-"); [apply H|]. apply (H "" (String c s)).
Qed.

Lemma number_ok_spec lit : number_ok lit = true → read_number lit = Some (lit, "").
Proof.
  unfold number_ok. destruct (read_number lit) as [[l [|]]|]; [|done..]. by intros ->%String.eqb_eq.
Qed.

(** The first byte of a number. *)
Lemma number_ok_head lit : number_ok lit = true →
  ∃ c r, lit = String c r ∧ (is_digit c || Ascii.eqb c "-") = true.
Proof.
  intros H%number_ok_spec. destruct lit as [|c r]; [done|]. exists c, r. split; [done|].
  revert H. unfold read_number. cbn [sign_part negb andb]. rewrite orb_false_r.
  destruct (Ascii.eqb c "-"); [by rewrite orb_true_r|]. cbn [int_part].
  destruct (Ascii.eqb_spec c "0") as [->|_]; [done|]. unfold digits1. cbn [span].
  by destruct (is_digit c).
Qed.

Lemma number_value n d lit rest : number_ok lit = true → stops rest = true →
  parse_value (S n) d (lit +:+ rest) = Some (JNum lit, rest).
Proof.
  intros Hl Hr. pose proof (read_number_more _ _ _ _ Hr (number_ok_spec _ Hl)) as H.
  destruct (number_ok_head _ Hl) as (c & r & -> & Hc). cbn [String.append] in *. cbn [parse_value].
  rewrite skip_ws_id by (revert Hc; by_bytes c).
  assert (E : ∀ x, x ∈ ["{"; "["; dquote; "n"; "t"; "f"]%char → Ascii.eqb c x = false).
  { intros x Hx. apply Ascii.eqb_neq. intros ->. by repeat (apply elem_of_cons in Hx as [->|Hx]; [done|]); apply elem_of_nil in Hx. }
  rewrite !E by (rewrite !elem_of_cons; tauto).
  assert (F : ∀ x t, x ∈ ["{"; "["; dquote; "n"; "t"; "f"]%char →
    String.prefix (String x t) (String c (r +:+ rest)) = false).
  { intros x t Hx. simpl. destruct (ascii_dec x c) as [->|]; [|done].
    specialize (E c Hx). by rewrite Ascii.eqb_refl in E. }
  rewrite !F by (rewrite !elem_of_cons; tauto). by rewrite H.
Qed.

Section RoundTrip.
Context (nl : nat → string) (sp : string).
Context (Hnl : ∀ d, blank (nl d) = true) (Hsp : blank sp = true).

Notation colon := (String ":" sp).
Notation pr := (print nl colon).

Definition reads_back (j : json) : Prop := ∀ k d dp n rest,
  json_ok k j = true → (dp + N.of_nat k <= 10000)%N → (json_fuel j <= n)%nat → tail_ok j rest = true →
  parse_value n dp (pr d j +:+ rest) = Some (utf8_json j, rest).

Lemma expect_here c w rest : blank w = true → is_ws c = false →
  expect c (w +:+ String c rest) = Some rest.
Proof.
  intros Hw Hc. rewrite expect_blank by done. unfold expect. rewrite skip_ws_id by done.
  by rewrite Ascii.eqb_refl.
Qed.

Lemma expect_other c a w rest : blank w = true → is_ws a = false → Ascii.eqb a c = false →
  expect c (w +:+ String a rest) = None.
Proof.
  intros Hw Ha Hc. rewrite expect_blank by done. unfold expect. rewrite skip_ws_id by done. by rewrite Hc.
Qed.

Lemma expect_now c rest : is_ws c = false → expect c (String c rest) = Some rest.
Proof. by apply (expect_here c ""). Qed.

Lemma expect_not c a rest : is_ws a = false → Ascii.eqb a c = false → expect c (String a rest) = None.
Proof. by apply (expect_other c a ""). Qed.

Lemma quote_app s u : quote s +:+ u = String dquote (quote_go true 0 s +:+ String dquote u).
Proof. unfold quote. cbn [String.append]. by rewrite <- app_assoc_s. Qed.

Lemma elements_back k d w w' dp sep l :
  blank w = true → blank w' = true → sep = String "," w → Forall reads_back l → l ≠ [] → ∀ n rest,
  forallb (json_ok k) l = true → (dp + N.of_nat k <= 10000)%N →
  (list_sum (map (fun x => S (json_fuel x)) l) <= n)%nat →
  parse_elements n dp (join sep (map (pr d) l) +:+ w' +:+ String "]" rest)
    = Some (map utf8_json l, rest).
Proof.
  intros Hw Hw' Hsep. induction 1 as [|x l Hx Hl IH]; [done|].
  intros _ n rest [Hk Hks]%andb_true_iff Hd Hn. cbn [map list_sum] in Hn.
  destruct n as [|n]; [simpl in Hn; lia|]. cbn [map parse_elements].
  destruct (decide (l = [])) as [->|Hne].
  - cbn [map join]. rewrite (Hx k) by (done || (simpl in Hn; lia) || by apply tail_ok_stops, stops_blank).
    cbn [mbind option_bind]. rewrite expect_other by done. by rewrite expect_here.
  - rewrite join_cons, <- !app_assoc_s by by destruct l.
    rewrite (Hx k) by (done || (simpl in Hn; lia) || by rewrite Hsep; apply tail_ok_stops).
    subst sep. cbn [mbind option_bind String.append]. rewrite expect_now by done.
    destruct (parse_blank n dp w (join (String "," w) (map (pr d) l) +:+ w' +:+ String "]" rest))
      as (_ & E & _); [done|]. rewrite E, IH by (done || (simpl in Hn; lia)). done.
Qed.

Definition print_member (d : nat) (kv : string * json) : string :=
  let (k, v) := kv in quote k +:+ colon +:+ pr d v.

Lemma members_back k d w w' dp sep fs :
  blank w = true → blank w' = true → sep = String "," w →
  Forall (fun kv => reads_back kv.2) fs → fs ≠ [] → ∀ n rest,
  forallb (fun kv : string * json => let (_, v) := kv in json_ok k v) fs = true →
  (dp + N.of_nat k <= 10000)%N →
  (list_sum (map (fun kv : string * json => let (_, v) := kv in S (json_fuel v)) fs) <= n)%nat →
  parse_members n dp (join sep (map (print_member d) fs) +:+ w' +:+ String "}" rest)
    = Some (map (fun kv : string * json => let (k, v) := kv in (sanitize_utf8 k, utf8_json v)) fs, rest).
Proof.
  intros Hw Hw' Hsep. induction 1 as [|[key x] fs Hx Hl IH]; [done|].
  intros _ n rest [Hk Hks]%andb_true_iff Hd Hn. cbn [map list_sum] in Hn. cbn [snd] in Hx.
  destruct n as [|n]; [simpl in Hn; lia|].
  assert (E : ∀ u, parse_members (S n) dp (print_member d (key, x) +:+ u) =
    '(v, r) ← parse_value n dp (pr d x +:+ u);
    match expect "," r with
    | Some r => '(fs, r) ← parse_members n dp r; Some ((sanitize_utf8 key, v) :: fs, r)
    | None => r ← expect "}" r; Some ([(sanitize_utf8 key, v)], r)
    end).
  { intros u. unfold print_member. rewrite <- !app_assoc_s, quote_app. cbn [parse_members].
    rewrite expect_now by done. cbn [mbind option_bind]. rewrite read_quote_go.
    cbn [mbind option_bind String.append]. rewrite expect_now by done. cbn [mbind option_bind].
    by destruct (parse_blank n dp sp (pr d x +:+ u) Hsp) as (-> & _). }
  cbn [map]. destruct (decide (fs = [])) as [->|Hne].
  - cbn [map join]. rewrite E, (Hx k) by (done || (simpl in Hn; lia) || by apply tail_ok_stops, stops_blank).
    cbn [mbind option_bind]. rewrite expect_other by done. by rewrite expect_here.
  - rewrite join_cons, <- !app_assoc_s by by destruct fs.
    rewrite E, (Hx k) by (done || (simpl in Hn; lia) || by rewrite Hsep; apply tail_ok_stops).
    subst sep. cbn [mbind option_bind String.append]. rewrite expect_now by done.
    destruct (parse_blank n dp w (join (String "," w) (map (print_member d) fs) +:+ w' +:+ String "}" rest))
      as (_ & _ & F); [done|]. rewrite F, IH by (done || (simpl in Hn; lia)). done.
Qed.

(** The first byte of a printed value starts a value. *)
Lemma print_head k d j : json_ok k j = true → ∃ c r, pr d j = String c r ∧
  is_ws c = false ∧ Ascii.eqb c "]" = false.
Proof.
  destruct j as [|[]|lit|s|l|fs]; try (intros _; by eexists _, _).
  - intros H. assert (Hl : number_ok lit = true) by by destruct k.
    destruct (number_ok_head _ Hl) as (c & r & -> & Hc). exists c, r. split; [done|]. revert Hc. by_bytes c.
  - intros _. destruct l; by eexists _, _.
  - intros _. destruct fs; by eexists _, _.
Qed.

Lemma enclose_app o c d items rest : items ≠ [] →
  enclose nl (String o "") (String c "") d items +:+ rest =
    String o (nl (S d) +:+ join (String "," (nl (S d))) items +:+ nl d +:+ String c rest).
Proof.
  intros H. unfold enclose. destruct items; [done|]. cbn [String.append]. by rewrite <- !app_assoc_s.
Qed.

Theorem print_reads_back j : reads_back j.
Proof.
  induction j as [|b|lit|s|l IH|fs IH] using json_strong_ind; intros k d dp n rest Hk Hd Hn Hr;
    (destruct n as [|n]; [simpl in Hn; lia|]).
  - by destruct rest.
  - by destruct b, rest.
  - apply number_value; [by destruct k|done].
  - cbn [print]. rewrite quote_app. cbn [parse_value]. rewrite skip_ws_id by done.
    change (Ascii.eqb dquote "{") with false. change (Ascii.eqb dquote "[") with false.
    rewrite Ascii.eqb_refl, read_quote_go. done.
  - destruct k as [|k]; [done|]. cbn [json_ok] in Hk. cbn [print]. cbn [json_fuel] in Hn.
    assert ((10000 <=? dp)%N = false) as Hdp by (apply N.leb_gt; lia).
    destruct l as [|x l].
    + cbn [map enclose String.append parse_value]. rewrite skip_ws_id by done.
      rewrite Ascii.eqb_refl, Hdp. by rewrite expect_now.
    + rewrite enclose_app by done. cbn [parse_value]. rewrite skip_ws_id by done.
      rewrite Ascii.eqb_refl, Hdp. change (Ascii.eqb "[" "{") with false.
      cbv match.
      destruct (parse_blank n (N.succ dp) (nl (S d)) (join (String "," (nl (S d))) (map (pr (S d)) (x :: l)) +:+ nl d +:+ String "]" rest)) as (_ & E & _); [done|].
      rewrite E, (elements_back k (S d) (nl (S d))) by (done || lia).
      rewrite expect_blank by done. apply andb_true_iff in Hk as [Hx _].
      destruct (print_head k (S d) x Hx) as (c & r & Ec & Hc & Hc').
      assert (∃ u, join (String "," (nl (S d))) (map (pr (S d)) (x :: l)) = String c u) as [u ->].
      { cbn [map join]. rewrite Ec. destruct (map _ l); [by eexists|]. cbn [String.append]. by eexists. }
      cbn [String.append]. by rewrite expect_not.
  - destruct k as [|k]; [done|]. cbn [json_ok] in Hk. cbn [print]. cbn [json_fuel] in Hn.
    assert ((10000 <=? dp)%N = false) as Hdp by (apply N.leb_gt; lia).
    destruct fs as [|x fs].
    + cbn [map enclose String.append parse_value]. rewrite skip_ws_id by done.
      rewrite Ascii.eqb_refl, Hdp. by rewrite expect_now.
    + change (fun kv : string * json => let (k0, v) := kv in quote k0 +:+ colon +:+ pr (S d) v)
        with (print_member (S d)).
      rewrite enclose_app by done. cbn [parse_value]. rewrite skip_ws_id by done.
      rewrite Ascii.eqb_refl, Hdp.
      destruct (parse_blank n (N.succ dp) (nl (S d)) (join (String "," (nl (S d))) (map (print_member (S d)) (x :: fs)) +:+ nl d +:+ String "}" rest)) as (_ & _ & E); [done|].
      rewrite E, (members_back k (S d) (nl (S d))) by (done || lia).
      rewrite expect_blank by done.
      assert (∃ u, join (String "," (nl (S d))) (map (print_member (S d)) (x :: fs)) = String dquote u) as [u ->].
      { destruct x as [key v]. cbn [map join]. destruct (map _ fs); by eexists. }
      cbn [String.append]. by rewrite expect_not.
Qed.
End RoundTrip.

Lemma list_sum_cons x l : list_sum (x :: l) = (x + list_sum l)%nat.
Proof. done. Qed.

(** The fuel of the decoder is enough for what was printed. *)
Lemma fuel_print nl colon j : ∀ d k, json_ok k j = true →
  (json_fuel j <= 2 * String.length (print nl colon d j))%nat.
Proof.
  assert (Hj : ∀ sep items, (list_sum (map (fun x => S (2 * String.length x)) items)
      <= 2 * String.length (join (String "," sep) items) + 1)%nat).
  { intros sep items. induction items as [|x items IH]; [simpl; lia|].
    cbn [map]. rewrite list_sum_cons. destruct (decide (items = [])) as [->|]; [simpl; lia|].
    rewrite join_cons, !length_app_s by done. cbn [String.length]. lia. }
  assert (He : ∀ o c d items, o ≠ "" → (S (list_sum (map (fun x => S (2 * String.length x)) items))
      <= 2 * String.length (enclose nl o c d items))%nat).
  { intros o c d items Ho. destruct o as [|a o]; [done|]. unfold enclose.
    destruct items as [|x items]; [simpl; lia|]. rewrite !length_app_s.
    pose proof (Hj (nl (S d)) (x :: items)). cbn [String.append String.length] in *. lia. }
  assert (Hm : ∀ {A} (f g : A → nat) l, Forall (fun x => f x <= g x)%nat l →
    (list_sum (map f l) <= list_sum (map g l))%nat).
  { intros A f g l. induction 1; simpl; lia. }
  induction j as [|b|lit|s|l IH|fs IH] using json_strong_ind; intros d k Hk.
  - simpl. lia.
  - destruct b; simpl; lia.
  - assert (number_ok lit = true) as (c & r & -> & _)%number_ok_head by by destruct k. simpl. lia.
  - cbn [print json_fuel]. unfold quote. simpl. lia.
  - destruct k as [|k]; [done|]. cbn [json_ok] in Hk. cbn [print json_fuel].
    etrans; [|by apply He]. rewrite map_map. apply le_n_S, Hm.
    rewrite forallb_forall in Hk. apply Forall_forall. intros x Hx. rewrite Forall_forall in IH.
    apply le_n_S, (IH x Hx _ k), Hk. by apply list_elem_of_In.
  - destruct k as [|k]; [done|]. cbn [json_ok] in Hk. cbn [print json_fuel].
    etrans; [|by apply He]. rewrite map_map. apply le_n_S, Hm.
    rewrite forallb_forall in Hk. apply Forall_forall. intros [key x] Hx. rewrite Forall_forall in IH.
    apply le_n_S. rewrite !length_app_s. transitivity (2 * String.length (print nl colon (S d) x))%nat; [|lia].
    apply (IH _ Hx _ k), (Hk (key, x)). by apply list_elem_of_In.
Qed.

(** What Decoder.Decode and Unmarshal make of a printed value and what follows. *)
Lemma decode_printed nl sp k j rest :
  (∀ d, blank (nl d) = true) → blank sp = true →
  json_ok k j = true → (N.of_nat k <= 10000)%N → tail_ok j rest = true →
  decode_first (print nl (String ":" sp) 0 j +:+ rest) = Some (utf8_json j, rest).
Proof.
  intros Hnl Hsp Hk Hle Hr. unfold decode_first.
  apply (print_reads_back nl sp Hnl Hsp j k); [done|done| |done].
  rewrite length_app_s. pose proof (fuel_print nl (String ":" sp) j 0 k Hk). lia.
Qed.

Lemma blank_indent d : blank (String lf (spaces d)) = true.
Proof. unfold blank. simpl. induction d; [done|]. simpl. done. Qed.

Lemma skip_ws_empty s : String.eqb (skip_ws s) "" = blank s.
Proof.
  unfold blank, skip_ws. induction s as [|c s IH]; [done|]. simpl. by destruct (is_ws c).
Qed.

Lemma Unmarshal_MarshalIndent k j rest :
  json_ok k j = true → (N.of_nat k <= 10000)%N → tail_ok j rest = true →
  Unmarshal (MarshalIndent j +:+ rest) = if blank rest then Some (utf8_json j) else None.
Proof.
  intros Hk Hle Hr. unfold Unmarshal, MarshalIndent.
  rewrite (decode_printed (fun d => String lf (spaces (2 * d))) " " k) by (done || intros; apply blank_indent).
  cbn [mbind option_bind]. by rewrite skip_ws_empty.
Qed.

Lemma Decode_Marshal k j rest :
  json_ok k j = true → (N.of_nat k <= 10000)%N → tail_ok j rest = true →
  Decode (Marshal j +:+ rest) = Some (utf8_json j).
Proof.
  intros Hk Hle Hr. unfold Decode, Marshal. by rewrite (decode_printed (fun _ => "") "" k).
Qed.

(** ** Integers and texts *)

Lemma pretty_N_go_head x s : x ≠ 0%N →
  ∃ c r, pretty_N_go x s = String c r ∧ is_digit c = true ∧ Ascii.eqb c "0" = false.
Proof.
  revert s. induction (N.lt_wf_0 x) as [x _ IH]; intros s Hx. rewrite pretty_N_go_step by lia.
  destruct (decide (x `div` 10 = 0)%N) as [E|Hd].
  - rewrite E, pretty_N_go_0. eexists _, _. split; [done|].
    assert (x < 10)%N as Hlt by (apply N.div_small_iff in E; lia).
    rewrite N.mod_small by done.
    destruct x as [|p]; [done|]. do 4 (destruct p as [p|p|]; try done; try lia).
  - apply IH; [|done]. apply N.div_lt; lia.
Qed.

Lemma span_digits_all s : sall is_digit s = true → span is_digit s = (s, "").
Proof. induction s as [|c s IH]; [done|]. simpl. intros [-> H]%andb_true_iff. by rewrite IH. Qed.

Lemma digits_number s : sall is_digit s = true →
  (∃ c r, s = String c r ∧ Ascii.eqb c "0" = false) → int_part s = Some (s, "").
Proof.
  intros Hs (c & r & -> & Hc). cbn [int_part]. rewrite Hc. unfold digits1. by rewrite span_digits_all.
Qed.

Lemma Itoa_int_part z : (0 <= z)%Z → int_part (Itoa z) = Some (Itoa z, "").
Proof.
  intros Hz. destruct (decide (z = 0)%Z) as [->|Hnz]; [done|].
  apply digits_number; [by apply Itoa_nonneg_digits|].
  rewrite Itoa_nonneg by done. unfold pretty, pretty_N. destruct (decide (Z.to_N z = 0%N)) as [E|E]; [lia|].
  destruct (pretty_N_go_head (Z.to_N z) "" E) as (c & r & -> & _ & H). by exists c, r.
Qed.

Lemma number_ok_Itoa z : number_ok (Itoa z) = true.
Proof.
  assert (H : ∀ x sg, (0 <= x)%Z → ('(i, s0) ← int_part (Itoa x); '(f, s1) ← frac_part s0;
    '(e, s2) ← exp_part s1; Some (sg +:+ i +:+ f +:+ e, s2)) = Some (sg +:+ Itoa x, "")).
  { intros x sg Hx. rewrite Itoa_int_part by done. cbn [mbind option_bind frac_part exp_part].
    by rewrite !app_nil_r_s. }
  assert (Hd : ∀ x, (0 <= x)%Z → sign_part true (Itoa x) = ("", Itoa x)).
  { intros x Hx. pose proof (Itoa_nonneg_digits x Hx) as Hs. destruct (Itoa x) as [|c r]; [done|].
    simpl in *. apply andb_true_iff in Hs as [Hc _]. revert Hc. by_bytes c. }
  unfold number_ok, read_number. destruct (decide (0 <= z)%Z) as [Hz|Hz].
  - rewrite Hd by done. cbv beta iota. rewrite (H z "") by done. apply String.eqb_refl.
  - rewrite Itoa_neg by lia. change (sign_part true (String "-" ?s)) with ("-", s).
    rewrite <- Itoa_nonneg by lia. cbv beta iota. rewrite (H (- z)%Z "-") by lia. apply String.eqb_refl.
Qed.

(** ** Replacing encoding errors *)

Lemma sanitize_ascii c s : is_ascii c = true → sanitize_utf8 (String c s) = String c (sanitize_utf8 s).
Proof. intros H. unfold sanitize_utf8. cbn [to_utf8]. by rewrite H. Qed.

Lemma sanitize_ascii_app p s : sall is_ascii p = true → sanitize_utf8 (p +:+ s) = p +:+ sanitize_utf8 s.
Proof.
  induction p as [|c p IH]; [done|]. cbn [sall String.append]. intros [Hc Hp]%andb_true_iff.
  by rewrite sanitize_ascii, IH.
Qed.

(** A well-formed sequence is copied. *)
Lemma sanitize_sequence s k u : rune_len s = S k →
  sanitize_utf8 (stake (S k) s +:+ u) = stake (S k) s +:+ sanitize_utf8 u.
Proof.
  intros Hk. pose proof (rune_len_head _ _ Hk) as Ha. destruct (rune_len_spec s k Hk) as [Hl Hr].
  destruct s as [|c s]; [done|].
  specialize (Hr u). cbn [stake String.append] in *. unfold sanitize_utf8. cbn [to_utf8].
  simpl in Ha. rewrite Ha, Hr, to_utf8_skip. f_equal.
  assert (E : String.length (stake k s) = k) by (rewrite stake_length; simpl in Hl; lia).
  assert (∀ t u, stake (String.length t) (t +:+ u) = t) as Hst by (induction t; simpl; intros; by f_equal).
  pose proof (Hst (stake k s) u) as E1. pose proof (sdrop_app (stake k s) u) as E2.
  rewrite E in E1, E2. by rewrite E1, E2.
Qed.

Lemma sanitize_bad c r : is_ascii c = false → rune_len (String c r) = 0%nat →
  sanitize_utf8 (String c r) = rune_error +:+ sanitize_utf8 r.
Proof. intros Hc Hk. unfold sanitize_utf8. cbn [to_utf8]. by rewrite Hc, Hk. Qed.

(** The text of a string is a sequence, an ASCII byte or an error, and the rest. *)
Lemma utf8_ind (P : string → Prop) :
  P "" → (∀ c r, is_ascii c = true → P r → P (String c r)) →
  (∀ s k, rune_len s = S k → P (sdrop (S k) s) → P s) →
  (∀ c r, is_ascii c = false → rune_len (String c r) = 0%nat → P r → P (String c r)) → ∀ s, P s.
Proof.
  intros H0 Ha Hm Hb. induction s as [s IH] using string_ind_length. destruct s as [|c r]; [done|].
  destruct (is_ascii c) eqn:Hc; [apply Ha, IH; simpl; by try lia|].
  destruct (rune_len (String c r)) as [|k] eqn:Hk; [apply Hb, IH; simpl; by try lia|].
  apply (Hm _ k Hk), IH. simpl. pose proof (sdrop_length k r). lia.
Qed.

(** What was sanitized is well formed. *)
Lemma sanitize_idem s u : sanitize_utf8 (sanitize_utf8 s +:+ u) = sanitize_utf8 s +:+ sanitize_utf8 u.
Proof.
  induction s as [|c r Hc IH|s k Hk IH|c r Hc Hk IH] using utf8_ind; [done| | |].
  - rewrite sanitize_ascii by done. cbn [String.append]. by rewrite sanitize_ascii, IH.
  - pose proof (sanitize_sequence s k (sdrop (S k) s) Hk) as E. rewrite stake_sdrop in E.
    rewrite E, <- !app_assoc_s, (sanitize_sequence _ _ _ Hk), IH. done.
  - rewrite sanitize_bad, <- !app_assoc_s by done.
    pose proof (sanitize_sequence rune_error 2 (sanitize_utf8 r +:+ u) eq_refl) as E.
    change (stake 3 rune_error) with rune_error in E. by rewrite E, IH.
Qed.

Lemma valid_sanitize s : valid_utf8 (sanitize_utf8 s) = true.
Proof.
  unfold valid_utf8. apply String.eqb_eq. pose proof (sanitize_idem s "") as H.
  rewrite !app_nil_r_s in H. done.
Qed.

Lemma valid_utf8_eq s : valid_utf8 s = true ↔ sanitize_utf8 s = s.
Proof. apply String.eqb_eq. Qed.

Lemma valid_app s t : valid_utf8 s = true → valid_utf8 t = true → valid_utf8 (s +:+ t) = true.
Proof.
  rewrite !valid_utf8_eq. intros Hs Ht. rewrite <- Hs at 1. by rewrite sanitize_idem, Hs, Ht.
Qed.

Lemma valid_ascii s : sall is_ascii s = true → valid_utf8 s = true.
Proof.
  intros H. apply valid_utf8_eq. rewrite <- (app_nil_r_s s) at 1. rewrite sanitize_ascii_app by done.
  apply app_nil_r_s.
Qed.

Lemma sanitize_empty s : String.eqb (sanitize_utf8 s) "" = String.eqb s "".
Proof.
  destruct s as [|c r]; [done|]. unfold sanitize_utf8. cbn [to_utf8].
  destruct (is_ascii c); [done|]. by destruct (rune_len _).
Qed.

(** ** The members of a map *)

Lemma insert_key_perm {A} (kv : string * A) l : insert_key kv l ≡ₚ kv :: l.
Proof.
  induction l as [|kv' l IH]; [done|]. simpl. destruct (String.leb _ _); [done|]. rewrite IH. apply perm_swap.
Qed.

Lemma sorted_entries_perm {A} (m : gmap string A) : sorted_entries m ≡ₚ map_to_list m.
Proof.
  unfold sorted_entries. induction (map_to_list m) as [|kv l IH]; [done|]. simpl.
  by rewrite insert_key_perm, IH.
Qed.

Lemma insert_key_fmap {A B} (f : A → B) kv l :
  insert_key (prod_map id f kv) (prod_map id f <$> l) = prod_map id f <$> insert_key kv l.
Proof.
  induction l as [|kv' l IH]; [done|]. rewrite fmap_cons. simpl.
  destruct (String.leb _ _); rewrite ?fmap_cons; congruence.
Qed.

Lemma sorted_entries_fmap {A B} (f : A → B) (m : gmap string A) :
  sorted_entries (f <$> m) = prod_map id f <$> sorted_entries m.
Proof.
  unfold sorted_entries. rewrite map_to_list_fmap. induction (map_to_list m) as [|kv l IH]; [done|].
  rewrite fmap_cons. cbn [foldr]. by rewrite IH, insert_key_fmap.
Qed.

Lemma foldl_insert_map {A} (l : list (string * A)) (acc : gmap string A) : NoDup l.*1 →
  foldl (fun m kv => <[kv.1 := kv.2]> m) acc l = list_to_map l ∪ acc.
Proof.
  revert acc. induction l as [|[k i] l IH]; intros acc; [by rewrite list_to_map_nil, (left_id_L ∅ (∪))|].
  simpl. intros [Hk Hl]%NoDup_cons. rewrite IH by done. rewrite <- insert_union_l.
  rewrite insert_union_r by by apply not_elem_of_list_to_map_1. done.
Qed.

(** Inserting the entries of a map one by one gives the map. *)
Lemma fold_sorted_entries {A} (m : gmap string A) :
  foldl (fun m kv => <[kv.1 := kv.2]> m) ∅ (sorted_entries m) = m.
Proof.
  rewrite foldl_insert_map by (rewrite sorted_entries_perm; apply NoDup_fst_map_to_list).
  rewrite (right_id_L ∅ (∪)), (list_to_map_proper _ (map_to_list m)); [apply list_to_map_to_list| |apply sorted_entries_perm].
  rewrite sorted_entries_perm. apply NoDup_fst_map_to_list.
Qed.
