(* ===== verification/JsonRead.v ===== *)
(** * Facts about the decoder of encoding/json

    What is decoded is well-formed UTF-8, whatever the bytes; a text that was cut off
    does not decode; the parser never runs out of fuel. *)

From S2P Require Import Prelude GoStrings Json JsonFacts.

(** ** Decoded texts are well formed *)

Lemma valid_sequence s k : rune_len s = S k → valid_utf8 (stake (S k) s) = true.
Proof.
  intros Hk. apply valid_utf8_eq. pose proof (sanitize_sequence s k "" Hk) as H.
  by rewrite !app_nil_r_s in H.
Qed.

Lemma hex_val_bound c n : hex_val c = Some n → (n < 16)%N.
Proof.
  intros H. apply (bool_decide_eq_true (n < 16)%N). revert H. by_bytes c; by intros [= <-].
Qed.

Lemma hex4_bound s n r : hex4 s = Some (n, r) → (n < 65536)%N.
Proof.
  unfold hex4. destruct s as [|a [|b [|c [|d s]]]]; try done.
  destruct (hex_val a) as [x|] eqn:Ea; [|done]. destruct (hex_val b) as [y|] eqn:Eb; [|done].
  destruct (hex_val c) as [z|] eqn:Ec; [|done]. destruct (hex_val d) as [w|] eqn:Ed; [|done].
  intros [= <- <-]. apply hex_val_bound in Ea, Eb, Ec, Ed. lia.
Qed.

Lemma between_of_N lo hi x : (x < 256)%N → (lo ≤ x)%N → (x ≤ hi)%N → ascii_between lo hi (ascii_of_N x) = true.
Proof.
  intros Hx H1 H2. unfold ascii_between. rewrite N_ascii_embedding by done.
  by apply andb_true_iff; split; apply N.leb_le.
Qed.

Lemma between_of_N_false lo hi x : (x < 256)%N → (x < lo ∨ hi < x)%N → ascii_between lo hi (ascii_of_N x) = false.
Proof.
  intros Hx H. unfold ascii_between. rewrite N_ascii_embedding by done.
  apply andb_false_iff. destruct H; [left|right]; apply N.leb_gt; lia.
Qed.

(** The three lengths of a multi-byte sequence. *)
Lemma encode_rune_len n : (128 ≤ n)%N → (n < 1114112)%N → in_range 55296 57343 n = false →
  ∃ k, rune_len (encode_rune n) = S k ∧ String.length (encode_rune n) = S k.
Proof.
  intros Hlo Hhi Hs. unfold in_range in Hs. apply andb_false_iff in Hs.
  rewrite !N.leb_gt in Hs. unfold encode_rune.
  rewrite (proj2 (N.ltb_ge n 128)) by lia. destruct (N.ltb_spec n 2048); [|destruct (N.ltb_spec n 65536)].
  - exists 1%nat. split; [|done]. unfold rune_len.
    rewrite between_of_N by div_lia. unfold continuation. by rewrite between_of_N by div_lia.
  - exists 2%nat. split; [|done]. unfold rune_len.
    rewrite between_of_N_false by div_lia. rewrite between_of_N by div_lia.
    unfold second_byte, continuation. rewrite N_ascii_embedding by div_lia.
    rewrite !between_of_N; [done|div_lia..| | |]; [div_lia| |].
    + destruct (N.eqb_spec (224 + n / 4096) 224); [div_lia|]. destruct (N.eqb_spec (224 + n / 4096) 240); div_lia.
    + destruct (N.eqb_spec (224 + n / 4096) 237); [div_lia|]. destruct (N.eqb_spec (224 + n / 4096) 244); div_lia.
  - exists 3%nat. split; [|done]. unfold rune_len.
    rewrite !between_of_N_false by div_lia.
    unfold second_byte, continuation. rewrite N_ascii_embedding by div_lia.
    pose proof (N.Div0.mod_eq (n / 4096) 64) as Em. rewrite N.Div0.div_div in Em.
    change (4096 * 64)%N with 262144%N in Em.
    rewrite !between_of_N; try div_lia; [done|..].
    + rewrite (proj2 (N.eqb_neq (240 + n / 262144) 224)) by div_lia.
      destruct (N.eqb_spec (240 + n / 262144) 240); [|div_lia].
      assert (n / 262144 = 0)%N as E0 by lia. rewrite E0 in Em. rewrite Em. div_lia.
    + rewrite (proj2 (N.eqb_neq (240 + n / 262144) 237)) by div_lia.
      destruct (N.eqb_spec (240 + n / 262144) 244); [|div_lia].
      assert (n / 262144 = 4)%N as E0 by lia. rewrite E0 in Em. rewrite Em. div_lia.
Qed.

Lemma valid_encode_rune n : (n < 1114112)%N → in_range 55296 57343 n = false →
  valid_utf8 (encode_rune n) = true.
Proof.
  intros Hn Hs. destruct (N.lt_ge_cases n 128) as [Hlt|Hge].
  - unfold encode_rune. rewrite (proj2 (N.ltb_lt n 128)) by done. apply valid_ascii. cbn [sall].
    unfold is_ascii. by rewrite N_ascii_embedding, (proj2 (N.ltb_lt n 128)) by lia.
  - destruct (encode_rune_len n Hge Hn Hs) as (k & Hk & Hl).
    rewrite <- (stake_all (S k) (encode_rune n)) by lia. by apply valid_sequence.
Qed.

(** The escapes of one letter other than u. *)
Definition escape_one (c : ascii) : option (string * nat) :=
  if Ascii.eqb c dquote then Some (String dquote "", 1)
  else if Ascii.eqb c "\" then Some ("\", 1)
  else if Ascii.eqb c "/" then Some ("/", 1)
  else if Ascii.eqb c "b" then Some (String "008" "", 1)
  else if Ascii.eqb c "f" then Some (String "012" "", 1)
  else if Ascii.eqb c "n" then Some (String lf "", 1)
  else if Ascii.eqb c "r" then Some (String cr "", 1)
  else if Ascii.eqb c "t" then Some (String "009" "", 1)
  else None.

Lemma escape_cases c s : c = "u"%char ∨ escape (String c s) = escape_one c.
Proof. destruct c as [[] [] [] [] [] [] [] []]; (by left) || (by right). Qed.

(** What a surrogate and the text after it stand for. *)
Lemma surrogate_valid x r t n : (x < 65536)%N →
  match r with
  | String "\" (String "u" r) =>
      match hex4 r with
      | Some (m, _) =>
          if in_range 55296 56319 x && in_range 56320 57343 m then
            (encode_rune (65536 + (x - 55296) * 1024 + (m - 56320)), 11%nat)
          else (rune_error, 5%nat)
      | None => (rune_error, 5%nat)
      end
  | _ => (rune_error, 5%nat)
  end = (t, n) → valid_utf8 t = true.
Proof.
  intros Hx. assert (He : ∀ k, (rune_error, k) = (t, n) → valid_utf8 t = true) by by intros k [= <- _].
  destruct r as [|a [|b r]]; [apply He|by destruct a as [[] [] [] [] [] [] [] []]; apply He|].
  destruct a as [[] [] [] [] [] [] [] []]; try apply He.
  destruct b as [[] [] [] [] [] [] [] []]; try apply He.
  destruct (hex4 r) as [[m r']|]; [|apply He]. destruct (_ && _) eqn:E; [|apply He].
  unfold in_range in E. rewrite !andb_true_iff, !N.leb_le in E. intros [= <- _].
  apply valid_encode_rune; [lia|]. unfold in_range. apply andb_false_iff. right. apply N.leb_gt. lia.
Qed.

Lemma escape_valid s t n : escape s = Some (t, n) → valid_utf8 t = true.
Proof.
  destruct s as [|c s]; [done|]. destruct (escape_cases c s) as [-> | ->].
  - cbn [escape]. destruct (hex4 s) as [[x r]|] eqn:Ex; [|done]. cbn [mbind option_bind].
    apply hex4_bound in Ex. destruct (in_range 55296 57343 x) eqn:Es.
    + intros [= E]. by apply (surrogate_valid x r t n).
    + intros [= <- _]. apply valid_encode_rune; [lia|done].
  - unfold escape_one. repeat (destruct (Ascii.eqb c _); [by intros [= <- _]|]). done.
Qed.

Lemma read_string_skips k s : read_string false k s = read_string true 0 (sdrop k s).
Proof. revert k. induction s as [|c s IH]; intros [|k]; try done. apply IH. Qed.

Lemma read_string_copies k s :
  read_string true k s = prepend (stake k s) (read_string true 0 (sdrop k s)).
Proof.
  revert k. induction s as [|c s IH]; intros [|k]; try done; [by rewrite prepend_nil|].
  simpl. rewrite IH. apply prepend_prepend.
Qed.

Lemma prepend_Some t o u r : prepend t o = Some (u, r) → ∃ v, o = Some (v, r) ∧ u = t +:+ v.
Proof. destruct o as [[v r']|]; [|done]. intros [= <- <-]. by exists v. Qed.

Lemma read_string_valid s t r : read_string true 0 s = Some (t, r) → valid_utf8 t = true.
Proof.
  revert t. induction s as [s IH] using string_ind_length. intros t. destruct s as [|c s]; [done|].
  assert (Hrec : ∀ u k, valid_utf8 u = true →
    prepend u (read_string true 0 (sdrop k s)) = Some (t, r) → valid_utf8 t = true).
  { intros u k Hu (v & Hv & ->)%prepend_Some. apply valid_app; [done|].
    apply (IH (sdrop k s)); [pose proof (sdrop_length k s); simpl; lia|done]. }
  destruct (is_ascii c) eqn:Hc.
  - cbn [read_string]. rewrite Hc. destruct (Ascii.eqb c dquote); [by intros [= <- _]|].
    destruct (Ascii.eqb c backslash).
    + destruct (escape s) as [[u k]|] eqn:He; [|done]. rewrite read_string_skips.
      by eapply Hrec, escape_valid.
    + destruct (_ <? 32)%N; [done|]. apply (Hrec (String c "") 0%nat), valid_ascii. cbn [sall]. by rewrite Hc.
  - rewrite read_nonascii by done. destruct (rune_len (String c s)) as [|k] eqn:Hk.
    + by apply (Hrec rune_error 0%nat).
    + rewrite read_string_copies, prepend_prepend.
      apply (Hrec (String c (stake k s)) k). by apply (valid_sequence (String c s) k).
Qed.

Definition utf8_fields (fs : list (string * json)) : list (string * json) :=
  map (fun kv : string * json => let (k, v) := kv in (sanitize_utf8 k, utf8_json v)) fs.

Lemma parse_valid n d :
  (∀ s v r, parse_value n d s = Some (v, r) → utf8_json v = v) ∧
  (∀ s l r, parse_elements n d s = Some (l, r) → map utf8_json l = l) ∧
  (∀ s fs r, parse_members n d s = Some (fs, r) → utf8_fields fs = fs).
Proof.
  revert d. induction n as [|n IH]; intros d; [by split_and!|]. split_and!; intros s x r; cbn [parse_value parse_elements parse_members].
  - destruct (skip_ws s) as [|c s']; [done|]. destruct (IH (N.succ d)) as (_ & IHl & IHf).
    destruct (Ascii.eqb c "{").
    { destruct (10000 <=? d)%N; [done|]. destruct (expect "}" s'); [by intros [= <- _]|].
      destruct (parse_members n (N.succ d) s') as [[fs r']|] eqn:E; [|done]. intros [= <- _].
      cbn [utf8_json]. f_equal. by eapply IHf. }
    destruct (Ascii.eqb c "[").
    { destruct (10000 <=? d)%N; [done|]. destruct (expect "]" s'); [by intros [= <- _]|].
      destruct (parse_elements n (N.succ d) s') as [[l r']|] eqn:E; [|done]. intros [= <- _].
      cbn [utf8_json]. f_equal. by eapply IHl. }
    destruct (Ascii.eqb c dquote).
    { destruct (read_string true 0 s') as [[t r']|] eqn:E; [|done]. intros [= <- _].
      cbn [utf8_json]. f_equal. apply valid_utf8_eq. by eapply read_string_valid. }
    repeat (destruct (String.prefix _ _); [by intros [= <- _]|]).
    destruct (read_number _) as [[lit r']|]; [|done]. by intros [= <- _].
  - destruct (IH d) as (IHv & IHl & _). destruct (parse_value n d s) as [[v r']|] eqn:Ev; [|done].
    apply IHv in Ev. cbn [mbind option_bind]. destruct (expect "," r') as [r2|].
    + destruct (parse_elements n d r2) as [[l r3]|] eqn:El; [|done]. intros [= <- _].
      apply IHl in El. cbn [map]. by rewrite Ev, El.
    + destruct (expect "]" r'); [|done]. intros [= <- _]. cbn [map]. by rewrite Ev.
  - destruct (IH d) as (IHv & _ & IHf). destruct (expect dquote s) as [s1|]; [|done]. cbn [mbind option_bind].
    destruct (read_string true 0 s1) as [[k s2]|] eqn:Ek; [|done].
    apply read_string_valid, valid_utf8_eq in Ek. cbn [mbind option_bind]. destruct (expect ":" s2) as [s3|]; [|done].
    cbn [mbind option_bind]. destruct (parse_value n d s3) as [[v r']|] eqn:Ev; [|done].
    apply IHv in Ev. cbn [mbind option_bind]. unfold utf8_fields in *. destruct (expect "," r') as [r2|].
    + destruct (parse_members n d r2) as [[l r3]|] eqn:El; [|done]. intros [= <- _].
      apply IHf in El. cbn [map]. by rewrite Ek, Ev, El.
    + destruct (expect "}" r'); [|done]. intros [= <- _]. cbn [map]. by rewrite Ek, Ev.
Qed.

(** Whatever the bytes, what is decoded of them is well-formed UTF-8 throughout. *)
Lemma Decode_utf8 s v : Decode s = Some v → utf8_json v = v.
Proof.
  unfold Decode, decode_first. destruct (parse_value _ 0 s) as [[v' r]|] eqn:E; [|done].
  intros [= ->]. by eapply parse_valid.
Qed.

Lemma Unmarshal_Decode s v : Unmarshal s = Some v → Decode s = Some v.
Proof.
  unfold Unmarshal, Decode. destruct (decode_first s) as [[v' r]|]; [|done]. cbn [mbind option_bind].
  destruct (String.eqb _ _); [|done]. by intros [= ->].
Qed.

(** The fields of an object that decodes to itself. *)
Lemma utf8_object fs : utf8_json (JObj fs) = JObj fs → utf8_fields fs = fs.
Proof. cbn [utf8_json]. by intros [= H]. Qed.

Lemma utf8_fields_in fs k v : utf8_fields fs = fs → (k, v) ∈ fs → valid_utf8 k = true ∧ utf8_json v = v.
Proof.
  induction fs as [|[k' v'] fs IH]; cbn [utf8_fields map]; [by intros _ ?%elem_of_nil|].
  intros [= Hk Hv Hf] [[= -> ->]|Hin]%elem_of_cons; [by rewrite valid_utf8_eq|]. by apply IH.
Qed.

Lemma decode_fields_spec {X} (P : X → Prop) name get acc fs x : P acc →
  (∀ k v y, (k, v) ∈ fs → get v = Some y → P y) → decode_fields name get acc fs = Ok x → P x.
Proof.
  revert acc. induction fs as [|[k v] fs IH]; intros acc Ha Hg; [by intros [= <-]|]. cbn [decode_fields].
  assert (Hg' : ∀ k v y, (k, v) ∈ fs → get v = Some y → P y) by (intros; eapply Hg; [by right|done]).
  assert (Hd : ∀ o, (∀ y, o = Some y → P y) → match o with Some y => decode_fields name get y fs
      | None => Err (Errorf "json: cannot unmarshal into Go struct field %s" [name]) end = Ok x → P x).
  { intros [y|] Hy; [|done]. apply IH; auto. }
  destruct (String.eqb _ _); [|by apply IH].
  destruct v; try (apply Hd; intros y; eapply Hg; left). by apply IH.
Qed.

Lemma field_spec {X} (P : X → Prop) name get zero fs x : P zero →
  (∀ k v y, (k, v) ∈ fs → get v = Some y → P y) → field get zero name fs = Some x → P x.
Proof.
  intros Hz Hg. unfold field. destruct (decode_fields _ _ _ _) as [y|] eqn:E; [|done].
  intros [= <-]. by eapply decode_fields_spec.
Qed.

(** A text field of a decoded object is well formed, an integer field fits 64 bits. *)
Lemma str_valid name fs s : utf8_fields fs = fs → str name fs = Some s → valid_utf8 s = true.
Proof.
  intros Hfs. apply (field_spec (fun s => valid_utf8 s = true)); [done|]. intros k v y Hin Hy.
  destruct (utf8_fields_in _ _ _ Hfs Hin) as [_ Hv]. destruct v; simplify_eq/=. apply valid_utf8_eq. congruence.
Qed.

Lemma Atoi_int64 s z : Atoi s = Some z → in_int64 z = true.
Proof. unfold Atoi. repeat case_match; try done; by intros [= <-]. Qed.

Lemma int_valid name fs z : int name fs = Some z → in_int64 z = true.
Proof.
  apply (field_spec (fun z => in_int64 z = true)); [done|]. intros k [] y _; try done. apply Atoi_int64.
Qed.

Lemma json_int_range name body z : decode_field name json_int 0%Z body = Ok z → in_int64 z = true.
Proof.
  unfold decode_field. destruct body as [[]|]; try done; [by intros [= <-]|].
  apply (decode_fields_spec (fun z => in_int64 z = true)); [done|].
  intros k [] y _; try done. apply Atoi_int64.
Qed.

(** ** More text after a value

    What was decoded of a text is decoded of every longer text too, unless it is a
    number that the text ended in. *)

Lemma skip_ws_app s c r q : skip_ws s = String c r → skip_ws (s +:+ q) = String c (r +:+ q).
Proof.
  unfold skip_ws. induction s as [|a s IH]; [done|]. simpl. destruct (is_ws a); [done|]. by intros [= -> ->].
Qed.

Lemma expect_app c s r q : expect c s = Some r → expect c (s +:+ q) = Some (r +:+ q).
Proof.
  unfold expect. destruct (skip_ws s) as [|a x] eqn:E; [done|]. rewrite (skip_ws_app _ _ _ q E).
  destruct (Ascii.eqb a c); [|done]. by intros [= ->].
Qed.

Lemma expect_not_app c s q : skip_ws s ≠ "" → expect c s = None → expect c (s +:+ q) = None.
Proof.
  unfold expect. destruct (skip_ws s) as [|a x] eqn:E; [done|]. rewrite (skip_ws_app _ _ _ q E).
  by destruct (Ascii.eqb a c).
Qed.

Lemma expect_nonempty c s r : expect c s = Some r → skip_ws s ≠ "".
Proof. unfold expect. by destruct (skip_ws s). Qed.

Lemma skip_ws_nonempty s : skip_ws s ≠ "" → s ≠ "".
Proof. by intros H ->. Qed.

Lemma sdrop_app_le k s q : (k ≤ String.length s)%nat → sdrop k (s +:+ q) = sdrop k s +:+ q.
Proof. revert s. induction k as [|k IH]; intros [|c s] H; simpl in *; try done; [lia|]. apply IH. lia. Qed.

Lemma sdrop_over k s : (String.length s ≤ k)%nat → sdrop k s = "".
Proof. revert s. induction k as [|k IH]; intros [|c s] H; simpl in *; try done; [lia|]. apply IH. lia. Qed.

Lemma stake_app_le k s q : (k ≤ String.length s)%nat → stake k (s +:+ q) = stake k s.
Proof.
  revert s. induction k as [|k IH]; intros [|c s] H; simpl in *; try done; [lia|]. f_equal. apply IH. lia.
Qed.

(** *** Literals *)

Lemma read_string_bound k s t r : read_string true 0 (sdrop k s) = Some (t, r) → (k < String.length s)%nat.
Proof.
  intros H. destruct (Nat.lt_ge_cases k (String.length s)) as [|Hge]; [done|].
  by rewrite sdrop_over in H.
Qed.

(** The bytes of a sequence are not ASCII. *)
Lemma continuation_ascii x : is_ascii x = true → continuation x = false.
Proof. by_bytes x. Qed.

Lemma second_byte_ascii c x : is_ascii x = true → second_byte c x = false.
Proof.
  unfold second_byte. intros H. unfold ascii_between.
  assert (Hx : (N_of_ascii x < 128)%N) by (revert H; by_bytes x).
  repeat match goal with |- context [if ?e then _ else _] => destruct e end;
    apply andb_false_iff; left; apply N.leb_gt; lia.
Qed.

Lemma rune_len_second c x s : is_ascii x = true → rune_len (String c (String x s)) = 0%nat.
Proof.
  intros Hx. unfold rune_len. rewrite continuation_ascii, second_byte_ascii by done. simpl.
  rewrite andb_false_r. repeat case_match; done.
Qed.

Lemma rune_len_third c x y s : is_ascii y = true → rune_len (String c (String x "")) = 0%nat →
  rune_len (String c (String x (String y s))) = 0%nat.
Proof.
  intros Hy. unfold rune_len. rewrite (continuation_ascii y) by done.
  destruct (ascii_between 194 223 c); [done|]. intros _. rewrite andb_false_r.
  destruct (ascii_between 224 239 c); [done|]. destruct s; [done|]. by rewrite !andb_false_r.
Qed.

(** A literal that ends holds a quotation mark, which no sequence contains. *)
Lemma rune_len_end c s q t r : read_string true 0 s = Some (t, r) →
  rune_len (String c s) = 0%nat → rune_len (String c (s +:+ q)) = 0%nat.
Proof.
  destruct s as [|x [|y [|z s]]]; [done| | |done]; cbn [String.append].
  - intros H _. destruct (is_ascii x) eqn:Hx; [by apply rune_len_second|]. rewrite read_nonascii in H by done.
    discriminate H.
  - intros H Hc. destruct (is_ascii x) eqn:Hx; [by apply rune_len_second|].
    destruct (is_ascii y) eqn:Hy.
    + apply rune_len_third; [done|]. revert Hc. unfold rune_len. by destruct (ascii_between 194 223 c).
    + rewrite read_nonascii in H by done. destruct (rune_len (String x (String y ""))) as [|k] eqn:E.
      * rewrite read_nonascii in H by done. discriminate H.
      * destruct k; [|discriminate H]. revert E. unfold rune_len. by repeat case_match.
Qed.

(** The escapes that a literal goes on after. *)
Lemma hex4_app s n r q : hex4 s = Some (n, r) → hex4 (s +:+ q) = Some (n, r +:+ q).
Proof.
  destruct s as [|a [|b [|c [|d s]]]]; try done. cbn [hex4 String.append].
  destruct (hex_val a), (hex_val b), (hex_val c), (hex_val d); try done. by intros [= <- <-].
Qed.

Lemma hex4_drop s n r : hex4 s = Some (n, r) → r = sdrop 4 s.
Proof.
  destruct s as [|a [|b [|c [|d s]]]]; try done. cbn [hex4].
  destruct (hex_val a), (hex_val b), (hex_val c), (hex_val d); try done. by intros [= <- <-].
Qed.

(** What a surrogate stands for, after the text that must follow it was read. *)
Definition surrogate (x : N) (r : string) : string * nat :=
  match r with
  | String "\" (String "u" r) =>
      match hex4 r with
      | Some (m, _) =>
          if in_range 55296 56319 x && in_range 56320 57343 m then
            (encode_rune (65536 + (x - 55296) * 1024 + (m - 56320)), 11%nat)
          else (rune_error, 5%nat)
      | None => (rune_error, 5%nat)
      end
  | _ => (rune_error, 5%nat)
  end.

Lemma surrogate_app x r q t r' : (surrogate x r).2 = 5%nat → read_string true 0 r = Some (t, r') →
  surrogate x (r +:+ q) = surrogate x r.
Proof.
  destruct r as [|a [|b r]]; [done| |].
  - intros _. cbn [String.append]. destruct a as [[] [] [] [] [] [] [] []]; try done.
  - intros H5. cbn [String.append]. destruct a as [[] [] [] [] [] [] [] []]; try done.
    destruct b as [[] [] [] [] [] [] [] []]; try done. cbn [surrogate] in *.
    destruct (hex4 r) as [[m r1]|] eqn:E; [by rewrite (hex4_app _ _ _ q E)|].
    cbn [read_string escape]. by rewrite E.
Qed.

Lemma surrogate_pair x r q : (surrogate x r).2 ≠ 5%nat → surrogate x (r +:+ q) = surrogate x r.
Proof.
  destruct r as [|a [|b r]]; [by intros []| |].
  - intros []. by destruct a as [[] [] [] [] [] [] [] []].
  - cbn [String.append]. destruct a as [[] [] [] [] [] [] [] []]; try done.
    destruct b as [[] [] [] [] [] [] [] []]; try done. cbn [surrogate] in *.
    destruct (hex4 r) as [[m r1]|] eqn:E; [by rewrite (hex4_app _ _ _ q E)|]. by intros [].
Qed.

Lemma escape_app s u k t r q : escape s = Some (u, k) → read_string true 0 (sdrop k s) = Some (t, r) →
  escape (s +:+ q) = Some (u, k).
Proof.
  destruct s as [|c s]; [done|]. cbn [String.append]. destruct (ascii_dec c "u") as [->|Hc].
  - cbn [escape]. destruct (hex4 s) as [[x r1]|] eqn:Ex; [|done]. rewrite (hex4_app _ _ _ q Ex).
    cbn [mbind option_bind]. destruct (in_range 55296 57343 x); [|done].
    pose proof (hex4_drop _ _ _ Ex) as Hr1.
    change (Some (surrogate x r1) = Some (u, k) → read_string true 0 (sdrop k (String "u" s)) = Some (t, r) →
      Some (surrogate x (r1 +:+ q)) = Some (u, k)).
    intros [= E] Hr. rewrite <- E. f_equal.
    destruct (decide (k = 5%nat)) as [->|Hk].
    + apply (surrogate_app x r1 q t r); [by rewrite E|by rewrite Hr1].
    + apply surrogate_pair. by rewrite E.
  - destruct (escape_cases c s) as [|E]; [done|]. destruct (escape_cases c (s +:+ q)) as [|E']; [done|].
    by rewrite E, E'.
Qed.

Lemma read_string_app s t r q : read_string true 0 s = Some (t, r) →
  read_string true 0 (s +:+ q) = Some (t, r +:+ q).
Proof.
  revert t. induction s as [s IH] using string_ind_length. intros t. destruct s as [|c s]; [done|].
  cbn [String.append].
  assert (Hrec : ∀ u k, (k ≤ String.length s)%nat →
    prepend u (read_string true 0 (sdrop k s)) = Some (t, r) →
    prepend u (read_string true 0 (sdrop k (s +:+ q))) = Some (t, r +:+ q)).
  { intros u k Hk (v & Hv & ->)%prepend_Some. rewrite sdrop_app_le by done.
    rewrite (IH (sdrop k s)) with (t := v); [done| |done]. pose proof (sdrop_length k s). simpl. lia. }
  destruct (is_ascii c) eqn:Hc.
  - cbn [read_string]. rewrite Hc. destruct (Ascii.eqb c dquote); [by intros [= <- <-]|].
    destruct (Ascii.eqb c backslash).
    + destruct (escape s) as [[u k]|] eqn:He; [|done]. rewrite !read_string_skips. intros H.
      destruct (prepend_Some _ _ _ _ H) as (v & Hv & _).
      rewrite (escape_app _ _ _ _ _ q He Hv), read_string_skips. apply Hrec; [|done].
      apply Nat.lt_le_incl. by eapply read_string_bound.
    + destruct (_ <? 32)%N; [done|]. apply (Hrec (String c "") 0%nat). lia.
  - rewrite !read_nonascii by done. destruct (rune_len (String c s)) as [|k] eqn:Hk.
    + intros H. destruct (prepend_Some _ _ _ _ H) as (v & Hv & _).
      rewrite (rune_len_end _ _ q _ _ Hv Hk). apply (Hrec rune_error 0%nat); [lia|done].
    + destruct (rune_len_spec _ _ Hk) as [Hl Hx]. specialize (Hx (sdrop k s +:+ q)). simpl in Hl.
      cbn [stake String.append] in Hx. rewrite app_assoc_s, stake_sdrop in Hx. rewrite Hx.
      rewrite (read_string_copies k s), (read_string_copies k (s +:+ q)), !prepend_prepend, stake_app_le by lia.
      apply Hrec. lia.
Qed.

(** *** Numbers *)

Lemma span_app p s a b q : span p s = (a, b) → b ≠ "" → span p (s +:+ q) = (a, b +:+ q).
Proof.
  revert a. induction s as [|c s IH]; intros a; [by intros [= <- <-]|]. simpl. destruct (p c).
  - destruct (span p s) as [x y]. intros [= <- <-] Hb. by rewrite (IH x eq_refl Hb).
  - by intros [= <- <-] _.
Qed.

Lemma digits1_app s a b q : digits1 s = Some (a, b) → b ≠ "" → digits1 (s +:+ q) = Some (a, b +:+ q).
Proof.
  unfold digits1. destruct (span is_digit s) as [x y] eqn:E. destruct (String.eqb x "") eqn:Ex; [done|].
  intros [= <- <-] Hb. by rewrite (span_app _ _ _ _ q E Hb), Ex.
Qed.

(** The parts of a number leave something when the next part does. *)
Lemma int_part_app s a b q : int_part s = Some (a, b) → b ≠ "" → int_part (s +:+ q) = Some (a, b +:+ q).
Proof.
  destruct s as [|c s]; [done|]. cbn [int_part String.append]. destruct (Ascii.eqb c "0"); [by intros [= <- <-]|].
  apply (digits1_app (String c s)).
Qed.

Lemma frac_part_app s a b q : frac_part s = Some (a, b) → b ≠ "" →
  s ≠ "" ∧ frac_part (s +:+ q) = Some (a, b +:+ q).
Proof.
  destruct s as [|c s]; [by intros [= <- <-]|]. cbn [frac_part String.append]. intros H Hb. split; [done|].
  revert H. destruct (Ascii.eqb c "."); [|by intros [= <- <-]].
  intros (v & Hv & ->)%prepend_Some. by rewrite (digits1_app _ _ _ q Hv Hb).
Qed.

Lemma exp_part_app s a b q : exp_part s = Some (a, b) → b ≠ "" →
  s ≠ "" ∧ exp_part (s +:+ q) = Some (a, b +:+ q).
Proof.
  destruct s as [|c s]; [by intros [= <- <-]|]. cbn [exp_part String.append]. intros H Hb. split; [done|].
  revert H. destruct (_ || _); [|by intros [= <- <-]].
  assert (Hs : ∀ sg r, sign_part false s = (sg, r) → r ≠ "" → sign_part false (s +:+ q) = (sg, r +:+ q)).
  { destruct s as [|d s]; [by intros sg r [= <- <-]|]. cbn [sign_part String.append]. intros sg r.
    destruct (_ || _); by intros [= <- <-]. }
  destruct (sign_part false s) as [sg r] eqn:Es. intros (v & Hv & ->)%prepend_Some.
  rewrite (Hs sg r eq_refl) by by intros ->. by rewrite (digits1_app _ _ _ q Hv Hb).
Qed.

Lemma read_number_app s lit r q : read_number s = Some (lit, r) → r ≠ "" →
  read_number (s +:+ q) = Some (lit, r +:+ q).
Proof.
  unfold read_number. intros H Hr.
  assert (Hs : ∀ sg x, sign_part true s = (sg, x) → x ≠ "" → sign_part true (s +:+ q) = (sg, x +:+ q)).
  { destruct s as [|d s]; [by intros sg x [= <- <-]|]. cbn [sign_part String.append]. intros sg x.
    destruct (_ || _); by intros [= <- <-]. }
  destruct (sign_part true s) as [sg s1] eqn:Es.
  destruct (int_part s1) as [[i s2]|] eqn:Ei; [|done]. cbn [mbind option_bind] in H.
  destruct (frac_part s2) as [[f s3]|] eqn:Ef; [|done]. cbn [mbind option_bind] in H.
  destruct (exp_part s3) as [[e s4]|] eqn:Ee; [|done]. cbn [mbind option_bind] in H. simplify_eq.
  destruct (exp_part_app _ _ _ q Ee Hr) as [H3 Ee']. destruct (frac_part_app _ _ _ q Ef H3) as [H2 Ef'].
  rewrite (Hs sg s1 eq_refl) by by intros ->. rewrite (int_part_app _ _ _ q Ei H2). cbn [mbind option_bind].
  rewrite Ef'. cbn [mbind option_bind]. by rewrite Ee'.
Qed.

(** *** Values *)

Lemma prefix_more p s q : String.prefix p s = true → String.prefix p (s +:+ q) = true ∧
  sdrop (String.length p) (s +:+ q) = sdrop (String.length p) s +:+ q.
Proof.
  revert s. induction p as [|c p IH]; intros [|d s]; try done; cbn [String.prefix String.append].
  - by destruct q.
  - destruct (ascii_dec c d); [|done]. intros H. by apply IH.
Qed.

(** A text that becomes a keyword only when it grows is no number either. *)
Lemma keyword_app p s q x : p ∈ ["null"; "true"; "false"] → read_number s = Some x →
  String.prefix p s = false → String.prefix p (s +:+ q) = false.
Proof.
  intros Hp Hn _. destruct s as [|c s]; [done|]. cbn [String.append].
  destruct (String.prefix p _) eqn:E; [|done]. exfalso. revert Hn.
  rewrite !elem_of_cons in Hp. destruct Hp as [-> |[-> |[-> |Hp]]]; [..|by apply elem_of_nil in Hp];
    cbn [String.prefix] in E;
    match type of E with context [ascii_dec ?a c] => destruct (ascii_dec a c) as [<-|]; [done|done] end.
Qed.

Definition is_num (v : json) : bool := match v with JNum _ => true | _ => false end.

(** The keywords and numbers: what is no bracket and no quotation mark. *)
Definition parse_word (s : string) : option (json * string) :=
  if String.prefix "null" s then Some (JNull, sdrop 4 s)
  else if String.prefix "true" s then Some (JBool true, sdrop 4 s)
  else if String.prefix "false" s then Some (JBool false, sdrop 5 s)
  else '(lit, r) ← read_number s; Some (JNum lit, r).

Lemma prefix_head a p c s : String.prefix (String a p) (String c s) = true → c = a.
Proof. cbn [String.prefix]. by destruct (ascii_dec a c). Qed.

Lemma parse_word_app s v r q : parse_word s = Some (v, r) → is_num v = false ∨ r ≠ "" →
  parse_word (s +:+ q) = Some (v, r +:+ q).
Proof.
  destruct s as [|c s]; [done|]. unfold parse_word.
  destruct (String.prefix "null" (String c s)) eqn:E1.
  { destruct (prefix_more _ _ q E1) as [-> E]. intros [= <- <-] _. exact (f_equal (fun r => Some (JNull, r)) E). }
  destruct (String.prefix "true" (String c s)) eqn:E2.
  { destruct (prefix_more _ _ q E2) as [-> E]. apply prefix_head in E2 as ->.
    intros [= <- <-] _. exact (f_equal (fun r => Some (JBool true, r)) E). }
  destruct (String.prefix "false" (String c s)) eqn:E3.
  { destruct (prefix_more _ _ q E3) as [-> E]. apply prefix_head in E3 as ->.
    intros [= <- <-] _. exact (f_equal (fun r => Some (JBool false, r)) E). }
  destruct (read_number _) as [[lit r']|] eqn:En; [|done]. intros [= <- <-] [|Hr]; [done|].
  rewrite (keyword_app "null" _ q _ ltac:(by repeat constructor) En E1),
    (keyword_app "true" _ q _ ltac:(by repeat constructor) En E2),
    (keyword_app "false" _ q _ ltac:(by repeat constructor) En E3).
  by rewrite (read_number_app _ _ _ q En Hr).
Qed.

Lemma parse_value_head n d s v r : parse_value n d s = Some (v, r) → skip_ws s ≠ "".
Proof. destruct n; [done|]. cbn [parse_value]. by destruct (skip_ws s). Qed.

Lemma parse_elements_head n d s l r : parse_elements n d s = Some (l, r) → skip_ws s ≠ "".
Proof.
  destruct n; [done|]. cbn [parse_elements]. destruct (parse_value n d s) as [[v r']|] eqn:E; [|done].
  intros _. by eapply parse_value_head.
Qed.

Lemma parse_members_head n d s l r : parse_members n d s = Some (l, r) → skip_ws s ≠ "".
Proof.
  destruct n; [done|]. cbn [parse_members]. destruct (expect dquote s) eqn:E; [|done].
  intros _. by eapply expect_nonempty.
Qed.

(** After an element or a member: a comma and more, or the closing bracket. *)
Lemma rest_app {X} c (r0 q : string) (one : X) (parse : string → option (X * string)) x r :
  (∀ r1 x r, parse r1 = Some (x, r) → parse (r1 +:+ q) = Some (x, r +:+ q)) →
  match expect "," r0 with
  | Some r1 => parse r1
  | None => r1 ← expect c r0; Some (one, r1)
  end = Some (x, r) →
  match expect "," (r0 +:+ q) with
  | Some r1 => parse r1
  | None => r1 ← expect c (r0 +:+ q); Some (one, r1)
  end = Some (x, r +:+ q).
Proof.
  intros Hp. destruct (expect "," r0) as [r1|] eqn:E.
  - rewrite (expect_app _ _ _ q E). apply Hp.
  - destruct (expect c r0) as [r1|] eqn:Ec; [|done]. intros [= <- <-].
    rewrite expect_not_app by (done || by eapply expect_nonempty). by rewrite (expect_app _ _ _ q Ec).
Qed.

Lemma parse_app n q : ∀ d,
  (∀ s v r, parse_value n d s = Some (v, r) → is_num v = false ∨ r ≠ "" →
     parse_value n d (s +:+ q) = Some (v, r +:+ q)) ∧
  (∀ s l r, parse_elements n d s = Some (l, r) → parse_elements n d (s +:+ q) = Some (l, r +:+ q)) ∧
  (∀ s fs r, parse_members n d s = Some (fs, r) → parse_members n d (s +:+ q) = Some (fs, r +:+ q)).
Proof.
  induction n as [|n IH]; intros d; [by split_and!|].
  assert (Hv : ∀ s v r r0 c, parse_value n d s = Some (v, r) → expect c r = Some r0 →
    parse_value n d (s +:+ q) = Some (v, r +:+ q)).
  { intros s v r r0 c Hs Hc. apply (IH d); [done|]. right. by eapply skip_ws_nonempty, expect_nonempty. }
  split_and!; intros s x r; cbn [parse_value parse_elements parse_members].
  - destruct (skip_ws s) as [|c s'] eqn:Es; [done|]. rewrite (skip_ws_app _ _ _ q Es).
    destruct (IH (N.succ d)) as (_ & IHl & IHf).
    destruct (Ascii.eqb c "{").
    { destruct (10000 <=? d)%N; [done|]. destruct (expect "}" s') as [r1|] eqn:E1.
      - intros [= <- <-] _. by rewrite (expect_app _ _ _ q E1).
      - destruct (parse_members n (N.succ d) s') as [[fs r']|] eqn:E; [|done]. intros [= <- <-] _.
        rewrite expect_not_app by (done || by eapply parse_members_head). by rewrite (IHf _ _ _ E). }
    destruct (Ascii.eqb c "[").
    { destruct (10000 <=? d)%N; [done|]. destruct (expect "]" s') as [r1|] eqn:E1.
      - intros [= <- <-] _. by rewrite (expect_app _ _ _ q E1).
      - destruct (parse_elements n (N.succ d) s') as [[l r']|] eqn:E; [|done]. intros [= <- <-] _.
        rewrite expect_not_app by (done || by eapply parse_elements_head). by rewrite (IHl _ _ _ E). }
    destruct (Ascii.eqb c dquote).
    { destruct (read_string true 0 s') as [[t r']|] eqn:E; [|done]. intros [= <- <-] _.
      by rewrite (read_string_app _ _ _ q E). }
    apply (parse_word_app (String c s')).
  - destruct (parse_value n d s) as [[v r']|] eqn:Ev; [|done]. cbn [mbind option_bind]. intros H.
    assert (Hr : ∃ c r0, expect c r' = Some r0).
    { destruct (expect "," r') as [r0|] eqn:E; [by eexists _, _|]. destruct (expect "]" r') as [r0|] eqn:E2; [|done].
      by eexists _, _. }
    destruct Hr as (c & r0 & Hr). rewrite (Hv _ _ _ _ _ Ev Hr). cbn [mbind option_bind].
    revert H. apply (rest_app "]" r' q [v] (fun r1 => '(l, r) ← parse_elements n d r1; Some (v :: l, r))).
    intros r1 y r2. destruct (parse_elements n d r1) as [[l r3]|] eqn:El; [|done].
    destruct (IH d) as (_ & IHl & _). rewrite (IHl _ _ _ El). by intros [= <- <-].
  - destruct (expect dquote s) as [s1|] eqn:E1; [|done]. rewrite (expect_app _ _ _ q E1).
    cbn [mbind option_bind]. destruct (read_string true 0 s1) as [[k s2]|] eqn:E2; [|done].
    rewrite (read_string_app _ _ _ q E2). cbn [mbind option_bind].
    destruct (expect ":" s2) as [s3|] eqn:E3; [|done]. rewrite (expect_app _ _ _ q E3). cbn [mbind option_bind].
    destruct (parse_value n d s3) as [[v r']|] eqn:Ev; [|done]. cbn [mbind option_bind]. intros H.
    assert (Hr : ∃ c r0, expect c r' = Some r0).
    { destruct (expect "," r') as [r0|] eqn:E; [by eexists _, _|]. destruct (expect "}" r') as [r0|] eqn:E'; [|done].
      by eexists _, _. }
    destruct Hr as (c & r0 & Hr). rewrite (Hv _ _ _ _ _ Ev Hr). cbn [mbind option_bind].
    revert H. apply (rest_app "}" r' q [(k, v)] (fun r1 => '(l, r) ← parse_members n d r1; Some ((k, v) :: l, r))).
    intros r1 y r2. destruct (parse_members n d r1) as [[l r3]|] eqn:El; [|done].
    destruct (IH d) as (_ & _ & IHf). rewrite (IHf _ _ _ El). by intros [= <- <-].
Qed.

(** More fuel changes nothing. *)
Lemma parse_fuel n : ∀ d,
  (∀ s x, parse_value n d s = Some x → parse_value (S n) d s = Some x) ∧
  (∀ s x, parse_elements n d s = Some x → parse_elements (S n) d s = Some x) ∧
  (∀ s x, parse_members n d s = Some x → parse_members (S n) d s = Some x).
Proof.
  induction n as [|n IH]; intros d; [by split_and!|]. split_and!; intros s x H.
  - remember (S n) as m eqn:Em. cbn [parse_value]. subst m. cbn [parse_value] in H.
    destruct (IH (N.succ d)) as (_ & IHl & IHf). repeat case_match; try done.
    + destruct (parse_members n _ _) as [y|] eqn:E; [|done]. by rewrite (IHf _ _ E).
    + destruct (parse_elements n _ _) as [y|] eqn:E; [|done]. by rewrite (IHl _ _ E).
  - remember (S n) as m eqn:Em. cbn [parse_elements]. subst m. cbn [parse_elements] in H.
    destruct (IH d) as (IHv & IHl & _). destruct (parse_value n d s) as [[v r]|] eqn:E; [|done].
    rewrite (IHv _ _ E). cbn [mbind option_bind] in *. destruct (expect "," r) as [r1|]; [|done].
    destruct (parse_elements n d r1) as [y|] eqn:E'; [|done]. by rewrite (IHl _ _ E').
  - remember (S n) as m eqn:Em. cbn [parse_members]. subst m. cbn [parse_members] in H.
    destruct (IH d) as (IHv & _ & IHf). destruct (expect dquote s) as [r0|]; [|done]. cbn [mbind option_bind] in *.
    destruct (read_string true 0 r0) as [[k r1]|]; [|done]. cbn [mbind option_bind] in *.
    destruct (expect ":" r1) as [r2|]; [|done]. cbn [mbind option_bind] in *.
    destruct (parse_value n d r2) as [[v r]|] eqn:E; [|done].
    rewrite (IHv _ _ E). cbn [mbind option_bind] in *. destruct (expect "," r) as [r3|]; [|done].
    destruct (parse_members n d r3) as [y|] eqn:E'; [|done]. by rewrite (IHf _ _ E').
Qed.

Lemma parse_more_fuel n m d s x : (n ≤ m)%nat → parse_value n d s = Some x → parse_value m d s = Some x.
Proof. induction 1 as [|m _ IH]; [done|]. intros H. by apply parse_fuel, IH. Qed.

Lemma decode_first_app s v r q : decode_first s = Some (v, r) → is_num v = false ∨ r ≠ "" →
  decode_first (s +:+ q) = Some (v, r +:+ q).
Proof.
  unfold decode_first. intros H Hv.
  destruct (parse_app (2 + 2 * String.length s) q 0) as (Ha & _). apply (Ha _ _ _ H) in Hv.
  eapply parse_more_fuel, Hv. rewrite length_app_s. lia.
Qed.

Lemma parse_brace n d s v r : parse_value n d (String "{" s) = Some (v, r) → is_num v = false.
Proof.
  destruct n as [|n]; [done|]. cbn [parse_value]. change (skip_ws (String "{" s)) with (String "{" s).
  cbv beta iota. change (Ascii.eqb "{" "{") with true. cbv iota. destruct (10000 <=? d)%N; [done|].
  destruct (expect "}" s); [by intros [= <- _]|].
  destruct (parse_members _ _ _) as [[fs r']|]; [|done]. by intros [= <- _].
Qed.

(** A text whose value ends with its last byte does not decode when it is cut off:
    neither from a stream nor as a whole. *)
Lemma cut_off_undecodable p q v : decode_first (p +:+ q) = Some (v, "") → q ≠ "" →
  head_ok (fun c => Ascii.eqb c "{") (p +:+ q) = true → Decode p = None.
Proof.
  intros H Hq Hb. unfold Decode. destruct (decode_first p) as [[v' r]|] eqn:E; [exfalso|done].
  destruct p as [|c p]; [done|]. cbn [String.append head_ok] in Hb. apply Ascii.eqb_eq in Hb as ->.
  pose proof (parse_brace _ _ _ _ _ E) as Hv.
  rewrite (decode_first_app _ _ _ q E (or_introl Hv)) in H. injection H as _ H.
  by destruct r; [|done].
Qed.

(** ** Well-formed values, field by field *)

Definition utf8_field (kv : string * json) : Prop := valid_utf8 kv.1 = true ∧ utf8_json kv.2 = kv.2.

Lemma utf8_fields_Forall fs : utf8_fields fs = fs ↔ Forall utf8_field fs.
Proof.
  split; intros H.
  - apply Forall_forall. intros [k v] Hin. by eapply utf8_fields_in.
  - induction H as [|[k v] fs [Hk Hv] _ IH]; [done|]. unfold utf8_fields in *. cbn [map].
    apply valid_utf8_eq in Hk. simpl in *. by rewrite Hk, Hv, IH.
Qed.

Lemma utf8_members fs : utf8_json (JObj fs) = JObj fs ↔ Forall utf8_field fs.
Proof.
  rewrite <- utf8_fields_Forall. cbn [utf8_json]. fold (utf8_fields fs).
  split; [by intros [= H]|]. by intros ->.
Qed.

Lemma utf8_elements l : utf8_json (JArr l) = JArr l ↔ Forall (fun v => utf8_json v = v) l.
Proof.
  cbn [utf8_json]. split.
  - intros [= H]. induction l as [|v l IH]; [done|]. cbn [map] in H. injection H as Hv Hl. constructor; auto.
  - intros H. f_equal. induction H as [|v l Hv _ IH]; [done|]. cbn [map]. by rewrite Hv, IH.
Qed.

(** ** The fuel of the parser is enough *)

Lemma skip_ws_length s : (String.length (skip_ws s) <= String.length s)%nat.
Proof.
  unfold skip_ws. induction s as [|c s IH]; [done|]. cbn [trim_left].
  destruct (is_ws c); cbn [String.length]; lia.
Qed.

Lemma expect_length c s r : expect c s = Some r → (String.length r < String.length s)%nat.
Proof.
  unfold expect. pose proof (skip_ws_length s) as H. destruct (skip_ws s) as [|a t]; [done|].
  destruct (Ascii.eqb a c); [|done]. intros [= <-]. simpl in H. lia.
Qed.

Lemma prepend_inv u x t r : prepend u x = Some (t, r) → ∃ v, x = Some (v, r).
Proof. destruct x as [[v w]|]; [|done]. intros [= _ <-]. by exists v. Qed.

Lemma read_string_length s : ∀ b k t r, read_string b k s = Some (t, r) → (String.length r < String.length s)%nat.
Proof.
  induction s as [|c s IH]; intros b k t r; [done|]. cbn [read_string String.length]. intros H.
  repeat case_match; simplify_eq; try lia; try (apply prepend_inv in H as [v H]); apply IH in H; lia.
Qed.

Lemma span_length p s : (String.length (span p s).2 <= String.length s)%nat.
Proof. induction s as [|c s IH]; [done|]. cbn [span]. destruct (p c); [|simpl; lia]. destruct (span p s). simpl in *. lia. Qed.

Lemma digits1_length s a b : digits1 s = Some (a, b) → (String.length b <= String.length s)%nat.
Proof.
  unfold digits1. pose proof (span_length is_digit s) as H. destruct (span is_digit s) as [x y].
  destruct (String.eqb x ""); [done|]. by intros [= _ <-].
Qed.

Lemma sign_length b s : (String.length (sign_part b s).2 <= String.length s)%nat.
Proof. destruct s as [|c s]; [done|]. cbn [sign_part]. destruct (_ || _); simpl; lia. Qed.

Lemma read_number_length s t r : read_number s = Some (t, r) → (String.length r <= String.length s)%nat.
Proof.
  unfold read_number. pose proof (sign_length true s) as H0. destruct (sign_part true s) as [sg s0].
  destruct (int_part s0) as [[i s1]|] eqn:Ei; [|done]. cbn [mbind option_bind].
  assert (H1 : (String.length s1 <= String.length s0)%nat).
  { destruct s0 as [|c s0]; [done|]. cbn [int_part] in Ei. destruct (Ascii.eqb c "0"); simplify_eq; [simpl; lia|].
    by apply digits1_length in Ei. }
  destruct (frac_part s1) as [[f s2]|] eqn:Ef; [|done]. cbn [mbind option_bind].
  assert (H2 : (String.length s2 <= String.length s1)%nat).
  { destruct s1 as [|c s1]; cbn [frac_part] in Ef; [by simplify_eq|]. destruct (Ascii.eqb c "."); simplify_eq; [|done].
    apply prepend_inv in Ef as [v Ef]. apply digits1_length in Ef. simpl. lia. }
  destruct (exp_part s2) as [[e s3]|] eqn:Ee; [|done]. cbn [mbind option_bind]. intros [= _ <-].
  assert (H3 : (String.length s3 <= String.length s2)%nat).
  { destruct s2 as [|c s2]; cbn [exp_part] in Ee; [by simplify_eq|]. destruct (_ || _); simplify_eq; [|done].
    pose proof (sign_length false s2) as H3. destruct (sign_part false s2) as [sg' s2'].
    apply prepend_inv in Ee as [v Ee]. apply digits1_length in Ee. simpl in *. lia. }
  simpl in *. lia.
Qed.

(** A parser never gives back more than it was given. *)
Lemma parse_length n : ∀ d s,
  (∀ v r, parse_value n d s = Some (v, r) → (String.length r <= String.length s)%nat) ∧
  (∀ l r, parse_elements n d s = Some (l, r) → (String.length r <= String.length s)%nat) ∧
  (∀ l r, parse_members n d s = Some (l, r) → (String.length r <= String.length s)%nat).
Proof.
  induction n as [|n IH]; intros d s; [by split_and!|]. split_and!; intros v r H.
  - cbn [parse_value] in H. pose proof (skip_ws_length s) as Hs. destruct (skip_ws s) as [|c t] eqn:Et; [done|].
    destruct (IH (N.succ d) t) as (_ & Hl & Hf). cbn [String.length] in Hs.
    destruct (Ascii.eqb c "{").
    { destruct (_ <=? d)%N; [done|]. destruct (expect "}" t) as [r0|] eqn:E.
      - simplify_eq. apply expect_length in E. lia.
      - destruct (parse_members n _ t) as [[l r0]|] eqn:E1; [|done]. simplify_eq/=. specialize (Hf _ _ eq_refl). lia. }
    destruct (Ascii.eqb c "[").
    { destruct (_ <=? d)%N; [done|]. destruct (expect "]" t) as [r0|] eqn:E.
      - simplify_eq. apply expect_length in E. lia.
      - destruct (parse_elements n _ t) as [[l r0]|] eqn:E1; [|done]. simplify_eq/=. specialize (Hl _ _ eq_refl). lia. }
    destruct (Ascii.eqb c dquote).
    { destruct (read_string true 0 t) as [[l r0]|] eqn:E1; [|done]. simplify_eq/=. apply read_string_length in E1. lia. }
    assert (Hd : ∀ k, (String.length (sdrop k (String c t)) <= String.length s)%nat)
      by (intros k; pose proof (sdrop_length k (String c t)); simpl in *; lia).
    destruct (String.prefix "null" _); [injection H as _ <-; apply (Hd 4)|].
    destruct (String.prefix "true" _); [injection H as _ <-; apply (Hd 4)|].
    destruct (String.prefix "false" _); [injection H as _ <-; apply (Hd 5)|].
    destruct (read_number (String c t)) as [[l r0]|] eqn:E1; [|done]. injection H as _ <-.
    apply read_number_length in E1. simpl in E1. lia.
  - cbn [parse_elements] in H. destruct (parse_value n d s) as [[x r0]|] eqn:E; [|done].
    apply IH in E. cbn [mbind option_bind] in H. destruct (expect "," r0) as [r1|] eqn:E1.
    + destruct (parse_elements n d r1) as [[l r2]|] eqn:E2; [|done]. simplify_eq/=.
      apply IH in E2. apply expect_length in E1. lia.
    + destruct (expect "]" r0) as [r1|] eqn:E2; [|done]. simplify_eq/=. apply expect_length in E2. lia.
  - cbn [parse_members] in H. destruct (expect dquote s) as [r0|] eqn:E0; [|done]. cbn [mbind option_bind] in H.
    destruct (read_string true 0 r0) as [[k r1]|] eqn:E1; [|done]. cbn [mbind option_bind] in H.
    destruct (expect ":" r1) as [r2|] eqn:E2; [|done]. cbn [mbind option_bind] in H.
    destruct (parse_value n d r2) as [[x r3]|] eqn:E3; [|done]. cbn [mbind option_bind] in H.
    apply expect_length in E0, E2. apply read_string_length in E1. apply IH in E3.
    destruct (expect "," r3) as [r4|] eqn:E4.
    + destruct (parse_members n d r4) as [[l r5]|] eqn:E5; [|done]. simplify_eq/=.
      apply IH in E5. apply expect_length in E4. lia.
    + destruct (expect "}" r3) as [r4|] eqn:E5; [|done]. simplify_eq/=. apply expect_length in E5. lia.
Qed.

(** With two units for every byte a parser does not run out: one more changes nothing,
    whether it finds a value or not. *)
Lemma parse_enough n : ∀ d s,
  ((2 * String.length s < n)%nat → parse_value (S n) d s = parse_value n d s) ∧
  ((2 * String.length s + 1 < n)%nat → parse_elements (S n) d s = parse_elements n d s) ∧
  ((2 * String.length s + 1 < n)%nat → parse_members (S n) d s = parse_members n d s).
Proof.
  induction n as [|n IH]; intros d s; [split_and!; lia|]. split_and!; intros Hn.
  - remember (S n) as m eqn:Em. cbn [parse_value].
    let t := eval cbn [parse_value] in (parse_value (S n) d s) in replace (parse_value m d s) with t by (by subst m).
    subst m.
    pose proof (skip_ws_length s) as Hs. destruct (skip_ws s) as [|c t]; [done|]. cbn [String.length] in Hs.
    destruct (IH (N.succ d) t) as (_ & Hl & Hf). by rewrite Hl, Hf by lia.
  - remember (S n) as m eqn:Em. cbn [parse_elements].
    let t := eval cbn [parse_elements] in (parse_elements (S n) d s) in replace (parse_elements m d s) with t by (by subst m).
    subst m.
    destruct (IH d s) as (Hv & _ & _). rewrite Hv by lia.
    destruct (parse_value n d s) as [[v r]|] eqn:E; [|done]. cbn [mbind option_bind].
    apply parse_length in E. destruct (expect "," r) as [r1|] eqn:E1; [|done]. apply expect_length in E1.
    destruct (IH d r1) as (_ & Hl & _). by rewrite Hl by lia.
  - remember (S n) as m eqn:Em. cbn [parse_members].
    let t := eval cbn [parse_members] in (parse_members (S n) d s) in replace (parse_members m d s) with t by (by subst m).
    subst m.
    destruct (expect dquote s) as [r0|] eqn:E0; [|done]. cbn [mbind option_bind].
    destruct (read_string true 0 r0) as [[k r1]|] eqn:E1; [|done]. cbn [mbind option_bind].
    destruct (expect ":" r1) as [r2|] eqn:E2; [|done]. cbn [mbind option_bind].
    apply expect_length in E0, E2. apply read_string_length in E1.
    destruct (IH d r2) as (Hv & _ & _). rewrite Hv by lia.
    destruct (parse_value n d r2) as [[v r]|] eqn:E; [|done]. cbn [mbind option_bind].
    apply parse_length in E. destruct (expect "," r) as [r3|] eqn:E3; [|done]. apply expect_length in E3.
    destruct (IH d r3) as (_ & _ & Hf). by rewrite Hf by lia.
Qed.

(** The decoder gives its answer: no amount of fuel gives another one. *)
Theorem decode_first_total n s : (2 * String.length s < n)%nat → parse_value n 0 s = decode_first s.
Proof.
  assert (H : ∀ m, (2 * String.length s < m)%nat → parse_value m 0 s = parse_value (S (2 * String.length s)) 0 s).
  { induction 1 as [|m Hm IH]; [done|]. by rewrite (proj1 (parse_enough m 0 s)). }
  intros Hn. unfold decode_first. rewrite (H n Hn), (H (2 + _)); [done|lia].
Qed.

(** ** Splitting well-formed texts at an ASCII byte *)

Lemma sequence_nonascii s k : rune_len s = S k → sall (fun c => negb (is_ascii c)) (stake (S k) s) = true.
Proof.
  intros H. assert (Hl : ∀ lo hi c, (128 <= lo)%N → ascii_between lo hi c = true → is_ascii c = false).
  { unfold ascii_between, is_ascii. intros lo hi c Hlo Hc. apply andb_true_iff in Hc as [Hc%N.leb_le _].
    apply N.ltb_ge. lia. }
  assert (H2 : ∀ a b, second_byte a b = true → is_ascii b = false).
  { intros a b Hb. destruct (is_ascii b) eqn:E; [|done]. by rewrite second_byte_ascii in Hb. }
  assert (H1 : ∀ c, continuation c = true → is_ascii c = false) by (intros c; by apply Hl).
  destruct s as [|a [|b r]]; [done..|]. cbn [rune_len] in H.
  destruct (ascii_between 194 223 a) eqn:Ea; [destruct (continuation b) eqn:Eb|]; simplify_eq.
  { cbn [stake sall]. by rewrite (Hl 194 223 a)%N, (H1 _ Eb) by done. }
  destruct r as [|c r]; [done|].
  destruct (ascii_between 224 239 a) eqn:Ea3; [destruct (second_byte a b && continuation c) eqn:Eb|]; simplify_eq.
  { apply andb_true_iff in Eb as [Eb Ec]. cbn [stake sall]. by rewrite (Hl 224 239 a)%N, (H2 _ _ Eb), (H1 _ Ec) by done. }
  destruct r as [|d r]; [done|].
  destruct (ascii_between 240 244 a && second_byte a b && continuation c && continuation d) eqn:E; simplify_eq.
  bool_split. cbn [stake sall].
  repeat match goal with
  | H : ascii_between _ _ _ = true |- _ => apply Hl in H; [rewrite H|done]
  | H : second_byte _ _ = true |- _ => apply H2 in H; rewrite H
  | H : continuation _ = true |- _ => apply H1 in H; rewrite H
  end. done.
Qed.

Lemma split_on_prefix c p u : sall (fun a => negb (Ascii.eqb a c)) p = true →
  split_on c (p +:+ u) = match split_on c u with x :: xs => (p +:+ x) :: xs | [] => [p] end.
Proof.
  pose proof (split_on_nonempty c u) as Hu. induction p as [|a p IH]; cbn [sall String.append split_on].
  - by destruct (split_on c u).
  - intros [Ha%negb_true_iff Hp]%andb_true_iff. rewrite Ha, IH by done. by destruct (split_on c u).
Qed.

Lemma valid_split_on c s : is_ascii c = true → valid_utf8 s = true →
  Forall (fun t => valid_utf8 t = true) (split_on c s).
Proof.
  intros Hc. rewrite valid_utf8_eq.
  induction s as [|a r Ha IH|s k Hk IH|a r Ha Hk IH] using utf8_ind; intros Hs.
  - by repeat constructor.
  - rewrite sanitize_ascii in Hs by done. injection Hs as Hs. specialize (IH Hs). cbn [split_on].
    destruct (Ascii.eqb a c); [by constructor|]. destruct IH as [|p ps Hp Hps]; constructor; [by apply valid_ascii; simpl; rewrite Ha|done| |done].
    rewrite valid_utf8_eq, sanitize_ascii by done. f_equal. by apply valid_utf8_eq.
  - rewrite <- (stake_sdrop (S k) s) in Hs |- *. rewrite sanitize_sequence in Hs by done.
    assert (Hr : sanitize_utf8 (sdrop (S k) s) = sdrop (S k) s).
    { revert Hs. generalize (stake (S k) s). intros p. induction p as [|x p IHp]; [done|]. intros [= E]. by apply IHp. }
    specialize (IH Hr). rewrite split_on_prefix.
    2:{ eapply sall_impl, sequence_nonascii, Hk. intros x Hx. destruct (Ascii.eqb x c) eqn:E; [|done].
        apply Ascii.eqb_eq in E as ->. by rewrite Hc in Hx. }
    pose proof (split_on_nonempty c (sdrop (S k) s)).
    destruct IH as [|p ps Hp Hps]; [done|]. constructor; [|done].
    apply valid_utf8_eq. rewrite sanitize_sequence by done. f_equal. by apply valid_utf8_eq.
  - exfalso. rewrite sanitize_bad in Hs by done. unfold rune_error in Hs. cbn [String.append] in Hs.
    injection Hs as <- Hs. by rewrite <- Hs in Hk.
Qed.
