(* ===== verification/Floats.v ===== *)
(** * Package strconv: 64-bit floating-point numbers

    [ParseFloat] of number literals with correct rounding, [FormatFloat] with the
    fewest digits that identify a number, and the two formats made of it: fmt's %v
    and that of encoding/json. The facts at the end: what is parsed is a number of
    the format, the nearest one, and what is printed is ASCII. *)

From S2P Require Import Prelude GoStrings Json JsonFacts.

Module Float.

(** A finite number: [(-1)^neg * mant * 2^expo], the mantissa below 2^53 and at
    least 2^52 unless the exponent is the smallest one. *)
Record float64 : Type := {
  neg : bool;
  mant : Z;
  expo : Z;
}.

Definition min_expo : Z := -1074.
Definition max_expo : Z := 971.

(** ** Parsing *)

(** Quotient rounded to the nearest integer, to the even one at equal distance. *)
Definition round_div (n d : Z) : Z :=
  let q := (n / d)%Z in
  match (2 * (n mod d) ?= d)%Z with
  | Lt => q
  | Gt => q + 1
  | Eq => if Z.even q then q else q + 1
  end.

(** n / d / 2^e as a quotient of integers. *)
Definition scaled (n d e : Z) : Z * Z :=
  if (0 <=? e)%Z then (n, d * 2 ^ e)%Z else (n * 2 ^ (- e), d)%Z.

(** The exponent of a positive quotient: its integer part has 53 bits after scaling,
    or the exponent is the smallest one. *)
Definition normal_exponent (n d : Z) : Z :=
  let e := (Z.log2 n - Z.log2 d - 53)%Z in
  let '(a, b) := scaled n d e in
  if (2 ^ 53 <=? a / b)%Z then (e + 1)%Z else e.

Definition exponent (n d : Z) : Z := Z.max min_expo (normal_exponent n d).

(** The float nearest to n / d; [None]: out of range. *)
Definition of_quotient (neg : bool) (n d : Z) : option float64 :=
  if (n =? 0)%Z then Some {| neg := neg; mant := 0; expo := min_expo |}
  else
    let e := exponent n d in
    let '(a, b) := scaled n d e in
    let m := round_div a b in
    let '(m, e) := if (m =? 2 ^ 53)%Z then (2 ^ 52, e + 1)%Z else (m, e) in
    if (max_expo <? e)%Z then None else Some {| neg := neg; mant := m; expo := e |}.

(** The exponent of a literal; its value stops growing at five digits. *)
Fixpoint exponent_val (acc : Z) (s : string) : Z :=
  match s with
  | EmptyString => acc
  | String c r => exponent_val (if (acc <? 10000)%Z then acc * 10 + digit_val c else acc)%Z r
  end.

Definition exponent_part (s : string) : Z :=
  match s with
  | String _ r =>
      let '(sg, digits) := sign_part false r in
      if String.eqb sg "-" then (- exponent_val 0 digits)%Z else exponent_val 0 digits
  | EmptyString => 0
  end.

(** ParseFloat of a number literal of JSON: decimal digits [m], times 10^[e]. Far out
    of range the power is not computed. *)
Definition ParseFloat (lit : string) : option float64 :=
  let '(sg, s) := sign_part true lit in
  let '(ip, s) := span is_digit s in
  let '(fp, s) := match s with
                  | String "." r => span is_digit r
                  | _ => ("", s)
                  end in
  let neg := String.eqb sg "-" in
  m ← digits_val 0 (ip +:+ fp);
  let e := (exponent_part s - Z.of_nat (String.length fp))%Z in
  let size := (Z.of_nat (String.length (Itoa m)) + e)%Z in
  if (m =? 0)%Z || (size <? -330)%Z then Some {| neg := neg; mant := 0; expo := min_expo |}
  else if (310 <? size)%Z then None
  else if (0 <=? e)%Z then of_quotient neg (m * 10 ^ e) 1 else of_quotient neg m (10 ^ (- e)).

(** ** The fewest digits *)

(** The numbers that round to [f]: halfway to the neighbours, the bounds included for
    an even mantissa; as quotients over a common denominator, with [f] itself. *)
Definition interval (f : float64) : Z * Z * Z * Z :=
  let m := mant f in
  let narrow := (m =? 2 ^ 52)%Z && (min_expo <? expo f)%Z in
  let lo := if narrow then (4 * m - 1)%Z else (4 * m - 2)%Z in
  let '(u, k) := scaled 1 1 (2 - expo f) in
  (lo * u, 4 * m * u, (4 * m + 2) * u, k)%Z.

(** [d] is the decimal [c * 10^p], with [c] between two bounds. *)
Definition within (f : float64) (p c : Z) : bool :=
  let '(lo, _, hi, k) := interval f in
  let '(a, b) := if (0 <=? p)%Z then (c * 10 ^ p * k, 1)%Z else (c * k, 10 ^ (- p))%Z in
  if Z.even (mant f) then (lo * b <=? a)%Z && (a <=? hi * b)%Z
  else (lo * b <? a)%Z && (a <? hi * b)%Z.

(** The nearest multiples of 10^p, below and above; the nearer one if both identify
    [f]. *)
Definition candidate (f : float64) (p : Z) : option Z :=
  let '(_, v, _, k) := interval f in
  let '(a, b) := if (0 <=? p)%Z then (v, k * 10 ^ p)%Z else (v * 10 ^ (- p), k)%Z in
  let down := (a / b)%Z in
  match within f p down, within f p (down + 1) with
  | true, true => Some (round_div a b)
  | true, false => Some down
  | false, true => Some (down + 1)%Z
  | false, false => None
  end.

(** The number of decimal digits before the point of a positive quotient; of one
    below 1, minus the number of zeros after the point. *)
Definition point (n d : Z) : Z :=
  if (d <=? n)%Z then Z.of_nat (String.length (Itoa (n / d)))
  else (1 - Z.of_nat (String.length (Itoa ((d - 1) / n))))%Z.

(** Digits and the position of the point: 0.digits * 10^point. *)
Fixpoint shorten (f : float64) (pt : Z) (tries : nat) (n : Z) : string * Z :=
  match tries with
  | O => ("", 0%Z)
  | S tries =>
      match candidate f (pt - n) with
      | Some c =>
          let digits := Itoa c in
          (trim_right (fun a => Ascii.eqb a "0") digits, Z.of_nat (String.length digits) + (pt - n))%Z
      | None => shorten f pt tries (n + 1)
      end
  end.

Definition shortest (f : float64) : string * Z :=
  if (mant f =? 0)%Z then ("", 0%Z)
  else
    let '(_, v, _, k) := interval f in
    shorten f (point v k) 17 1.

(** ** Layouts *)

Fixpoint zeros (n : nat) : string := match n with O => "" | S n => String "0" (zeros n) end.

Definition sign_of (f : float64) : string := if neg f then "-" else "".

(** %f: digits around the point. *)
Definition format_f (digits : string) (pt : Z) : string :=
  let len := Z.of_nat (String.length digits) in
  let before := if (0 <? pt)%Z
                then stake (Z.to_nat pt) digits +:+ zeros (Z.to_nat (pt - len)) else "0" in
  let after := if (pt <=? 0)%Z then zeros (Z.to_nat (- pt)) +:+ digits else sdrop (Z.to_nat pt) digits in
  if (len <=? pt)%Z || String.eqb digits "" then before else before +:+ "." +:+ after.

(** %e: one digit, the others behind the point, an exponent of two digits at least. *)
Definition format_e (digits : string) (pt : Z) : string :=
  let e := (pt - 1)%Z in
  let abs := Itoa (Z.abs e) in
  stake 1 digits +:+ (if (1 <? String.length digits)%nat then "." +:+ sdrop 1 digits else "") +:+
  "e" +:+ (if (e <? 0)%Z then "-" else "+") +:+ (if (Z.abs e <? 10)%Z then "0" else "") +:+ abs.

(** FormatFloat with 'g' and the fewest digits, which is what %v prints. *)
Definition format_v (f : float64) : string :=
  let '(digits, pt) := shortest f in
  let e := (pt - 1)%Z in
  sign_of f +:+ (if (e <? -4)%Z || (6 <=? e)%Z then format_e digits pt else format_f digits pt).

(** The encoder of encoding/json: 'f' from 1e-6 to 1e21, else 'e' with an exponent
    that drops its leading zero. *)
Definition format_json (f : float64) : string :=
  let '(digits, pt) := shortest f in
  let e := (pt - 1)%Z in
  sign_of f +:+
  (if negb (String.eqb digits "") && ((e <? -6)%Z || (21 <=? e)%Z)
   then stake 1 digits +:+ (if (1 <? String.length digits)%nat then "." +:+ sdrop 1 digits else "") +:+
        "e" +:+ (if (e <? 0)%Z then "-" else "+") +:+ Itoa (Z.abs e)
   else format_f digits pt).

(** ** What is parsed is the nearest number of the format *)

Record valid (f : float64) : Prop := {
  valid_mant : (0 <= mant f < 2 ^ 53)%Z;
  valid_normal : (2 ^ 52 <= mant f)%Z ∨ expo f = min_expo;
  valid_expo : (min_expo <= expo f <= max_expo)%Z;
}.

Lemma round_div_close n d : (0 < d)%Z → (2 * Z.abs (n - round_div n d * d) <= d)%Z.
Proof.
  intros Hd. unfold round_div. pose proof (Z.div_mod n d ltac:(lia)) as E.
  pose proof (Z.mod_pos_bound n d Hd). destruct (Z.compare_spec (2 * (n mod d)) d); [destruct (Z.even _)|..]; nia.
Qed.

Lemma round_div_le n d m : (0 < d)%Z → (n <= m * d)%Z → (round_div n d <= m)%Z.
Proof. intros Hd Hm. pose proof (round_div_close n d Hd). nia. Qed.

Lemma round_div_ge n d m : (0 < d)%Z → (m * d <= n)%Z → (m <= round_div n d)%Z.
Proof. intros Hd Hm. pose proof (round_div_close n d Hd). nia. Qed.

Lemma scaled_pos n d e : (0 < n)%Z → (0 < d)%Z → (0 < (scaled n d e).1)%Z ∧ (0 < (scaled n d e).2)%Z.
Proof.
  intros Hn Hd. unfold scaled. destruct (0 <=? e)%Z eqn:He; cbn [fst snd]; bool_prop;
    [pose proof (Z.pow_pos_nonneg 2 e)|pose proof (Z.pow_pos_nonneg 2 (- e))]; nia.
Qed.

(** One exponent more halves the quotient. *)
Lemma scaled_succ n d e : (0 < d)%Z →
  ((scaled n d (e + 1)).1 * (2 * (scaled n d e).2) = (scaled n d e).1 * (scaled n d (e + 1)).2)%Z.
Proof.
  intros Hd. unfold scaled. destruct (Z.leb_spec 0 e) as [He|He].
  - rewrite (proj2 (Z.leb_le 0 (e + 1))) by lia. cbn [fst snd]. rewrite Z.pow_add_r by lia. lia.
  - destruct (Z.leb_spec 0 (e + 1)) as [He'|He']; cbn [fst snd].
    + replace e with (-1)%Z by lia. cbn. lia.
    + replace (- e)%Z with (- (e + 1) + 1)%Z by lia. rewrite (Z.pow_add_r 2 _ 1) by lia. lia.
Qed.

Lemma scaled_bounds n d : (0 < n)%Z → (0 < d)%Z → let '(a, b) := scaled n d (Z.log2 n - Z.log2 d - 53) in
  (2 ^ 52 * b < a < 2 ^ 54 * b)%Z.
Proof.
  intros Hn Hd. pose proof (Z.log2_spec n Hn) as [Hn1 Hn2]. pose proof (Z.log2_spec d Hd) as [Hd1 Hd2].
  pose proof (Z.log2_nonneg n). pose proof (Z.log2_nonneg d).
  set (x := Z.log2 n) in *. set (y := Z.log2 d) in *. clearbody x y. unfold scaled.
  rewrite !Z.pow_succ_r in * by lia.
  destruct (Z.leb_spec 0 (x - y - 53)) as [He|He].
  - replace x with (x - y - 53 + (y + 53))%Z in Hn1, Hn2 by lia.
    rewrite (Z.pow_add_r 2 _ (y + 53)), (Z.pow_add_r 2 y 53) in Hn1, Hn2 by lia.
    pose proof (Z.pow_pos_nonneg 2 (x - y - 53)). nia.
  - replace (- (x - y - 53))%Z with (y + 53 - x)%Z by lia.
    assert (E : (2 ^ (y + 53 - x) * 2 ^ x = 2 ^ y * 2 ^ 53)%Z) by (rewrite <- !Z.pow_add_r by lia; f_equal; lia).
    pose proof (Z.pow_pos_nonneg 2 (y + 53 - x)). nia.
Qed.

Lemma normal_exponent_spec n d : (0 < n)%Z → (0 < d)%Z →
  let '(a, b) := scaled n d (normal_exponent n d) in (2 ^ 52 * b <= a < 2 ^ 53 * b)%Z.
Proof.
  intros Hn Hd. unfold normal_exponent. set (e := (Z.log2 n - Z.log2 d - 53)%Z).
  pose proof (scaled_bounds n d Hn Hd) as H. fold e in H.
  pose proof (scaled_pos n d e Hn Hd) as [_ Hb]. pose proof (scaled_pos n d (e + 1) Hn Hd) as [_ Hb'].
  pose proof (scaled_succ n d e Hd) as Hs.
  destruct (scaled n d e) as [a b] eqn:E. cbn [fst snd] in *.
  destruct (Z.leb_spec (2 ^ 53) (a / b)) as [Hq|Hq].
  - destruct (scaled n d (e + 1)) as [a' b']. cbn [fst snd] in *.
    assert (2 ^ 53 * b <= a)%Z by (pose proof (Z.mul_div_le a b Hb); nia). nia.
  - rewrite E. assert (a < 2 ^ 53 * b)%Z; [|lia].
    pose proof (Z.mul_succ_div_gt a b Hb). nia.
Qed.

Lemma scaled_mono n d e k : (0 < n)%Z → (0 < d)%Z → (0 <= k)%Z →
  ((scaled n d (e + k)).1 * (scaled n d e).2 <= (scaled n d e).1 * (scaled n d (e + k)).2)%Z.
Proof.
  intros Hn Hd. revert k. refine (natlike_ind _ _ _); [by rewrite Z.add_0_r|]. intros k Hk IH.
  replace (e + Z.succ k)%Z with (e + k + 1)%Z by lia. pose proof (scaled_succ n d (e + k) Hd) as Hs.
  pose proof (scaled_pos n d e Hn Hd). pose proof (scaled_pos n d (e + k) Hn Hd).
  pose proof (scaled_pos n d (e + k + 1) Hn Hd).
  set (a := (scaled n d e).1) in *. set (b := (scaled n d e).2) in *.
  set (a1 := (scaled n d (e + k)).1) in *. set (b1 := (scaled n d (e + k)).2) in *.
  set (a2 := (scaled n d (e + k + 1)).1) in *. set (b2 := (scaled n d (e + k + 1)).2) in *.
  clearbody a b a1 b1 a2 b2. nia.
Qed.

(** The exponent chosen leaves at most 53 bits, and 53 unless it is the smallest. *)
Lemma exponent_spec n d : (0 < n)%Z → (0 < d)%Z →
  let '(a, b) := scaled n d (exponent n d) in
  (a < 2 ^ 53 * b)%Z ∧ ((2 ^ 52 * b <= a)%Z ∨ exponent n d = min_expo).
Proof.
  intros Hn Hd. unfold exponent. set (e1 := normal_exponent n d).
  pose proof (normal_exponent_spec n d Hn Hd) as H. fold e1 in H.
  destruct (Z.max_spec min_expo e1) as [[Hlt ->]|[Hle ->]].
  - destruct (scaled n d e1) as [a b]. split; [lia|left; lia].
  - pose proof (scaled_mono n d e1 (min_expo - e1) Hn Hd ltac:(lia)) as Hm.
    replace (e1 + (min_expo - e1))%Z with min_expo in Hm by lia.
    pose proof (scaled_pos n d e1 Hn Hd) as [_ Hb]. pose proof (scaled_pos n d min_expo Hn Hd) as [_ Hb'].
    destruct (scaled n d e1) as [a b], (scaled n d min_expo) as [a' b']. cbn [fst snd] in *.
    split; [nia|by right].
Qed.

(** The float of a quotient is of the format and at most half a unit of its last bit
    away from it. *)
Theorem of_quotient_nearest neg n d f : (0 < n)%Z → (0 < d)%Z → of_quotient neg n d = Some f →
  valid f ∧ let '(a, b) := scaled n d (expo f) in (2 * Z.abs (a - mant f * b) <= b)%Z.
Proof.
  intros Hn Hd. unfold of_quotient. rewrite (proj2 (Z.eqb_neq n 0)) by lia. set (e := exponent n d).
  pose proof (exponent_spec n d Hn Hd) as H. fold e in H.
  pose proof (scaled_pos n d e Hn Hd) as [Ha Hb]. pose proof (scaled_pos n d (e + 1) Hn Hd) as [_ Hb1].
  pose proof (scaled_succ n d e Hd) as Hs. assert (He : (min_expo <= e)%Z) by apply Z.le_max_l.
  destruct (scaled n d e) as [a b] eqn:E. cbn [fst snd] in *. destruct H as [H1 H2].
  pose proof (round_div_close a b Hb) as Hc. pose proof (round_div_le a b (2 ^ 53) Hb ltac:(lia)) as Hle.
  pose proof (round_div_ge a b 0 Hb ltac:(lia)) as Hge.
  assert (Hnorm : (2 ^ 52 <= round_div a b)%Z ∨ e = min_expo)
    by (destruct H2 as [H2|H2]; [left; by apply round_div_ge|by right]).
  destruct (Z.eqb_spec (round_div a b) (2 ^ 53)) as [Heq|Hne].
  - destruct (Z.ltb_spec max_expo (e + 1)); [done|]. intros [= <-]. cbn [mant expo]. split.
    + split; cbn [mant expo]; [lia|left; lia|lia].
    + rewrite Heq in Hc. destruct (scaled n d (e + 1)) as [a' b']. cbn [fst snd] in *. nia.
  - destruct (Z.ltb_spec max_expo e); [done|]. intros [= <-]. cbn [mant expo]. rewrite E. split; [|done].
    split; cbn [mant expo]; [lia|done|lia].
Qed.

Lemma digits_val_nonneg acc s m : (0 <= acc)%Z → digits_val acc s = Some m → (0 <= m)%Z.
Proof.
  revert acc. induction s as [|c s IH]; intros acc Ha; cbn [digits_val]; [by intros [= <-]|].
  destruct (is_digit c) eqn:Hc; [|done]. apply IH. assert (0 <= digit_val c)%Z; [|lia].
  revert Hc. clear. by_bytes c.
Qed.

Lemma zero_valid neg : valid {| neg := neg; mant := 0; expo := min_expo |}.
Proof. split; cbn; [lia|by right|done]. Qed.

(** Whatever is parsed is a number of the format. *)
Lemma ParseFloat_valid lit f : ParseFloat lit = Some f → valid f.
Proof.
  unfold ParseFloat. destruct (sign_part true lit) as [sg s]. destruct (span is_digit s) as [ip s1].
  destruct (match s1 with String "." r => span is_digit r | _ => ("", s1) end) as [fp s2].
  destruct (digits_val 0 (ip +:+ fp)) as [m|] eqn:Em; [|done]. cbn [mbind option_bind].
  apply digits_val_nonneg in Em; [|lia].
  set (e := (exponent_part s2 - Z.of_nat (String.length fp))%Z). clearbody e.
  destruct (Z.eqb_spec m 0) as [->|Hm]; cbn [orb]; [intros [= <-]; apply zero_valid|].
  destruct (_ <? -330)%Z; [intros [= <-]; apply zero_valid|]. destruct (_ <? _)%Z; [done|].
  destruct (Z.leb_spec 0 e); intros Hf%of_quotient_nearest; try (by apply Hf); [|lia| |].
  - pose proof (Z.pow_pos_nonneg 10 e). nia.
  - lia.
  - pose proof (Z.pow_pos_nonneg 10 (- e)). lia.
Qed.

(** ** What is printed is ASCII *)

Definition ascii_text (s : string) : Prop := sall is_ascii s = true.

Lemma ascii_app s t : ascii_text s → ascii_text t → ascii_text (s +:+ t).
Proof. unfold ascii_text. rewrite sall_app. by intros -> ->. Qed.

Lemma ascii_if (b : bool) s t : ascii_text s → ascii_text t → ascii_text (if b then s else t).
Proof. by destruct b. Qed.

Lemma ascii_zeros n : ascii_text (zeros n).
Proof. by induction n. Qed.

Lemma ascii_Itoa z : ascii_text (Itoa z).
Proof. apply Itoa_sall; [done|]. intros c. by by_bytes c. Qed.

Lemma ascii_sdrop n s : ascii_text s → ascii_text (sdrop n s).
Proof. apply sall_sdrop. Qed.

Lemma ascii_shorten f pt tries n : ascii_text (shorten f pt tries n).1.
Proof.
  revert n. induction tries as [|tries IH]; intros n; [done|]. cbn [shorten].
  destruct (candidate f (pt - n)); [|apply IH]. apply sall_trim_right, ascii_Itoa.
Qed.

Lemma ascii_shortest f : ascii_text (shortest f).1.
Proof. unfold shortest. destruct (_ =? 0)%Z; [done|]. destruct (interval f) as [[[? ?] ?] ?]. apply ascii_shorten. Qed.

Lemma ascii_format_f digits pt : ascii_text digits → ascii_text (format_f digits pt).
Proof.
  intros H. assert (∀ n, ascii_text (stake n digits)) by (intros; by apply sall_stake).
  unfold format_f. repeat first [apply ascii_if|apply ascii_app|done|apply ascii_zeros|by apply ascii_sdrop].
Qed.

Lemma ascii_format_e digits pt : ascii_text digits → ascii_text (format_e digits pt).
Proof.
  intros H. assert (∀ n, ascii_text (stake n digits)) by (intros; by apply sall_stake).
  unfold format_e. repeat first [apply ascii_if|apply ascii_app|done|apply ascii_Itoa|by apply ascii_sdrop].
Qed.

Lemma ascii_format_v f : ascii_text (format_v f).
Proof.
  unfold format_v. pose proof (ascii_shortest f) as H. destruct (shortest f) as [digits pt].
  apply ascii_app; [by apply ascii_if|]. apply ascii_if; [by apply ascii_format_e|by apply ascii_format_f].
Qed.

(** ** What is printed for encoding/json is a number of JSON *)

Definition no_digit (s : string) : bool := head_ok (fun c => negb (is_digit c)) s || String.eqb s "".

Lemma span_digits ds rest : sall is_digit ds = true → no_digit rest = true →
  span is_digit (ds +:+ rest) = (ds, rest).
Proof.
  intros Hd Hr. induction ds as [|c ds IH]; cbn [String.append].
  - destruct rest as [|c r]; [done|]. unfold no_digit in Hr. cbn in *. by destruct (is_digit c).
  - cbn [sall] in Hd. bool_split. cbn [span]. by rewrite H, IH.
Qed.

Definition some_digits (s : string) : Prop := sall is_digit s = true ∧ s ≠ "".

Lemma digits1_rest ds rest : some_digits ds → no_digit rest = true → digits1 (ds +:+ rest) = Some (ds, rest).
Proof.
  intros [Hd Hne] Hr. unfold digits1. rewrite span_digits by done. by destruct ds.
Qed.

(** Integer part without leading zeros, fraction and exponent. *)
Definition int_digits (s : string) : Prop :=
  s = "0" ∨ sall is_digit s = true ∧ ∃ c r, s = String c r ∧ Ascii.eqb c "0" = false.
Definition fraction (s : string) : Prop := s = "" ∨ ∃ ds, s = String "." ds ∧ some_digits ds.
Definition exponent_text (s : string) : Prop :=
  s = "" ∨ ∃ sg ds, s = "e" +:+ sg +:+ ds ∧ (sg = "+" ∨ sg = "-") ∧ some_digits ds.

Lemma exponent_text_read s : exponent_text s →
  exp_part s = Some (s, "") ∧ no_digit s = true ∧ frac_part s = Some ("", s).
Proof.
  intros [->|(sg & ds & -> & Hsg & Hd)]; [done|]. pose proof (digits1_rest ds "" Hd eq_refl) as H.
  rewrite app_nil_r_s in H. destruct Hsg as [->| ->]; (split_and!; [|done..]); cbn; by rewrite H.
Qed.

Lemma fraction_read s t : fraction s → exponent_text t →
  frac_part (s +:+ t) = Some (s, t) ∧ no_digit (s +:+ t) = true.
Proof.
  intros Hs Ht. apply exponent_text_read in Ht as (_ & Hn & Hf).
  destruct Hs as [->|(ds & -> & Hd)]; [done|]. cbn. by rewrite digits1_rest.
Qed.

Lemma number_shape (neg : bool) ip fr ex : int_digits ip → fraction fr → exponent_text ex →
  number_ok ((if neg then "-" else "") +:+ ip +:+ fr +:+ ex) = true.
Proof.
  intros Hi Hf He. destruct (fraction_read fr ex Hf He) as [Hfr Hn].
  destruct (exponent_text_read ex He) as [Her _].
  assert (H : int_part (ip +:+ fr +:+ ex) = Some (ip, fr +:+ ex) ∧
              sign_part true (ip +:+ fr +:+ ex) = ("", ip +:+ fr +:+ ex)).
  { destruct Hi as [->|(Hd & c & r & -> & Hc)]; [done|]. split.
    - cbn [String.append int_part]. rewrite Hc. by apply (digits1_rest (String c r)).
    - cbn [sall] in Hd. bool_split. revert H. cbn [String.append sign_part]. clear. by_bytes c. }
  destruct H as [Hip Hsg]. unfold number_ok, read_number. destruct neg.
  - change ("-" +:+ ?s) with (String "-" s). change (sign_part true (String "-" ?s)) with ("-", s).
    cbv beta iota. rewrite Hip. cbn [mbind option_bind]. rewrite Hfr. cbn [mbind option_bind]. rewrite Her. cbn.
    apply String.eqb_refl.
  - change ("" +:+ ?s) with s. rewrite Hsg. cbv beta iota. rewrite Hip. cbn [mbind option_bind]. rewrite Hfr.
    cbn [mbind option_bind]. rewrite Her. cbn. apply String.eqb_refl.
Qed.

(** Digits that start with a positive one, or none. *)
Definition leading (digits : string) : Prop :=
  sall is_digit digits = true ∧ ∃ c r, digits = String c r ∧ Ascii.eqb c "0" = false.

Lemma zeros_digits n : sall is_digit (zeros n) = true.
Proof. by induction n. Qed.

Lemma zeros_length n : String.length (zeros n) = n.
Proof. induction n as [|n IH]; [done|]. cbn. by rewrite IH. Qed.

Lemma within_positive f p c : (0 < mant f)%Z → within f p c = true → (0 < c)%Z.
Proof.
  intros Hm. unfold within, interval. destruct (scaled 1 1 (2 - expo f)) as [u k] eqn:E.
  pose proof (scaled_pos 1 1 (2 - expo f) eq_refl eq_refl) as [Hu Hk]. rewrite E in Hu, Hk. cbn [fst snd] in *.
  set (lo := if (mant f =? 2 ^ 52)%Z && (min_expo <? expo f)%Z then (4 * mant f - 1)%Z else (4 * mant f - 2)%Z).
  assert (Hlo : (0 < lo * u)%Z) by (subst lo; destruct (_ && _); nia). clearbody lo.
  destruct (0 <=? p)%Z eqn:Hp; bool_prop; intros H;
    [pose proof (Z.pow_pos_nonneg 10 p)|pose proof (Z.pow_pos_nonneg 10 (- p))];
    destruct (Z.even _); bool_prop; nia.
Qed.

Lemma candidate_positive f p c : (0 < mant f)%Z → candidate f p = Some c → (0 < c)%Z.
Proof.
  intros Hm. unfold candidate. destruct (interval f) as [[[lo v] hi] k] eqn:Ei.
  pose proof (fun c => within_positive f p c Hm) as Hw.
  destruct (if (0 <=? p)%Z then (v, (k * 10 ^ p)%Z) else _) as [a b] eqn:E.
  destruct (within f p (a / b)) eqn:E1, (within f p (a / b + 1)) eqn:E2; intros [= <-]; auto.
  apply Hw in E1. unfold round_div. destruct (_ ?= _)%Z; [destruct (Z.even _)|..]; lia.
Qed.

Lemma Itoa_leading z : (0 < z)%Z → leading (Itoa z).
Proof.
  intros Hz. split; [apply Itoa_nonneg_digits; lia|]. rewrite Itoa_nonneg by lia. unfold pretty, pretty_N.
  destruct (decide (Z.to_N z = 0%N)) as [E|E]; [lia|].
  destruct (pretty_N_go_head (Z.to_N z) "" E) as (c & r & -> & _ & H). by exists c, r.
Qed.

Lemma trim_leading s : leading s → leading (trim_right (fun a => Ascii.eqb a "0") s).
Proof.
  intros (Hd & c & r & -> & Hc). split; [by apply sall_trim_right|]. cbn [trim_right].
  destruct (trim_right _ r); [rewrite Hc|]; eauto.
Qed.

Lemma shorten_leading f pt tries n : (0 < mant f)%Z →
  shorten f pt tries n = ("", 0%Z) ∨ leading (shorten f pt tries n).1.
Proof.
  intros Hm. revert n. induction tries as [|tries IH]; intros n; [by left|]. cbn [shorten].
  destruct (candidate f (pt - n)) as [c|] eqn:E; [|apply IH]. right.
  by eapply trim_leading, Itoa_leading, candidate_positive.
Qed.

Lemma shortest_leading f : valid f → shortest f = ("", 0%Z) ∨ leading (shortest f).1.
Proof.
  intros [Hm _ _]. unfold shortest. destruct (Z.eqb_spec (mant f) 0); [by left|].
  destruct (interval f) as [[[? ?] ?] ?]. apply shorten_leading. lia.
Qed.

Lemma format_f_number (neg : bool) digits pt : leading digits →
  number_ok ((if neg then "-" else "") +:+ format_f digits pt) = true.
Proof.
  intros (Hd & c & r & -> & Hc). unfold format_f. set (digits := String c r) in *.
  change (String.eqb digits "") with false. rewrite orb_false_r.
  assert (Hn : ∀ ip fr, int_digits ip → fraction fr →
    number_ok ((if neg then "-" else "") +:+ ip +:+ fr) = true).
  { intros ip fr Hi Hf. rewrite <- (app_nil_r_s fr). by apply number_shape; [..|left]. }
  assert (Hi : ∀ ip, int_digits ip → number_ok ((if neg then "-" else "") +:+ ip) = true).
  { intros ip Hip. rewrite <- (app_nil_r_s ip). by apply Hn; [|left]. }
  assert (Hs : ∀ k t, (0 < k)%nat → sall is_digit t = true → int_digits (stake k digits +:+ t)).
  { intros [|k] t Hk Ht; [lia|]. right. split; [|by eexists _, _].
    rewrite sall_app, Ht, andb_true_r. by apply sall_stake. }
  destruct (Z.ltb_spec 0 pt) as [Hpt|Hpt]; destruct (Z.leb_spec (Z.of_nat (String.length digits)) pt) as [Hl|Hl].
  - apply Hi, Hs; [lia|apply zeros_digits].
  - rewrite (proj2 (Z.leb_gt pt 0)) by lia.
    replace (Z.to_nat (pt - Z.of_nat (String.length digits))) with 0%nat by lia.
    apply Hn; [apply Hs; [lia|done]|]. right. eexists. split; [done|]. split.
    + by apply sall_sdrop.
    + intros E. pose proof (sdrop_length (Z.to_nat pt) digits) as Hle. pose proof (stake_sdrop (Z.to_nat pt) digits) as Ht.
      rewrite E, app_nil_r_s in Ht. pose proof (stake_length (Z.to_nat pt) digits) as Hk. rewrite Ht in Hk. lia.
  - exfalso. assert (0 < String.length digits)%nat by (subst digits; simpl; lia). lia.
  - rewrite (proj2 (Z.leb_le pt 0)) by lia. apply Hn; [by left|]. right. eexists. split; [done|]. split.
    + by rewrite sall_app, zeros_digits.
    + by destruct (zeros _).
Qed.

(** A number that encoding/json writes can be read. *)
Theorem format_json_number f : valid f → number_ok (format_json f) = true.
Proof.
  intros Hf. unfold format_json, sign_of. pose proof (shortest_leading f Hf) as H.
  destruct (shortest f) as [digits pt]. destruct H as [[= -> ->]|H]; [by destruct (neg f)|]. cbn [fst] in H.
  destruct (_ && _); [|by apply format_f_number]. destruct H as (Hd & c & r & -> & Hc). cbn [sall] in Hd. bool_split.
  cbn [stake]. set (fr := if (1 <? String.length (String c r))%nat then _ else "").
  assert (Hfr : fraction fr).
  { subst fr. destruct r as [|c' r]; [by left|]. right. by exists (String c' r). }
  set (ex := "e" +:+ _). assert (Hex : exponent_text ex).
  { right. eexists _, (Itoa (Z.abs (pt - 1))). split; [done|]. split; [by destruct (_ <? 0)%Z; auto|].
    split; [apply Itoa_nonneg_digits; lia|apply Itoa_nonempty]. }
  clearbody fr ex. apply (number_shape (neg f) (String c "") fr ex); [|done..]. right. split; [|by eexists _, _].
  cbn. by rewrite H.
Qed.

(** ** Seventeen digits are always enough *)

Lemma pretty_N_go_length x s : (0 < x)%N →
  let l := (Z.of_nat (String.length (pretty_N_go x s)) - Z.of_nat (String.length s))%Z in
  (1 <= l)%Z ∧ (10 ^ (l - 1) <= Z.of_N x < 10 ^ l)%Z.
Proof.
  revert s. induction (N.lt_wf_0 x) as [x _ IH]; intros s Hx. cbv zeta. rewrite pretty_N_go_step by done.
  set (s' := String _ s). assert (Hl : Z.of_nat (String.length s') = (Z.of_nat (String.length s) + 1)%Z)
    by (subst s'; cbn [String.length]; lia).
  destruct (decide (x `div` 10 = 0)%N) as [E|E].
  - rewrite E, pretty_N_go_0, Hl. assert (x < 10)%N by (apply N.div_small_iff in E; lia).
    replace (Z.of_nat (String.length s) + 1 - Z.of_nat (String.length s))%Z with 1%Z by lia. cbn. lia.
  - assert (Hd : (0 < x `div` 10)%N) by (by apply N.neq_0_lt_0).
    destruct (IH (x `div` 10)%N (N.div_lt x 10 ltac:(lia) ltac:(lia)) s' Hd) as [H1 [H2 H3]]. rewrite Hl in H1, H2, H3.
    set (l := (Z.of_nat (String.length (pretty_N_go (x `div` 10) s')) - (Z.of_nat (String.length s) + 1))%Z) in *.
    replace (Z.of_nat (String.length (pretty_N_go (x `div` 10) s')) - Z.of_nat (String.length s))%Z with (l + 1)%Z by lia.
    clearbody l. replace (l + 1 - 1)%Z with (l - 1 + 1)%Z by lia. rewrite !Z.pow_add_r by lia.
    rewrite N2Z.inj_div in H2, H3. pose proof (Z.div_mod (Z.of_N x) 10 ltac:(lia)).
    pose proof (Z.mod_pos_bound (Z.of_N x) 10 ltac:(lia)). change (Z.of_N 10) with 10%Z in *. lia.
Qed.

Lemma Itoa_length z : (0 < z)%Z →
  let l := Z.of_nat (String.length (Itoa z)) in (1 <= l)%Z ∧ (10 ^ (l - 1) <= z < 10 ^ l)%Z.
Proof.
  intros Hz. cbv zeta. rewrite Itoa_nonneg by lia. unfold pretty, pretty_N.
  destruct (decide (Z.to_N z = 0%N)) as [E|E]; [lia|].
  pose proof (pretty_N_go_length (Z.to_N z) "" ltac:(lia)) as H. cbv zeta in H.
  change (Z.of_nat (String.length "")) with 0%Z in H. rewrite Z.sub_0_r, Z2N.id in H by lia. exact H.
Qed.

(** A quotient as a multiple of a power of ten. *)
Definition tens (n d p : Z) : Z * Z := if (0 <=? p)%Z then (n, d * 10 ^ p)%Z else (n * 10 ^ (- p), d)%Z.

(** The first digit stands at the point. *)
Lemma point_spec n d : (0 < n)%Z → (0 < d)%Z →
  let '(a, b) := tens n d (point n d - 1) in (b <= a)%Z.
Proof.
  intros Hn Hd. unfold point, tens. destruct (Z.leb_spec d n) as [H|H].
  - assert (Hq : (0 < n / d)%Z) by (apply Z.div_str_pos; lia).
    destruct (Itoa_length _ Hq) as [H1 [H2 _]]. rewrite (proj2 (Z.leb_le _ _)) by lia.
    pose proof (Z.mul_div_le n d Hd). nia.
  - destruct (Z.eq_dec ((d - 1) / n)%Z 0%Z) as [E|E].
    + rewrite E. change (Itoa 0) with "0". cbn. apply Z.div_small_iff in E; lia.
    + assert (Hq : (0 < (d - 1) / n)%Z) by (pose proof (Z.div_pos (d - 1) n ltac:(lia) Hn); lia).
      destruct (Itoa_length _ Hq) as [H1 [_ H3]]. set (l := Z.of_nat _) in *.
      replace (1 - l - 1)%Z with (- l)%Z by lia. rewrite (proj2 (Z.leb_gt _ _)) by lia.
      rewrite Z.opp_involutive. pose proof (Z.mul_succ_div_gt (d - 1) n Hn). nia.
Qed.

Lemma tens_shift n d p : (0 < n)%Z → (0 < d)%Z →
  (let '(a, b) := tens n d (p + 16) in (b <= a)%Z) →
  let '(a, b) := tens n d p in (10 ^ 16 * b <= a)%Z.
Proof.
  intros Hn Hd. unfold tens. destruct (Z.leb_spec 0 p) as [Hp|Hp].
  - rewrite (proj2 (Z.leb_le 0 (p + 16))) by lia. rewrite Z.pow_add_r by lia. lia.
  - destruct (Z.leb_spec 0 (p + 16)) as [Hq|Hq]; intros H.
    + assert (E : (10 ^ 16 = 10 ^ (p + 16) * 10 ^ (- p))%Z) by (rewrite <- Z.pow_add_r by lia; f_equal; lia).
      rewrite E. pose proof (Z.pow_pos_nonneg 10 (- p)). nia.
    + replace (- p)%Z with (- (p + 16) + 16)%Z by lia. rewrite Z.pow_add_r by lia. nia.
Qed.

(** Strictly between the bounds is within them. *)
Lemma within_strict f p c :
  (let '(lo, _, hi, k) := interval f in
   let '(a, b) := tens 1 k p in lo * a < c * b < hi * a)%Z → within f p c = true.
Proof.
  unfold within, tens. destruct (interval f) as [[[lo v] hi] k].
  destruct (0 <=? p)%Z; intros [H1 H2]; destruct (Z.even _); apply andb_true_iff;
    rewrite ?Z.leb_le, ?Z.ltb_lt; split; nia.
Qed.

(** Distances of the bounds from the number, in quarters of its last bit. *)
Lemma interval_width f : valid f → (0 < mant f)%Z →
  let '(lo, v, hi, k) := interval f in
  ∃ u, (0 < u)%Z ∧ (0 < k)%Z ∧ (0 < v)%Z ∧ (hi = v + 2 * u)%Z ∧
    ((lo = v - 2 * u)%Z ∧ (v <= 4 * 2 ^ 53 * u)%Z ∨ (lo = v - u)%Z ∧ (v <= 4 * 2 ^ 52 * u)%Z).
Proof.
  intros [Hm _ _] Hpos. unfold interval. pose proof (scaled_pos 1 1 (2 - expo f) eq_refl eq_refl) as [Hu Hk].
  destruct (scaled 1 1 (2 - expo f)) as [u k]. cbn [fst snd] in *. exists u.
  split_and!; [done|done|nia|lia|].
  destruct (Z.eqb_spec (mant f) (2 ^ 52)) as [E|E]; [destruct (_ <? _)%Z|]; cbn [andb];
    [right|left|left]; split; nia.
Qed.

(** With 17 digits the multiples of a power of ten are closer together than the
    bounds of the interval. *)
Lemma candidate_17 f : valid f → (0 < mant f)%Z →
  (let '(_, v, _, k) := interval f in candidate f (point v k - 17)) ≠ None.
Proof.
  intros Hf Hpos. pose proof (interval_width f Hf Hpos) as Hw.
  pose proof (fun p c => within_strict f p c) as Hin. unfold candidate.
  destruct (interval f) as [[[lo v] hi] k]. destruct Hw as (u & Hu & Hk & Hv & Ehi & Hlo).
  set (p := (point v k - 17)%Z). pose proof (point_spec v k Hv Hk) as Ht.
  replace (point v k - 1)%Z with (p + 16)%Z in Ht by lia.
  apply tens_shift in Ht; [|done|done]. clearbody p.
  assert (E : tens v k p = (v * (tens 1 k p).1, (tens 1 k p).2)%Z ∧ (0 < (tens 1 k p).1)%Z ∧ (0 < (tens 1 k p).2)%Z).
  { unfold tens. destruct (Z.leb_spec 0 p); cbn [fst snd];
      [pose proof (Z.pow_pos_nonneg 10 p)|pose proof (Z.pow_pos_nonneg 10 (- p))]; (split; [f_equal; lia|nia]). }
  specialize (Hin p). destruct (tens 1 k p) as [x y]. cbn [fst snd] in E. destruct E as (E & Hx & Hy).
  unfold tens in E. rewrite E in *. unfold tens in Ht. rewrite E in Ht.
  set (w := (u * x)%Z). assert (Hwpos : (0 < w)%Z) by (subst w; nia).
  pose proof (Z.mul_div_le (v * x) y Hy) as Hd1. pose proof (Z.mul_succ_div_gt (v * x) y Hy) as Hd2.
  set (c := (v * x / y)%Z) in *.
  destruct (within f p c) eqn:E1, (within f p (c + 1)) eqn:E2; try done. exfalso.
  assert (H1 : ¬ (lo * x < c * y < hi * x)%Z) by (intros H; apply Hin in H; congruence).
  assert (H2 : ¬ (lo * x < (c + 1) * y < hi * x)%Z) by (intros H; apply Hin in H; congruence).
  assert (Hhi : (hi * x = v * x + 2 * w)%Z) by (subst hi w; ring).
  assert (Hlo' : (lo * x = v * x - 2 * w)%Z ∧ (v * x <= 4 * 2 ^ 53 * w)%Z ∨
                 (lo * x = v * x - w)%Z ∧ (v * x <= 4 * 2 ^ 52 * w)%Z)
    by (destruct Hlo as [[-> ?]|[-> ?]]; [left|right]; subst w; split; nia).
  rewrite Hhi in H1, H2. generalize dependent (v * x)%Z. intros V. intros. 
  clear - H1 H2 Hlo' Hd1 Hd2 Ht Hwpos Hy. lia.
Qed.

Lemma shorten_found f pt tries n : (0 < mant f)%Z → tries ≠ 0%nat →
  candidate f (pt - (n + Z.of_nat tries - 1)) ≠ None → leading (shorten f pt tries n).1.
Proof.
  intros Hm. revert n. induction tries as [|tries IH]; intros n Ht Hc; [done|]. cbn [shorten].
  destruct (candidate f (pt - n)) as [c|] eqn:E; [by eapply trim_leading, Itoa_leading, candidate_positive|].
  destruct tries as [|tries]; [by replace (n + Z.of_nat 1 - 1)%Z with n in Hc by lia|].
  apply IH; [done|]. by replace (n + 1 + Z.of_nat (S tries) - 1)%Z with (n + Z.of_nat (S (S tries)) - 1)%Z by lia.
Qed.

(** The fuel of [shorten] is enough: every number but zero has digits. *)
Theorem shortest_found f : valid f → mant f ≠ 0%Z → leading (shortest f).1.
Proof.
  intros Hf Hm. assert (Hpos : (0 < mant f)%Z) by (destruct Hf; lia).
  pose proof (candidate_17 f Hf Hpos) as Hc. unfold shortest. rewrite (proj2 (Z.eqb_neq _ _)) by done.
  destruct (interval f) as [[[lo v] hi] k]. by apply shorten_found.
Qed.

(** ** Examples *)

Definition shown (lit : string) : option (string * string) :=
  (fun f => (format_v f, format_json f)) <$> ParseFloat lit.

Example shown_small : map shown ["3"; "-0"; "0.1"; "1.50"; "123456"; "1234567"; "1e21"; "100000000000000000000"] =
  [Some ("3", "3"); Some ("-0", "-0"); Some ("0.1", "0.1"); Some ("1.5", "1.5"); Some ("123456", "123456");
   Some ("1.234567e+06", "1234567"); Some ("1e+21", "1e+21"); Some ("1e+20", "100000000000000000000")].
Proof. vm_compute. reflexivity. Qed.

Example shown_limits : map shown ["0.00001"; "1e-7"; "9007199254740993"; "1e400000000"; "1125899906842624.25"] =
  [Some ("1e-05", "0.00001"); Some ("1e-07", "1e-7"); Some ("9.007199254740992e+15", "9007199254740992"); None;
   Some ("1.1258999068426242e+15", "1125899906842624.2")].
Proof. vm_compute. reflexivity. Qed.

End Float.
