(* ===== verification/FloatFacts.v ===== *)
(** * Package strconv: a number that is printed is read back

    A decimal within half of the last bit of a number is parsed as that number
    ([of_quotient_inside]); the fewest digits denote such a decimal
    ([shortest_denotes]); so what encoding/json writes for a number is parsed as the
    number ([ParseFloat_format_json]). *)

From S2P Require Import Prelude GoStrings Json JsonFacts Floats.

Module FloatFacts.
Import Float.

Lemma round_div_unique n d m : (0 < d)%Z →
  (2 * Z.abs (n - m * d) < d ∨ 2 * Z.abs (n - m * d) = d ∧ Z.even m = true)%Z → round_div n d = m.
Proof.
  intros Hd H. unfold round_div. pose proof (Z.div_mod n d ltac:(lia)) as E.
  pose proof (Z.mod_pos_bound n d Hd) as Hr. set (q := (n / d)%Z) in *. set (r := (n mod d)%Z) in *. clearbody q r.
  assert (Hq : m = q ∨ m = (q + 1)%Z).
  { assert (¬ (m <= q - 1)%Z) by nia. assert (¬ (q + 2 <= m)%Z) by nia. lia. }
  destruct (Z.compare_spec (2 * r) d) as [Hc|Hc|Hc].
  - destruct Hq as [->| ->].
    + destruct H as [H|[_ ->]]; [exfalso; nia|done].
    + destruct H as [H|[_ H]]; [exfalso; nia|]. rewrite Z.even_add in H. by destruct (Z.even q).
  - destruct Hq as [->| ->]; [done|exfalso; nia].
  - destruct Hq as [->| ->]; [exfalso; nia|done].
Qed.

Lemma exponent_below n d e : (0 < n)%Z → (0 < d)%Z →
  (let '(a, b) := scaled n d e in (a < 2 ^ 53 * b)%Z) → (normal_exponent n d <= e)%Z.
Proof.
  intros Hn Hd H. pose proof (normal_exponent_spec n d Hn Hd) as Hs. set (e0 := normal_exponent n d) in *.
  destruct (Z.le_gt_cases e0 e) as [|Hlt]; [done|]. exfalso.
  pose proof (scaled_succ n d e Hd) as Hsucc. pose proof (scaled_mono n d (e + 1) (e0 - (e + 1)) Hn Hd ltac:(lia)) as Hm.
  replace (e + 1 + (e0 - (e + 1)))%Z with e0 in Hm by lia.
  pose proof (scaled_pos n d e Hn Hd). pose proof (scaled_pos n d (e + 1) Hn Hd). pose proof (scaled_pos n d e0 Hn Hd).
  destruct (scaled n d e) as [a b], (scaled n d (e + 1)) as [a1 b1], (scaled n d e0) as [a0 b0]. cbn [fst snd] in *.
  assert (a1 < 2 ^ 52 * b1)%Z by nia. nia.
Qed.

Lemma exponent_above n d e : (0 < n)%Z → (0 < d)%Z →
  (let '(a, b) := scaled n d e in (2 ^ 52 * b <= a)%Z) → (e <= normal_exponent n d)%Z.
Proof.
  intros Hn Hd H. pose proof (normal_exponent_spec n d Hn Hd) as Hs. set (e0 := normal_exponent n d) in *.
  destruct (Z.le_gt_cases e e0) as [|Hlt]; [done|]. exfalso.
  pose proof (scaled_succ n d e0 Hd) as Hsucc. pose proof (scaled_mono n d (e0 + 1) (e - (e0 + 1)) Hn Hd ltac:(lia)) as Hm.
  replace (e0 + 1 + (e - (e0 + 1)))%Z with e in Hm by lia.
  pose proof (scaled_pos n d e Hn Hd). pose proof (scaled_pos n d (e0 + 1) Hn Hd). pose proof (scaled_pos n d e0 Hn Hd).
  destruct (scaled n d e) as [a b], (scaled n d (e0 + 1)) as [a1 b1], (scaled n d e0) as [a0 b0]. cbn [fst snd] in *.
  assert (a1 < 2 ^ 52 * b1)%Z by nia. nia.
Qed.

(** The quotient is one of the numbers that round to [f]. *)
Definition inside (f : float64) (n d : Z) : Prop :=
  let '(lo, _, hi, k) := interval f in
  if Z.even (mant f) then (lo * d <= n * k <= hi * d)%Z else (lo * d < n * k < hi * d)%Z.

(** In quarters of the last bit. *)
Definition low (f : float64) : Z :=
  if (mant f =? 2 ^ 52)%Z && (min_expo <? expo f)%Z then (4 * mant f - 1)%Z else (4 * mant f - 2)%Z.

Lemma inside_scaled f n d : (0 < d)%Z → inside f n d →
  let '(a, b) := scaled n d (expo f) in
  if Z.even (mant f) then (low f * b <= 4 * a <= (4 * mant f + 2) * b)%Z
  else (low f * b < 4 * a < (4 * mant f + 2) * b)%Z.
Proof.
  intros Hd. unfold inside, interval. fold (low f). generalize (low f) (4 * mant f + 2)%Z. intros L H.
  assert (E : ∃ t, (0 < t)%Z ∧ let '(u, k) := scaled 1 1 (2 - expo f) in let '(a, b) := scaled n d (expo f) in
    (4 * a = t * (n * k) ∧ b = t * (u * d))%Z).
  { unfold scaled. destruct (Z.leb_spec 0 (expo f)) as [H1|H1]; destruct (Z.leb_spec 0 (2 - expo f)) as [H2|H2]; try lia.
    - exists (2 ^ expo f)%Z. split; [apply Z.pow_pos_nonneg; lia|].
      assert (E : (4 = 2 ^ expo f * 2 ^ (2 - expo f))%Z) by (rewrite <- Z.pow_add_r by lia; by replace (expo f + (2 - expo f))%Z with 2%Z by lia).
      split; [rewrite E; lia|lia].
    - exists 4%Z. split; [lia|].
      assert (E : (2 ^ expo f = 4 * 2 ^ (- (2 - expo f)))%Z)
        by (change 4%Z with (2 ^ 2)%Z; rewrite <- Z.pow_add_r by lia; f_equal; lia).
      rewrite E. lia.
    - exists 1%Z. split; [lia|].
      assert (E : (2 ^ (2 - expo f) = 4 * 2 ^ (- expo f))%Z)
        by (change 4%Z with (2 ^ 2)%Z; rewrite <- Z.pow_add_r by lia; f_equal; lia).
      rewrite E. lia. }
  destruct E as (t & Ht & E). destruct (scaled 1 1 (2 - expo f)) as [u k], (scaled n d (expo f)) as [a b].
  destruct E as [-> ->]. destruct (Z.even _); intros [H1 H2]; split; nia.
Qed.

Lemma of_quotient_inside neg n d m e : (0 < n)%Z → (0 < d)%Z →
  valid {| neg := neg; mant := m; expo := e |} → (0 < m)%Z →
  inside {| neg := neg; mant := m; expo := e |} n d →
  of_quotient neg n d = Some {| neg := neg; mant := m; expo := e |}.
Proof.
  intros Hn Hd [Hm Hnorm He] Hpos Hin. apply inside_scaled in Hin; [|done]. unfold low in Hin. cbn [mant expo] in *.
  unfold of_quotient. rewrite (proj2 (Z.eqb_neq n 0)) by lia.
  pose proof (exponent_below n d e Hn Hd) as Hbelow. pose proof (exponent_above n d e Hn Hd) as Habove.
  pose proof (scaled_pos n d e Hn Hd) as [Ha Hb].
  destruct (scaled n d e) as [a b] eqn:E. cbn [fst snd] in *.
  (* below the binade, where the last bit is half as large *)
  destruct (decide ((min_expo < e)%Z ∧ (a < 2 ^ 52 * b)%Z)) as [[He1 Ha1]|Hin_binade].
  - assert (Hm52 : m = (2 ^ 52)%Z).
    { destruct Hnorm as [Hnorm|]; [|lia]. destruct (Z.eq_dec m (2 ^ 52)%Z) as [|Hne]; [done|]. exfalso.
      destruct (Z.eqb_spec m (2 ^ 52)%Z); [done|]. cbn [andb] in Hin. destruct (Z.even m); nia. }
    rewrite Hm52, (proj2 (Z.ltb_lt _ _) He1) in Hin. cbn [Z.eqb Pos.eqb andb] in Hin.
    change (Z.even (2 ^ 52)) with true in Hin. change ((2 ^ 52 =? 2 ^ 52)%Z && true) with true in Hin. cbv iota in Hin.
    pose proof (scaled_succ n d (e - 1)%Z Hd) as Hs. replace (e - 1 + 1)%Z with e in Hs by lia. rewrite E in Hs.
    pose proof (scaled_pos n d (e - 1)%Z Hn Hd) as [Ha' Hb'].
    pose proof (exponent_below n d (e - 1)%Z Hn Hd) as Hbelow'. pose proof (exponent_above n d (e - 1)%Z Hn Hd) as Habove'.
    destruct (scaled n d (e - 1)) as [a' b'] eqn:E'. cbn [fst snd] in *.
    assert (H1 : (a' < 2 ^ 53 * b')%Z) by nia.
    assert (H2 : ((2 ^ 54 - 1) * b' <= 2 * a')%Z) by nia.
    assert (Ee : exponent n d = (e - 1)%Z) by (unfold exponent; assert (2 ^ 52 * b' <= a')%Z by lia; lia).
    rewrite Ee, E'. rewrite (round_div_unique a' b' (2 ^ 53)%Z); [|done|].
    + change (2 ^ 53 =? 2 ^ 53)%Z with true. cbv iota. replace (e - 1 + 1)%Z with e by lia.
      rewrite (proj2 (Z.ltb_ge _ _)) by lia. by rewrite Hm52.
    + destruct (Z.eq_dec (2 * a')%Z ((2 ^ 54 - 1) * b')%Z); [right; split; [lia|done]|left; lia].
  - assert (Hlo : ((4 * m - 2) * b <= 4 * a)%Z).
    { destruct ((m =? 2 ^ 52)%Z && (min_expo <? e)%Z); destruct (Z.even m); lia. }
    assert (Hodd : Z.even m = false → ((4 * m - 2) * b < 4 * a < (4 * m + 2) * b)%Z).
    { intros Hev. rewrite Hev in Hin. destruct (_ && _); lia. }
    assert (Hhi : (4 * a <= (4 * m + 2) * b)%Z) by (destruct (Z.even m); lia).
    assert (Hlt : (a < 2 ^ 53 * b)%Z).
    { destruct (Z.eq_dec m (2 ^ 53 - 1)%Z) as [->|]; [|nia]. specialize (Hodd eq_refl). lia. }
    assert (Ee : exponent n d = e).
    { unfold exponent. specialize (Hbelow Hlt). destruct (Z.eq_dec e min_expo) as [->|]; [lia|].
      assert (2 ^ 52 * b <= a)%Z by (apply Z.nlt_ge; intros ?; apply Hin_binade; lia). lia. }
    rewrite Ee, E. rewrite (round_div_unique a b m); [|done|].
    + rewrite (proj2 (Z.eqb_neq m _)) by lia. rewrite (proj2 (Z.ltb_ge _ _)) by lia. done.
    + destruct (Z.even m) eqn:Hev; [|left; specialize (Hodd eq_refl); lia].
      destruct (Z.eq_dec (2 * Z.abs (a - m * b))%Z b); [by right|left; lia].
Qed.

(** ** Decimals *)

Definition dec (c p : Z) : Z * Z := if (0 <=? p)%Z then (c * 10 ^ p, 1)%Z else (c, 10 ^ (- p))%Z.

Lemma dec_pos c p : (0 < c)%Z → (0 < (dec c p).1)%Z ∧ (0 < (dec c p).2)%Z.
Proof.
  intros Hc. unfold dec. destruct (Z.leb_spec 0 p); cbn [fst snd];
    [pose proof (Z.pow_pos_nonneg 10 p)|pose proof (Z.pow_pos_nonneg 10 (- p))]; nia.
Qed.

(** A factor of ten moves between the integer and its exponent. *)
Lemma dec_shift c p t : (0 <= t)%Z →
  ((dec (c * 10 ^ t) p).1 * (dec c (p + t)).2 = (dec c (p + t)).1 * (dec (c * 10 ^ t) p).2)%Z.
Proof.
  intros Ht. unfold dec. destruct (Z.leb_spec 0 p) as [Hp|Hp].
  - rewrite (proj2 (Z.leb_le 0 (p + t))) by lia. cbn [fst snd]. rewrite Z.pow_add_r by lia. ring.
  - destruct (Z.leb_spec 0 (p + t)) as [Hq|Hq]; cbn [fst snd].
    + replace t with (p + t + - p)%Z at 1 by lia. rewrite Z.pow_add_r by lia. ring.
    + replace (- p)%Z with (- (p + t) + t)%Z by lia. rewrite Z.pow_add_r by lia. ring.
Qed.

Lemma inside_ratio f n d n' d' : (0 < d)%Z → (0 < d')%Z → (n * d' = n' * d)%Z → inside f n d → inside f n' d'.
Proof.
  intros Hd Hd' E. unfold inside. destruct (interval f) as [[[lo v] hi] k].
  assert (Ek : (n * k * d' = n' * k * d)%Z) by (transitivity (n * d' * k)%Z; [ring|rewrite E; ring]).
  destruct (Z.even _); intros [H1 H2]; split; nia.
Qed.

Lemma within_inside f p c : within f p c = true → inside f (dec c p).1 (dec c p).2.
Proof.
  unfold within, inside, dec. destruct (interval f) as [[[lo v] hi] k].
  destruct (0 <=? p)%Z; cbn [fst snd]; destruct (Z.even _); intros H; bool_prop; lia.
Qed.

Lemma candidate_within f p c : candidate f p = Some c → within f p c = true.
Proof.
  unfold candidate. destruct (interval f) as [[[lo v] hi] k].
  destruct (if (0 <=? p)%Z then (v, (k * 10 ^ p)%Z) else _) as [a b].
  destruct (within f p (a / b)) eqn:E1, (within f p (a / b + 1)) eqn:E2; intros [= <-]; try done.
  unfold round_div. destruct (_ ?= _)%Z; [destruct (Z.even _)|..]; done.
Qed.

(** ** The value of digits *)

Lemma digits_val_app s : sall is_digit s = true → ∃ v, (0 <= v < 10 ^ Z.of_nat (String.length s))%Z ∧
  ∀ acc t, digits_val acc (s +:+ t) = digits_val (acc * 10 ^ Z.of_nat (String.length s) + v) t.
Proof.
  induction s as [|c s IH]; intros Hs.
  - exists 0%Z. split; [by cbn|]. intros acc t. cbn [String.append String.length]. f_equal. cbn. lia.
  - cbn [sall] in Hs. apply andb_true_iff in Hs as [Hc Hs]. destruct (IH Hs) as (v & Hv & H).
    assert (Hd : (0 <= digit_val c <= 9)%Z) by (revert Hc; clear; by_bytes c).
    exists (digit_val c * 10 ^ Z.of_nat (String.length s) + v)%Z.
    assert (E : (10 ^ Z.of_nat (String.length (String c s)) = 10 * 10 ^ Z.of_nat (String.length s))%Z)
      by (cbn [String.length]; rewrite Nat2Z.inj_succ, Z.pow_succ_r by lia; done).
    rewrite E. split; [nia|]. intros acc t. cbn [String.append digits_val]. rewrite Hc, H. f_equal. ring.
Qed.

Lemma digits_val_zeros acc n t : digits_val acc (zeros n +:+ t) = digits_val (acc * 10 ^ Z.of_nat n) t.
Proof.
  revert acc. induction n as [|n IH]; intros acc.
  - cbn [zeros String.append]. f_equal. cbn. lia.
  - cbn [zeros String.append digits_val]. change (is_digit "0") with true. cbv iota. rewrite IH. f_equal.
    rewrite Nat2Z.inj_succ, Z.pow_succ_r by lia. change (digit_val "0") with 0%Z. ring.
Qed.

(** Digits with the value [D]; a positive first one fixes their number. *)
Lemma leading_value digits : leading digits → ∃ D, digits_val 0 digits = Some D ∧ (0 < D)%Z ∧
  (10 ^ (Z.of_nat (String.length digits) - 1) <= D < 10 ^ Z.of_nat (String.length digits))%Z.
Proof.
  intros (Hs & c & r & -> & Hc). cbn [sall] in Hs. apply andb_true_iff in Hs as [Hd Hs].
  destruct (digits_val_app r Hs) as (v & Hv & H). specialize (H (digit_val c) ""). rewrite app_nil_r_s in H.
  assert (Hd' : (1 <= digit_val c <= 9)%Z) by (revert Hc Hd; clear; by_bytes c).
  eexists. split; [cbn [digits_val]; rewrite Hd; exact H|]. cbn [String.length].
  rewrite Nat2Z.inj_succ. replace (Z.succ (Z.of_nat (String.length r)) - 1)%Z with (Z.of_nat (String.length r)) by lia.
  rewrite Z.pow_succ_r by lia. pose proof (Z.pow_pos_nonneg 10 (Z.of_nat (String.length r))). nia.
Qed.

(** Trimming zeros divides by a power of ten. *)
Lemma trim_zeros s : ∃ t, s = trim_right (fun a => Ascii.eqb a "0") s +:+ zeros t.
Proof.
  induction s as [|c s [t IH]]; [by exists 0|]. cbn [trim_right].
  destruct (trim_right _ s) as [|c' r].
  - destruct (Ascii.eqb_spec c "0") as [->|].
    + exists (S t). cbn [zeros String.append] in *. by rewrite <- IH.
    + exists t. cbn [String.append] in *. by rewrite <- IH.
  - exists t. cbn [String.append] in *. by rewrite <- IH.
Qed.

Lemma digits_val_Itoa z : (0 <= z)%Z → digits_val 0 (Itoa z) = Some z.
Proof. intros Hz. rewrite Itoa_nonneg, digits_val_pretty by done. f_equal. lia. Qed.

(** What [shorten] finds denotes a number that rounds to [f]. *)
Definition denotes (f : float64) (digits : string) (pt : Z) : Prop :=
  leading digits ∧ ∃ D, digits_val 0 digits = Some D ∧
    let p := (pt - Z.of_nat (String.length digits))%Z in inside f (dec D p).1 (dec D p).2.

Lemma candidate_denotes f p c : (0 < mant f)%Z → candidate f p = Some c →
  denotes f (trim_right (fun a => Ascii.eqb a "0") (Itoa c)) (Z.of_nat (String.length (Itoa c)) + p).
Proof.
  intros Hm Hc. pose proof (candidate_positive f p c Hm Hc) as Hpos.
  pose proof (trim_leading _ (Itoa_leading c Hpos)) as Hl. destruct (trim_zeros (Itoa c)) as [t Ht].
  set (digits := trim_right _ (Itoa c)) in *. split; [done|].
  destruct (leading_value digits Hl) as (D & HD & HDpos & _). exists D. split; [done|]. cbv zeta.
  assert (Ec : c = (D * 10 ^ Z.of_nat t)%Z).
  { pose proof (digits_val_Itoa c ltac:(lia)) as E. rewrite Ht in E.
    destruct (digits_val_app digits ltac:(apply Hl)) as (v & _ & H). rewrite H in E.
    specialize (H 0%Z ""). rewrite app_nil_r_s, HD in H. injection H as H.
    rewrite <- (app_nil_r_s (zeros t)), digits_val_zeros in E. injection E as E. by rewrite H, E. }
  rewrite Ht, length_app_s, zeros_length, Nat2Z.inj_add.
  replace (Z.of_nat (String.length digits) + Z.of_nat t + p - Z.of_nat (String.length digits))%Z with (p + Z.of_nat t)%Z by lia.
  apply candidate_within, within_inside in Hc. rewrite Ec in Hc. revert Hc.
  apply inside_ratio; [apply dec_pos; pose proof (Z.pow_pos_nonneg 10 (Z.of_nat t)); nia|by apply dec_pos|].
  apply dec_shift. lia.
Qed.

Lemma shortest_denotes f : valid f → mant f ≠ 0%Z → denotes f (shortest f).1 (shortest f).2.
Proof.
  intros Hf Hm. assert (Hpos : (0 < mant f)%Z) by (destruct Hf; lia).
  assert (H : ∀ pt tries n, leading (shorten f pt tries n).1 →
    denotes f (shorten f pt tries n).1 (shorten f pt tries n).2).
  { intros pt tries. induction tries as [|tries IH]; intros n; [by intros (_ & ? & ? & ? & _)|]. cbn [shorten].
    destruct (candidate f (pt - n)) as [c|] eqn:E; [|apply IH]. intros _. by apply candidate_denotes. }
  pose proof (shortest_found f Hf Hm) as Hl. unfold shortest in *.
  rewrite (proj2 (Z.eqb_neq _ _)) in * by done. destruct (interval f) as [[[lo v] hi] k]. by apply H.
Qed.

(** ** The range of decimals that denote a number *)

Lemma interval_range f : valid f → (0 < mant f)%Z →
  let '(lo, _, hi, k) := interval f in (0 < k)%Z ∧ (hi < 10 ^ 310 * k)%Z ∧ (k < lo * 10 ^ 330)%Z.
Proof.
  intros [Hm _ He] Hpos. unfold interval. fold (low f).
  assert (Hlow : (2 <= low f)%Z) by (unfold low; destruct (Z.eqb_spec (mant f) (2 ^ 52)%Z); [destruct (_ <? _)%Z|]; cbn [andb]; lia).
  unfold min_expo, max_expo in He. unfold scaled. destruct (Z.leb_spec 0 (2 - expo f)) as [H|H].
  - assert (H1 : (1 <= 2 ^ (2 - expo f) <= 2 ^ 1076)%Z) by (split; [pose proof (Z.pow_pos_nonneg 2 (2 - expo f) eq_refl H); lia|apply Z.pow_le_mono_r; lia]).
    assert (H2 : (2 ^ 1076 < 2 * 10 ^ 330)%Z) by (vm_compute; reflexivity).
    assert (H3 : (4 * 2 ^ 53 + 2 < 10 ^ 310)%Z) by (vm_compute; reflexivity).
    set (k := (2 ^ (2 - expo f))%Z) in *. clearbody k. set (a := (2 ^ 1076)%Z) in *. set (b := (10 ^ 330)%Z) in *.
    set (c := (10 ^ 310)%Z) in *. clearbody a b c. split_and!; nia.
  - assert (H1 : (1 <= 2 ^ (- (2 - expo f)) <= 2 ^ 969)%Z) by (split; [pose proof (Z.pow_pos_nonneg 2 (- (2 - expo f))); lia|apply Z.pow_le_mono_r; lia]).
    assert (H2 : ((4 * 2 ^ 53 + 2) * 2 ^ 969 < 10 ^ 310)%Z) by (vm_compute; reflexivity).
    assert (H3 : (1 < 10 ^ 330)%Z) by (vm_compute; reflexivity).
    set (u := (2 ^ (- (2 - expo f)))%Z) in *. clearbody u. set (a := (2 ^ 969)%Z) in *. set (b := (10 ^ 330)%Z) in *.
    set (c := (10 ^ 310)%Z) in *. clearbody a b c. rewrite !Z.mul_1_l. split_and!; nia.
Qed.

(** Bounds of the interval bound the decimals in it. *)
Lemma inside_bounds f D p h b : (0 <= h)%Z → (0 <= b)%Z → (0 < D)%Z → inside f (dec D p).1 (dec D p).2 →
  (let '(lo, _, hi, k) := interval f in (0 < k)%Z ∧ (hi < 10 ^ h * k)%Z ∧ (k < lo * 10 ^ b)%Z) →
  ((dec D p).1 < 10 ^ h * (dec D p).2)%Z ∧ ((dec D p).2 < (dec D p).1 * 10 ^ b)%Z.
Proof.
  intros Hh Hb HD Hin Hr. pose proof (dec_pos D p HD) as [Hn Hd]. unfold inside in Hin.
  destruct (interval f) as [[[lo v] hi] k]. destruct Hr as (Hk & Hhi & Hlo).
  set (n := (dec D p).1) in *. set (d := (dec D p).2) in *. clearbody n d.
  pose proof (Z.pow_pos_nonneg 10 h eq_refl Hh). pose proof (Z.pow_pos_nonneg 10 b eq_refl Hb).
  set (x := (10 ^ h)%Z) in *. set (y := (10 ^ b)%Z) in *. clearbody x y.
  assert (Hin' : (lo * d <= n * k <= hi * d)%Z) by (destruct (Z.even _); lia).
  assert (H1 : (d * k < d * (lo * y))%Z) by nia. assert (H2 : (lo * d * y <= n * k * y)%Z) by nia.
  split; [assert (n * k < x * d * k)%Z by nia; nia|assert (d * k < n * y * k)%Z by lia; nia].
Qed.

Lemma size_bounds D p h b : (0 <= h)%Z → (0 <= b)%Z → (0 < D)%Z →
  ((dec D p).1 < 10 ^ h * (dec D p).2)%Z → ((dec D p).2 < (dec D p).1 * 10 ^ b)%Z →
  let size := (Z.of_nat (String.length (Itoa D)) + p)%Z in (- b < size <= h)%Z.
Proof.
  intros Hh Hb HD. destruct (Itoa_length D HD) as [Hl [HD1 HD2]].
  cbv zeta. set (l := Z.of_nat (String.length (Itoa D))) in *.
  unfold dec. destruct (Z.leb_spec 0 p) as [Hp|Hp]; cbn [fst snd]; intros H1 H2.
  - split; [lia|]. apply Z.nlt_ge. intros Hlt.
    assert (10 ^ h <= 10 ^ (l - 1) * 10 ^ p)%Z by (rewrite <- Z.pow_add_r by lia; apply Z.pow_le_mono_r; lia).
    pose proof (Z.pow_pos_nonneg 10 p eq_refl Hp). nia.
  - split; apply Z.nle_gt || apply Z.nlt_ge; intros Hlt.
    + assert (10 ^ l * 10 ^ b <= 10 ^ (- p))%Z by (rewrite <- Z.pow_add_r by lia; apply Z.pow_le_mono_r; lia).
      pose proof (Z.pow_pos_nonneg 10 b eq_refl Hb). nia.
    + assert (10 ^ h * 10 ^ (- p) <= 10 ^ (l - 1))%Z by (rewrite <- Z.pow_add_r by lia; apply Z.pow_le_mono_r; lia). lia.
Qed.

Lemma inside_size f D p : valid f → (0 < mant f)%Z → (0 < D)%Z → inside f (dec D p).1 (dec D p).2 →
  let size := (Z.of_nat (String.length (Itoa D)) + p)%Z in (-330 < size <= 310)%Z.
Proof.
  intros Hf Hm HD Hin. destruct (inside_bounds f D p 310 330) as [H1 H2]; try done; [by apply interval_range|].
  by apply (size_bounds D p 310 330).
Qed.

(** ** Reading the layouts *)

Lemma ParseFloat_shape (neg : bool) ip fp ex m : some_digits ip → sall is_digit fp = true →
  exponent_text ex → digits_val 0 (ip +:+ fp) = Some m →
  ParseFloat ((if neg then "-" else "") +:+ ip +:+ (if String.eqb fp "" then "" else String "." fp) +:+ ex) =
    let e := (exponent_part ex - Z.of_nat (String.length fp))%Z in
    let size := (Z.of_nat (String.length (Itoa m)) + e)%Z in
    if (m =? 0)%Z || (size <? -330)%Z then Some {| neg := neg; mant := 0; expo := min_expo |}
    else if (310 <? size)%Z then None
    else of_quotient neg (dec m e).1 (dec m e).2.
Proof.
  intros [Hi Hne] Hf He Hm. set (rest := (if String.eqb fp "" then "" else String "." fp) +:+ ex).
  destruct (exponent_text_read ex He) as (_ & Hn & _).
  assert (Hsg : sign_part true ((if neg then "-" else "") +:+ ip +:+ rest) = ((if neg then "-" else ""), ip +:+ rest)).
  { destruct neg; [done|]. destruct ip as [|c r]; [done|]. cbn [sall] in Hi. apply andb_true_iff in Hi as [Hc _].
    revert Hc. cbn [String.append sign_part]. clear. by_bytes c. }
  assert (Hrest : no_digit rest = true) by (subst rest; by destruct (String.eqb fp "")).
  assert (Hfrac : (match rest with String "." r => span is_digit r | _ => ("", rest) end) = (fp, ex)).
  { subst rest. destruct (String.eqb_spec fp "") as [->|Hfp].
    - destruct He as [->|(sg & ds & -> & _)]; done.
    - cbn [String.append]. by apply span_digits. }
  unfold ParseFloat. rewrite Hsg. cbv beta iota. rewrite span_digits by done. cbv beta iota. rewrite Hfrac.
  cbv beta iota. rewrite Hm. cbn [mbind option_bind].
  replace (String.eqb (if neg then "-" else "") "-") with neg by by destruct neg.
  cbv zeta. unfold dec. by destruct (0 <=? _)%Z.
Qed.

(** A decimal that rounds to [f] is read as [f]. *)
Lemma read_inside f ip fp ex m : valid f → (0 < mant f)%Z → some_digits ip → sall is_digit fp = true →
  exponent_text ex → digits_val 0 (ip +:+ fp) = Some m → (0 < m)%Z →
  let e := (exponent_part ex - Z.of_nat (String.length fp))%Z in inside f (dec m e).1 (dec m e).2 →
  ParseFloat (sign_of f +:+ ip +:+ (if String.eqb fp "" then "" else String "." fp) +:+ ex) = Some f.
Proof.
  intros Hf Hm Hi Hfp He Hv Hpos e Hin. unfold sign_of. rewrite (ParseFloat_shape (neg f) ip fp ex m) by done.
  fold e. cbv zeta. pose proof (inside_size f m e Hf Hm Hpos Hin) as Hs. cbv zeta in Hs.
  rewrite (proj2 (Z.eqb_neq m 0)), (proj2 (Z.ltb_ge _ (-330))), (proj2 (Z.ltb_ge 310 _)) by lia. cbn [orb].
  pose proof (dec_pos m e Hpos) as [Hn Hd]. destruct f as [sg mt ex']. cbn [neg mant] in *. by apply of_quotient_inside.
Qed.

Lemma digits_val_ge acc s v : (0 <= acc)%Z → digits_val acc s = Some v → (acc <= v)%Z.
Proof.
  revert acc. induction s as [|c s IH]; intros acc Ha; cbn [digits_val]; [by intros [= ->]|].
  destruct (is_digit c) eqn:Hc; [|done]. assert (0 <= digit_val c)%Z by (revert Hc; clear; by_bytes c).
  intros Hv%IH; lia.
Qed.

(** Below the bound an exponent is the value of its digits. *)
Lemma exponent_val_digits acc s v : (0 <= acc)%Z → (v < 10000)%Z → digits_val acc s = Some v → exponent_val acc s = v.
Proof.
  revert acc. induction s as [|c s IH]; intros acc Ha Hv; cbn [digits_val exponent_val]; [by intros [= ->]|].
  destruct (is_digit c) eqn:Hc; [|done]. assert (0 <= digit_val c)%Z by (revert Hc; clear; by_bytes c).
  intros H'. pose proof (digits_val_ge (acc * 10 + digit_val c)%Z s v ltac:(lia) H') as Hge.
  rewrite (proj2 (Z.ltb_lt acc 10000)) by lia. apply IH; [lia|done..].
Qed.

Lemma exponent_val_small z : (0 <= z < 10000)%Z → exponent_val 0 (Itoa z) = z.
Proof. intros Hz. apply exponent_val_digits; [done|lia|]. apply digits_val_Itoa. lia. Qed.

Lemma digits_val_prefix s : sall is_digit s = true → ∀ D, digits_val 0 s = Some D → ∀ n,
  digits_val 0 (s +:+ zeros n) = Some (D * 10 ^ Z.of_nat n)%Z.
Proof.
  intros Hs D HD n. destruct (digits_val_app s Hs) as (v & _ & H). rewrite H.
  specialize (H 0%Z ""). rewrite app_nil_r_s, HD in H. injection H as ->.
  rewrite <- (app_nil_r_s (zeros n)), digits_val_zeros. done.
Qed.

(** The layout around the point. *)
Lemma format_f_read f digits pt : valid f → (0 < mant f)%Z → denotes f digits pt →
  ParseFloat (sign_of f +:+ format_f digits pt) = Some f.
Proof.
  intros Hf Hm [Hl (D & HD & Hin)]. cbv zeta in Hin. destruct (leading_value digits Hl) as (D' & HD' & Hpos & _).
  rewrite HD in HD'. injection HD' as <-. pose proof Hl as (Hs & c & r & Ed & Hc).
  assert (Hne : String.eqb digits "" = false) by by rewrite Ed.
  assert (Hlen : (0 < String.length digits)%nat) by (rewrite Ed; cbn; lia).
  assert (Hread : ∀ ip fp m, some_digits ip → sall is_digit fp = true → digits_val 0 (ip +:+ fp) = Some m → (0 < m)%Z →
    let e := (- Z.of_nat (String.length fp))%Z in inside f (dec m e).1 (dec m e).2 →
    ParseFloat (sign_of f +:+ ip +:+ (if String.eqb fp "" then "" else String "." fp)) = Some f).
  { intros ip fp m Hi Hfp Hv Hm' e Hin'. rewrite <- (app_nil_r_s (if String.eqb fp "" then "" else _)).
    apply (read_inside f ip fp "" m); try done. by left. }
  unfold format_f. rewrite Hne, orb_false_r.
  destruct (Z.ltb_spec 0 pt) as [Hpt|Hpt]; destruct (Z.leb_spec (Z.of_nat (String.length digits)) pt) as [Hle|Hle].
  - rewrite stake_all by lia. set (j := Z.to_nat (pt - Z.of_nat (String.length digits))).
    pose proof (Hread (digits +:+ zeros j) "" (D * 10 ^ Z.of_nat j)%Z) as H. rewrite !app_nil_r_s in H.
    apply H; [|done|by apply digits_val_prefix|pose proof (Z.pow_pos_nonneg 10 (Z.of_nat j)); nia|].
    + split; [by rewrite sall_app, Hs, zeros_digits|by rewrite Ed].
    + revert Hin. apply inside_ratio; [by apply dec_pos|apply dec_pos; pose proof (Z.pow_pos_nonneg 10 (Z.of_nat j)); nia|].
      replace (pt - Z.of_nat (String.length digits))%Z with (0 + Z.of_nat j)%Z by lia.
      symmetry. apply dec_shift. lia.
  - rewrite (proj2 (Z.leb_gt pt 0)) by lia.
    replace (Z.to_nat (pt - Z.of_nat (String.length digits))) with 0%nat by lia. cbn [zeros]. rewrite app_nil_r_s.
    assert (Hk : String.length (sdrop (Z.to_nat pt) digits) = (String.length digits - Z.to_nat pt)%nat).
    { pose proof (f_equal String.length (stake_sdrop (Z.to_nat pt) digits)) as E.
      rewrite length_app_s, stake_length in E. lia. }
    pose proof (Hread (stake (Z.to_nat pt) digits) (sdrop (Z.to_nat pt) digits) D) as H.
    rewrite (proj2 (String.eqb_neq (sdrop _ _) "")) in H by (intros E; rewrite E in Hk; cbn in Hk; lia).
    apply H; [|by apply sall_sdrop|by rewrite stake_sdrop|done|].
    + split; [by apply sall_stake|]. intros E. pose proof (stake_length (Z.to_nat pt) digits) as E'. rewrite E in E'. cbn in E'. lia.
    + rewrite Hk. by replace (- Z.of_nat (String.length digits - Z.to_nat pt))%Z with (pt - Z.of_nat (String.length digits))%Z by lia.
  - lia.
  - rewrite (proj2 (Z.leb_le pt 0)) by lia. set (j := Z.to_nat (- pt)).
    pose proof (Hread "0" (zeros j +:+ digits) D) as H.
    rewrite (proj2 (String.eqb_neq (zeros j +:+ digits) "")) in H
      by (intros E; apply (f_equal String.length) in E; rewrite length_app_s in E; cbn in E; lia).
    apply H; [done|by rewrite sall_app, zeros_digits| |done|].
    + cbn [String.append digits_val]. change (is_digit "0") with true. cbv iota. rewrite digits_val_zeros.
      change (0 * 10 + digit_val "0")%Z with 0%Z. rewrite Z.mul_0_l. done.
    + rewrite length_app_s, zeros_length.
      by replace (- Z.of_nat (j + String.length digits))%Z with (pt - Z.of_nat (String.length digits))%Z by lia.
Qed.

(** What encoding/json writes for a number is read as that number. *)
Theorem ParseFloat_format_json f : valid f → ParseFloat (format_json f) = Some f.
Proof.
  intros Hf. destruct (Z.eq_dec (mant f) 0%Z) as [Hz|Hnz].
  - unfold format_json, shortest. rewrite Hz. destruct f as [sg m e]. cbn [mant] in Hz. subst m.
    destruct Hf as [_ Hn _]. cbn [mant expo] in Hn. destruct Hn as [Hn| ->]; [lia|]. by destruct sg.
  - pose proof (shortest_denotes f Hf Hnz) as Hd. assert (Hm : (0 < mant f)%Z) by (destruct Hf; lia).
    unfold format_json. destruct (shortest f) as [digits pt]. cbn [fst snd] in Hd.
    destruct (_ && _); [|by apply format_f_read]. destruct Hd as [Hl (D & HD & Hin)]. cbv zeta in Hin.
    destruct (leading_value digits Hl) as (D' & HD' & Hpos & HD1). rewrite HD in HD'. injection HD' as <-.
    pose proof (inside_size f D _ Hf Hm Hpos Hin) as Hsize. cbv zeta in Hsize.
    destruct Hl as (Hs & c & r & -> & Hc). cbn [sall] in Hs. apply andb_true_iff in Hs as [Hdc Hr].
    set (ex := "e" +:+ _).
    assert (Hpt : (-330 < pt <= 310)%Z).
    { destruct (Itoa_length D Hpos) as [Hl [HI1 HI2]]. set (l := Z.of_nat (String.length (Itoa D))) in *.
      set (l' := Z.of_nat (String.length (String c r))) in *. assert (1 <= l')%Z by (subst l'; cbn [String.length]; lia).
      assert (l - 1 < l')%Z by (apply (Z.pow_lt_mono_r_iff 10); lia).
      assert (l' - 1 < l)%Z by (apply (Z.pow_lt_mono_r_iff 10); lia). lia. }
    assert (Hex : exponent_text ex ∧ exponent_part ex = (pt - 1)%Z).
    { split.
      - right. eexists _, (Itoa (Z.abs (pt - 1))). split; [done|]. split; [by destruct (_ <? 0)%Z; auto|].
        split; [apply Itoa_nonneg_digits; lia|apply Itoa_nonempty].
      - subst ex. pose proof (exponent_val_small (Z.abs (pt - 1)) ltac:(lia)) as E.
        destruct (Z.ltb_spec (pt - 1) 0); cbn [String.append exponent_part sign_part]; cbn; rewrite E; lia. }
    destruct Hex as [Hex1 Hex2]. clearbody ex.
    pose proof (read_inside f (String c "") r ex D Hf Hm) as H. rewrite Hex2 in H.
    destruct r as [|c' r].
    + apply H; try done; [by split; [cbn; rewrite Hdc|]|]. revert Hin. cbn [String.length]. 
      by replace (pt - 1 - Z.of_nat 0)%Z with (pt - Z.of_nat 1)%Z by lia.
    + apply H; try done; [by split; [cbn; rewrite Hdc|]|]. revert Hin. cbn [String.length].
      by replace (pt - 1 - Z.of_nat (S (String.length r)))%Z with (pt - Z.of_nat (S (S (String.length r))))%Z by lia.
Qed.
End FloatFacts.
