(* ===== verification/Errors.v ===== *)
(** * Packages errors, fmt and strconv: the text of an error

    [Error] renders the errors of the Prelude: the format with its arguments, %q
    quoting as strconv.Quote does. *)

From S2P Require Import Prelude GoStrings Json.

Section Errors.

(** Whether a code point that is not ASCII is printable for strconv: a table of the
    Unicode standard. *)
Context (is_print : N → bool).

(** ** strconv.Quote *)

(** [digits] hexadecimal digits. *)
Fixpoint hex_text (digits : nat) (n : N) : string :=
  match digits with
  | O => ""
  | S d => hex_text d (n / 16) +:+ String (hex_digit (n mod 16)) ""
  end.

Definition quote_byte (c : ascii) : string :=
  if Ascii.eqb c dquote || Ascii.eqb c backslash then String backslash (String c "")
  else if (32 <=? N_of_ascii c)%N && (N_of_ascii c <? 127)%N then String c ""
  else if Ascii.eqb c "007" then String backslash "a"
  else if Ascii.eqb c "008" then String backslash "b"
  else if Ascii.eqb c "012" then String backslash "f"
  else if Ascii.eqb c lf then String backslash "n"
  else if Ascii.eqb c cr then String backslash "r"
  else if Ascii.eqb c "009" then String backslash "t"
  else if Ascii.eqb c "011" then String backslash "v"
  else String backslash ("x" +:+ hex_text 2 (N_of_ascii c)).

(** A code point that is not ASCII, when it is not printable. *)
Definition quote_rune (n : N) : string :=
  if (n <? 65536)%N then String backslash ("u" +:+ hex_text 4 n)
  else String backslash ("U" +:+ hex_text 8 n).

(** [k] bytes of a sequence are still to be copied, or skipped. *)
Fixpoint Quote_go (copy : bool) (k : nat) (s : string) : string :=
  match s with
  | EmptyString => ""
  | String c r =>
      match k with
      | S k => if copy then String c (Quote_go copy k r) else Quote_go copy k r
      | O =>
          if is_ascii c then quote_byte c +:+ Quote_go true 0 r
          else match rune_len s with
               | S k =>
                   let n := default 0%N (head (runes s)) in
                   if is_print n then String c (Quote_go true k r)
                   else quote_rune n +:+ Quote_go false k r
               | O => String backslash ("x" +:+ hex_text 2 (N_of_ascii c)) +:+ Quote_go true 0 r
               end
      end
  end.

Definition Quote (s : string) : string :=
  String dquote "" +:+ Quote_go true 0 s +:+ String dquote "".

(** ** fmt.Errorf *)

(** The verbs of the error formats: %q quotes its argument, %s, %d, %v and %w stand
    for its text. *)
Fixpoint sprintf (format : string) (args : list string) : string :=
  match format with
  | EmptyString => ""
  | String "%" (String v r) =>
      match args with
      | a :: args => (if Ascii.eqb v "q" then Quote a else a) +:+ sprintf r args
      | [] => "%!" +:+ String v "(MISSING)" +:+ sprintf r []
      end
  | String c r => String c (sprintf r args)
  end.

(** The wrapped error is the last argument. *)
Fixpoint Error (e : GoError) : string :=
  match e with
  | Errorf format args => sprintf format args
  | Wrapf format args inner => sprintf format (args ++ [Error inner])
  end.
End Errors.
