(* ===== verification/Policy.v ===== *)
(** * Package security, policy.go: the version gate

    [parseVersion] and [ValidateVersion] of src/src/openclaw-broker/security/policy.go,
    with the order on versions that the gate decides. *)

From S2P Require Import Prelude GoStrings.

Module Policy.

Definition MinSafeVersion : string := "2026.1.29".

(** A parsed version: year, month, day. *)
Definition triple : Type := Z * Z * Z.

Definition parse_component (what v part : string) : result GoError Z :=
  rmap_err (Wrapf ("invalid " +:+ what +:+ " in version %q: %w") [v])
    (ok_or (Atoi part) (Errorf ("strconv.Atoi: parsing %q: " +:+ Atoi_reason part) [part])).

Definition parseVersion (v : string) : result GoError triple :=
  match split_on "." v with
  | [p0; p1; p2] =>
      year ←? parse_component "year" v p0;
      month ←? parse_component "month" v p1;
      day ←? parse_component "day" v (before "-" p2);
      Ok (year, month, day)
  | _ => Err (Errorf "invalid version format %q (expected YYYY.M.D)" [v])
  end.

(** The comparison of the source: the version is strictly below the minimum. *)
Definition below (v m : triple) : bool :=
  let '(vY, vM, vD) := v in
  let '(mY, mM, mD) := m in
  (vY <? mY)%Z
  || ((vY =? mY)%Z && (vM <? mM)%Z)
  || ((vY =? mY)%Z && (vM =? mM)%Z && (vD <? mD)%Z).

(** The minimum in force: an empty one falls back to [MinSafeVersion]. *)
Definition effective_min (minVersion : string) : string :=
  if String.eqb minVersion "" then MinSafeVersion else minVersion.

(** [None] is the nil error. *)
Definition ValidateVersion (version minVersion : string) : option GoError :=
  let minVersion := effective_min minVersion in
  if String.eqb version "" then
    Some (Errorf "OpenClaw version is required (minimum: %s for CVE-2026-25253)" [minVersion])
  else
    match parseVersion version with
    | Err e => Some e
    | Ok v =>
        match parseVersion minVersion with
        | Err e => Some (Wrapf "invalid minimum version %q: %w" [minVersion] e)
        | Ok m =>
            if below v m then
              Some (Errorf "OpenClaw version %s is below minimum safe version %s (CVE-2026-25253)"
                      [version; minVersion])
            else None
        end
    end.

(** ** The policy record *)

Record SecurityPolicy : Type := {
  WebSocketOriginCheck : bool;
  MinVersion : string;
}.

Definition DefaultSecurityPolicy : SecurityPolicy :=
  {| WebSocketOriginCheck := true; MinVersion := MinSafeVersion |}.

(** ** The specification: the lexicographic order on (year, month, day) *)

Definition version_le (a b : triple) : Prop :=
  let '(aY, aM, aD) := a in
  let '(bY, bM, bD) := b in
  (aY < bY ∨ (aY = bY ∧ (aM < bM ∨ (aM = bM ∧ aD ≤ bD))))%Z.

#[export] Instance version_le_dec a b : Decision (version_le a b).
Proof. destruct a as [[??]?], b as [[??]?]. unfold version_le. apply _. Defined.

#[export] Instance version_le_total_order : TotalOrder version_le.
Proof.
  split; [split; [split|]|].
  - intros [[??]?]. simpl. lia.
  - intros [[??]?] [[??]?] [[??]?]. simpl. lia.
  - intros [[??]?] [[??]?]. simpl. intros. repeat f_equal; lia.
  - intros [[a b] c] [[d e] f]. unfold strict. simpl.
    destruct (Z.lt_trichotomy a d) as [?|[?|?]], (Z.lt_trichotomy b e) as [?|[?|?]],
      (Z.lt_trichotomy c f) as [?|[?|?]]; subst; first
      [ left; lia | right; left; congruence | right; right; lia ].
Qed.

Lemma below_spec v m : below v m = false ↔ version_le m v.
Proof.
  destruct v as [[vY vM] vD], m as [[mY mM] mD]. simpl.
  rewrite !orb_false_iff, !andb_false_iff, !Z.ltb_ge, !Z.eqb_neq. lia.
Qed.

Lemma parseVersion_empty : is_ok (parseVersion "") = false.
Proof. done. Qed.

(** What it takes to pass the gate. *)
Lemma ValidateVersion_none v m :
  ValidateVersion v m = None ↔
  ∃ tv tm, parseVersion v = Ok tv ∧ parseVersion (effective_min m) = Ok tm ∧ below tv tm = false.
Proof.
  unfold ValidateVersion. split.
  - destruct (String.eqb v "") eqn:E; [done|].
    destruct (parseVersion v) as [tv|]; [|done].
    destruct (parseVersion (effective_min m)) as [tm|]; [|done].
    destruct (below tv tm) eqn:B; [done|]. eauto.
  - intros (tv & tm & Hv & Hm & B). destruct (String.eqb v "") eqn:E.
    + bool_prop. subst. by pose proof parseVersion_empty.
    + by rewrite Hv, Hm, B.
Qed.

Lemma effective_min_nonempty v : v ≠ "" → effective_min v = v.
Proof. intros. unfold effective_min. by rewrite (proj2 (String.eqb_neq _ _)). Qed.

(** ** Printing a version, the inverse of parsing *)

Definition print_version (t : triple) (suffix : string) : string :=
  let '(y, m, d) := t in
  Itoa y +:+ "." +:+ Itoa m +:+ "." +:+ Itoa d +:+ suffix.

Definition not_byte (c a : ascii) : bool := negb (Ascii.eqb a c).

Lemma Itoa_no_dot z : sall (not_byte ".") (Itoa z) = true.
Proof. apply Itoa_sall; [done|]. intros c. by_bytes c. Qed.

Lemma Itoa_no_dash z : (0 ≤ z)%Z → sall (not_byte "-") (Itoa z) = true.
Proof. intros. eapply sall_impl, Itoa_nonneg_digits; [|done]. intros c. by_bytes c. Qed.

(** A suffix as the doc comment of the source describes it: empty, or a hyphen
    and anything without a dot. *)
Definition suffix_ok (s : string) : bool :=
  match s with
  | EmptyString => true
  | String "-" r => sall (not_byte ".") r
  | _ => false
  end.

Lemma suffix_ok_inv s : suffix_ok s = true →
  s = "" ∨ ∃ r, s = String "-" r ∧ sall (not_byte ".") r = true.
Proof.
  destruct s as [|c r]; [by left|]. intros H. right. exists r.
  assert (c = "-"%char) as ->; [|done]. revert H. clear. by_bytes c.
Qed.

Lemma before_suffix z s : (0 ≤ z)%Z → suffix_ok s = true → before "-" (Itoa z +:+ s) = Itoa z.
Proof.
  intros Hz [-> | (r & -> & _)]%suffix_ok_inv.
  - rewrite app_nil_r_s. apply before_none, Itoa_no_dash, Hz.
  - apply before_app, Itoa_no_dash, Hz.
Qed.

Lemma split_print_version y m d s : suffix_ok s = true →
  split_on "." (print_version (y, m, d) s) = [Itoa y; Itoa m; Itoa d +:+ s].
Proof.
  intros Hs. simpl. rewrite !split_on_app by apply Itoa_no_dot.
  rewrite split_on_none; [done|]. rewrite sall_app.
  change (fun a : ascii => negb (Ascii.eqb a ".")) with (not_byte ".").
  rewrite Itoa_no_dot. by apply suffix_ok_inv in Hs as [-> | (r & -> & ?)].
Qed.

Lemma parse_component_Itoa what v z :
  in_int64 z = true → parse_component what v (Itoa z) = Ok z.
Proof. intros. unfold parse_component. by rewrite Atoi_Itoa. Qed.

(** ** Properties *)

(** C30. The version gate is exactly the lexicographic order: a version passes
    against a minimum iff both parse and the minimum (MinSafeVersion when it is
    empty) is at most the version in the order of (year, month, day). *)
Theorem ValidateVersion_spec v m :
  ValidateVersion v m = None ↔
  ∃ tv tm, parseVersion v = Ok tv ∧ parseVersion (effective_min m) = Ok tm ∧ version_le tm tv.
Proof. rewrite ValidateVersion_none. by setoid_rewrite below_spec. Qed.

(** Parsing inverts printing: for 64-bit year and month, any non-negative
    day and any suffix of the documented form (nothing, or a hyphen followed by
    text without a dot), the printed version parses back to its components. *)
Theorem parseVersion_print y m d s :
  in_int64 y = true → in_int64 m = true → in_int64 d = true → (0 ≤ d)%Z →
  suffix_ok s = true →
  parseVersion (print_version (y, m, d) s) = Ok (y, m, d).
Proof.
  intros Hy Hm Hd Hd0 Hs. unfold parseVersion. rewrite split_print_version by done.
  by rewrite before_suffix, !parse_component_Itoa.
Qed.

Lemma parseVersion_print_witness :
  parseVersion (print_version (2026, 2, 21)%Z "-2") = Ok (2026, 2, 21)%Z.
Proof. apply (parseVersion_print 2026 2 21 "-2"); reflexivity || lia. Defined.

(** Raising the bar is safe: the gate is transitive, so a version accepted
    against a minimum that itself passes an older minimum passes the older one. *)
Theorem ValidateVersion_trans v m m' :
  m ≠ "" → ValidateVersion v m = None → ValidateVersion m m' = None →
  ValidateVersion v m' = None.
Proof.
  rewrite !ValidateVersion_none. intros Hm (tv & tm & Hv & Hm1 & B1) (tm' & tm2 & Hm2 & Hm' & B2).
  rewrite effective_min_nonempty in Hm1 by done. rewrite Hm1 in Hm2. simplify_eq.
  exists tv, tm2. split_and!; [done..|].
  apply below_spec. apply below_spec in B1, B2. by etrans.
Qed.

Lemma ValidateVersion_trans_witness : ValidateVersion "2026.10.1" "" = None.
Proof. apply (ValidateVersion_trans "2026.10.1" "2026.2.1" ""); [done|vm_compute; reflexivity..]. Defined.

End Policy.
