(* ===== verification/Hostname.v ===== *)
(** * Package broker, provision.go: instance ids and route hostnames

    [validInstanceID], [invalidDNSChars], [sanitizeHostname] and
    [uniqueRouteHostname] of src/src/openclaw-broker/broker/provision.go. *)

From S2P Require Import Prelude GoStrings.

Module Hostname.

(** ** The regular expressions *)

(** The class a-zA-Z0-9_- *)
Definition id_char (c : ascii) : bool :=
  is_alnum c || Ascii.eqb c "_" || Ascii.eqb c "-".

(** validInstanceID: one alphanumeric byte, then at most 63 of [id_char], up to
    the end of the text. *)
Definition validInstanceID (s : string) : bool :=
  match s with
  | EmptyString => false
  | String c r => is_alnum c && sall id_char r && (String.length r <=? 63)%nat
  end.

(** The complement of invalidDNSChars: the bytes a DNS label keeps.  The regular
    expression works on runes; a rune outside ASCII is made of bytes outside
    ASCII only, so deleting runes and deleting bytes agree. *)
Definition dns_char (c : ascii) : bool :=
  is_lower c || is_digit c || Ascii.eqb c "-".

Definition is_dash (c : ascii) : bool := Ascii.eqb c "-".

(** invalidDNSChars.ReplaceAllString(s, EMPTY) *)
Definition delete_invalidDNSChars (s : string) : string := sfilter dns_char s.

(** ** The functions *)

Definition sanitizeHostname (s : string) : string :=
  let s := ToLower s in
  let s := before "@" s in
  let s := replace_byte "." "-" s in
  let s := replace_byte "_" "-" s in
  let s := delete_invalidDNSChars s in
  trim is_dash s.

(** The sanitized instance id inside [uniqueRouteHostname]. *)
Definition sanitizeID (instanceID : string) : string :=
  trim is_dash (delete_invalidDNSChars (ToLower instanceID)).

Definition uniqueRouteHostname (sanitizedOwner instanceID : string) : string :=
  let sanitizedID := sanitizeID instanceID in
  let maxOwnerLen := (63 - 4 - Z.of_nat (String.length sanitizedID))%Z in
  let maxOwnerLen := if (maxOwnerLen <? 1)%Z then 1%Z else maxOwnerLen in
  let owner := sanitizedOwner in
  let owner :=
    if (maxOwnerLen <? Z.of_nat (String.length owner))%Z
    then trim_right is_dash (stake (Z.to_nat maxOwnerLen) owner) else owner in
  let h := "oc-" +:+ owner +:+ "-" +:+ sanitizedID in
  if (63 <? Z.of_nat (String.length h))%Z then trim_right is_dash (stake 63 h) else h.

(** The owner part Provision hands over: the sanitized owner, or agent. *)
Definition sanitizedOwner (owner : string) : string :=
  let s := sanitizeHostname owner in
  if String.eqb s "" then "agent" else s.

(** ** Specification: DNS labels *)

(** At least one and at most 63 bytes of a-z, 0-9 and hyphen, neither first nor
    last a hyphen. *)
Definition is_dns_label (s : string) : bool :=
  negb (String.eqb s "") && (String.length s <=? 63)%nat && sall dns_char s
  && head_ok (fun c => negb (is_dash c)) s && last_ok (fun c => negb (is_dash c)) s.

(** ** Lemmas *)

Lemma trim_dns s : sall dns_char s = true → sall dns_char (trim is_dash s) = true.
Proof. apply sall_trim. Qed.

Lemma trim_head s : head_ok (fun c => negb (is_dash c)) (trim is_dash s) = true.
Proof. apply head_ok_trim_right, head_ok_trim_left. Qed.

Lemma trim_last s : last_ok (fun c => negb (is_dash c)) (trim is_dash s) = true.
Proof. apply last_ok_trim_right. Qed.

Lemma trim_id s :
  head_ok (fun c => negb (is_dash c)) s = true → last_ok (fun c => negb (is_dash c)) s = true →
  trim is_dash s = s.
Proof. intros. unfold trim. by rewrite trim_left_id, trim_right_id. Qed.

Lemma sanitizeHostname_dns s : sall dns_char (sanitizeHostname s) = true.
Proof. apply trim_dns, sall_sfilter_self. Qed.

Lemma sanitizeID_dns s : sall dns_char (sanitizeID s) = true.
Proof. apply trim_dns, sall_sfilter_self. Qed.

#[export] Hint Resolve trim_dns trim_head trim_last sanitizeHostname_dns sanitizeID_dns : bytes.

(** On clean text every pass of the sanitizer is the identity. *)
Lemma replace_absent b by_ s :
  sall (fun c => negb (Ascii.eqb c b)) s = true → replace_byte b by_ s = s.
Proof.
  intros H. apply sflat_map_singleton. eapply sall_impl, H. cbn beta.
  intros c Hc. bool_split. rewrite Hc. apply String.eqb_refl.
Qed.

Lemma dns_pass s : sall dns_char s = true →
  replace_byte "_" "-" (replace_byte "." "-" (before "@" (ToLower s))) = s.
Proof.
  intros H.
  assert (Hne : ∀ b, dns_char b = false → sall (fun c => negb (Ascii.eqb c b)) s = true).
  { intros b Hb. eapply sall_impl, H. cbn beta. intros c Hc.
    destruct (Ascii.eqb_spec c b); [congruence|done]. }
  rewrite ToLower_id by (eapply sall_impl, H; intros c; by_bytes c).
  rewrite before_none by by apply Hne.
  rewrite (replace_absent "." "-") by by apply Hne.
  by rewrite replace_absent by by apply Hne.
Qed.

Lemma dns_filter s : sall dns_char s = true → delete_invalidDNSChars s = s.
Proof. apply sfilter_id. Qed.

Lemma sanitizedOwner_spec o :
  sall dns_char (sanitizedOwner o) = true ∧
  head_ok (fun c => negb (is_dash c)) (sanitizedOwner o) = true ∧ sanitizedOwner o ≠ "".
Proof.
  unfold sanitizedOwner. destruct (String.eqb (sanitizeHostname o) "") eqn:E; [done|].
  bool_prop. split_and!; [apply sanitizeHostname_dns|apply trim_head|done].
Qed.

(** A valid id keeps its first byte, so its sanitized form is not empty. *)
Lemma valid_id_ascii id : validInstanceID id = true → sall is_ascii id = true.
Proof.
  destruct id as [|c r]; [done|]. cbn [validInstanceID sall]. intros. bool_split.
  apply andb_true_iff. split; [revert H; clear; by_bytes c|].
  eapply sall_impl, H1. intros a. by_bytes a.
Qed.

Lemma alnum_lower c : is_alnum c = true →
  dns_char (lower_byte c) = true ∧ is_dash (lower_byte c) = false.
Proof. by_bytes c. Qed.

Lemma sanitizeID_head id : validInstanceID id = true →
  ∃ c r, sanitizeID id = String c r ∧ is_dash c = false.
Proof.
  intros Hv. unfold sanitizeID. rewrite ToLower_ascii by by apply valid_id_ascii.
  destruct id as [|c r]; [done|]. cbn [validInstanceID] in Hv. bool_split.
  destruct (alnum_lower c H) as [Hd Hn].
  cbn [smap delete_invalidDNSChars sfilter]. unfold delete_invalidDNSChars, trim.
  cbn [sfilter]. rewrite Hd. cbn [trim_left]. rewrite Hn. cbn [trim_right].
  rewrite Hn. destruct (trim_right is_dash _); eauto.
Qed.

Lemma head_ok_stake p n s : head_ok p s = true → head_ok p (stake n s) = true.
Proof. by destruct n, s. Qed.

Lemma dns_app3 o i : sall dns_char o = true → sall dns_char i = true →
  sall dns_char ("oc-" +:+ o +:+ "-" +:+ i) = true.
Proof. intros Ho Hi. simpl. by rewrite sall_app, Ho. Qed.

(** What is common to the two branches of the final truncation. *)
Lemma truncate_label h :
  sall dns_char h = true → head_ok (fun c => negb (is_dash c)) h = true → h ≠ "" →
  last_ok (fun c => negb (is_dash c)) h = true →
  is_dns_label (if (63 <? Z.of_nat (String.length h))%Z
                then trim_right is_dash (stake 63 h) else h) = true.
Proof.
  intros Hd Hh Hn Hl. unfold is_dns_label.
  destruct (63 <? Z.of_nat (String.length h))%Z eqn:E; bool_prop.
  - rewrite last_ok_trim_right, head_ok_trim_right, sall_trim_right
      by (by apply sall_stake || by apply head_ok_stake).
    pose proof (trim_right_length is_dash (stake 63 h)) as L.
    rewrite stake_length in L.
    rewrite (proj2 (Nat.leb_le _ _)) by lia.
    rewrite (proj2 (String.eqb_neq _ _)); [done|].
    destruct h as [|c r]; [done|]. by apply trim_right_nonempty.
  - rewrite (proj2 (Nat.leb_le _ _)) by lia. rewrite Hd, Hh, Hl.
    by rewrite (proj2 (String.eqb_neq _ _)).
Qed.

(** The two final shapes of the hostname. *)
Definition fit_owner (owner id : string) : string :=
  let maxOwnerLen := Z.max 1 (59 - Z.of_nat (String.length id)) in
  if (maxOwnerLen <? Z.of_nat (String.length owner))%Z
  then trim_right is_dash (stake (Z.to_nat maxOwnerLen) owner) else owner.

Lemma uniqueRouteHostname_eq owner id :
  uniqueRouteHostname owner id =
  let h := "oc-" +:+ fit_owner owner (sanitizeID id) +:+ "-" +:+ sanitizeID id in
  if (63 <? Z.of_nat (String.length h))%Z then trim_right is_dash (stake 63 h) else h.
Proof.
  unfold uniqueRouteHostname, fit_owner.
  replace (if (63 - 4 - Z.of_nat (String.length (sanitizeID id)) <? 1)%Z then 1%Z
    else (63 - 4 - Z.of_nat (String.length (sanitizeID id)))%Z)
    with (Z.max 1 (59 - Z.of_nat (String.length (sanitizeID id)))); [done|].
  destruct (_ <? 1)%Z eqn:E; bool_prop; lia.
Qed.

Lemma fit_owner_length owner id :
  (Z.of_nat (String.length (fit_owner owner id)) ≤ Z.max 1 (59 - Z.of_nat (String.length id)))%Z.
Proof.
  unfold fit_owner. set (n := Z.max _ _). destruct (n <? _)%Z eqn:E; bool_prop; [|done].
  pose proof (trim_right_length is_dash (stake (Z.to_nat n) owner)) as L.
  rewrite stake_length in L. lia.
Qed.

Lemma fit_owner_dns owner id :
  sall dns_char owner = true → sall dns_char (fit_owner owner id) = true.
Proof.
  intros. unfold fit_owner. destruct (_ <? _)%Z; [|done].
  by apply sall_trim_right, sall_stake.
Qed.

(** Whatever the id, the hostname is made of DNS characters. *)
Lemma uniqueRouteHostname_dns owner id :
  sall dns_char owner = true → sall dns_char (uniqueRouteHostname owner id) = true.
Proof.
  intros Ho. rewrite uniqueRouteHostname_eq. cbv zeta.
  assert (H : sall dns_char ("oc-" +:+ fit_owner owner (sanitizeID id) +:+ "-" +:+ sanitizeID id) = true)
    by (apply dns_app3; [by apply fit_owner_dns|apply sanitizeID_dns]).
  destruct (_ <? _)%Z; [|done]. by apply sall_trim_right, sall_stake.
Qed.

Lemma canonical_id id : sall dns_char id = true →
  head_ok (fun c => negb (is_dash c)) id = true → last_ok (fun c => negb (is_dash c)) id = true →
  sanitizeID id = id.
Proof.
  intros Hd Hh Hl. unfold sanitizeID.
  rewrite ToLower_id by (eapply sall_impl, Hd; intros c; by_bytes c).
  by rewrite dns_filter, trim_id.
Qed.

(** Ids as platforms generate them (a lower-case UUID is one): clean already,
    and short enough that the id is never truncated. *)
Definition canonical (id : string) : bool :=
  sall dns_char id && head_ok (fun c => negb (is_dash c)) id
  && last_ok (fun c => negb (is_dash c)) id && (String.length id <=? 58)%nat.

Lemma uniqueRouteHostname_canonical owner id : canonical id = true →
  uniqueRouteHostname owner id = "oc-" +:+ fit_owner owner id +:+ "-" +:+ id.
Proof.
  unfold canonical. intros. bool_split. bool_prop.
  rewrite uniqueRouteHostname_eq, canonical_id by done. cbv zeta.
  pose proof (fit_owner_length owner id) as L.
  rewrite (proj2 (Z.ltb_ge _ _)); [done|].
  rewrite !length_app_s. simpl String.length. lia.
Qed.

(** ** Properties *)

(** Sanitizing is idempotent, and what it yields is always a run of DNS
    bytes that neither starts nor ends with a hyphen. *)
Theorem sanitizeHostname_clean s :
  sanitizeHostname (sanitizeHostname s) = sanitizeHostname s ∧
  sall dns_char (sanitizeHostname s) = true ∧
  head_ok (fun c => negb (is_dash c)) (sanitizeHostname s) = true ∧
  last_ok (fun c => negb (is_dash c)) (sanitizeHostname s) = true.
Proof.
  assert (sall dns_char (sanitizeHostname s) = true) as Hd by apply sanitizeHostname_dns.
  split_and!; [|done|apply trim_head|apply trim_last].
  unfold sanitizeHostname at 1. cbv zeta. rewrite dns_pass, dns_filter by done.
  apply trim_id; [apply trim_head|apply trim_last].
Qed.

(** The route hostname Provision derives is a DNS label: for every owner text
    whatsoever and every instance id that passes the validation of Provision,
    it has between 1 and 63 bytes of a-z, 0-9 and hyphen and neither starts
    nor ends with a hyphen. *)
Theorem uniqueRouteHostname_dns_label owner id :
  validInstanceID id = true →
  is_dns_label (uniqueRouteHostname (sanitizedOwner owner) id) = true.
Proof.
  intros Hv. destruct (sanitizedOwner_spec owner) as (Hd & _ & _).
  destruct (sanitizeID_head id Hv) as (c & r & Hid & Hc).
  rewrite uniqueRouteHostname_eq. apply truncate_label; [|done|done|].
  - apply dns_app3; [by apply fit_owner_dns|apply sanitizeID_dns].
  - rewrite app_assoc_s, app_assoc_s, last_ok_app by by rewrite Hid. apply trim_last.
Qed.

Lemma uniqueRouteHostname_dns_label_witness :
  is_dns_label (uniqueRouteHostname (sanitizedOwner "Alice.Smith@example.com") "0b5a_X-9") = true.
Proof. apply (uniqueRouteHostname_dns_label "Alice.Smith@example.com" "0b5a_X-9"). reflexivity. Defined.

(** Two instances with canonical ids of the same length never share a route,
    whoever owns them: the id is kept whole at the end of the hostname, only the
    owner is truncated. *)
Theorem uniqueRouteHostname_inj o1 o2 id1 id2 :
  canonical id1 = true → canonical id2 = true → String.length id1 = String.length id2 →
  uniqueRouteHostname o1 id1 = uniqueRouteHostname o2 id2 → id1 = id2.
Proof.
  intros H1 H2 Hl. rewrite !uniqueRouteHostname_canonical by done.
  rewrite !app_assoc_s. by apply app_inj_suffix.
Qed.

Lemma uniqueRouteHostname_inj_witness :
  uniqueRouteHostname "alice" "7f3c-01" ≠ uniqueRouteHostname "alice" "7f3c-02".
Proof.
  intros E. assert ("7f3c-01" = "7f3c-02"); [|done].
  apply (uniqueRouteHostname_inj "alice" "alice" "7f3c-01" "7f3c-02");
    [vm_compute; reflexivity..|exact E].
Defined.

(** Ids that are not canonical do collide: these two valid ids get the same
    route hostname under every owner, and so do two ids of the maximal length
    that differ in their last bytes only. *)
Theorem uniqueRouteHostname_collides :
  (∃ id1 id2, id1 ≠ id2 ∧ validInstanceID id1 = true ∧ validInstanceID id2 = true ∧
     ∀ o, uniqueRouteHostname o id1 = uniqueRouteHostname o id2) ∧
  (∃ id1 id2, id1 ≠ id2 ∧ canonical (stake 58 id1) = true ∧
     validInstanceID id1 = true ∧ validInstanceID id2 = true ∧
     uniqueRouteHostname "alice" id1 = uniqueRouteHostname "alice" id2).
Proof.
  split.
  - exists "team_a", "teamA". split_and!; [done..|]. intros o. done.
  - exists "0123456789012345678901234567890123456789012345678901234567890aaa",
      "0123456789012345678901234567890123456789012345678901234567890bbb".
    split_and!; [done|vm_compute; reflexivity..].
Qed.

End Hostname.
