(* ===== verification/Encoding.v ===== *)
(** * encoding/base64 and encoding/hex

    The parts of the two standard packages that the broker uses: the URL-safe
    alphabet without padding (tokens, seeds, cookie secrets), the standard
    alphabet with padding (HTTP basic authentication), lower-case hexadecimal
    (client secrets), with the decoders that read them back. *)

From S2P Require Import Prelude GoStrings.

(** ** Alphabets *)

Definition std_alphabet : string :=
  "ABCDEFGHIJKLMNOPQRSTUVWXYZabcdefghijklmnopqrstuvwxyz0123456789+/".
Definition url_alphabet : string :=
  "ABCDEFGHIJKLMNOPQRSTUVWXYZabcdefghijklmnopqrstuvwxyz0123456789-_".
Definition hex_alphabet : string := "0123456789abcdef".

Definition enc_char (alpha : string) (n : N) : ascii :=
  default "A"%char (String.get (N.to_nat n) alpha).

Fixpoint index_byte (c : ascii) (s : string) : option N :=
  match s with
  | EmptyString => None
  | String a r => if Ascii.eqb a c then Some 0%N else N.succ <$> index_byte c r
  end.

(** ** base64 *)

Record encoding : Type := { enc_alphabet : string; enc_padded : bool }.

Definition StdEncoding : encoding := {| enc_alphabet := std_alphabet; enc_padded := true |}.
Definition RawURLEncoding : encoding := {| enc_alphabet := url_alphabet; enc_padded := false |}.

Section Base64.
Context (e : encoding).

Definition sextet (n : N) : ascii := enc_char (enc_alphabet e) n.

Definition padding (s : string) : string := if enc_padded e then s else "".

Fixpoint EncodeToString (s : string) : string :=
  match s with
  | EmptyString => EmptyString
  | String a EmptyString =>
      let a := N_of_ascii a in
      String (sextet (a / 4)) (String (sextet (a mod 4 * 16)) (padding "=="))
  | String a (String b EmptyString) =>
      let a := N_of_ascii a in let b := N_of_ascii b in
      String (sextet (a / 4)) (String (sextet (a mod 4 * 16 + b / 16))
        (String (sextet (b mod 16 * 4)) (padding "=")))
  | String a (String b (String c r)) =>
      let a := N_of_ascii a in let b := N_of_ascii b in let c := N_of_ascii c in
      String (sextet (a / 4)) (String (sextet (a mod 4 * 16 + b / 16))
        (String (sextet (b mod 16 * 4 + c / 64)) (String (sextet (c mod 64))
          (EncodeToString r))))
  end.

Definition sextet_val (c : ascii) : option N := index_byte c (enc_alphabet e).

(** Quanta of four characters; the last one may be short (or padded).  Trailing
    bits of a short quantum are not checked, as in the non-strict decoder. *)
Fixpoint decode_quanta (s : string) : option string :=
  match s with
  | EmptyString => Some EmptyString
  | String c0 (String c1 r) =>
      i0 ← sextet_val c0; i1 ← sextet_val c1;
      let b0 := ascii_of_N (i0 * 4 + i1 / 16) in
      match r with
      | EmptyString => if enc_padded e then None else Some (String b0 "")
      | String c2 r2 =>
          if enc_padded e && Ascii.eqb c2 "=" && String.eqb r2 "=" then Some (String b0 "")
          else
            i2 ← sextet_val c2;
            let b1 := ascii_of_N (i1 mod 16 * 16 + i2 / 4) in
            match r2 with
            | EmptyString => if enc_padded e then None else Some (String b0 (String b1 ""))
            | String c3 r3 =>
                if enc_padded e && Ascii.eqb c3 "=" && String.eqb r3 "" then
                  Some (String b0 (String b1 ""))
                else
                  i3 ← sextet_val c3;
                  let b2 := ascii_of_N (i2 mod 4 * 64 + i3) in
                  rest ← decode_quanta r3;
                  Some (String b0 (String b1 (String b2 rest)))
            end
      end
  | _ => None
  end.

(** The decoder skips carriage returns and newlines wherever they stand. *)
Definition DecodeString (s : string) : option string :=
  decode_quanta (sfilter (fun c => negb (Ascii.eqb c lf || Ascii.eqb c cr)) s).

End Base64.

(** ** hex *)

Fixpoint hex_EncodeToString (s : string) : string :=
  match s with
  | EmptyString => EmptyString
  | String a r =>
      String (enc_char hex_alphabet (N_of_ascii a / 16))
        (String (enc_char hex_alphabet (N_of_ascii a mod 16)) (hex_EncodeToString r))
  end.

Fixpoint hex_DecodeString (s : string) : option string :=
  match s with
  | EmptyString => Some EmptyString
  | String c0 (String c1 r) =>
      i0 ← index_byte c0 hex_alphabet; i1 ← index_byte c1 hex_alphabet;
      rest ← hex_DecodeString r;
      Some (String (ascii_of_N (i0 * 16 + i1)) rest)
  | _ => None
  end.

(** * Lemmas *)

(** Induction three bytes at a time, the shape of the encoder. *)
Lemma string_ind3 (P : string → Prop) :
  P "" → (∀ a, P (String a "")) → (∀ a b, P (String a (String b ""))) →
  (∀ a b c r, P r → P (String a (String b (String c r)))) → ∀ s, P s.
Proof.
  intros H0 H1 H2 H3 s. induction s as [s IH] using string_ind_length.
  destruct s as [|a [|b [|c r]]]; auto. apply H3, IH. simpl. lia.
Qed.

(** The two alphabets, checked letter by letter. *)
Definition alphabet_ok (alpha : string) : bool :=
  forallb (fun n => bool_decide (index_byte (enc_char alpha (N.of_nat n)) alpha = Some (N.of_nat n))
    && is_printable (enc_char alpha (N.of_nat n))
    && negb (Ascii.eqb (enc_char alpha (N.of_nat n)) "=")) (seq 0 (String.length alpha)).

Lemma alphabet_index alpha n : alphabet_ok alpha = true →
  (n < N.of_nat (String.length alpha))%N →
  index_byte (enc_char alpha n) alpha = Some n ∧ is_printable (enc_char alpha n) = true
  ∧ Ascii.eqb (enc_char alpha n) "=" = false.
Proof.
  unfold alphabet_ok. rewrite forallb_forall. intros H Hn.
  specialize (H (N.to_nat n)). rewrite N2Nat.id in H.
  assert (HI : In (N.to_nat n) (seq 0 (String.length alpha))) by (apply in_seq; lia).
  specialize (H HI). bool_split. by apply bool_decide_eq_true in H.
Qed.

Class GoodEncoding (e : encoding) : Prop := {
  good_alphabet : alphabet_ok (enc_alphabet e) = true;
  good_length : String.length (enc_alphabet e) = 64%nat;
}.

#[export] Instance StdEncoding_good : GoodEncoding StdEncoding.
Proof. by split; vm_compute. Qed.
#[export] Instance RawURLEncoding_good : GoodEncoding RawURLEncoding.
Proof. by split; vm_compute. Qed.

Lemma byte_bound c : (N_of_ascii c < 256)%N.
Proof. apply N_ascii_bounded. Qed.

Section Base64_lemmas.
Context (e : encoding) `{!GoodEncoding e}.

Lemma sextet_val_sextet n : (n < 64)%N → sextet_val e (sextet e n) = Some n.
Proof. intros. apply alphabet_index; [apply good_alphabet|by rewrite good_length]. Qed.

Lemma sextet_not_pad n : (n < 64)%N → Ascii.eqb (sextet e n) "=" = false.
Proof. intros. apply alphabet_index; [apply good_alphabet|by rewrite good_length]. Qed.

Lemma sextet_printable n : (n < 64)%N → is_printable (sextet e n) = true.
Proof. intros. apply alphabet_index; [apply good_alphabet|by rewrite good_length]. Qed.

(** The arithmetic of one quantum. *)
Lemma quantum0 a b : (a < 256 → b < 16 → a / 4 * 4 + (a mod 4 * 16 + b) / 16 = a)%N.
Proof. intros. div_lia. Qed.
Lemma quantum1 a b c : (b < 256 → c < 4 →
  (a mod 4 * 16 + b / 16) mod 16 * 16 + (b mod 16 * 4 + c) / 4 = b)%N.
Proof. intros. div_lia. Qed.
Lemma quantum2 b c : (c < 256 → (b mod 16 * 4 + c / 64) mod 4 * 64 + c mod 64 = c)%N.
Proof. intros. div_lia. Qed.

Lemma quantum_bounds a b c : (a < 256 → b < 256 → c < 256 →
  a / 4 < 64 ∧ a mod 4 * 16 + b / 16 < 64 ∧ b mod 16 * 4 + c / 64 < 64 ∧ c mod 64 < 64
  ∧ a mod 4 * 16 < 64 ∧ b mod 16 * 4 < 64 ∧ b / 16 < 16 ∧ c / 64 < 4)%N.
Proof. intros. div_lia. Qed.

Lemma ascii_val (n : N) a : n = N_of_ascii a → ascii_of_N n = a.
Proof. intros ->. apply ascii_N_embedding. Qed.

Lemma decode_encode_quanta s : decode_quanta e (EncodeToString e s) = Some s.
Proof.
  induction s as [|a|a b|a b c r IH] using string_ind3; [done|..].
  - pose proof (quantum_bounds (N_of_ascii a) 0 0 (byte_bound a)) as B.
    cbn [EncodeToString decode_quanta].
    rewrite !sextet_val_sextet by lia. cbn [mbind option_bind].
    rewrite (ascii_val _ a) by (pose proof (byte_bound a); div_lia).
    unfold padding. by destruct (enc_padded e).
  - pose proof (quantum_bounds (N_of_ascii a) (N_of_ascii b) 0 (byte_bound a) (byte_bound b)) as B.
    cbn [EncodeToString decode_quanta].
    rewrite !sextet_val_sextet, sextet_not_pad, andb_false_r by lia. cbn [mbind option_bind].
    rewrite (ascii_val _ a) by (apply quantum0; [apply byte_bound|lia]).
    rewrite (ascii_val _ b)
      by (pose proof (byte_bound a); pose proof (byte_bound b); div_lia).
    unfold padding. by destruct (enc_padded e).
  - pose proof (quantum_bounds _ _ _ (byte_bound a) (byte_bound b) (byte_bound c)) as B.
    cbn [EncodeToString decode_quanta].
    rewrite !sextet_val_sextet, !sextet_not_pad, !andb_false_r by lia. cbn [mbind option_bind].
    rewrite (ascii_val _ a) by (apply quantum0; [apply byte_bound|lia]).
    rewrite (ascii_val _ b) by (apply quantum1; [apply byte_bound|lia]).
    rewrite (ascii_val _ c) by (apply quantum2, byte_bound).
    by rewrite IH.
Qed.

(** Everything the encoder writes satisfies a predicate that its letters and the
    padding byte satisfy. *)
Lemma sall_EncodeToString (p : ascii → bool) s :
  (∀ n, (n < 64)%N → p (sextet e n) = true) → (enc_padded e = true → p "="%char = true) →
  sall p (EncodeToString e s) = true.
Proof.
  intros Hp Hpad. unfold padding.
  induction s as [|a|a b|a b c r IH] using string_ind3; [done|..].
  - pose proof (quantum_bounds (N_of_ascii a) 0 0 (byte_bound a)) as B.
    cbn [EncodeToString sall]. rewrite !Hp by lia. unfold padding.
    destruct (enc_padded e); [|done]. simpl. by rewrite Hpad.
  - pose proof (quantum_bounds (N_of_ascii a) (N_of_ascii b) 0 (byte_bound a) (byte_bound b)) as B.
    cbn [EncodeToString sall]. rewrite !Hp by lia. unfold padding.
    destruct (enc_padded e); [|done]. simpl. by rewrite Hpad.
  - pose proof (quantum_bounds _ _ _ (byte_bound a) (byte_bound b) (byte_bound c)) as B.
    cbn [EncodeToString sall]. by rewrite !Hp, IH by lia.
Qed.

Lemma DecodeString_EncodeToString s : DecodeString e (EncodeToString e s) = Some s.
Proof.
  unfold DecodeString. rewrite sfilter_id; [apply decode_encode_quanta|].
  apply sall_EncodeToString; [|done]. intros n Hn.
  pose proof (sextet_printable n Hn) as Hp. revert Hp. generalize (sextet e n).
  clear. intros c. by_bytes c.
Qed.

Lemma EncodeToString_inj s t : EncodeToString e s = EncodeToString e t → s = t.
Proof.
  intros E. pose proof (DecodeString_EncodeToString s) as H.
  rewrite E, DecodeString_EncodeToString in H. congruence.
Qed.

End Base64_lemmas.

(** Without padding, n bytes take (4n + 2) / 3 characters. *)
Lemma raw_length e s : enc_padded e = false →
  String.length (EncodeToString e s) = ((4 * String.length s + 2) / 3)%nat.
Proof.
  intros He. induction s as [|a|a b|a b c r IH] using string_ind3; [done|..];
    cbn [EncodeToString String.length]; unfold padding; rewrite ?He; [done..|].
  rewrite IH. set (n := String.length r).
  replace (4 * S (S (S n)) + 2)%nat with ((4 * n + 2) + 4 * 3)%nat by lia.
  rewrite Nat.div_add by lia. lia.
Qed.

(** ** hex *)

Lemma hex_ok : alphabet_ok hex_alphabet = true.
Proof. by vm_compute. Qed.

Lemma hex_DecodeString_EncodeToString s : hex_DecodeString (hex_EncodeToString s) = Some s.
Proof.
  induction s as [|a r IH]; [done|]. cbn [hex_EncodeToString hex_DecodeString].
  pose proof (byte_bound a).
  rewrite (proj1 (alphabet_index _ (N_of_ascii a / 16) hex_ok ltac:(simpl; div_lia))).
  rewrite (proj1 (alphabet_index _ (N_of_ascii a mod 16) hex_ok ltac:(simpl; div_lia))).
  cbn [mbind option_bind]. rewrite IH. cbn [mbind option_bind].
  rewrite (ascii_val _ a); [done|div_lia].
Qed.

Lemma hex_length s : String.length (hex_EncodeToString s) = (2 * String.length s)%nat.
Proof. induction s; simpl; lia. Qed.

Lemma sall_hex (p : ascii → bool) s :
  (∀ n, (n < 16)%N → p (enc_char hex_alphabet n) = true) → sall p (hex_EncodeToString s) = true.
Proof.
  intros Hp. induction s as [|a r IH]; [done|]. cbn [hex_EncodeToString sall].
  pose proof (byte_bound a). by rewrite !Hp, IH by div_lia.
Qed.
