(* ===== verification/Prog.v ===== *)
(** * Effectful Go code: programs over a shared store

    A handler is a [prog]: a tree of atomic steps on the shared store (one step
    per critical section, or per access outside a lock) and of questions to the
    environment (an HTTP round trip, the clock, random bytes, whether a
    file-system call failed, the order a map range visits its keys). [Lock] and
    [Unlock] are those of the mutex of the token cache: here they succeed at once,
    Mutex makes them wait.

    [run] executes a program alone against an oracle; [wp] is its weakest
    precondition over all oracles; [steps_in] says that every step a program can
    take, whatever happens between its steps, stays inside a relation; [pool]
    is the interleaving semantics of any number of programs. *)

From S2P Require Import Prelude GoStrings Json.

#[local] Set Warnings "-register-all".

(** ** HTTP messages *)

Inductive Body : Type :=
| NoBody
| TextBody (s : string)
| JsonBody (j : json).

(** The http.Client a request is sent with: its timeout in seconds, the PEM text of
    the only CAs it trusts ([None]: those of the system), whether it accepts any
    certificate, and whether it follows redirects. *)
Record HttpClient : Type := {
  Timeout : Z;
  RootCAs : option string;
  InsecureSkipVerify : bool;
  FollowRedirects : bool;
}.

Record HttpRequest : Type := {
  rq_client : HttpClient;
  rq_method : string;
  rq_url : string;
  rq_headers : list (string * string);
  rq_body : Body;
}.

(** [rs_body] holds the bytes of the body that arrived. *)
Record HttpResponse : Type := {
  rs_status : Z;
  rs_location : string;
  rs_body : string;
}.

(** ** File-system calls whose outcome the environment decides *)

Inductive FsOp : Type :=
| FsOpen (path : string)
| FsWrite (path : string)
| FsRename (from to : string)
| FsRead (path : string).

(** What a program asked and what it was told, in order. *)
Inductive event : Type :=
| EvHttp (r : HttpRequest) (res : result GoError HttpResponse)
| EvNow (t : Z)
| EvRand (bytes : string)
| EvFs (op : FsOp) (err : option GoError)
| EvOrder (keys : list string).

(** A generator reads a number of random bytes and makes a text of them. *)
Record Generator : Type := { gen_bytes : nat; gen_text : string → string }.

Definition generated (gens : list Generator) (bs : list string) : list string :=
  zip_with gen_text gens bs.

Inductive prog (S A : Type) : Type :=
| Ret (a : A)
| Step (f : S → S) (k : S → prog S A)
| Http (r : HttpRequest) (k : result GoError HttpResponse → prog S A)
| Now (k : Z → prog S A)
| Rand (n : nat) (k : string → prog S A)
| Fs (op : FsOp) (k : option GoError → prog S A)
| Order (keys : list string) (k : list string → prog S A)
| Draw (need : S → list nat) (f : S → list string → S) (k : S → list string → prog S A)
| Lock (k : prog S A)
| Unlock (k : prog S A).
Arguments Ret {S A} a.
Arguments Step {S A} f k.
Arguments Http {S A} r k.
Arguments Now {S A} k.
Arguments Rand {S A} n k.
Arguments Fs {S A} op k.
Arguments Order {S A} keys k.
Arguments Draw {S A} need f k.
Arguments Lock {S A} k.
Arguments Unlock {S A} k.

(** An oracle answers every question, knowing everything asked before. *)
Record Oracle : Type := {
  o_http : list event → HttpRequest → result GoError HttpResponse;
  o_now : list event → Z;
  o_rand : list event → nat → string;
  o_fs : list event → FsOp → option GoError;
  o_order : list event → list string → list string;
}.

(** Random reads fill the buffer; a range visits every key once. *)
Class ValidOracle (o : Oracle) : Prop := {
  valid_rand : ∀ tr n, String.length (o_rand o tr n) = n;
  valid_order : ∀ tr keys, o_order o tr keys ≡ₚ keys;
}.

Section Prog.
Context {S : Type}.

Fixpoint bind {A B} (p : prog S A) (h : A → prog S B) : prog S B :=
  match p with
  | Ret a => h a
  | Step f k => Step f (fun s => bind (k s) h)
  | Http r k => Http r (fun x => bind (k x) h)
  | Now k => Now (fun x => bind (k x) h)
  | Rand n k => Rand n (fun x => bind (k x) h)
  | Fs op k => Fs op (fun x => bind (k x) h)
  | Order l k => Order l (fun x => bind (k x) h)
  | Draw n f k => Draw n f (fun s xs => bind (k s xs) h)
  | Lock k => Lock (bind k h)
  | Unlock k => Unlock (bind k h)
  end.

(** A critical section: reads and updates the store at once. *)
Definition atomic {X} (g : S → S * X) : prog S X :=
  Step (fun s => (g s).1) (fun s => Ret (g s).2).

(** A critical section that only reads, and one that only writes. *)
Definition reads {X} (g : S → X) : prog S X := Step (fun s => s) (fun s => Ret (g s)).
Definition writes (f : S → S) : prog S unit := Step f (fun _ => Ret tt).

(** A critical section that generates values from random bytes on the way: which
    ones may depend on what it reads. *)
Definition locked {X} (gens : S → list Generator) (g : list string → S → S * X) : prog S X :=
  Draw (fun s => map gen_bytes (gens s))
    (fun s bs => (g (generated (gens s) bs) s).1)
    (fun s bs => Ret (g (generated (gens s) bs) s).2).

Definition generate (g : Generator) : prog S string :=
  Rand (gen_bytes g) (fun b => Ret (gen_text g b)).

(** ** Running alone *)

(** Random reads one after the other. *)
Fixpoint draw_all (o : Oracle) (ns : list nat) (tr : list event) : list string * list event :=
  match ns with
  | [] => ([], tr)
  | n :: ns =>
      let x := o_rand o tr n in
      let '(xs, tr') := draw_all o ns (tr ++ [EvRand x]) in (x :: xs, tr')
  end.

Fixpoint run {A} (o : Oracle) (p : prog S A) (s : S) (tr : list event) : A * S * list event :=
  match p with
  | Ret a => (a, s, tr)
  | Step f k => run o (k s) (f s) tr
  | Http r k => let x := o_http o tr r in run o (k x) s (tr ++ [EvHttp r x])
  | Now k => let x := o_now o tr in run o (k x) s (tr ++ [EvNow x])
  | Rand n k => let x := o_rand o tr n in run o (k x) s (tr ++ [EvRand x])
  | Fs op k => let x := o_fs o tr op in run o (k x) s (tr ++ [EvFs op x])
  | Order l k => let x := o_order o tr l in run o (k x) s (tr ++ [EvOrder x])
  | Draw n f k => let '(xs, tr') := draw_all o (n s) tr in run o (k s xs) (f s xs) tr'
  | Lock k => run o k s tr
  | Unlock k => run o k s tr
  end.

(** ** Weakest preconditions over all environments *)

Fixpoint wp {A} (p : prog S A) (s : S) (tr : list event)
    (Q : A → S → list event → Prop) : Prop :=
  match p with
  | Ret a => Q a s tr
  | Step f k => wp (k s) (f s) tr Q
  | Http r k => ∀ x, wp (k x) s (tr ++ [EvHttp r x]) Q
  | Now k => ∀ x, wp (k x) s (tr ++ [EvNow x]) Q
  | Rand n k => ∀ x, String.length x = n → wp (k x) s (tr ++ [EvRand x]) Q
  | Fs op k => ∀ x, wp (k x) s (tr ++ [EvFs op x]) Q
  | Order l k => ∀ x, x ≡ₚ l → wp (k x) s (tr ++ [EvOrder x]) Q
  | Draw n f k => ∀ xs, map String.length xs = n s →
      wp (k s xs) (f s xs) (tr ++ map EvRand xs) Q
  | Lock k => wp k s tr Q
  | Unlock k => wp k s tr Q
  end.

(** [along p s P]: [P] holds of every store the program passes through when it
    runs alone, so of whatever a crash leaves behind. *)
Fixpoint along {A} (p : prog S A) (s : S) (P : S → Prop) : Prop :=
  P s ∧
  match p with
  | Ret _ => True
  | Step f k => along (k s) (f s) P
  | Http _ k => ∀ x, along (k x) s P
  | Now k => ∀ x, along (k x) s P
  | Rand n k => ∀ x, String.length x = n → along (k x) s P
  | Fs _ k => ∀ x, along (k x) s P
  | Order l k => ∀ x, x ≡ₚ l → along (k x) s P
  | Draw n f k => ∀ xs, map String.length xs = n s → along (k s xs) (f s xs) P
  | Lock k => along k s P
  | Unlock k => along k s P
  end.

Lemma run_bind {A B} o (p : prog S A) (h : A → prog S B) s tr :
  run o (bind p h) s tr = let '(a, s', tr') := run o p s tr in run o (h a) s' tr'.
Proof. revert s tr. induction p; intros; simpl; auto. by destruct (draw_all _ _ _). Qed.

Lemma draw_all_spec o `{!ValidOracle o} ns tr :
  map String.length (draw_all o ns tr).1 = ns ∧
  (draw_all o ns tr).2 = tr ++ map EvRand (draw_all o ns tr).1.
Proof.
  revert tr. induction ns as [|n ns IH]; intros tr; simpl; [by rewrite app_nil_r|].
  specialize (IH (tr ++ [EvRand (o_rand o tr n)])). destruct (draw_all _ _ _) as [xs tr'].
  simpl in *. destruct IH as [<- ->]. by rewrite valid_rand, <- app_assoc.
Qed.

Lemma wp_mono {A} (p : prog S A) s tr (Q R : A → S → list event → Prop) :
  (∀ a s tr, Q a s tr → R a s tr) → wp p s tr Q → wp p s tr R.
Proof. intros HQ. revert s tr. induction p; simpl; intros; auto. Qed.

Lemma wp_bind {A B} (p : prog S A) (h : A → prog S B) s tr Q :
  wp p s tr (fun a s' tr' => wp (h a) s' tr' Q) → wp (bind p h) s tr Q.
Proof. revert s tr. induction p; simpl; intros; auto. Qed.

Lemma wp_and {A} (p : prog S A) s tr (Q R : A → S → list event → Prop) :
  wp p s tr Q → wp p s tr R → wp p s tr (fun a s tr => Q a s tr ∧ R a s tr).
Proof. revert s tr. induction p; simpl; intros; auto. Qed.

(** The trace only grows. *)
Lemma wp_extends {A} (p : prog S A) s tr : wp p s tr (fun _ _ tr' => tr `prefix_of` tr').
Proof.
  revert s tr. induction p; simpl; intros; auto;
    (eapply wp_mono; [|by auto]); intros ???; by apply prefix_app_l.
Qed.

Lemma wp_true {A} (p : prog S A) s tr : wp p s tr (fun _ _ _ => True).
Proof. revert s tr. induction p; simpl; auto. Qed.

(** Adequacy: what [wp] promises holds of every run. *)
Lemma wp_run {A} o `{!ValidOracle o} (p : prog S A) s tr Q :
  wp p s tr Q → let '(a, s', tr') := run o p s tr in Q a s' tr'.
Proof.
  revert s tr. induction p; simpl; intros; auto;
    try (by apply IHp);
    try (apply H, H0; apply valid_rand || apply valid_order).
  pose proof (draw_all_spec o (need s) tr) as [Hl Ht].
  destruct (draw_all o (need s) tr) as [xs tr']. simpl in *. subst tr'. by apply H, H0.
Qed.

(** ** Every step inside a relation, whatever happens in between

    [steps_in I G p]: from any store that satisfies [I], each step of [p] moves
    the store inside [G], and what [p] goes on to do is again of that kind.
    Other programs may have changed the store arbitrarily between two steps, as
    long as it satisfies [I]. *)

Fixpoint steps_in {A} (I : S → Prop) (G : S → S → Prop) (p : prog S A) : Prop :=
  match p with
  | Ret _ => True
  | Step f k => (∀ s, I s → G s (f s)) ∧ ∀ s, I s → steps_in I G (k s)
  | Http _ k => ∀ x, steps_in I G (k x)
  | Now k => ∀ x, steps_in I G (k x)
  | Rand n k => ∀ x, String.length x = n → steps_in I G (k x)
  | Fs _ k => ∀ x, steps_in I G (k x)
  | Order l k => ∀ x, x ≡ₚ l → steps_in I G (k x)
  | Draw n f k =>
      (∀ s xs, I s → map String.length xs = n s → G s (f s xs)) ∧
      ∀ s xs, I s → map String.length xs = n s → steps_in I G (k s xs)
  | Lock k => steps_in I G k
  | Unlock k => steps_in I G k
  end.

Lemma steps_in_bind {A B} I G (p : prog S A) (h : A → prog S B) :
  steps_in I G p → (∀ a, steps_in I G (h a)) → steps_in I G (bind p h).
Proof.
  induction p; simpl; intros; repeat match goal with H : _ ∧ _ |- _ => destruct H end; auto.
Qed.

Lemma steps_in_mono {A} (I I' : S → Prop) (G G' : S → S → Prop) (p : prog S A) :
  (∀ s, I' s → I s) → (∀ s s', G s s' → G' s s') → steps_in I G p → steps_in I' G' p.
Proof.
  intros HI HG. induction p; simpl; intros;
    repeat match goal with H : _ ∧ _ |- _ => destruct H end; auto.
Qed.

Lemma steps_in_and {A} (I : S → Prop) (G G' : S → S → Prop) (p : prog S A) :
  steps_in I G p → steps_in I G' p → steps_in I (fun s s' => G s s' ∧ G' s s') p.
Proof.
  induction p; simpl; intros; repeat match goal with H : _ ∧ _ |- _ => destruct H end; auto.
Qed.

Lemma steps_in_reads {X} I G (g : S → X) : (∀ s, G s s) → steps_in I G (reads g).
Proof. by split. Qed.

Lemma steps_in_writes I G f : (∀ s, I s → G s (f s)) → steps_in I G (writes f).
Proof. by split. Qed.

Lemma steps_in_atomic {X} I G (g : S → S * X) :
  (∀ s, I s → G s (g s).1) → steps_in I G (atomic g).
Proof. by split. Qed.

(** What a read, a write or a critical section returns is known to the rest. *)
Lemma steps_in_reads_bind {X B} I G (g : S → X) (h : X → prog S B) :
  (∀ s, G s s) → (∀ s, I s → steps_in I G (h (g s))) → steps_in I G (bind (reads g) h).
Proof. by split. Qed.

Lemma steps_in_writes_bind {B} I G f (h : unit → prog S B) :
  (∀ s, I s → G s (f s)) → steps_in I G (h tt) → steps_in I G (bind (writes f) h).
Proof. by split. Qed.

Lemma steps_in_atomic_bind {X B} I G (g : S → S * X) (h : X → prog S B) :
  (∀ s, I s → G s (g s).1) → (∀ s, I s → steps_in I G (h (g s).2)) →
  steps_in I G (bind (atomic g) h).
Proof. by split. Qed.

Lemma steps_in_locked_bind {X B} I G gens (g : list string → S → S * X) (h : X → prog S B) :
  (∀ s ts, I s → G s (g ts s).1) → (∀ s ts, I s → steps_in I G (h (g ts s).2)) →
  steps_in I G (bind (locked gens g) h).
Proof. intros ??. split; intros ???; simpl; auto. Qed.

(** Every value a program can return satisfies [Q], whatever the store. *)
Fixpoint yields {A} (Q : A → Prop) (p : prog S A) : Prop :=
  match p with
  | Ret a => Q a
  | Step _ k => ∀ s, yields Q (k s)
  | Http _ k => ∀ x, yields Q (k x)
  | Now k => ∀ x, yields Q (k x)
  | Rand _ k => ∀ x, yields Q (k x)
  | Fs _ k => ∀ x, yields Q (k x)
  | Order _ k => ∀ x, yields Q (k x)
  | Draw _ _ k => ∀ s xs, yields Q (k s xs)
  | Lock k => yields Q k
  | Unlock k => yields Q k
  end.

Lemma yields_bind {A B} (Q : A → Prop) (R : B → Prop) (p : prog S A) (h : A → prog S B) :
  yields Q p → (∀ a, Q a → yields R (h a)) → yields R (bind p h).
Proof. induction p; simpl; intros; auto. Qed.

Lemma yields_true {A} (p : prog S A) : yields (fun _ => True) p.
Proof. induction p; simpl; auto. Qed.

(** Every request a program can send satisfies [P], whatever it is told. *)
Fixpoint asks {A} (P : HttpRequest → Prop) (p : prog S A) : Prop :=
  match p with
  | Ret _ => True
  | Step _ k => ∀ s, asks P (k s)
  | Http r k => P r ∧ ∀ x, asks P (k x)
  | Now k => ∀ x, asks P (k x)
  | Rand _ k => ∀ x, asks P (k x)
  | Fs _ k => ∀ x, asks P (k x)
  | Order _ k => ∀ x, asks P (k x)
  | Draw _ _ k => ∀ s xs, asks P (k s xs)
  | Lock k => asks P k
  | Unlock k => asks P k
  end.

Lemma asks_bind {A B} P (p : prog S A) (h : A → prog S B) :
  asks P p → (∀ a, asks P (h a)) → asks P (bind p h).
Proof. induction p; simpl; intros Hp Hh; auto. destruct Hp. auto. Qed.

Lemma asks_bind_yields {A B} (Q : A → Prop) P (p : prog S A) (h : A → prog S B) :
  yields Q p → asks P p → (∀ a, Q a → asks P (h a)) → asks P (bind p h).
Proof. induction p; simpl; intros Hy Hp Hh; auto. destruct Hp. auto. Qed.

Lemma asks_mono {A} (P Q : HttpRequest → Prop) (p : prog S A) : (∀ r, P r → Q r) → asks P p → asks Q p.
Proof. intros H. induction p; simpl; intros Hp; auto. destruct Hp. auto. Qed.

Definition sent (P : HttpRequest → Prop) (e : event) : Prop :=
  match e with EvHttp r _ => P r | _ => True end.

Lemma asks_wp {A} P (p : prog S A) s tr0 tr : asks P p → Forall (sent P) tr →
  wp p s (tr0 ++ tr) (fun _ _ tr' => ∃ new, tr' = tr0 ++ new ∧ Forall (sent P) new).
Proof.
  assert (Hs : ∀ tr e, Forall (sent P) tr → sent P e → Forall (sent P) (tr ++ [e]))
    by (intros; by apply Forall_app_2; [|apply Forall_singleton]).
  revert s tr. induction p as [a|f k IH|r k IH|k IH|n k IH|op k IH|l k IH|n f k IH|k IH|k IH]; simpl;
    intros s tr Hp Htr; [by exists tr|by apply IH|..|by apply IH|by apply IH]; intros x **; rewrite <- app_assoc.
  1: destruct Hp. all: apply IH; [done|]; try by apply Hs.
  apply Forall_app_2; [done|]. by apply Forall_map, Forall_true.
Qed.

(** The rest of a program knows what its first part yields. *)
Lemma steps_in_bind_yields {A B} I G (Q : A → Prop) (p : prog S A) (h : A → prog S B) :
  yields Q p → steps_in I G p → (∀ a, Q a → steps_in I G (h a)) → steps_in I G (bind p h).
Proof.
  induction p; simpl; intros; repeat match goal with H : _ ∧ _ |- _ => destruct H end; auto.
Qed.

(** The generators of a critical section make its values. *)
Lemma steps_in_locked_gen {X B} I G gens (g : list string → S → S * X) (h : X → prog S B) :
  (∀ s bs, I s → G s (g (generated (gens s) bs) s).1) →
  (∀ s bs, I s → steps_in I G (h (g (generated (gens s) bs) s).2)) →
  steps_in I G (bind (locked gens g) h).
Proof. intros ??. split; intros ???; simpl; auto. Qed.

(** A program whose steps stay inside a preorder that preserves [I] does so when
    run alone. *)
Lemma steps_in_wp {A} I (G : S → S → Prop) `{!PreOrder G} (p : prog S A) s0 s tr :
  (∀ s s', I s → G s s' → I s') → I s →
  steps_in I G p → G s0 s → wp p s tr (fun _ s' _ => G s0 s' ∧ I s').
Proof.
  intros HI. revert s tr. induction p; simpl; intros s tr Hs Hp HG; auto.
  all: destruct Hp as [Hf Hk]; intros; apply H; eauto; etrans; eauto.
Qed.

(** ** Interleaving: a pool of programs over one store *)

(** One step of one program, with any admissible answer. *)
Inductive pstep {A} : S → prog S A → S → prog S A → Prop :=
| pstep_step s f k : pstep s (Step f k) (f s) (k s)
| pstep_http s r k x : pstep s (Http r k) s (k x)
| pstep_now s k x : pstep s (Now k) s (k x)
| pstep_rand s n k x : String.length x = n → pstep s (Rand n k) s (k x)
| pstep_fs s op k x : pstep s (Fs op k) s (k x)
| pstep_order s l k x : x ≡ₚ l → pstep s (Order l k) s (k x)
| pstep_draw s n f k xs : map String.length xs = n s → pstep s (Draw n f k) (f s xs) (k s xs)
| pstep_lock s k : pstep s (Lock k) s k
| pstep_unlock s k : pstep s (Unlock k) s k.

Definition config (A : Type) : Type := S * list (prog S A).

(** The server accepts a request ([pool_spawn], from the handlers [H] allows)
    or one of the running handlers takes a step. *)
Inductive pool {A} (H : prog S A → Prop) : config A → config A → Prop :=
| pool_spawn s ps p : H p → pool H (s, ps) (s, ps ++ [p])
| pool_step s ps1 p ps2 s' p' :
    pstep s p s' p' → pool H (s, ps1 ++ p :: ps2) (s', ps1 ++ p' :: ps2).

Lemma pstep_steps_in {A} I G `{!Reflexive G} s (p : prog S A) s' p' :
  pstep s p s' p' → I s → steps_in I G p → G s s' ∧ steps_in I G p'.
Proof. destruct 1; simpl; naive_solver. Qed.

(** The concurrency theorem: if every handler only takes steps inside a
    preorder [G] that preserves [I], then along every interleaving the store
    moves inside [G] and satisfies [I]. *)
Lemma pool_steps_in {A} (H : prog S A → Prop) I (G : S → S → Prop) `{!PreOrder G} c c' :
  (∀ s s', I s → G s s' → I s') → (∀ p, H p → steps_in I G p) →
  rtc (pool H) c c' → I c.1 → Forall (steps_in I G) c.2 →
  G c.1 c'.1 ∧ I c'.1 ∧ Forall (steps_in I G) c'.2.
Proof.
  intros HI HH. induction 1 as [c|c1 c2 c3 Hst _ IH]; intros Hs Hps; [done|].
  destruct Hst as [s ps p Hp|s ps1 p ps2 s' p' Hp]; simpl in *.
  - apply IH; [done|]. apply Forall_app. auto.
  - apply Forall_app in Hps as [H1 H2]. apply Forall_cons in H2 as [H2 H3].
    destruct (pstep_steps_in I G _ _ _ _ Hp Hs H2) as [HG Hp'].
    destruct IH as (HG' & Hs' & Hps'); [eauto|by apply Forall_app; auto|].
    split_and!; [by etrans|done..].
Qed.

End Prog.

(** ** Programs are finite *)

Definition goes_on {S A} (p p' : prog S A) : Prop := ∃ s s', pstep s p s' p'.

Lemma program_finite {S A} (p : prog S A) : Acc (flip goes_on) p.
Proof.
  induction p; constructor; intros p' (s1 & s2 & Hst); inversion Hst; subst; auto.
Qed.

(** ** So are lists of them *)

(** One of a list goes on. *)
Definition one_goes_on {X} (R : X → X → Prop) (l l' : list X) : Prop :=
  ∃ l1 x x' l2, l = l1 ++ x :: l2 ∧ l' = l1 ++ x' :: l2 ∧ R x x'.

Lemma one_goes_on_length {X} (R : X → X → Prop) l l' : one_goes_on R l l' → length l' = length l.
Proof. intros (l1 & x & x' & l2 & -> & -> & _). by rewrite !length_app. Qed.

Lemma list_finite {X} (R : X → X → Prop) l : Forall (Acc (flip R)) l → Acc (flip (one_goes_on R)) l.
Proof.
  induction l as [|x l IH]; intros Hl.
  - constructor. intros l' (l1 & x & x' & l2 & E & _). by destruct l1.
  - apply Forall_cons in Hl as [Hx Hl]. specialize (IH Hl). clear Hl. revert l IH.
    induction Hx as [x _ IHx]. intros l IH. induction IH as [l Hl IHl]. constructor.
    intros l' (l1 & y & y' & l2 & E & -> & Hy). destruct l1 as [|z l1]; injection E as -> ->.
    + apply IHx; [exact Hy|]. constructor. exact Hl.
    + apply IHl. by exists l1, y, y', l2.
Qed.

Notation "x ⇐ p ; q" := (bind p (fun x => q))
  (at level 20, p at level 100, q at level 200, only parsing) : broker_scope.
Notation "p >>> q" := (bind p (fun _ => q))
  (at level 60, q at level 200, right associativity, only parsing) : broker_scope.

(** ** Interfaces between the components

    What the broker asks of the BOSH Director and of UAA, as classes over the
    shared store, and the frame laws a client of them relies on: the steps an
    implementation takes stay inside [R], from any store. *)

Class Director (S : Type) : Type := {
  Deploy : string → prog S (result GoError Z);
  DeleteDeployment : string → prog S (result GoError Z);
  TaskStatus : Z → prog S (result GoError string);
}.

Class DirectorFrame (S : Type) `{!Director S} (R : S → S → Prop) : Prop := {
  deploy_frame m : steps_in (fun _ => True) R (Deploy m);
  delete_frame n : steps_in (fun _ => True) R (DeleteDeployment n);
  status_frame t : steps_in (fun _ => True) R (TaskStatus t);
}.

(** The contract of a director client: a success is backed by the last event of
    the trace, which the implementation describes. *)
Class DirectorContract (S : Type) `{!Director S} : Type := {
  deploy_event : string → Z → event → Prop;
  delete_event : string → Z → event → Prop;
  status_event : Z → string → event → Prop;
  deploy_contract m s tr : wp (Deploy m) s tr (fun r _ tr' =>
    ∀ id, r = Ok id → ∃ tr0 e, tr' = tr0 ++ [e] ∧ deploy_event m id e);
  delete_contract n s tr : wp (DeleteDeployment n) s tr (fun r _ tr' =>
    ∀ id, r = Ok id → ∃ tr0 e, tr' = tr0 ++ [e] ∧ delete_event n id e);
  status_contract t s tr : wp (TaskStatus t) s tr (fun r _ tr' =>
    ∀ st, r = Ok st → ∃ tr0 e, tr' = tr0 ++ [e] ∧ status_event t st e);
}.

(** A task id of a director client is an int. *)
Definition task_range (r : result GoError Z) : Prop := ∀ t, r = Ok t → in_int64 t = true.

Class DirectorRange (S : Type) `{!Director S} : Prop := {
  deploy_range m : yields task_range (Deploy m);
  delete_range n : yields task_range (DeleteDeployment n);
}.

(** A UAA OAuth2 client registration (uaa/client.go). *)
Record OAuthClient : Type := {
  ClientID : string;
  ClientSecret : string;
  AuthorizedGrantTypes : list string;
  RedirectURI : list string;
  Scope : list string;
  Authorities : list string;
  Name : string;
}.

Class ClientRegistry (S : Type) : Type := {
  CreateClient : OAuthClient → prog S (option GoError);
  DeleteClient : string → prog S (option GoError);
}.

Class RegistryFrame (S : Type) `{!ClientRegistry S} (R : S → S → Prop) : Prop := {
  create_frame c : steps_in (fun _ => True) R (CreateClient c);
  remove_frame i : steps_in (fun _ => True) R (DeleteClient i);
}.
