(* ===== verification/Template.v ===== *)
(** * Package text/template: the subset the manifest template uses

    A lexer, a parser and an executor for templates with text, fields, [if],
    [else if], [else], [range], the built-ins [or] and [not], two-argument
    functions of a function map, parentheses and the left trim marker; then a
    type checker for parsed templates, and the theorem that well-typed
    templates always render. *)

From S2P Require Import Prelude GoStrings.

(** ** Lexing *)

Inductive tok : Type :=
| TText (s : string)
| TAction (words : list string).

Definition is_trim_space (c : ascii) : bool :=
  Ascii.eqb c " " || Ascii.eqb c "009" || Ascii.eqb c cr || Ascii.eqb c lf.

Definition push (cur : string) (ws : list string) : list string :=
  if String.eqb cur "" then ws else cur :: ws.

(** The words of an action: parentheses stand alone. *)
Fixpoint words (cur s : string) : list string :=
  match s with
  | EmptyString => push cur []
  | String c r =>
      if Ascii.eqb c " " then push cur (words "" r)
      else if Ascii.eqb c "(" || Ascii.eqb c ")" then
        push cur (String c "" :: words "" r)
      else words (cur +:+ String c "") r
  end.

(** A hyphen and a space after the left delimiter trim the text before it. *)
Fixpoint lex (n : nat) (s : string) : option (list tok) :=
  match n with
  | O => None
  | S n =>
      match cut "{{" s with
      | None => Some [TText s]
      | Some (text, r) =>
          let '(text, r) :=
            if String.prefix "- " r then (trim_right is_trim_space text, sdrop 2 r)
            else (text, r) in
          match cut "}}" r with
          | None => None
          | Some (action, r) =>
              ts ← lex n r; Some (TText text :: TAction (words "" action) :: ts)
          end
      end
  end.

(** ** Syntax *)

Inductive expr : Type :=
| EDot
| EField (f : string)
| ENum (z : Z)
| ENot (e : expr)
| EOr (e1 e2 : expr)
| ECall (fn : string) (e1 e2 : expr).

Inductive nodes : Type :=
| NNil
| NText (s : string) (rest : nodes)
| NAction (e : expr) (rest : nodes)
| NIf (e : expr) (thn els rest : nodes)
| NRange (e : expr) (body rest : nodes).

(** ** Parsing *)

Section Parse.
(** The names of the function map. *)
Context (is_fun : string → bool).

Fixpoint parse_pipe (n : nat) (ws : list string) : option (expr * list string) :=
  match n with
  | O => None
  | S n =>
      match ws with
      | [] => None
      | w :: r =>
          if String.eqb w "not" then
            '(e, r) ← parse_operand n r; Some (ENot e, r)
          else if String.eqb w "or" then
            '(e1, r) ← parse_operand n r; '(e2, r) ← parse_operand n r; Some (EOr e1 e2, r)
          else if is_fun w then
            '(e1, r) ← parse_operand n r; '(e2, r) ← parse_operand n r; Some (ECall w e1 e2, r)
          else parse_operand n ws
      end
  end
with parse_operand (n : nat) (ws : list string) : option (expr * list string) :=
  match n with
  | O => None
  | S n =>
      match ws with
      | [] => None
      | w :: r =>
          if String.eqb w "(" then
            '(e, r) ← parse_pipe n r;
            match r with
            | c :: r => if String.eqb c ")" then Some (e, r) else None
            | [] => None
            end
          else match w with
               | String "." EmptyString => Some (EDot, r)
               | String "." f => Some (EField f, r)
               | _ => z ← Atoi w; Some (ENum z, r)
               end
      end
  end.

Definition parse_expr (ws : list string) : option expr :=
  match parse_pipe (2 * length ws + 2) ws with
  | Some (e, []) => Some e
  | _ => None
  end.

(** What closed a list of nodes. *)
Inductive closer : Type := CEof | CEnd | CElse | CElseIf (e : expr).

Fixpoint parse_nodes (n : nat) (ts : list tok) : option (nodes * closer * list tok) :=
  match n with
  | O => None
  | S n =>
      match ts with
      | [] => Some (NNil, CEof, [])
      | TText s :: r =>
          '(rest, c, r) ← parse_nodes n r; Some (NText s rest, c, r)
      | TAction ws :: r =>
          match ws with
          | [] => None
          | w :: ws' =>
              if String.eqb w "end" then Some (NNil, CEnd, r)
              else if String.eqb w "else" then
                match ws' with
                | [] => Some (NNil, CElse, r)
                | _ :: cond => e ← parse_expr cond; Some (NNil, CElseIf e, r)
                end
              else if String.eqb w "if" then
                e ← parse_expr ws'; '(thn, els, r) ← parse_if n r;
                '(rest, c, r) ← parse_nodes n r; Some (NIf e thn els rest, c, r)
              else if String.eqb w "range" then
                e ← parse_expr ws'; '(body, c, r) ← parse_nodes n r;
                match c with
                | CEnd => '(rest, c, r) ← parse_nodes n r; Some (NRange e body rest, c, r)
                | _ => None
                end
              else
                e ← parse_expr ws; '(rest, c, r) ← parse_nodes n r;
                Some (NAction e rest, c, r)
          end
      end
  end
with parse_if (n : nat) (ts : list tok) : option (nodes * nodes * list tok) :=
  match n with
  | O => None
  | S n =>
      '(thn, c, r) ← parse_nodes n ts;
      match c with
      | CEnd => Some (thn, NNil, r)
      | CElse =>
          '(els, c, r) ← parse_nodes n r;
          match c with CEnd => Some (thn, els, r) | _ => None end
      | CElseIf e =>
          '(thn2, els2, r) ← parse_if n r; Some (thn, NIf e thn2 els2 NNil, r)
      | CEof => None
      end
  end.

(** template.Parse: lexing takes at most one round per byte, parsing at most two
    per token. *)
Definition parse (text : string) : option nodes :=
  ts ← lex (S (String.length text)) text;
  match parse_nodes (S (2 * length ts)) ts with
  | Some (ns, CEof, []) => Some ns
  | _ => None
  end.
End Parse.

(** ** Execution *)

Inductive value : Type :=
| VStr (s : string)
| VBool (b : bool)
| VInt (z : Z)
| VList (l : list string)
| VStruct.

(** The truth of a value: it is not the zero value of its type. *)
Definition truth (v : value) : bool :=
  match v with
  | VStr s => negb (String.eqb s "")
  | VBool b => b
  | VInt z => negb (z =? 0)%Z
  | VList l => match l with [] => false | _ => true end
  | VStruct => true
  end.

(** How an action prints its value; the template never prints the whole struct. *)
Definition print_value (v : value) : option string :=
  match v with
  | VStr s => Some s
  | VBool b => Some (if b then "true" else "false")
  | VInt z => Some (Itoa z)
  | VList l => Some ("[" +:+ join " " l +:+ "]")
  | VStruct => None
  end.

Section Exec.
(** The fields and methods of the data struct, and the function map. *)
Context (field : string → option value).
Context (call : string → value → value → option value).

Fixpoint eval (dot : value) (e : expr) : option value :=
  match e with
  | EDot => Some dot
  | EField f => match dot with VStruct => field f | _ => None end
  | ENum z => Some (VInt z)
  | ENot e => v ← eval dot e; Some (VBool (negb (truth v)))
  | EOr e1 e2 => v ← eval dot e1; if truth v then Some v else eval dot e2
  | ECall fn e1 e2 => v1 ← eval dot e1; v2 ← eval dot e2; call fn v1 v2
  end.

(** The concatenation of what the function makes of each element. *)
Fixpoint concat_opt (f : string → option string) (l : list string) : option string :=
  match l with
  | [] => Some EmptyString
  | x :: l => a ← f x; b ← concat_opt f l; Some (a +:+ b)
  end.

Fixpoint exec (dot : value) (ns : nodes) : option string :=
  match ns with
  | NNil => Some EmptyString
  | NText s rest => out ← exec dot rest; Some (s +:+ out)
  | NAction e rest =>
      v ← eval dot e; s ← print_value v; out ← exec dot rest; Some (s +:+ out)
  | NIf e thn els rest =>
      v ← eval dot e;
      s ← (if truth v then exec dot thn else exec dot els);
      out ← exec dot rest; Some (s +:+ out)
  | NRange e body rest =>
      v ← eval dot e;
      match v with
      | VList l =>
          s ← concat_opt (fun x => exec (VStr x) body) l;
          out ← exec dot rest; Some (s +:+ out)
      | _ => None
      end
  end.

(** ** Typing *)

Inductive ty : Type := TyStr | TyBool | TyInt | TyList | TyStruct.

#[export] Instance ty_eq_dec : EqDecision ty.
Proof. solve_decision. Defined.

Definition type_of (v : value) : ty :=
  match v with
  | VStr _ => TyStr | VBool _ => TyBool | VInt _ => TyInt | VList _ => TyList
  | VStruct => TyStruct
  end.

Context (field_ty : string → option ty) (call_ty : string → ty → ty → option ty).

Fixpoint type_expr (dot : ty) (e : expr) : option ty :=
  match e with
  | EDot => Some dot
  | EField f => match dot with TyStruct => field_ty f | _ => None end
  | ENum _ => Some TyInt
  | ENot e => _ ← type_expr dot e; Some TyBool
  | EOr e1 e2 =>
      t1 ← type_expr dot e1; t2 ← type_expr dot e2; if decide (t1 = t2) then Some t1 else None
  | ECall fn e1 e2 => t1 ← type_expr dot e1; t2 ← type_expr dot e2; call_ty fn t1 t2
  end.

Fixpoint check (dot : ty) (ns : nodes) : bool :=
  match ns with
  | NNil => true
  | NText _ rest => check dot rest
  | NAction e rest =>
      match type_expr dot e with
      | Some TyStruct | None => false
      | Some _ => check dot rest
      end
  | NIf e thn els rest =>
      match type_expr dot e with
      | Some _ => check dot thn && check dot els && check dot rest
      | None => false
      end
  | NRange e body rest =>
      match type_expr dot e with
      | Some TyList => check TyStr body && check dot rest
      | _ => false
      end
  end.

Hypothesis field_sound : ∀ f t, field_ty f = Some t → ∃ v, field f = Some v ∧ type_of v = t.
Hypothesis call_sound : ∀ fn v1 v2 t,
  call_ty fn (type_of v1) (type_of v2) = Some t → ∃ v, call fn v1 v2 = Some v ∧ type_of v = t.

Lemma eval_sound dot e t :
  type_expr (type_of dot) e = Some t → ∃ v, eval dot e = Some v ∧ type_of v = t.
Proof.
  revert t. induction e as [|f|z|e IH|e1 IH1 e2 IH2|fn e1 IH1 e2 IH2]; simpl; intros t Ht.
  - naive_solver.
  - destruct dot; try done. by apply field_sound.
  - naive_solver.
  - destruct (type_expr _ e); simplify_eq/=. destruct (IH _ eq_refl) as (v & -> & _). eauto.
  - destruct (type_expr _ e1), (type_expr _ e2); simplify_eq/=. case_decide; simplify_eq.
    destruct (IH1 _ eq_refl) as (v1 & -> & ?), (IH2 _ eq_refl) as (v2 & -> & ?). simpl.
    destruct (truth v1); eauto.
  - destruct (type_expr _ e1), (type_expr _ e2); simplify_eq/=.
    destruct (IH1 _ eq_refl) as (v1 & -> & <-), (IH2 _ eq_refl) as (v2 & -> & <-). simpl.
    by apply call_sound.
Qed.

Lemma concat_opt_total f l : (∀ x, is_Some (f x)) → is_Some (concat_opt f l).
Proof.
  intros Hf. induction l as [|x l [y IH]]; simpl; [eauto|].
  destruct (Hf x) as [a ->]. rewrite IH. simpl. eauto.
Qed.

Lemma print_value_some v : type_of v ≠ TyStruct → is_Some (print_value v).
Proof. destruct v; simpl; intros; eauto; done. Qed.

(** Well-typed templates always render. *)
Lemma exec_total dot ns : check (type_of dot) ns = true → is_Some (exec dot ns).
Proof.
  revert dot. induction ns as [|s rest IH|e rest IH|e thn IH1 els IH2 rest IH3|e body IH1 rest IH2];
    simpl; intros dot Hc.
  - eauto.
  - destruct (IH _ Hc) as [o ->]. simpl. eauto.
  - destruct (type_expr _ e) as [t|] eqn:Ht; [|done].
    destruct (eval_sound _ _ _ Ht) as (v & -> & Hv).
    assert (t ≠ TyStruct ∧ check (type_of dot) rest = true) as [Hs Hr] by by destruct t.
    destruct (IH _ Hr) as [o Ho]. destruct (print_value_some v) as [p Hp]; [by rewrite Hv|].
    simpl. rewrite Hp, Ho. simpl. eauto.
  - destruct (type_expr _ e) as [t|] eqn:Ht; [|done]. bool_split.
    destruct (eval_sound _ _ _ Ht) as (v & -> & Hv).
    destruct (IH1 dot ltac:(done)) as [o1 ->], (IH2 dot ltac:(done)) as [o2 ->],
      (IH3 dot ltac:(done)) as [o3 ->]. simpl.
    destruct (truth v); simpl; eauto.
  - destruct (type_expr _ e) as [[]|] eqn:Ht; try done. bool_split.
    destruct (eval_sound _ _ _ Ht) as (v & -> & Hv). destruct v; try done. simpl.
    destruct (concat_opt_total (fun x => exec (VStr x) body) l) as [o1 ->].
    { intros x. by apply (IH1 (VStr x)). }
    destruct (IH2 dot) as [o2 ->]; [done|]. simpl. eauto.
Qed.
End Exec.

(** ** Templates cut in two, and templates that do not mention a field *)

Fixpoint nodes_app (a b : nodes) : nodes :=
  match a with
  | NNil => b
  | NText s rest => NText s (nodes_app rest b)
  | NAction e rest => NAction e (nodes_app rest b)
  | NIf e thn els rest => NIf e thn els (nodes_app rest b)
  | NRange e body rest => NRange e body (nodes_app rest b)
  end.

Fixpoint expr_mentions (f : string) (e : expr) : bool :=
  match e with
  | EDot | ENum _ => false
  | EField g => String.eqb f g
  | ENot e => expr_mentions f e
  | EOr e1 e2 | ECall _ e1 e2 => expr_mentions f e1 || expr_mentions f e2
  end.

Fixpoint mentions (f : string) (ns : nodes) : bool :=
  match ns with
  | NNil => false
  | NText _ rest => mentions f rest
  | NAction e rest => expr_mentions f e || mentions f rest
  | NIf e thn els rest =>
      expr_mentions f e || mentions f thn || mentions f els || mentions f rest
  | NRange e body rest => expr_mentions f e || mentions f body || mentions f rest
  end.

(** The list of nodes split at the first top-level action that prints [f]. *)
Fixpoint split_at (f : string) (ns : nodes) : option (nodes * nodes) :=
  match ns with
  | NNil => None
  | NAction (EField g) rest =>
      if String.eqb f g then Some (NNil, rest)
      else '(a, b) ← split_at f rest; Some (NAction (EField g) a, b)
  | NAction e rest => '(a, b) ← split_at f rest; Some (NAction e a, b)
  | NText s rest => '(a, b) ← split_at f rest; Some (NText s a, b)
  | NIf e thn els rest => '(a, b) ← split_at f rest; Some (NIf e thn els a, b)
  | NRange e body rest => '(a, b) ← split_at f rest; Some (NRange e body a, b)
  end.

Lemma concat_opt_ext f g l : (∀ x, f x = g x) → concat_opt f l = concat_opt g l.
Proof. intros H. induction l; simpl; [done|]. by rewrite H, IHl. Qed.

Lemma exec_app field call dot a b :
  exec field call dot (nodes_app a b) =
  x ← exec field call dot a; y ← exec field call dot b; Some (x +:+ y).
Proof.
  induction a as [|s rest IH|e rest IH|e thn _ els _ rest IH|e body _ rest IH]; simpl.
  - by destruct (exec _ _ _ b).
  - rewrite IH. destruct (exec _ _ _ rest), (exec _ _ _ b); simpl; try done. by rewrite app_assoc_s.
  - destruct (eval _ _ _ e) as [v|]; simpl; [|done]. destruct (print_value v); simpl; [|done].
    rewrite IH. destruct (exec _ _ _ rest), (exec _ _ _ b); simpl; try done. by rewrite app_assoc_s.
  - destruct (eval _ _ _ e) as [v|]; simpl; [|done].
    destruct (if truth v then _ else _); simpl; [|done].
    rewrite IH. destruct (exec _ _ _ rest), (exec _ _ _ b); simpl; try done. by rewrite app_assoc_s.
  - destruct (eval _ _ _ e) as [[]|]; simpl; try done.
    destruct (concat_opt _ l); simpl; [|done].
    rewrite IH. destruct (exec _ _ _ rest), (exec _ _ _ b); simpl; try done. by rewrite app_assoc_s.
Qed.

Section Agree.
Context (field field' : string → option value) (call : string → value → value → option value).
Context (f : string).
Hypothesis agree : ∀ g, f ≠ g → field g = field' g.

Lemma eval_agree dot e : expr_mentions f e = false → eval field call dot e = eval field' call dot e.
Proof.
  induction e as [|g|z|e IH|e1 IH1 e2 IH2|fn e1 IH1 e2 IH2]; simpl; intros H; try done.
  - bool_prop. destruct dot; try done. by apply agree.
  - by rewrite IH.
  - bool_split. by rewrite IH1, IH2.
  - bool_split. by rewrite IH1, IH2.
Qed.

Lemma exec_agree dot ns : mentions f ns = false → exec field call dot ns = exec field' call dot ns.
Proof.
  revert dot. induction ns as [|s rest IH|e rest IH|e thn IH1 els IH2 rest IH3|e body IH1 rest IH2];
    simpl; intros dot H; try done.
  - by rewrite IH.
  - bool_split. by rewrite eval_agree, IH.
  - bool_split. by rewrite eval_agree, IH1, IH2, IH3.
  - bool_split. rewrite eval_agree by done. destruct (eval _ _ _ e) as [[]|]; simpl; try done.
    rewrite IH2 by done. by rewrite (concat_opt_ext _ (fun x => exec field' call (VStr x) body))
      by (intros; by apply IH1).
Qed.
End Agree.

Lemma split_at_app f ns a b :
  split_at f ns = Some (a, b) → ns = nodes_app a (NAction (EField f) b).
Proof.
  revert a. induction ns as [|s rest IH|e rest IH|e thn _ els _ rest IH|e body _ rest IH];
    simpl; intros a H; try done.
  2: destruct e as [|g| | | |]; [..|]; try destruct (String.eqb_spec f g); simplify_eq; try done.
  all: destruct (split_at f rest) as [[a' b']|]; simplify_eq/=; by rewrite (IH a').
Qed.

(** A list of nodes that ends in a text node, without it. *)
Fixpoint unsnoc_text (ns : nodes) : option (nodes * string) :=
  match ns with
  | NNil => None
  | NText s NNil => Some (NNil, s)
  | NText s rest => '(a, t) ← unsnoc_text rest; Some (NText s a, t)
  | NAction e rest => '(a, t) ← unsnoc_text rest; Some (NAction e a, t)
  | NIf e thn els rest => '(a, t) ← unsnoc_text rest; Some (NIf e thn els a, t)
  | NRange e body rest => '(a, t) ← unsnoc_text rest; Some (NRange e body a, t)
  end.

Lemma unsnoc_text_app ns a t : unsnoc_text ns = Some (a, t) → ns = nodes_app a (NText t NNil).
Proof.
  revert a. induction ns as [|s rest IH|e rest IH|e thn _ els _ rest IH|e body _ rest IH];
    simpl; intros a H; try done.
  1: destruct rest; simplify_eq; try done.
  all: destruct (unsnoc_text _) as [[a' t']|]; simplify_eq/=; by rewrite (IH a').
Qed.
