(* ===== verification/Manifest.v ===== *)
(** * Package bosh, manifest.go: rendering an agent manifest

    The manifest template, [ManifestParams], [sanitizeForYAML], [indentPEM] and
    [RenderAgentManifest] of src/src/openclaw-broker/bosh/manifest.go, with a
    reader for YAML double-quoted scalars as the specification of the
    sanitizer. *)

From S2P Require Import Prelude GoStrings Template.

Module Manifest.

(** A Go raw string cannot hold a backquote; here a backquote stands for the
    double quote, and [raw] puts the double quotes back. *)
Definition raw (s : string) : string :=
  smap (fun c => if Ascii.eqb c "`" then dquote else c) s.

Definition agentManifestTemplate : string := raw
"---
name: {{ .DeploymentName }}

instance_groups:
  - name: agent
    instances: 1
    jobs:
      - name: bpm
        release: bpm

      - name: openclaw-agent
        release: openclaw
        properties:
          openclaw:
            version: `{{ .OpenClawVersion }}`
            gateway:
              token: `{{ .GatewayToken }}`
            security:
              sandbox_mode: {{ .SandboxMode }}
{{- if .BlockedCommands }}
              blocked_commands:
{{- range .BlockedCommands }}
                - `{{ . }}`
{{- end }}
{{- end }}
{{- if .LLMProvider }}
            llm:
              provider: `{{ .LLMProvider }}`
{{- if or .LLMEndpoint .LLMAPIEndpoint }}
              genai:
{{- if .LLMEndpoint }}
                endpoint: `{{ .LLMEndpoint }}`
{{- else if .LLMAPIEndpoint }}
                endpoint: `{{ .LLMAPIEndpoint }}`
{{- end }}
{{- if .LLMAPIKey }}
                api_key: `{{ .LLMAPIKey }}`
{{- end }}
{{- if .LLMModel }}
                model: `{{ .LLMModel }}`
{{- end }}
{{- end }}
{{- if not (or .LLMEndpoint .LLMAPIEndpoint) }}
{{- if .LLMAPIKey }}
              genai:
                api_key: `{{ .LLMAPIKey }}`
{{- if .LLMModel }}
                model: `{{ .LLMModel }}`
{{- end }}
{{- end }}
{{- end }}
{{- if .LLMPreferredModel }}
              model_override: `{{ .LLMPreferredModel }}`
{{- end }}
{{- end }}
            browser:
              enabled: {{ .BrowserEnabled }}
            node:
              enabled: true
              seed: `{{ .NodeSeed }}`
            instance:
              id: `{{ .ID }}`
              owner: `{{ .Owner }}`
              plan: `{{ .PlanName }}`
            route:
              hostname: `{{ .RouteHostname }}`
              domain: `{{ .AppsDomain }}`
{{- if .SSOEnabled }}
            sso:
              enabled: true
{{- end }}
{{ if .SSOEnabled }}
      - name: openclaw-sso-proxy
        release: openclaw
        properties:
          openclaw:
            sso_proxy:
              listen_port: 8080
              upstream_port: 8081
              client_id: `{{ .SSOClientID }}`
              client_secret: `{{ .SSOClientSecret }}`
              cookie_secret: `{{ .SSOCookieSecret }}`
              redirect_url: `https://{{ .RouteHostname }}.{{ .AppsDomain }}/oauth2/callback`
{{- if .SSOOIDCIssuerURL }}
              oidc_issuer_url: `{{ .SSOOIDCIssuerURL }}`
{{- end }}
{{- if .SSOSessionTimeoutHours }}
              session_timeout: `{{ .SSOSessionTimeoutHours }}h`
{{- end }}
{{ end }}
      - name: route_registrar
        release: routing
        consumes:
          nats-tls:
            from: nats-tls
            deployment: {{ .CFDeploymentName }}
        properties:
          nats:
            tls:
              enabled: true
{{- if .NATSTLSClientCert }}
              client_cert: |
{{ indent 16 .NATSTLSClientCert }}
{{- end }}
{{- if .NATSTLSClientKey }}
              client_key: |
{{ indent 16 .NATSTLSClientKey }}
{{- end }}
{{- if .NATSTLSCACert }}
              ca_cert: |
{{ indent 16 .NATSTLSCACert }}
{{- end }}
          route_registrar:
            routes:
              - name: `openclaw-{{ .ID }}`
                registration_interval: 20s
                port: 8080
                uris:
                  - `{{ .RouteHostname }}.{{ .AppsDomain }}`

    vm_type: {{ .VMType }}
    stemcell: default
    azs: [{{ .AZsYAML }}]
    persistent_disk_type: {{ .DiskType }}
    networks:
      - name: {{ .Network }}

stemcells:
  - alias: default
    os: {{ .StemcellOS }}
    version: `{{ .StemcellVersion }}`

releases:
  - name: openclaw
    version: `{{ .OpenClawReleaseVersion }}`
  - name: bpm
    version: `{{ .BPMReleaseVersion }}`
  - name: routing
    version: `{{ .RoutingReleaseVersion }}`

update:
  canaries: 1
  max_in_flight: 1
  canary_watch_time: 30000-120000
  update_watch_time: 30000-120000
".

Record ManifestParams : Type := {
  DeploymentName : string;
  ID : string;
  Owner : string;
  PlanName : string;
  GatewayToken : string;
  NodeSeed : string;
  RouteHostname : string;
  VMType : string;
  DiskType : string;
  SSOEnabled : bool;
  OpenClawVersion : string;
  SandboxMode : string;
  Network : string;
  AZs : list string;
  StemcellOS : string;
  StemcellVersion : string;
  CFDeploymentName : string;
  OpenClawReleaseVersion : string;
  BPMReleaseVersion : string;
  RoutingReleaseVersion : string;
  AppsDomain : string;
  SSOClientID : string;
  SSOClientSecret : string;
  SSOCookieSecret : string;
  SSOOIDCIssuerURL : string;
  LLMProvider : string;
  LLMEndpoint : string;
  LLMAPIKey : string;
  LLMModel : string;
  LLMPreferredModel : string;
  LLMAPIEndpoint : string;
  BrowserEnabled : bool;
  BlockedCommands : list string;
  NATSTLSClientCert : string;
  NATSTLSClientKey : string;
  NATSTLSCACert : string;
  SSOAllowedEmailDomains : string;
  SSOSessionTimeoutHours : Z;
}.

Definition AZsYAML (p : ManifestParams) : string := join ", " (AZs p).

(** ** Sanitizing and indenting *)

(** unsafeYAMLChars is the complement of [is_printable]; deleting the runes it
    matches deletes the bytes outside printable ASCII, since a rune outside
    ASCII has no ASCII byte. *)
Definition sanitizeForYAML (s : string) : string :=
  let s := replace_byte backslash (String backslash (String backslash "")) s in
  let s := replace_byte dquote (String backslash (String dquote "")) s in
  sfilter is_printable s.

Fixpoint spaces (n : nat) : string :=
  match n with
  | O => EmptyString
  | S n => String " " (spaces n)
  end.

Definition indentPEM (n : Z) (s : string) : string :=
  if String.eqb s "" then ""
  else
    let pad := spaces (Z.to_nat n) in
    let lines := split_on lf (trim_right (Ascii.eqb lf) s) in
    join (String lf "") (map (fun l => pad +:+ l) lines).

(** ** The template data: every field of the params, and the method AZsYAML *)

Definition field_list (p : ManifestParams) : list (string * value) :=
  [("DeploymentName", VStr (DeploymentName p));
   ("ID", VStr (ID p));
   ("Owner", VStr (Owner p));
   ("PlanName", VStr (PlanName p));
   ("GatewayToken", VStr (GatewayToken p));
   ("NodeSeed", VStr (NodeSeed p));
   ("RouteHostname", VStr (RouteHostname p));
   ("VMType", VStr (VMType p));
   ("DiskType", VStr (DiskType p));
   ("SSOEnabled", VBool (SSOEnabled p));
   ("OpenClawVersion", VStr (OpenClawVersion p));
   ("SandboxMode", VStr (SandboxMode p));
   ("Network", VStr (Network p));
   ("AZs", VList (AZs p));
   ("StemcellOS", VStr (StemcellOS p));
   ("StemcellVersion", VStr (StemcellVersion p));
   ("CFDeploymentName", VStr (CFDeploymentName p));
   ("OpenClawReleaseVersion", VStr (OpenClawReleaseVersion p));
   ("BPMReleaseVersion", VStr (BPMReleaseVersion p));
   ("RoutingReleaseVersion", VStr (RoutingReleaseVersion p));
   ("AppsDomain", VStr (AppsDomain p));
   ("SSOClientID", VStr (SSOClientID p));
   ("SSOClientSecret", VStr (SSOClientSecret p));
   ("SSOCookieSecret", VStr (SSOCookieSecret p));
   ("SSOOIDCIssuerURL", VStr (SSOOIDCIssuerURL p));
   ("LLMProvider", VStr (LLMProvider p));
   ("LLMEndpoint", VStr (LLMEndpoint p));
   ("LLMAPIKey", VStr (LLMAPIKey p));
   ("LLMModel", VStr (LLMModel p));
   ("LLMPreferredModel", VStr (LLMPreferredModel p));
   ("LLMAPIEndpoint", VStr (LLMAPIEndpoint p));
   ("BrowserEnabled", VBool (BrowserEnabled p));
   ("BlockedCommands", VList (BlockedCommands p));
   ("NATSTLSClientCert", VStr (NATSTLSClientCert p));
   ("NATSTLSClientKey", VStr (NATSTLSClientKey p));
   ("NATSTLSCACert", VStr (NATSTLSCACert p));
   ("SSOAllowedEmailDomains", VStr (SSOAllowedEmailDomains p));
   ("SSOSessionTimeoutHours", VInt (SSOSessionTimeoutHours p));
   ("AZsYAML", VStr (AZsYAML p))].

Definition assoc {A} (f : string) (l : list (string * A)) : option A :=
  snd <$> find (fun kv => String.eqb f kv.1) l.

Definition params_field (p : ManifestParams) (f : string) : option value :=
  assoc f (field_list p).

Definition is_func (fn : string) : bool := String.eqb fn "indent".

Definition func_call (fn : string) (v1 v2 : value) : option value :=
  if is_func fn then
    match v1, v2 with
    | VInt n, VStr s => Some (VStr (indentPEM n s))
    | _, _ => None
    end
  else None.

(** ** RenderAgentManifest *)

(** The copy of the params whose double-quoted fields are sanitized. *)
Definition sanitize_params (p : ManifestParams) : ManifestParams :=
  {|DeploymentName := DeploymentName p;
     ID := ID p;
     Owner := sanitizeForYAML (Owner p);
     PlanName := PlanName p;
     GatewayToken := GatewayToken p;
     NodeSeed := NodeSeed p;
     RouteHostname := sanitizeForYAML (RouteHostname p);
     VMType := VMType p;
     DiskType := DiskType p;
     SSOEnabled := SSOEnabled p;
     OpenClawVersion := OpenClawVersion p;
     SandboxMode := SandboxMode p;
     Network := Network p;
     AZs := AZs p;
     StemcellOS := StemcellOS p;
     StemcellVersion := StemcellVersion p;
     CFDeploymentName := CFDeploymentName p;
     OpenClawReleaseVersion := OpenClawReleaseVersion p;
     BPMReleaseVersion := BPMReleaseVersion p;
     RoutingReleaseVersion := RoutingReleaseVersion p;
     AppsDomain := AppsDomain p;
     SSOClientID := sanitizeForYAML (SSOClientID p);
     SSOClientSecret := sanitizeForYAML (SSOClientSecret p);
     SSOCookieSecret := sanitizeForYAML (SSOCookieSecret p);
     SSOOIDCIssuerURL := sanitizeForYAML (SSOOIDCIssuerURL p);
     LLMProvider := sanitizeForYAML (LLMProvider p);
     LLMEndpoint := sanitizeForYAML (LLMEndpoint p);
     LLMAPIKey := sanitizeForYAML (LLMAPIKey p);
     LLMModel := sanitizeForYAML (LLMModel p);
     LLMPreferredModel := sanitizeForYAML (LLMPreferredModel p);
     LLMAPIEndpoint := sanitizeForYAML (LLMAPIEndpoint p);
     BrowserEnabled := BrowserEnabled p;
     BlockedCommands := map sanitizeForYAML (BlockedCommands p);
     NATSTLSClientCert := NATSTLSClientCert p;
     NATSTLSClientKey := NATSTLSClientKey p;
     NATSTLSCACert := NATSTLSCACert p;
     SSOAllowedEmailDomains := SSOAllowedEmailDomains p;
     SSOSessionTimeoutHours := SSOSessionTimeoutHours p |}.

Definition RenderAgentManifest (params : ManifestParams) : result GoError string :=
  let params := sanitize_params params in
  match parse is_func agentManifestTemplate with
  | None => Err (Errorf "failed to parse manifest template: %w" [])
  | Some tmpl =>
      match exec (params_field params) func_call VStruct tmpl with
      | None => Err (Errorf "failed to render manifest: %w" [])
      | Some out => Ok out
      end
  end.

(** ** Specification: YAML double-quoted scalars *)

(** Reads the rest of a double-quoted scalar on one line, after its opening
    quote: the value, and the text after the closing quote.  A backslash escapes
    a quote or a backslash; other escapes and unprintable bytes are not read. *)
Fixpoint read_dquoted (s : string) : option (string * string) :=
  match s with
  | EmptyString => None
  | String c r =>
      if Ascii.eqb c dquote then Some (EmptyString, r)
      else if Ascii.eqb c backslash then
        match r with
        | String d r' =>
            if Ascii.eqb d dquote || Ascii.eqb d backslash then
              '(v, rest) ← read_dquoted r'; Some (String d v, rest)
            else None
        | EmptyString => None
        end
      else if is_printable c then '(v, rest) ← read_dquoted r; Some (String c v, rest)
      else None
  end.

Definition with_owner (o : string) (p : ManifestParams) : ManifestParams :=
  {| DeploymentName := DeploymentName p; ID := ID p; Owner := o; PlanName := PlanName p;
     GatewayToken := GatewayToken p; NodeSeed := NodeSeed p; RouteHostname := RouteHostname p;
     VMType := VMType p; DiskType := DiskType p; SSOEnabled := SSOEnabled p;
     OpenClawVersion := OpenClawVersion p; SandboxMode := SandboxMode p; Network := Network p;
     AZs := AZs p; StemcellOS := StemcellOS p; StemcellVersion := StemcellVersion p;
     CFDeploymentName := CFDeploymentName p; OpenClawReleaseVersion := OpenClawReleaseVersion p;
     BPMReleaseVersion := BPMReleaseVersion p; RoutingReleaseVersion := RoutingReleaseVersion p;
     AppsDomain := AppsDomain p; SSOClientID := SSOClientID p;
     SSOClientSecret := SSOClientSecret p; SSOCookieSecret := SSOCookieSecret p;
     SSOOIDCIssuerURL := SSOOIDCIssuerURL p; LLMProvider := LLMProvider p;
     LLMEndpoint := LLMEndpoint p; LLMAPIKey := LLMAPIKey p; LLMModel := LLMModel p;
     LLMPreferredModel := LLMPreferredModel p; LLMAPIEndpoint := LLMAPIEndpoint p;
     BrowserEnabled := BrowserEnabled p; BlockedCommands := BlockedCommands p;
     NATSTLSClientCert := NATSTLSClientCert p; NATSTLSClientKey := NATSTLSClientKey p;
     NATSTLSCACert := NATSTLSCACert p; SSOAllowedEmailDomains := SSOAllowedEmailDomains p;
     SSOSessionTimeoutHours := SSOSessionTimeoutHours p |}.

(** ** Lemmas *)

(** The sanitizer byte by byte. *)
Definition sanitize_byte (c : ascii) : string :=
  if Ascii.eqb c backslash then String backslash (String backslash "")
  else if Ascii.eqb c dquote then String backslash (String dquote "")
  else if is_printable c then String c "" else "".

Lemma sanitizeForYAML_bytes s : sanitizeForYAML s = sflat_map sanitize_byte s.
Proof.
  unfold sanitizeForYAML, replace_byte. cbv zeta.
  induction s as [|c s IH]; [done|]. cbn [sflat_map].
  rewrite sflat_map_app, sfilter_app. rewrite IH. f_equal. clear. by_bytes c.
Qed.

(** The typing of the template data, for [exec_total]. *)
Definition value_types : list (string * ty) :=
  map (fun kv => (kv.1, type_of kv.2))
    (field_list (sanitize_params {|
       DeploymentName := ""; ID := ""; Owner := ""; PlanName := ""; GatewayToken := "";
       NodeSeed := ""; RouteHostname := ""; VMType := ""; DiskType := ""; SSOEnabled := false;
       OpenClawVersion := ""; SandboxMode := ""; Network := ""; AZs := []; StemcellOS := "";
       StemcellVersion := ""; CFDeploymentName := ""; OpenClawReleaseVersion := "";
       BPMReleaseVersion := ""; RoutingReleaseVersion := ""; AppsDomain := "";
       SSOClientID := ""; SSOClientSecret := ""; SSOCookieSecret := "";
       SSOOIDCIssuerURL := ""; LLMProvider := ""; LLMEndpoint := ""; LLMAPIKey := "";
       LLMModel := ""; LLMPreferredModel := ""; LLMAPIEndpoint := ""; BrowserEnabled := false;
       BlockedCommands := []; NATSTLSClientCert := ""; NATSTLSClientKey := "";
       NATSTLSCACert := ""; SSOAllowedEmailDomains := ""; SSOSessionTimeoutHours := 0 |})).

Definition call_types (fn : string) (t1 t2 : ty) : option ty :=
  if is_func fn then
    match t1, t2 with TyInt, TyStr => Some TyStr | _, _ => None end
  else None.

Lemma assoc_map {A B} (g : A → B) f l :
  assoc f (map (fun kv => (kv.1, g kv.2)) l) = g <$> assoc f l.
Proof.
  unfold assoc. induction l as [|[k v] l IH]; [done|]. simpl.
  destruct (String.eqb f k); [done|]. apply IH.
Qed.

Lemma params_field_sound p f t :
  assoc f value_types = Some t → ∃ v, params_field p f = Some v ∧ type_of v = t.
Proof.
  intros H. assert (Hmap : assoc f value_types = type_of <$> assoc f (field_list p)).
  { rewrite <- assoc_map. reflexivity. }
  rewrite Hmap in H. unfold params_field. destruct (assoc f (field_list p)); naive_solver.
Qed.

Lemma func_call_sound fn v1 v2 t :
  call_types fn (type_of v1) (type_of v2) = Some t →
  ∃ v, func_call fn v1 v2 = Some v ∧ type_of v = t.
Proof.
  unfold call_types, func_call. destruct (is_func fn); [|done].
  destruct v1, v2; naive_solver.
Qed.

(** The parsed template. *)
Definition agentManifest : nodes :=
  Eval vm_compute in default NNil (parse is_func agentManifestTemplate).

Lemma parse_agentManifest : parse is_func agentManifestTemplate = Some agentManifest.
Proof. by vm_compute. Qed.

Lemma RenderAgentManifest_exec p :
  RenderAgentManifest p =
  match exec (params_field (sanitize_params p)) func_call VStruct agentManifest with
  | None => Err (Errorf "failed to render manifest: %w" [])
  | Some out => Ok out
  end.
Proof. unfold RenderAgentManifest. by rewrite parse_agentManifest. Qed.

Lemma render_some p (ns : nodes) : check (fun f => assoc f value_types) call_types TyStruct ns = true →
  is_Some (exec (params_field (sanitize_params p)) func_call VStruct ns).
Proof.
  intros H. eapply (exec_total _ _ (fun f => assoc f value_types) call_types); [| |exact H].
  - intros f t. apply params_field_sound.
  - apply func_call_sound.
Qed.

(** The template around the owner. *)
Definition owner_parts : nodes * string * string * nodes :=
  Eval vm_compute in
    match split_at "Owner" agentManifest with
    | Some (a, NText post b) =>
        match unsnoc_text a with
        | Some (a, pre) => (a, pre, post, b)
        | None => (NNil, "", "", NNil)
        end
    | _ => (NNil, "", "", NNil)
    end.

Lemma owner_parts_spec :
  let '(a, pre, post, b) := owner_parts in
  agentManifest =
    nodes_app a (NText pre (NAction (EField "Owner") (NText post b))).
Proof. by vm_compute. Qed.

Lemma assoc_other {A} f k (v v' : A) l1 l2 :
  k ≠ f → assoc f (l1 ++ (k, v) :: l2) = assoc f (l1 ++ (k, v') :: l2).
Proof.
  intros Hk. unfold assoc. induction l1 as [|[k1 v1] l1 IH]; simpl.
  - by rewrite (proj2 (String.eqb_neq f k)) by congruence.
  - by destruct (String.eqb f k1).
Qed.

Lemma with_owner_field o p f : "Owner" ≠ f →
  params_field (sanitize_params (with_owner o p)) f = params_field (sanitize_params p) f.
Proof.
  intros H. unfold params_field.
  exact (assoc_other f "Owner" _ _
    [("DeploymentName", VStr (DeploymentName p)); ("ID", VStr (ID p))] _ H).
Qed.

(** Rendering with any owner: the owner-free parts around it. *)
Lemma render_owner p :
  ∃ a b, ∀ o, RenderAgentManifest (with_owner o p) =
    Ok (a +:+ owner_parts.1.1.2 +:+ sanitizeForYAML o +:+ owner_parts.1.2 +:+ b).
Proof.
  pose proof owner_parts_spec as Hspec.
  assert (Hc : let '(a, _, _, b) := owner_parts in
    check (fun f => assoc f value_types) call_types TyStruct a = true ∧
    check (fun f => assoc f value_types) call_types TyStruct b = true ∧
    mentions "Owner" a = false ∧ mentions "Owner" b = false) by by vm_compute.
  destruct owner_parts as [[[a pre] post] b]. destruct Hc as (Ha & Hb & Hma & Hmb).
  destruct (render_some p a Ha) as [outa Hoa], (render_some p b Hb) as [outb Hob].
  exists outa, outb. intros o. rewrite RenderAgentManifest_exec, Hspec, exec_app.
  assert (Hag : ∀ ns, mentions "Owner" ns = false →
    exec (params_field (sanitize_params (with_owner o p))) func_call VStruct ns =
    exec (params_field (sanitize_params p)) func_call VStruct ns).
  { intros ns. apply exec_agree. apply with_owner_field. }
  rewrite (Hag a), Hoa by done. cbn [mbind option_bind exec eval fst snd].
  change (params_field _ "Owner") with (Some (VStr (sanitizeForYAML o))).
  cbn [mbind option_bind print_value]. rewrite (Hag b), Hob by done. reflexivity.
Qed.

(** ** Properties *)

(** C29. Rendering never fails: for all parameters the manifest template parses
    and executes, so the error branches of the callers are unreachable. *)
Theorem RenderAgentManifest_total p : ∃ out, RenderAgentManifest p = Ok out.
Proof.
  rewrite RenderAgentManifest_exec.
  destruct (render_some p agentManifest) as [out ->]; [by vm_compute|eauto].
Qed.

(** The sanitizer cannot be escaped from: whatever the text, reading the
    sanitized text inside double quotes stops at the closing quote that the
    template wrote, and yields exactly the printable bytes of the text. *)
Theorem sanitizeForYAML_no_breakout s rest :
  read_dquoted (sanitizeForYAML s +:+ String dquote rest) = Some (sfilter is_printable s, rest).
Proof.
  rewrite sanitizeForYAML_bytes. induction s as [|c s IH]; [done|].
  cbn [sflat_map sfilter]. rewrite <- app_assoc_s. unfold sanitize_byte at 1.
  destruct (Ascii.eqb_spec c backslash) as [->|Hb]; [simpl; by rewrite IH|].
  destruct (Ascii.eqb_spec c dquote) as [->|Hq]; [simpl; by rewrite IH|].
  destruct (is_printable c) eqn:E; [|exact IH].
  cbn [String.append read_dquoted]. rewrite (proj2 (Ascii.eqb_neq _ _) Hb).
  rewrite (proj2 (Ascii.eqb_neq _ _) Hq), E.
  change (String.append "" ?t) with t. by rewrite IH.
Qed.


(** Indenting a certificate keeps every line of it and pads each one, so no
    line of a PEM block leaves the YAML block scalar it is placed in. *)
Theorem indentPEM_lines n s :
  s ≠ "" →
  split_on lf (indentPEM n s) =
  map (fun l => spaces (Z.to_nat n) +:+ l) (split_on lf (trim_right (Ascii.eqb lf) s)).
Proof.
  intros Hs. unfold indentPEM. rewrite (proj2 (String.eqb_neq _ _)) by done.
  apply split_on_join.
  - destruct (split_on lf _) eqn:E; [by apply split_on_nonempty in E|done].
  - apply Forall_map. eapply Forall_impl; [apply split_on_sep_free|].
    intros l Hl. simpl. rewrite sall_app, Hl, andb_true_r.
    induction (Z.to_nat n); [done|]. simpl. done.
Qed.

Lemma indentPEM_lines_witness :
  split_on lf (indentPEM 4 (String "a" (String lf (String "b" (String lf ""))))) = ["    a"; "    b"].
Proof.
  apply (indentPEM_lines 4 (String "a" (String lf (String "b" (String lf ""))))). done.
Defined.

End Manifest.
