(* ===== verification/Tokens.v ===== *)
(** * Generated credentials

    [GenerateGatewayToken] and [GenerateNodeSeed] of
    src/src/openclaw-broker/security/token.go, [GenerateClientSecret],
    [GenerateCookieSecret] and [ClientIDForInstance] of
    src/src/openclaw-broker/uaa/client.go.  Each reads 32 random bytes; a failing
    random source panics, so a generator that returns has all 32. *)

From S2P Require Import Prelude GoStrings Json Encoding Prog.

Module Tokens.

Definition GenerateGatewayToken : Generator :=
  {| gen_bytes := 32; gen_text b := "oc_tok_" +:+ EncodeToString RawURLEncoding b |}.

Definition GenerateNodeSeed : Generator :=
  {| gen_bytes := 32; gen_text b := "seed_" +:+ EncodeToString RawURLEncoding b |}.

Definition GenerateClientSecret : Generator :=
  {| gen_bytes := 32; gen_text := hex_EncodeToString |}.

Definition GenerateCookieSecret : Generator :=
  {| gen_bytes := 32; gen_text := EncodeToString RawURLEncoding |}.

Definition ClientIDForInstance (instanceID : string) : string := "openclaw-" +:+ instanceID.

(** The bytes that need no escaping in a URL, a YAML scalar or a shell word. *)
Definition url_safe (c : ascii) : bool :=
  is_alnum c || Ascii.eqb c "-" || Ascii.eqb c "_".

Lemma url_letter n : (n < 64)%N → url_safe (sextet RawURLEncoding n) = true.
Proof.
  intros Hn. assert (H : forallb (fun i => url_safe (sextet RawURLEncoding (N.of_nat i))) (seq 0 64) = true)
    by by vm_compute.
  rewrite forallb_forall in H. specialize (H (N.to_nat n)). rewrite N2Nat.id in H.
  apply H, in_seq. lia.
Qed.

Lemma hex_letter n : (n < 16)%N → url_safe (enc_char hex_alphabet n) = true.
Proof.
  intros Hn. assert (H : forallb (fun i => url_safe (enc_char hex_alphabet (N.of_nat i))) (seq 0 16) = true)
    by by vm_compute.
  rewrite forallb_forall in H. specialize (H (N.to_nat n)). rewrite N2Nat.id in H.
  apply H, in_seq. lia.
Qed.

Lemma raw_url_safe b : sall url_safe (EncodeToString RawURLEncoding b) = true.
Proof. apply (sall_EncodeToString RawURLEncoding); [apply url_letter|done]. Qed.

Lemma raw_url_length b : String.length b = 32%nat →
  String.length (EncodeToString RawURLEncoding b) = 43%nat.
Proof. intros Hb. by rewrite raw_length, Hb. Qed.

(** What a URL-safe token of 32 bytes after a prefix looks like. *)
Lemma raw_token prefix b :
  String.length b = 32%nat → sall url_safe prefix = true →
  let t := prefix +:+ EncodeToString RawURLEncoding b in
  DecodeString RawURLEncoding (sdrop (String.length prefix) t) = Some b ∧
  String.length t = (String.length prefix + 43)%nat ∧ sall url_safe t = true.
Proof.
  intros Hb Hp. cbv zeta. rewrite sdrop_app, length_app_s, sall_app, raw_url_length by done.
  rewrite raw_url_safe, Hp. split_and!; [|done..]. apply DecodeString_EncodeToString, _.
Qed.

(** Every generator returns its 32 random bytes in recoverable form and
    leaves the store alone: the tokens decode (URL alphabet, no padding) and the
    client secret decodes (hex) to exactly the bytes drawn, so different draws
    give different credentials; their lengths are 50, 48, 43 and 64, and every
    byte of them is URL-safe. *)
Theorem generators_encode {S} (s : S) tr :
  wp (generate GenerateGatewayToken) s tr (fun t s' _ => s' = s ∧ ∃ b, String.length b = 32%nat ∧
    t = "oc_tok_" +:+ EncodeToString RawURLEncoding b ∧
    DecodeString RawURLEncoding (sdrop 7 t) = Some b ∧
    String.length t = 50%nat ∧ sall url_safe t = true) ∧
  wp (generate GenerateNodeSeed) s tr (fun t s' _ => s' = s ∧ ∃ b, String.length b = 32%nat ∧
    DecodeString RawURLEncoding (sdrop 5 t) = Some b ∧
    String.length t = 48%nat ∧ sall url_safe t = true) ∧
  wp (generate GenerateCookieSecret) s tr (fun t s' _ => s' = s ∧ ∃ b, String.length b = 32%nat ∧
    DecodeString RawURLEncoding t = Some b ∧
    String.length t = 43%nat ∧ sall url_safe t = true) ∧
  wp (generate GenerateClientSecret) s tr (fun t s' _ => s' = s ∧ ∃ b, String.length b = 32%nat ∧
    hex_DecodeString t = Some b ∧
    String.length t = 64%nat ∧ sall url_safe t = true).
Proof.
  split_and!; intros b Hb; (split; [done|]); exists b; (split; [done|]).
  - split; [done|]. by apply (raw_token "oc_tok_").
  - by apply (raw_token "seed_").
  - by apply (raw_token "").
  - split_and!; [apply hex_DecodeString_EncodeToString|by rewrite hex_length, Hb|].
    apply sall_hex, hex_letter.
Qed.

End Tokens.
