(* ===== verification/Url.v ===== *)
(** * Package net/url: the parts the broker uses

    [Parse] with the fields of the result the broker looks at, [Hostname],
    [QueryEscape] (form bodies) and [PathEscape] (one path segment). *)

From S2P Require Import Prelude GoStrings Encoding.

Module Url.

Record URL : Type := {
  Scheme : string;
  Host : string;
  Path : string;
}.

(** ** Escapes *)

Definition is_hex (c : ascii) : bool :=
  is_digit c || byte_in "a" "f" c || byte_in "A" "F" c.

Definition unhex (c : ascii) : N :=
  if is_digit c then N_of_ascii c - 48
  else if byte_in "a" "f" c then N_of_ascii c - 87
  else if byte_in "A" "F" c then N_of_ascii c - 55 else 0.

Inductive mode : Type := encodePath | encodeHost | encodeZone | encodeUserPassword | encodeFragment.

Definition byte_elem (c : ascii) (set : string) : bool := negb (sall (fun a => negb (Ascii.eqb a c)) set).

(** Unreserved characters of every mode. *)
Definition unreserved (c : ascii) : bool := is_alnum c || byte_elem c "-_.~".

(** Bytes that may stand unescaped in a host (or an IPv6 zone). *)
Definition host_char (c : ascii) : bool :=
  unreserved c || Ascii.eqb c dquote || byte_elem c "!$&'()*+,;=:[]<>".

(** unescape: the decoded text, or nothing on a bad escape or, in a host, on a
    byte that may not stand there. *)
Fixpoint unescape (m : mode) (s : string) : option string :=
  match s with
  | EmptyString => Some EmptyString
  | String "%" r =>
      match r with
      | String a (String b r') =>
          if negb (is_hex a && is_hex b) then None
          else
            let v := ascii_of_N (unhex a * 16 + unhex b) in
            let p25 := Ascii.eqb a "2" && Ascii.eqb b "5" in
            let ok :=
              match m with
              | encodeHost => (8 <=? unhex a)%N || p25
              | encodeZone => p25 || Ascii.eqb v " " || host_char v
              | _ => true
              end in
            if ok then rest ← unescape m r'; Some (String v rest) else None
      | _ => None
      end
  | String c r =>
      let ok :=
        match m with
        | encodeHost | encodeZone => negb (is_ascii c) || host_char c
        | _ => true
        end in
      if ok then rest ← unescape m r; Some (String c rest) else None
  end.

Definition upper_hex (n : N) : ascii := enc_char "0123456789ABCDEF" n.

Definition percent (c : ascii) : string :=
  String "%" (String (upper_hex (N_of_ascii c / 16)) (String (upper_hex (N_of_ascii c mod 16)) "")).

Definition QueryEscape (s : string) : string :=
  sflat_map (fun c => if unreserved c then String c ""
                      else if Ascii.eqb c " " then "+" else percent c) s.

(** In a path segment $ & + = : @ also stand for themselves. *)
Definition PathEscape (s : string) : string :=
  sflat_map (fun c => if unreserved c || byte_elem c "$&+=:@" then String c "" else percent c) s.

(** The path of a URL.String: a slash and the other separators but the question mark
    stand for themselves. *)
Definition escape_path (s : string) : string :=
  sflat_map (fun c => if unreserved c || byte_elem c "$&+,/:;=@" then String c "" else percent c) s.

(** url.Values.Encode: the pairs in the order of their keys. *)
Definition encode_form (l : list (string * string)) : string :=
  join "&" (map (fun kv => QueryEscape kv.1 +:+ "=" +:+ QueryEscape kv.2) l).

(** ** Parse *)

Definition is_ctl (c : ascii) : bool := (N_of_ascii c <? 32)%N || (N_of_ascii c =? 127)%N.

(** getScheme: the scheme and the rest; [None] when the colon comes first. *)
Fixpoint scan_scheme (first : bool) (acc s : string) : option (option (string * string)) :=
  match s with
  | EmptyString => Some None
  | String c r =>
      if is_lower c || is_upper c then scan_scheme false (acc +:+ String c "") r
      else if is_digit c || byte_elem c "+-." then
        if first then Some None else scan_scheme false (acc +:+ String c "") r
      else if Ascii.eqb c ":" then
        if first then None else Some (Some (acc, r))
      else Some None
  end.

Definition getScheme (s : string) : option (string * string) :=
  match scan_scheme true "" s with
  | None => None
  | Some None => Some ("", s)
  | Some (Some p) => Some p
  end.

(** The text before the last [c] and the text after it. *)
Fixpoint cut_last (c : ascii) (s : string) : option (string * string) :=
  match s with
  | EmptyString => None
  | String a r =>
      match cut_last c r with
      | Some (x, y) => Some (String a x, y)
      | None => if Ascii.eqb a c then Some (EmptyString, r) else None
      end
  end.

(** validOptionalPort of a port that follows its colon: digits only. *)
Definition valid_port (digits : string) : bool := sall is_digit digits.

(** validUserinfo *)
Definition userinfo_char (c : ascii) : bool :=
  is_alnum c || byte_elem c "-._:~!$&'()*+,;=%@".

Definition parseHost (host : string) : option string :=
  if String.prefix "[" host then
    '(inside, after) ← cut_last "]" host;
    let port_ok := match after with
                   | EmptyString => true
                   | String ":" d => valid_port d
                   | _ => false
                   end in
    if negb port_ok then None
    else match cut "%25" inside with
         | Some (h, zone) =>
             h1 ← unescape encodeHost h;
             h2 ← unescape encodeZone ("%25" +:+ zone);
             h3 ← unescape encodeHost ("]" +:+ after);
             Some (h1 +:+ h2 +:+ h3)
         | None => unescape encodeHost host
         end
  else
    match cut_last ":" host with
    | Some (_, d) => if valid_port d then unescape encodeHost host else None
    | None => unescape encodeHost host
    end.

Definition parseAuthority (authority : string) : option string :=
  match cut_last "@" authority with
  | None => parseHost authority
  | Some (userinfo, host) =>
      h ← parseHost host;
      if negb (sall userinfo_char userinfo) then None
      else _ ← unescape encodeUserPassword userinfo; Some h
  end.

(** The text before the first [c], and from it on. *)
Definition until (c : ascii) (s : string) : string * string :=
  (before c s, sdrop (String.length (before c s)) s).

Definition parse_nofrag (rawURL : string) : option URL :=
  if negb (sall (fun c => negb (is_ctl c)) rawURL) then None
  else if String.eqb rawURL "*" then Some {| Scheme := ""; Host := ""; Path := "*" |}
  else
    '(scheme, rest) ← getScheme rawURL;
    let scheme := ToLower scheme in
    let rest := before "?" rest in
    if negb (String.prefix "/" rest) && negb (String.eqb scheme "") then
      Some {| Scheme := scheme; Host := ""; Path := "" |}
    else if negb (String.prefix "/" rest) && byte_elem ":" (before "/" rest) then None
    else if (negb (String.eqb scheme "") || negb (String.prefix "///" rest))
            && String.prefix "//" rest then
      let '(authority, rest) := until "/" (sdrop 2 rest) in
      host ← parseAuthority authority;
      path ← unescape encodePath rest;
      Some {| Scheme := scheme; Host := host; Path := path |}
    else
      path ← unescape encodePath rest;
      Some {| Scheme := scheme; Host := ""; Path := path |}.

Definition Parse (rawURL : string) : option URL :=
  let '(u, frag) := until "#" rawURL in
  url ← parse_nofrag u;
  match frag with
  | String _ (String c f) => _ ← unescape encodeFragment (String c f); Some url
  | _ => Some url
  end.

(** splitHostPort, the host part. *)
Definition Hostname (u : URL) : string :=
  let h := match cut_last ":" (Host u) with
           | Some (h, d) => if valid_port d then h else Host u
           | None => Host u
           end in
  match h with
  | String "[" r =>
      match cut_last "]" r with
      | Some (inside, EmptyString) => inside
      | _ => h
      end
  | _ => h
  end.

(** http.NewRequest rejects a URL that does not parse. *)
Definition url_ok (s : string) : bool :=
  match Parse s with Some _ => true | None => false end.

End Url.
