(* ===== verification/Origin.v ===== *)
(** * Package security, policy.go: the origin of a WebSocket

    [ValidateWebSocketOrigin] of src/src/openclaw-broker/security/policy.go, with
    strings.EqualFold. *)

From S2P Require Import Prelude GoStrings Json Encoding Url.

Module Origin.

(** ** strings.EqualFold *)

Section EqualFold.

(** Whether package unicode's SimpleFold leads from the first code point to the
    second, a larger one that is not ASCII: a table of the Unicode standard. *)
Context (simple_fold : N → N → bool).

Definition equal_rune (a b : N) : bool :=
  let lo := N.min a b in
  let hi := N.max a b in
  (a =? b)%N ||
  if (hi <? 128)%N then (65 <=? lo)%N && (lo <=? 90)%N && (hi =? lo + 32)%N else simple_fold lo hi.

Fixpoint equal_runes (s t : list N) : bool :=
  match s, t with
  | [], [] => true
  | a :: s, b :: t => equal_rune a b && equal_runes s t
  | _, _ => false
  end.

Definition EqualFold (s t : string) : bool := equal_runes (runes s) (runes t).

(** ** ValidateWebSocketOrigin

    [None] is the nil error; what url.Parse says is not rendered. *)
Definition ValidateWebSocketOrigin (origin expectedHost : string) : option GoError :=
  if String.eqb origin "" then Some (Errorf "WebSocket origin header is required" [])
  else
    match Url.Parse origin with
    | None => Some (Wrapf "invalid origin URL: %w" [] (Errorf "parse %q" [origin]))
    | Some parsed =>
        if negb (EqualFold (Url.Hostname parsed) expectedHost) then
          Some (Errorf "origin %q does not match expected host %q" [origin; expectedHost])
        else None
    end.

(** ** ASCII texts are compared up to the case of letters *)

Lemma runes_ascii s : sall is_ascii s = true → runes s = map N_of_ascii (String.list_ascii_of_string s).
Proof.
  unfold runes. induction s as [|c s IH]; [done|]. cbn [sall runes_go String.list_ascii_of_string map].
  intros [-> Hs]%andb_true_iff. by rewrite IH.
Qed.

(** All pairs of ASCII bytes, decided by computation. *)
Definition all_ascii_bytes : list ascii := List.filter is_ascii (map ascii_of_nat (seq 0 256)).

Lemma elem_ascii_bytes c : is_ascii c = true → c ∈ all_ascii_bytes.
Proof.
  intros H. apply elem_of_list_filter_bool. split; [|done].
  rewrite <- (ascii_nat_embedding c). apply list_elem_of_In, in_map, in_seq. pose proof (nat_ascii_bounded c). lia.
Qed.

Definition ascii_rune (a b : N) : bool :=
  (a =? b)%N || (65 <=? N.min a b)%N && (N.min a b <=? 90)%N && (N.max a b =? N.min a b + 32)%N.

Lemma ascii_runes_checked :
  forallb (fun a => forallb (fun b =>
    Bool.eqb (ascii_rune (N_of_ascii a) (N_of_ascii b)) (Ascii.eqb (lower_byte a) (lower_byte b)))
    all_ascii_bytes) all_ascii_bytes = true.
Proof. vm_compute. reflexivity. Qed.

Lemma equal_rune_ascii a b : is_ascii a = true → is_ascii b = true →
  equal_rune (N_of_ascii a) (N_of_ascii b) = Ascii.eqb (lower_byte a) (lower_byte b).
Proof.
  intros Ha Hb.
  assert (E : equal_rune (N_of_ascii a) (N_of_ascii b) = ascii_rune (N_of_ascii a) (N_of_ascii b)).
  { unfold equal_rune, ascii_rune. unfold is_ascii in Ha, Hb. apply N.ltb_lt in Ha, Hb.
    assert (H : (N.max (N_of_ascii a) (N_of_ascii b) <? 128)%N = true) by (apply N.ltb_lt; lia).
    by rewrite H. }
  rewrite E. pose proof ascii_runes_checked as H. rewrite forallb_forall in H.
  specialize (H a (proj1 (list_elem_of_In _ _) (elem_ascii_bytes a Ha))). rewrite forallb_forall in H.
  by apply Bool.eqb_prop, H, list_elem_of_In, elem_ascii_bytes.
Qed.

Lemma EqualFold_ascii s t : sall is_ascii s = true → sall is_ascii t = true →
  EqualFold s t = true ↔ smap lower_byte s = smap lower_byte t.
Proof.
  intros Hs Ht. unfold EqualFold. rewrite !runes_ascii by done. revert t Hs Ht.
  induction s as [|a s IH]; intros [|b t]; try done.
  cbn [sall String.list_ascii_of_string map equal_runes smap]. intros [Ha Hs]%andb_true_iff [Hb Ht]%andb_true_iff.
  rewrite equal_rune_ascii, andb_true_iff, Ascii.eqb_eq, IH by done.
  split; [by intros [-> ->]|by intros [= -> ->]].
Qed.

(** ** Origins of a browser: a scheme, a host name and perhaps a port *)

Definition host_byte (c : ascii) : bool := is_alnum c || Ascii.eqb c "-" || Ascii.eqb c ".".

Lemma host_byte_clear c : host_byte c = true →
  is_ascii c = true ∧ Url.host_char c = true ∧ Url.is_ctl c = false ∧
  Ascii.eqb c "#" = false ∧ Ascii.eqb c "?" = false ∧ Ascii.eqb c "/" = false ∧
  Ascii.eqb c "@" = false ∧ Ascii.eqb c ":" = false ∧ Ascii.eqb c "[" = false ∧
  Ascii.eqb c "%" = false.
Proof. by_bytes c; intros; split_and!; reflexivity. Qed.

Lemma cut_last_none c s : sall (fun a => negb (Ascii.eqb a c)) s = true → Url.cut_last c s = None.
Proof.
  induction s as [|a s IH]; [done|]. cbn [sall Url.cut_last].
  intros [H Hs]%andb_true_iff. rewrite IH by done. by destruct (Ascii.eqb a c).
Qed.

Lemma cut_last_app c s t : sall (fun a => negb (Ascii.eqb a c)) t = true →
  Url.cut_last c (s +:+ String c t) = Some (s, t).
Proof.
  intros Ht. induction s as [|a s IH]; cbn [String.append Url.cut_last].
  - by rewrite cut_last_none, Ascii.eqb_refl.
  - by rewrite IH.
Qed.

Lemma until_none c s : sall (fun a => negb (Ascii.eqb a c)) s = true → Url.until c s = (s, "").
Proof.
  intros H. unfold Url.until. rewrite before_none by done.
  f_equal. rewrite <- (app_nil_r_s s) at 2. apply sdrop_app.
Qed.

(** The bytes of a host name with its port. *)
Definition authority_byte (c : ascii) : bool := host_byte c || Ascii.eqb c ":".

Lemma authority_without c s : authority_byte c = false → sall authority_byte s = true →
  sall (fun a => negb (Ascii.eqb a c)) s = true.
Proof.
  intros Hc. apply sall_impl. intros a Ha. destruct (Ascii.eqb a c) eqn:E; [|done].
  apply Ascii.eqb_eq in E as ->. by rewrite Ha in Hc.
Qed.

Lemma host_without c s : host_byte c = false → sall host_byte s = true →
  sall (fun a => negb (Ascii.eqb a c)) s = true.
Proof.
  intros Hc. apply sall_impl. intros a Ha. destruct (Ascii.eqb a c) eqn:E; [|done].
  apply Ascii.eqb_eq in E as ->. by rewrite Ha in Hc.
Qed.

Lemma unescape_cons c r : Ascii.eqb c "%" = false →
  Url.unescape Url.encodeHost (String c r) =
  if negb (is_ascii c) || Url.host_char c then rest ← Url.unescape Url.encodeHost r; Some (String c rest) else None.
Proof. destruct c as [[] [] [] [] [] [] [] []]; try reflexivity; discriminate. Qed.

Lemma authority_byte_clear c : authority_byte c = true → Url.host_char c = true ∧ Ascii.eqb c "%" = false.
Proof. by_bytes c. Qed.

Lemma unescape_plain s : sall authority_byte s = true → Url.unescape Url.encodeHost s = Some s.
Proof.
  induction s as [|c s IH]; [done|]. cbn [sall]. intros [Hc Hs]%andb_true_iff.
  apply authority_byte_clear in Hc as [Hc Hp]. by rewrite unescape_cons, Hc, orb_true_r, IH.
Qed.

(** A host name, and after a colon perhaps digits. *)
Definition plain_port (p : string) : Prop := p = "" ∨ ∃ d, p = String ":" d ∧ sall is_digit d = true.

Lemma plain_authority h p : sall host_byte h = true → plain_port p → sall authority_byte (h +:+ p) = true.
Proof.
  intros Hh Hp. rewrite sall_app. apply andb_true_iff. split.
  - eapply sall_impl, Hh. intros c Hc. unfold authority_byte. by rewrite Hc.
  - destruct Hp as [->|(d & -> & Hd)]; [done|]. cbn [sall]. apply andb_true_iff. split; [done|].
    eapply sall_impl, Hd. intros c Hc. unfold authority_byte, host_byte, is_alnum. rewrite Hc.
    by rewrite orb_true_r.
Qed.

Lemma digits_no_colon d : sall is_digit d = true → sall (fun a => negb (Ascii.eqb a ":")) d = true.
Proof. apply sall_impl. intros c. by_bytes c. Qed.

Lemma cut_port h p : sall host_byte h = true → plain_port p →
  match Url.cut_last ":" (h +:+ p) with
  | Some (x, d) => x = h ∧ Url.valid_port d = true
  | None => p = ""
  end.
Proof.
  intros Hh [->|(d & -> & Hd)].
  - by rewrite app_nil_r_s, cut_last_none by by apply host_without.
  - by rewrite cut_last_app by by apply digits_no_colon.
Qed.

Lemma no_bracket h p : sall authority_byte (h +:+ p) = true → String.prefix "[" (h +:+ p) = false.
Proof. destruct (h +:+ p) as [|c s]; [done|]. cbn [sall]. intros [Hc _]%andb_true_iff. revert Hc. by_bytes c. Qed.

Lemma parseHost_plain h p : sall host_byte h = true → plain_port p →
  Url.parseHost (h +:+ p) = Some (h +:+ p).
Proof.
  intros Hh Hp. pose proof (plain_authority h p Hh Hp) as Ha. pose proof (cut_port h p Hh Hp) as Hc.
  unfold Url.parseHost. rewrite no_bracket, unescape_plain by done.
  destruct (Url.cut_last ":" (h +:+ p)) as [[x d]|]; [|done]. by destruct Hc as [_ ->].
Qed.

Lemma parse_plain h p : sall host_byte h = true → plain_port p →
  Url.Parse ("https://" +:+ h +:+ p) = Some {| Url.Scheme := "https"; Url.Host := h +:+ p; Url.Path := "" |}.
Proof.
  intros Hh Hp. pose proof (plain_authority h p Hh Hp) as Ha.
  pose proof (parseHost_plain h p Hh Hp) as Hparse. set (a := h +:+ p) in *. clearbody a.
  unfold Url.Parse. rewrite until_none; [|cbn; by rewrite authority_without].
  unfold Url.parse_nofrag. replace (sall _ _) with true.
  2:{ symmetry. cbn. eapply sall_impl, Ha. intros c. by_bytes c. }
  change (Url.getScheme _) with (Some ("https", "//" +:+ a)). cbn [negb String.append String.eqb Ascii.eqb Bool.eqb mbind option_bind].
  rewrite before_none by (cbn [sall]; by apply authority_without).
  change (ToLower "https") with "https".
  cbn -[Url.unescape Url.until Url.parseAuthority].
  rewrite until_none by by apply authority_without.
  unfold Url.parseAuthority. rewrite cut_last_none by by apply authority_without. rewrite Hparse. by destruct a.
Qed.

Lemma Hostname_plain u h p : Url.Host u = h +:+ p → sall host_byte h = true → plain_port p →
  Url.Hostname u = h.
Proof.
  intros E Hh Hp. unfold Url.Hostname. rewrite E. pose proof (cut_port h p Hh Hp) as Hc.
  assert (Hb : match h with String "[" _ => False | _ => True end).
  { destruct h as [|c h]; [done|]. cbn [sall] in Hh. apply andb_true_iff in Hh as [Hc' _]. revert Hc'. by_bytes c. }
  assert (Hm : match Url.cut_last ":" (h +:+ p) with
    | Some (h0, d) => if Url.valid_port d then h0 else h +:+ p | None => h +:+ p end = h).
  { destruct (Url.cut_last ":" (h +:+ p)) as [[x d]|].
    - by destruct Hc as [-> ->].
    - by rewrite Hc, app_nil_r_s. }
  rewrite Hm. destruct h as [|c h]; [done|]. revert Hb. by_bytes c.
Qed.

(** The origin of a browser is accepted exactly when its host name is the expected
    one up to the case of letters; scheme and port are not looked at. *)
Theorem ValidateWebSocketOrigin_host h p expected :
  sall host_byte h = true → plain_port p → sall is_ascii expected = true →
  ValidateWebSocketOrigin ("https://" +:+ h +:+ p) expected = None ↔
  smap lower_byte h = smap lower_byte expected.
Proof.
  intros Hh Hp He. unfold ValidateWebSocketOrigin.
  change (String.eqb ("https://" +:+ h +:+ p) "") with false. rewrite parse_plain by done.
  rewrite (Hostname_plain _ h p) by done.
  rewrite <- EqualFold_ascii; [|eapply sall_impl, Hh; intros c Hc; by apply host_byte_clear|done].
  by destruct (EqualFold h expected).
Qed.
End EqualFold.

(** An origin that names no host passes when no host is expected. *)
Example null_origin f : ValidateWebSocketOrigin f "null" "" = None.
Proof. reflexivity. Qed.

Example other_port f : ValidateWebSocketOrigin f "HTTP://Agent-1.Example.COM:8080" "agent-1.example.com" = None.
Proof. vm_compute. reflexivity. Qed.

Example other_host f : is_Some (ValidateWebSocketOrigin f "https://evil.example.com" "agent-1.example.com").
Proof. vm_compute. by eexists. Qed.
End Origin.
