(* ===== verification/BoshClient.v ===== *)
(** * Package bosh, client.go: the BOSH Director client

    [Client], [NewClient], [getToken], [setAuth], [Deploy], [DeleteDeployment],
    [extractTaskID] and [TaskStatus] of src/src/openclaw-broker/bosh/client.go.
    The token cache lives in the shared store, its mutex is held by [Lock] and
    [Unlock]; a request carries the TLS settings and the timeout of the HTTP client. *)

From S2P Require Import Prelude GoStrings Json JsonFacts JsonRead Encoding Prog Url.

Module Bosh.

(** ** The client *)

(** The cached token: a time is a number of nanoseconds. *)
Record uaaToken : Type := {
  accessToken : string;
  expiresAt : Z;
}.

Record Client : Type := {
  directorURL : string;
  clientID : string;
  clientSecret : string;
  uaaURL : string;
  httpClient : HttpClient;
}.

Definition is_slash (c : ascii) : bool := Ascii.eqb c "/".

Definition NewClient (directorURL clientID clientSecret caCert uaaURL : string) : Client :=
  {| directorURL := trim_right is_slash directorURL; clientID := clientID;
     clientSecret := clientSecret; uaaURL := trim_right is_slash uaaURL;
     httpClient :=
       {| Timeout := 60; RootCAs := if String.eqb caCert "" then None else Some caCert;
          InsecureSkipVerify := false; FollowRedirects := false |} |}.

(** Where the store keeps the token of the director client. *)
Class TokenStore (S : Type) : Type := {
  token_of : S → option uaaToken;
  set_token : uaaToken → S → S;
  token_set t s : token_of (set_token t s) = Some t;
}.

(** A 64-bit integer wraps around. *)
Definition wrap64 (z : Z) : Z := ((z + 2 ^ 63) mod 2 ^ 64 - 2 ^ 63)%Z.

(** The lifetime given to a cached token: 60 seconds less than UAA says, at
    least 0, as a Duration of nanoseconds. *)
Definition token_margin (expiresIn : Z) : Z :=
  let margin := wrap64 (expiresIn - 60) in
  let margin := if (margin <? 0)%Z then 0%Z else margin in
  wrap64 (margin * 1000000000).

Definition BearerHeader (token : string) : string * string :=
  ("Authorization", "Bearer " +:+ token).

Definition BasicHeader (user password : string) : string * string :=
  ("Authorization", "Basic " +:+ EncodeToString StdEncoding (user +:+ ":" +:+ password)).

(** ** extractTaskID *)

(** fmt.Sscanf with the format /tasks/%d on a text that starts with /tasks/ :
    spaces, an optional sign, digits, within a 64-bit int; the rest is ignored. *)
Fixpoint take_digits (s : string) : string :=
  match s with
  | String c r => if is_digit c then String c (take_digits r) else EmptyString
  | EmptyString => EmptyString
  end.

Definition scan_int (s : string) : option Z :=
  let lead := stake (String.length s - String.length (trim_left_space s)) s in
  if negb (sall (fun c => negb (Ascii.eqb c lf)) lead) then None
  else
    let s := trim_left_space s in
    match s with
    | String "-" r => Atoi (String "-" (take_digits r))
    | String "+" r => Atoi (String "+" (take_digits r))
    | _ => Atoi (take_digits s)
    end.

Definition scan_task (s : string) : option Z := scan_int (sdrop (String.length "/tasks/") s).

Definition extractTaskID (resp : HttpResponse) (operation : string) : result GoError Z :=
  if (rs_status resp =? 302)%Z then
    let location := rs_location resp in
    match find_from "/tasks/" location with
    | Some l =>
        match scan_task l with
        | Some taskID => Ok taskID
        | None => Err (Errorf "%s: got 302 but could not parse task ID from Location: %q" [operation; location])
        end
    | None => Err (Errorf "%s: got 302 but could not parse task ID from Location: %q" [operation; location])
    end
  else if (rs_status resp =? 200)%Z then
    match decode_field "id" json_int 0%Z (Decode (rs_body resp)) with
    | Err e => Err (Wrapf "%s: got 200 but could not parse task response: %w" [operation] e)
    | Ok id =>
        if (0 <? id)%Z then Ok id
        else Err (Errorf "%s: got 200 but task ID is 0" [operation])
    end
  else Err (Errorf "%s failed with status %d: %s" [operation; Itoa (rs_status resp); rs_body resp]).

Section Client.
Context {S : Type} `{!TokenStore S} (c : Client).

(** ** getToken *)

Definition token_request : HttpRequest :=
  {| rq_client := httpClient c; rq_method := "POST"; rq_url := uaaURL c +:+ "/oauth/token";
     rq_headers := [("Content-Type", "application/x-www-form-urlencoded")];
     rq_body := TextBody (Url.encode_form
       [("client_id", clientID c); ("client_secret", clientSecret c);
        ("grant_type", "client_credentials")]) |}.

(** What the token response must be to be used. *)
Definition read_token (resp : HttpResponse) : result GoError (string * Z) :=
  if negb (rs_status resp =? 200)%Z then
    Err (Errorf "UAA token request returned %d: %s" [Itoa (rs_status resp); rs_body resp])
  else
    rmap_err (Wrapf "failed to decode UAA token response: %w" [])
      (tok ←? decode_field "access_token" json_string "" (Decode (rs_body resp));
       exp ←? decode_field "expires_in" json_int 0%Z (Decode (rs_body resp));
       Ok (tok, exp)).

Definition fetch_token : prog S (result GoError string) :=
  if negb (Url.url_ok (rq_url token_request)) then
    Ret (Err (Errorf "UAA token request failed: %w" []))
  else
    Http token_request (fun res =>
      match res with
      | Err e => Ret (Err (Wrapf "UAA token request failed: %w" [] e))
      | Ok resp =>
          match read_token resp with
          | Err e => Ret (Err e)
          | Ok (tok, exp) =>
              Now (fun now =>
                Step (set_token {| accessToken := tok; expiresAt := now + token_margin exp |})
                  (fun _ => Ret (Ok tok)))
          end
      end).

(** The critical section of tokenMu. *)
Definition cached_or_fetched : prog S (result GoError string) :=
  cached ⇐ reads token_of;
  match cached with
  | Some t => Now (fun now => if (now <? expiresAt t)%Z then Ret (Ok (accessToken t)) else fetch_token)
  | None => fetch_token
  end.

(** Lock, and Unlock deferred: on every way out. *)
Definition getToken : prog S (result GoError string) :=
  Lock (r ⇐ cached_or_fetched; Unlock (Ret r)).

(** ** setAuth: the Authorization header of a director request *)

Definition setAuth : prog S (result GoError (string * string)) :=
  if String.eqb (uaaURL c) "" then Ret (Ok (BasicHeader (clientID c) (clientSecret c)))
  else
    r ⇐ getToken;
    Ret (tok ←? r; Ok (BearerHeader tok)).

(** ** The three operations *)

(** A request to the director: built (its URL must parse), authorized, sent. *)
Definition director_request {A} (method url : string) (headers : list (string * string))
    (body : Body) (failed : string) (k : HttpResponse → result GoError A)
    : prog S (result GoError A) :=
  if negb (Url.url_ok url) then Ret (Err (Errorf "parse %q" [url]))
  else
    auth ⇐ setAuth;
    match auth with
    | Err e => Ret (Err (Wrapf "failed to authenticate: %w" [] e))
    | Ok h =>
        Http {| rq_client := httpClient c; rq_method := method; rq_url := url;
                rq_headers := headers ++ [h]; rq_body := body |}
          (fun res =>
             match res with
             | Err e => Ret (Err (Wrapf failed [] e))
             | Ok resp => Ret (k resp)
             end)
    end.

Definition Deploy (manifest : string) : prog S (result GoError Z) :=
  director_request "POST" (directorURL c +:+ "/deployments") [("Content-Type", "text/yaml")]
    (TextBody manifest) "deploy request failed: %w" (fun resp => extractTaskID resp "deploy").

Definition DeleteDeployment (name : string) : prog S (result GoError Z) :=
  director_request "DELETE" (directorURL c +:+ "/deployments/" +:+ name) [] NoBody
    "delete request failed: %w" (fun resp => extractTaskID resp "delete").

Definition read_task_state (taskID : Z) (resp : HttpResponse) : result GoError string :=
  if negb (rs_status resp =? 200)%Z then
    Err (Errorf "task status request returned %d: %s" [Itoa (rs_status resp); rs_body resp])
  else
    state ←? decode_field "state" json_string "" (Decode (rs_body resp));
    if String.eqb state "" then Err (Errorf "BOSH task %d returned empty state" [Itoa taskID])
    else Ok state.

Definition TaskStatus (taskID : Z) : prog S (result GoError string) :=
  director_request "GET" (directorURL c +:+ "/tasks/" +:+ Itoa taskID) [] NoBody
    "task status request failed: %w" (read_task_state taskID).

(** The client implements the interface the broker uses. *)
#[export] Instance bosh_director : Director S :=
  {| Prog.Deploy := Deploy; Prog.DeleteDeployment := DeleteDeployment; Prog.TaskStatus := TaskStatus |}.

(** ** Lemmas *)

Section Frame.
Context (R : S → S → Prop) `{!Reflexive R}.
Hypothesis token_frame : ∀ t s, R s (set_token t s).

Lemma fetch_token_frame : steps_in (fun _ => True) R fetch_token.
Proof.
  unfold fetch_token. destruct (negb _); [done|]. intros [resp|]; simpl; [|done].
  destruct (read_token resp) as [[tok exp]|]; simpl; auto.
Qed.

Lemma getToken_frame : steps_in (fun _ => True) R getToken.
Proof.
  unfold getToken. cbn [steps_in]. apply steps_in_bind; [|done].
  split; [done|]. intros s _. simpl. destruct (token_of s) as [t|]; [|apply fetch_token_frame].
  intros now. destruct (_ <? _)%Z; [done|apply fetch_token_frame].
Qed.

Lemma director_request_frame {A} m u h b f (k : HttpResponse → result GoError A) :
  steps_in (fun _ => True) R (director_request m u h b f k).
Proof.
  unfold director_request. destruct (negb _); [done|]. apply steps_in_bind.
  - unfold setAuth. destruct (String.eqb _ _); [done|].
    apply steps_in_bind; [apply getToken_frame|done].
  - intros [a|]; [|done]. by intros [?|].
Qed.

#[export] Instance bosh_frame : DirectorFrame S R.
Proof. split; intros; apply director_request_frame. Qed.
End Frame.

(** Task ids are read from texts, as machine integers. *)
Lemma scan_int_range s t : scan_int s = Some t → in_int64 t = true.
Proof. unfold scan_int. intros H. repeat case_match; try done; by eapply Atoi_int64. Qed.

Lemma extractTaskID_range resp op : task_range (extractTaskID resp op).
Proof.
  intros t. unfold extractTaskID, scan_task. destruct (rs_status resp =? 302)%Z.
  - destruct (find_from _ _) as [l|]; [|done]. destruct (scan_int _) as [z|] eqn:E; [|done].
    intros [= <-]. by eapply scan_int_range.
  - destruct (rs_status resp =? 200)%Z; [|done].
    destruct (decode_field _ _ _ _) as [id|] eqn:E; [|done]. destruct (0 <? id)%Z; [|done].
    intros [= <-]. by eapply json_int_range.
Qed.

Lemma director_request_range m u h b f (k : HttpResponse → result GoError Z) :
  (∀ resp, task_range (k resp)) → yields task_range (director_request m u h b f k).
Proof.
  intros Hk. unfold director_request. destruct (negb _); [done|].
  apply (yields_bind (fun _ => True)); [apply yields_true|]. intros [a|] _; [|done].
  intros [resp|]; [|done]. simpl. apply Hk.
Qed.

#[export] Instance bosh_range : DirectorRange S.
Proof. split; intros; apply director_request_range; intros; apply extractTaskID_range. Qed.

(** What [getToken] does: an error leaves the store alone; a token comes from the
    cache strictly before its expiry, or from a successful response, which is
    then cached. *)
Definition getToken_post (s : S) (tr : list event) (r : result GoError string) (s' : S)
    (tr' : list event) : Prop :=
  match r with
  | Err _ => s' = s
  | Ok t =>
      (∃ tok now, token_of s = Some tok ∧ (now < expiresAt tok)%Z ∧ t = accessToken tok ∧
         s' = s ∧ tr' = tr ++ [EvNow now]) ∨
      (∃ resp exp now tr0, tr' = tr ++ tr0 ++ [EvHttp token_request (Ok resp); EvNow now] ∧
         read_token resp = Ok (t, exp) ∧
         s' = set_token {| accessToken := t; expiresAt := now + token_margin exp |} s)
  end.

Lemma fetch_token_wp s tr tr0 :
  wp fetch_token s (tr ++ tr0) (getToken_post s tr).
Proof.
  unfold fetch_token. destruct (negb _); [done|]. intros [resp|e]; simpl; [|done].
  destruct (read_token resp) as [[tok exp]|] eqn:Hr; simpl; [|done].
  intros now. right. exists resp, exp, now, tr0. by rewrite <- !app_assoc.
Qed.

Lemma getToken_wp s tr : wp getToken s tr (getToken_post s tr).
Proof.
  unfold getToken. cbn [wp]. apply wp_bind. cbn [wp]. unfold cached_or_fetched.
  apply wp_bind. simpl. destruct (token_of s) as [t|] eqn:Ht.
  - intros now. destruct (now <? expiresAt t)%Z eqn:E.
    + left. bool_prop. exists t, now. done.
    + apply fetch_token_wp.
  - rewrite <- (app_nil_r tr) at 1. apply fetch_token_wp.
Qed.

(** The header of an authorized request. *)
Definition auth_post (s' : S) (h : string * string) : Prop :=
  if String.eqb (uaaURL c) "" then h = BasicHeader (clientID c) (clientSecret c)
  else ∃ tok, token_of s' = Some tok ∧ h = BearerHeader (accessToken tok).

Lemma setAuth_wp s tr : wp setAuth s tr (fun r s' _ => ∀ h, r = Ok h → auth_post s' h).
Proof.
  unfold setAuth, auth_post. destruct (String.eqb (uaaURL c) "") eqn:E.
  - simpl. intros h [= <-]. done.
  - apply wp_bind. eapply wp_mono, getToken_wp. intros r s' tr' Hp h. simpl.
    intros [t [-> [= <-]]]%rbind_ok.
    destruct Hp as [(tok & now & Ht & _ & -> & -> & _)|(resp & exp & now & tr0 & _ & _ & ->)].
    + eauto.
    + rewrite token_set. eauto.
Qed.

Lemma director_request_wp {A} m u hs b f (k : HttpResponse → result GoError A) s tr :
  wp (director_request m u hs b f k) s tr (fun r s' tr' => ∀ a, r = Ok a →
    ∃ tr0 resp h, tr' = tr0 ++ [EvHttp {| rq_client := httpClient c; rq_method := m; rq_url := u;
        rq_headers := hs ++ [h]; rq_body := b |} (Ok resp)] ∧
      k resp = Ok a ∧ auth_post s' h).
Proof.
  unfold director_request. destruct (negb _); [done|]. apply wp_bind.
  eapply wp_mono, setAuth_wp. intros [h|e] s' tr' Hh; simpl; [|done].
  intros [resp|e]; simpl; [|done]. intros a Hk. eexists _, resp, h. split_and!; [done..|].
  by apply Hh.
Qed.

(** The event behind a success of one request. *)
Definition request_event {A} (m u : string) (hs : list (string * string)) (b : Body)
    (k : HttpResponse → result GoError A) (a : A) (e : event) : Prop :=
  ∃ h resp, k resp = Ok a ∧
    e = EvHttp {| rq_client := httpClient c; rq_method := m; rq_url := u; rq_headers := hs ++ [h];
                  rq_body := b |} (Ok resp).

Lemma director_request_event {A} m u hs b f (k : HttpResponse → result GoError A) s tr :
  wp (director_request m u hs b f k) s tr (fun r _ tr' => ∀ a, r = Ok a →
    ∃ tr0 e, tr' = tr0 ++ [e] ∧ request_event m u hs b k a e).
Proof.
  eapply wp_mono, director_request_wp. intros r s' tr' H a Ha.
  destruct (H a Ha) as (tr0 & resp & h & -> & Hk & _). eexists _, _. split; [done|].
  by exists h, resp.
Qed.

#[export] Instance bosh_contract : DirectorContract S :=
  {| deploy_event m := request_event "POST" (directorURL c +:+ "/deployments")
       [("Content-Type", "text/yaml")] (TextBody m) (fun resp => extractTaskID resp "deploy");
     delete_event n := request_event "DELETE" (directorURL c +:+ "/deployments/" +:+ n) [] NoBody
       (fun resp => extractTaskID resp "delete");
     status_event t := request_event "GET" (directorURL c +:+ "/tasks/" +:+ Itoa t) [] NoBody
       (read_task_state t);
     deploy_contract m := director_request_event _ _ _ _ _ _;
     delete_contract n := director_request_event _ _ _ _ _ _;
     status_contract t := director_request_event _ _ _ _ _ _ |}.
End Client.

(** ** Task ids *)

Lemma take_digits_app s t : sall is_digit s = true → head_ok (fun c => negb (is_digit c)) t = true →
  take_digits (s +:+ t) = s.
Proof.
  intros Hs Ht. induction s as [|c s IH]; simpl in *.
  - destruct t as [|c t]; [done|]. simpl in *. bool_split. by rewrite Ht.
  - bool_split. rewrite H. f_equal. auto.
Qed.

Lemma prefix_app s t : String.prefix s (s +:+ t) = true.
Proof. induction s as [|c s IH]; simpl; [by destruct t|]. by destruct (ascii_dec c c). Qed.

Lemma find_from_prefix sub s : String.prefix sub s = true → find_from sub s = Some s.
Proof. intros H. destruct s; simpl in *; by rewrite H. Qed.

(** A match found at the end of a text is found first in any continuation. *)
Lemma find_from_app sub s t :
  find_from sub (s +:+ sub) = Some sub → find_from sub (s +:+ sub +:+ t) = Some (sub +:+ t).
Proof.
  induction s as [|c s IH].
  - intros _. apply find_from_prefix, prefix_app.
  - cbn [String.append find_from]. intros H.
    destruct (String.prefix sub (String c (s +:+ sub))) eqn:E.
    + injection H as H. apply (f_equal String.length) in H. simpl in H.
      rewrite length_app_s in H. lia.
    + destruct (String.prefix sub (String c (s +:+ sub +:+ t))) eqn:E'; [|by apply IH].
      exfalso. clear IH H. revert E E'.
      change (String c (s +:+ sub)) with (String c s +:+ sub).
      change (String c (s +:+ sub +:+ t)) with (String c s +:+ sub +:+ t).
      rewrite app_assoc_s.
      assert (Hl : (String.length sub ≤ String.length (String c s +:+ sub))%nat)
        by (rewrite length_app_s; lia).
      revert Hl. generalize (String c s +:+ sub). clear. intros u.
      revert u. induction sub as [|a sub IH]; intros [|b u]; simpl; try done; try lia.
      destruct (ascii_dec a b); [|done]. intros. eapply IH; [|done..]. lia.
Qed.

Lemma trim_left_space_nonspace s : after_space s = None → trim_left_space s = s.
Proof. unfold trim_left_space. destruct s as [|c s]; [done|]. cbn [String.length skip_spaces]. by intros ->. Qed.

Lemma digit_not_space c s : is_digit c = true → after_space (String c s) = None.
Proof.
  intros H. assert (ascii_space c = false ∧ Ascii.eqb c "194" = false ∧ Ascii.eqb c "225" = false
    ∧ Ascii.eqb c "226" = false ∧ Ascii.eqb c "227" = false) as (H1 & H2 & H3 & H4 & H5)
    by (revert H; clear; by_bytes c).
  cbn [after_space]. rewrite H1. destruct s as [|d [|e s]]; rewrite ?H2, ?H3, ?H4, ?H5; done.
Qed.

Lemma scan_int_Itoa z t : (0 ≤ z)%Z → in_int64 z = true →
  head_ok (fun c => negb (is_digit c)) t = true → scan_int (Itoa z +:+ t) = Some z.
Proof.
  intros Hz Hi Ht. pose proof (Itoa_nonneg_digits z Hz) as Hd.
  pose proof (Itoa_nonempty z) as Hn. unfold scan_int.
  destruct (Itoa z) as [|c r] eqn:E; [done|]. cbn [sall] in Hd.
  pose proof Hd as Hd'. apply andb_true_iff in Hd as [Hc _].
  rewrite trim_left_space_nonspace by by apply digit_not_space.
  rewrite Nat.sub_diag. cbn [stake sall negb].
  assert (Atoi (take_digits (String c r +:+ t)) = Some z) as HA.
  { rewrite take_digits_app by done. rewrite <- E. by apply Atoi_Itoa. }
  revert HA Hc. change (String c r +:+ t) with (String c (r +:+ t)). clear.
  intros HA Hc. destruct c as [[] [] [] [] [] [] [] []]; try discriminate Hc; exact HA.
Qed.


(** The margin as plain arithmetic, for lifetimes that do not overflow a
    Duration (about 292 years). *)
Lemma token_margin_eq e : (0 ≤ e ≤ 9223372096)%Z →
  token_margin e = (Z.max 0 (e - 60) * 1000000000)%Z.
Proof.
  intros He. unfold token_margin.
  assert (Hw : ∀ z, (- 2 ^ 63 ≤ z < 2 ^ 63)%Z → wrap64 z = z).
  { intros z Hz. unfold wrap64. rewrite Z.mod_small; lia. }
  rewrite (Hw (e - 60)%Z) by lia.
  destruct (e - 60 <? 0)%Z eqn:E; bool_prop; rewrite Hw; lia.
Qed.

(** ** Properties *)

(** The task id of a redirect is read back whatever surrounds it: for a
    Location made of any text without an earlier /tasks/ (empty, or the scheme,
    host and port of a full URL), /tasks/, a decimal id and a rest that does not
    start with a digit, extractTaskID returns that id. *)
Theorem extractTaskID_location pre id post body op :
  (0 ≤ id)%Z → in_int64 id = true →
  find_from "/tasks/" (pre +:+ "/tasks/") = Some "/tasks/" →
  head_ok (fun c => negb (is_digit c)) post = true →
  extractTaskID {| rs_status := 302; rs_location := pre +:+ "/tasks/" +:+ Itoa id +:+ post;
                   rs_body := body |} op = Ok id.
Proof.
  intros Hid Hi Hpre Hpost. unfold extractTaskID. cbn [rs_status rs_location Z.eqb Pos.eqb].
  rewrite find_from_app by done. unfold scan_task. rewrite sdrop_app.
  by rewrite scan_int_Itoa.
Qed.

Lemma extractTaskID_location_witness :
  extractTaskID {| rs_status := 302;
    rs_location := "https://10.0.0.6:25555" +:+ "/tasks/" +:+ Itoa 4711 +:+ "?verbose=1";
    rs_body := "" |} "deploy" = Ok 4711%Z.
Proof.
  apply (extractTaskID_location "https://10.0.0.6:25555" 4711 "?verbose=1");
    [lia|vm_compute; reflexivity..].
Defined.

(** Success is only ever reported for a 302 whose Location names a task, or
    for a 200 whose JSON body has a positive id; every other status is an error. *)
Theorem extractTaskID_ok resp op id :
  extractTaskID resp op = Ok id →
  (rs_status resp = 302%Z ∧ ∃ l, find_from "/tasks/" (rs_location resp) = Some l ∧ scan_task l = Some id) ∨
  (rs_status resp = 200%Z ∧ (0 < id)%Z ∧ decode_field "id" json_int 0%Z (Decode (rs_body resp)) = Ok id).
Proof.
  unfold extractTaskID.
  destruct (rs_status resp =? 302)%Z eqn:E1; [|destruct (rs_status resp =? 200)%Z eqn:E2].
  - bool_prop. destruct (find_from _ _) as [l|]; [|done].
    destruct (scan_task l) as [i|] eqn:Hs; [|done]. intros [= <-]. left. eauto.
  - bool_prop. destruct (decode_field _ _ _ _) as [i|]; [|done].
    destruct (0 <? i)%Z eqn:E3; [|done]. intros [= <-]. bool_prop. right. done.
  - done.
Qed.

Definition task7 : string := Marshal (JObj [("id", JNum "7")]).

Lemma extractTaskID_ok_witness :
  (200 = 302 ∧ ∃ l, find_from "/tasks/" "" = Some l ∧ scan_task l = Some 7)%Z ∨
  (200 = 200 ∧ 0 < 7 ∧ decode_field "id" json_int 0 (Decode task7) = Ok 7)%Z.
Proof.
  apply (extractTaskID_ok {| rs_status := 200; rs_location := "";
    rs_body := task7 |} "deploy" 7). vm_compute. reflexivity.
Defined.

Section TokenProperties.
Context {S : Type} `{!TokenStore S} (c : Client).

(** C35. The token cache: getToken either answers from the cache, strictly before
    the cached expiry and without an HTTP request; or it asks UAA, and then the
    token it returns was read from a 200 response and is cached with an expiry of
    the current time plus the margin; or it fails and leaves the store alone. *)
Theorem getToken_spec s tr :
  wp (getToken c) s tr (fun r s' tr' =>
    match r with
    | Err _ => s' = s
    | Ok t =>
        (∃ tok now, token_of s = Some tok ∧ (now < expiresAt tok)%Z ∧ t = accessToken tok ∧
           s' = s ∧ tr' = tr ++ [EvNow now]) ∨
        (∃ resp exp now tr0, tr' = tr ++ tr0 ++ [EvHttp (token_request c) (Ok resp); EvNow now] ∧
           rs_status resp = 200%Z ∧ read_token resp = Ok (t, exp) ∧
           token_of s' = Some {| accessToken := t; expiresAt := now + token_margin exp |})
    end).
Proof.
  eapply wp_mono, getToken_wp. intros [t|e] s' tr'; simpl; [|done].
  intros [H|(resp & exp & now & tr0 & -> & Hr & ->)]; [by left|right].
  exists resp, exp, now, tr0. rewrite token_set. split_and!; try done.
  revert Hr. unfold read_token. destruct (negb _) eqn:E; [done|]. bool_split. by bool_prop.
Qed.

(** A token is never sent in the last minute of its life: if the cached token
    was fetched at time [fetched] with a lifetime of [exp] seconds, then whenever
    getToken answers without an HTTP request the clock stands more than 60 seconds
    before the end of that lifetime. *)
Theorem getToken_safety_margin s tr tok fetched exp :
  (0 ≤ exp ≤ 9223372096)%Z →
  token_of s = Some {| accessToken := tok; expiresAt := fetched + token_margin exp |} →
  wp (getToken c) s tr (fun r _ tr' => ∀ now t,
    tr' = tr ++ [EvNow now] → r = Ok t → (fetched ≤ now)%Z →
    (now + 60 * 1000000000 < fetched + exp * 1000000000)%Z).
Proof.
  intros He Ht. eapply wp_mono, getToken_wp. intros r s' tr' Hp now t Htr -> Hnow.
  destruct Hp as [(tok' & now' & Ht' & Hlt & _ & _ & Htr')|(? & ? & ? & tr0 & Htr' & _)].
  - rewrite Htr in Htr'. apply app_inj_2 in Htr' as [_ [= ->]]; [|done].
    rewrite Ht in Ht'. simplify_eq/=. rewrite token_margin_eq in Hlt by done. lia.
  - rewrite Htr in Htr'. apply app_inv_head in Htr'. by destruct tr0 as [|? [|]].
Qed.

(** What a deploy that returns a task id did: its last act was one POST of the
    manifest, unchanged, to the deployments URL of the director, with the
    authorization the configuration calls for (basic without a UAA URL, else a
    bearer of the cached token), and the id was read from the response. *)
Theorem Deploy_request manifest s tr :
  wp (Deploy c manifest) s tr (fun r s' tr' => ∀ id, r = Ok id →
    ∃ tr0 resp h, tr' = tr0 ++ [EvHttp {| rq_client := httpClient c;
        rq_method := "POST"; rq_url := directorURL c +:+ "/deployments";
        rq_headers := [("Content-Type", "text/yaml"); h]; rq_body := TextBody manifest |} (Ok resp)] ∧
      extractTaskID resp "deploy" = Ok id ∧
      (if String.eqb (uaaURL c) "" then h = BasicHeader (clientID c) (clientSecret c)
       else ∃ tok, token_of s' = Some tok ∧ h = BearerHeader (accessToken tok))).
Proof. apply director_request_wp. Qed.
End TokenProperties.

(** A store that holds nothing but the token, for the witness. *)
#[export] Instance option_token_store : TokenStore (option uaaToken) :=
  {| token_of := fun s => s; set_token := fun t _ => Some t; token_set := fun _ _ => eq_refl |}.

Definition demo_client : Client := NewClient "https://10.0.0.6:25555/" "admin" "secret" "" "https://uaa:8443/".

Lemma getToken_safety_margin_witness :
  wp (getToken demo_client) (Some {| accessToken := "tok"; expiresAt := 5000 + token_margin 3600 |}) []
    (fun r _ tr' => ∀ now t, tr' = [EvNow now] → r = Ok t → (5000 ≤ now)%Z →
      (now + 60 * 1000000000 < 5000 + 3600 * 1000000000)%Z).
Proof.
  apply (getToken_safety_margin demo_client
    (Some {| accessToken := "tok"; expiresAt := 5000 + token_margin 3600 |}) [] "tok" 5000 3600);
    [lia|reflexivity].
Defined.

End Bosh.
