(* ===== verification/UaaClient.v ===== *)
(** * Package uaa, client.go: UAA OAuth2 client management

    [Client], [NewClient], [getAdminToken], [CreateClient] and [DeleteClient] of
    src/src/openclaw-broker/uaa/client.go.  The client keeps no state. *)

From S2P Require Import Prelude GoStrings Json Encoding Prog Url.

Module Uaa.

Record Client : Type := {
  uaaURL : string;
  adminID : string;
  adminSecret : string;
  httpClient : HttpClient;
}.

(** The response of the token endpoint. *)
Module tokenResponse.
Record tokenResponse : Type := {
  AccessToken : string;
  TokenType : string;
  ExpiresIn : Z;
}.
End tokenResponse.
Notation tokenResponse := tokenResponse.tokenResponse.

Definition is_slash (c : ascii) : bool := Ascii.eqb c "/".

Definition NewClient (uaaURL adminID adminSecret : string) (skipSSLValidation : bool) : Client :=
  {| uaaURL := trim_right is_slash uaaURL; adminID := adminID; adminSecret := adminSecret;
     httpClient :=
       {| Timeout := 30; RootCAs := None; InsecureSkipVerify := skipSSLValidation;
          FollowRedirects := true |} |}.

(** The JSON form of a registration; an empty secret or name is omitted. *)
Definition client_json (o : OAuthClient) : json :=
  JObj ([("client_id", JStr (ClientID o))]
    ++ omitempty "client_secret" (ClientSecret o)
    ++ [("authorized_grant_types", json_strings (AuthorizedGrantTypes o));
        ("redirect_uri", json_strings (RedirectURI o));
        ("scope", json_strings (Scope o));
        ("authorities", json_strings (Authorities o))]
    ++ omitempty "name" (Name o)).

Section Client.
Context {S : Type} (c : Client).

(** http.NewRequest, then Do: an unparsable URL fails before anything is sent. *)
Definition send {A} (r : HttpRequest) (building sending : string)
    (k : HttpResponse → result GoError A) : prog S (result GoError A) :=
  if negb (Url.url_ok (rq_url r)) then Ret (Err (Errorf building []))
  else Http r (fun res =>
    match res with
    | Err e => Ret (Err (Wrapf sending [] e))
    | Ok resp => Ret (k resp)
    end).

Definition token_request : HttpRequest :=
  {| rq_client := httpClient c; rq_method := "POST"; rq_url := uaaURL c +:+ "/oauth/token";
     rq_headers := [("Content-Type", "application/x-www-form-urlencoded"); ("Accept", "application/json")];
     rq_body := TextBody (Url.encode_form
       [("client_id", adminID c); ("client_secret", adminSecret c);
        ("grant_type", "client_credentials")]) |}.

(** The three fields of the response are decoded, only the token is used. *)
Definition decode_token (v : option json) : result GoError tokenResponse :=
  tok ←? decode_field "access_token" json_string "" v;
  ty ←? decode_field "token_type" json_string "" v;
  expires ←? decode_field "expires_in" json_int 0%Z v;
  Ok {| tokenResponse.AccessToken := tok; tokenResponse.TokenType := ty;
        tokenResponse.ExpiresIn := expires |}.

Definition read_admin_token (resp : HttpResponse) : result GoError string :=
  if negb (rs_status resp =? 200)%Z then
    Err (Errorf "token request failed (status %d): %s" [Itoa (rs_status resp); rs_body resp])
  else
    rmap_err (Wrapf "parsing token response: %w" [])
      (tok ←? decode_token (Unmarshal (rs_body resp)); Ok (tokenResponse.AccessToken tok)).

Definition getAdminToken : prog S (result GoError string) :=
  send token_request "building token request: %w" "requesting admin token: %w" read_admin_token.

(** The nil error of a Go function without a value. *)
Definition to_error {A} (r : result GoError A) : option GoError :=
  match r with Ok _ => None | Err e => Some e end.

Definition create_request (token : string) (o : OAuthClient) : HttpRequest :=
  {| rq_client := httpClient c; rq_method := "POST"; rq_url := uaaURL c +:+ "/oauth/clients";
     rq_headers := [("Authorization", "Bearer " +:+ token); ("Content-Type", "application/json");
                    ("Accept", "application/json")];
     rq_body := JsonBody (client_json o) |}.

Definition create_result (resp : HttpResponse) : result GoError unit :=
  if (rs_status resp =? 409)%Z then Ok tt
  else if negb (rs_status resp =? 201)%Z then
    Err (Errorf "create client failed (status %d): %s" [Itoa (rs_status resp); rs_body resp])
  else Ok tt.

Definition CreateClient (o : OAuthClient) : prog S (option GoError) :=
  r ⇐ getAdminToken;
  match r with
  | Err e => Ret (Some (Wrapf "getting admin token: %w" [] e))
  | Ok token =>
      r ⇐ send (create_request token o) "building create request: %w" "creating OAuth client: %w"
            create_result;
      Ret (to_error r)
  end.

Definition delete_request (token clientID : string) : HttpRequest :=
  {| rq_client := httpClient c; rq_method := "DELETE"; rq_url := uaaURL c +:+ "/oauth/clients/" +:+ Url.PathEscape clientID;
     rq_headers := [("Authorization", "Bearer " +:+ token); ("Accept", "application/json")];
     rq_body := NoBody |}.

Definition delete_result (resp : HttpResponse) : result GoError unit :=
  if (rs_status resp =? 404)%Z then Ok tt
  else if negb (rs_status resp =? 200)%Z then
    Err (Errorf "delete client failed (status %d): %s" [Itoa (rs_status resp); rs_body resp])
  else Ok tt.

Definition DeleteClient (clientID : string) : prog S (option GoError) :=
  r ⇐ getAdminToken;
  match r with
  | Err e => Ret (Some (Wrapf "getting admin token: %w" [] e))
  | Ok token =>
      r ⇐ send (delete_request token clientID) "building delete request: %w"
            "deleting OAuth client: %w" delete_result;
      Ret (to_error r)
  end.

#[export] Instance uaa_registry : ClientRegistry S :=
  {| Prog.CreateClient := CreateClient; Prog.DeleteClient := DeleteClient |}.

(** ** Lemmas *)

Lemma send_frame {A} R r b f (k : HttpResponse → result GoError A) : steps_in (fun _ => True) R (send r b f k).
Proof. unfold send. destruct (negb _); [done|]. by intros [?|?]. Qed.

(** The UAA client never touches the store. *)
#[export] Instance uaa_frame (R : S → S → Prop) : RegistryFrame S R.
Proof.
  split; intros; (apply steps_in_bind; [apply send_frame|]); intros [?|?]; try done;
    (apply steps_in_bind; [apply send_frame|done]).
Qed.

(** Two requests in a row: the outcome is nil only after an accepted response to
    the second one. *)
Lemma admin_call_wp s tr (mk : string → HttpRequest) b f (k : HttpResponse → result GoError unit) :
  wp (r ⇐ getAdminToken;
      match r with
      | Err e => Ret (Some (Wrapf "getting admin token: %w" [] e))
      | Ok token => r ⇐ send (mk token) b f k; Ret (to_error r)
      end) s tr
    (fun r s' tr' => s' = s ∧
      ((∃ e, r = Some e) ∨
       (r = None ∧ ∃ tok tresp resp,
          tr' = tr ++ [EvHttp token_request (Ok tresp); EvHttp (mk tok) (Ok resp)] ∧
          read_admin_token tresp = Ok tok ∧ k resp = Ok tt))).
Proof.
  apply wp_bind. unfold getAdminToken, send at 1. destruct (negb _); simpl; [by eauto|].
  intros [tresp|e]; simpl; [|by eauto]. destruct (read_admin_token tresp) as [tok|] eqn:Ht; [|by simpl; eauto].
  apply wp_bind. unfold send. destruct (negb _); simpl; [by eauto|].
  intros [resp|e]; simpl; [|by eauto]. split; [done|]. destruct (k resp) as [[]|] eqn:Hk; simpl; [|by eauto].
  right. split; [done|]. exists tok, tresp, resp. by rewrite <- app_assoc.
Qed.

(** ** Properties *)

(** C36. Creating a client reports success only after UAA answered the
    authorized registration with 201 or with 409: an existing client of that id,
    whatever secret it was registered with, counts as created. *)
Theorem CreateClient_outcome o s tr :
  wp (CreateClient o) s tr (fun r s' tr' => s' = s ∧
    (r = None → ∃ tok tresp resp,
       tr' = tr ++ [EvHttp token_request (Ok tresp); EvHttp (create_request tok o) (Ok resp)] ∧
       read_admin_token tresp = Ok tok ∧ (rs_status resp = 201%Z ∨ rs_status resp = 409%Z))).
Proof.
  eapply wp_mono, admin_call_wp. intros r s' tr' [-> Hr]. split; [done|]. intros ->.
  destruct Hr as [[e ?]|(_ & tok & tresp & resp & -> & Ht & Hk)]; [done|].
  exists tok, tresp, resp. split_and!; [done..|]. unfold create_result in Hk.
  destruct (rs_status resp =? 409)%Z eqn:E; bool_prop; [by right|].
  destruct (rs_status resp =? 201)%Z eqn:E'; bool_prop; [by left|done].
Qed.

(** Deleting a client reports success only after UAA answered the authorized
    DELETE with 200 or 404, and the request names one path segment: the client id
    is escaped, so no byte of it is a slash, a question mark or a hash. *)
Theorem DeleteClient_outcome id s tr :
  wp (DeleteClient id) s tr (fun r s' tr' => s' = s ∧
    (r = None → ∃ tok tresp resp,
       tr' = tr ++ [EvHttp token_request (Ok tresp); EvHttp (delete_request tok id) (Ok resp)] ∧
       read_admin_token tresp = Ok tok ∧ (rs_status resp = 200%Z ∨ rs_status resp = 404%Z))) ∧
  sall (fun b => negb (Url.byte_elem b "/?#")) (Url.PathEscape id) = true.
Proof.
  split.
  - eapply wp_mono, admin_call_wp. intros r s' tr' [-> Hr]. split; [done|]. intros ->.
    destruct Hr as [[e ?]|(_ & tok & tresp & resp & -> & Ht & Hk)]; [done|].
    exists tok, tresp, resp. split_and!; [done..|]. unfold delete_result in Hk.
    destruct (rs_status resp =? 404)%Z eqn:E; bool_prop; [by right|].
    destruct (rs_status resp =? 200)%Z eqn:E'; bool_prop; [by left|done].
  - unfold Url.PathEscape. apply (sall_sflat_map _ (fun _ => true)).
    + intros b _. by_bytes b.
    + by induction id.
Qed.
End Client.

End Uaa.
