(* ===== verification/Broker.v ===== *)
(** * Package broker, broker.go: configuration, plans, instances, the shared store

    The records of src/src/openclaw-broker/broker/broker.go, the plan lookup and
    normalization, the store the handlers share (the instance map, the instances
    it points to, the upgrade tracker, the director token and the state
    directory), [New] and the instance counts. The state file is in StateFile. *)

From S2P Require Import Prelude GoStrings Json Prog BoshClient UaaClient.

(** ** Records *)

Module Plan.
Record Plan : Type := {
  Name : string;
  ID : string;
  Description : string;
  PlanDescription : string;
  VMType : string;
  DiskType : string;
  Memory : Z;
  AZs : list string;
  Features : gmap string bool;
  Metadata : gmap string json;
}.
End Plan.

Module BrokerConfig.
Record BrokerConfig : Type := {
  MinOpenClawVersion : string;
  SandboxMode : string;
  OpenClawVersion : string;
  Plans : list Plan.Plan;
  AppsDomain : string;
  Network : string;
  AZs : list string;
  StemcellOS : string;
  StemcellVersion : string;
  CFDeploymentName : string;
  OpenClawReleaseVersion : string;
  BPMReleaseVersion : string;
  RoutingReleaseVersion : string;
  SSOEnabled : bool;
  SSOOIDCIssuerURL : string;
  SSOAllowedEmailDomains : string;
  SSOSessionTimeoutHours : Z;
  CFUaaURL : string;
  CFUaaAdminClientID : string;
  CFUaaAdminClientSecret : string;
  MaxInstances : Z;
  MaxInstancesPerOrg : Z;
  LLMProvider : string;
  LLMEndpoint : string;
  LLMAPIKey : string;
  LLMModel : string;
  LLMPreferredModel : string;
  LLMAPIEndpoint : string;
  GenAIOfferingName : string;
  GenAIPlanName : string;
  BlockedCommands : string;
  NATSTLSEnabled : bool;
  NATSTLSClientCert : string;
  NATSTLSClientKey : string;
  NATSTLSCACert : string;
  StateDir : string;
}.
End BrokerConfig.

Module Instance.
Record Instance : Type := {
  ID : string;
  PlanID : string;
  PlanName : string;
  Owner : string;
  OrgGUID : string;
  SpaceGUID : string;
  DeploymentName : string;
  GatewayToken : string;
  NodeSeed : string;
  RouteHostname : string;
  AppsDomain : string;
  VMType : string;
  DiskType : string;
  State : string;
  BoshTaskID : Z;
  SSOEnabled : bool;
  SSOClientID : string;
  SSOClientSecret : string;
  SSOCookieSecret : string;
  OpenClawVersion : string;
}.

(** Assignments to one field of an instance (four of them for a plan change). *)
Definition set_State (v : string) (i : Instance) : Instance :=
  {| ID := ID i; PlanID := PlanID i; PlanName := PlanName i; Owner := Owner i;
     OrgGUID := OrgGUID i; SpaceGUID := SpaceGUID i; DeploymentName := DeploymentName i;
     GatewayToken := GatewayToken i; NodeSeed := NodeSeed i;
     RouteHostname := RouteHostname i; AppsDomain := AppsDomain i; VMType := VMType i;
     DiskType := DiskType i; State := v; BoshTaskID := BoshTaskID i;
     SSOEnabled := SSOEnabled i; SSOClientID := SSOClientID i;
     SSOClientSecret := SSOClientSecret i; SSOCookieSecret := SSOCookieSecret i;
     OpenClawVersion := OpenClawVersion i |}.

Definition set_BoshTaskID (v : Z) (i : Instance) : Instance :=
  {| ID := ID i; PlanID := PlanID i; PlanName := PlanName i; Owner := Owner i;
     OrgGUID := OrgGUID i; SpaceGUID := SpaceGUID i; DeploymentName := DeploymentName i;
     GatewayToken := GatewayToken i; NodeSeed := NodeSeed i;
     RouteHostname := RouteHostname i; AppsDomain := AppsDomain i; VMType := VMType i;
     DiskType := DiskType i; State := State i; BoshTaskID := v; SSOEnabled := SSOEnabled i;
     SSOClientID := SSOClientID i; SSOClientSecret := SSOClientSecret i;
     SSOCookieSecret := SSOCookieSecret i; OpenClawVersion := OpenClawVersion i |}.

Definition set_SSOEnabled (v : bool) (i : Instance) : Instance :=
  {| ID := ID i; PlanID := PlanID i; PlanName := PlanName i; Owner := Owner i;
     OrgGUID := OrgGUID i; SpaceGUID := SpaceGUID i; DeploymentName := DeploymentName i;
     GatewayToken := GatewayToken i; NodeSeed := NodeSeed i;
     RouteHostname := RouteHostname i; AppsDomain := AppsDomain i; VMType := VMType i;
     DiskType := DiskType i; State := State i; BoshTaskID := BoshTaskID i; SSOEnabled := v;
     SSOClientID := SSOClientID i; SSOClientSecret := SSOClientSecret i;
     SSOCookieSecret := SSOCookieSecret i; OpenClawVersion := OpenClawVersion i |}.

Definition set_SSOClientID (v : string) (i : Instance) : Instance :=
  {| ID := ID i; PlanID := PlanID i; PlanName := PlanName i; Owner := Owner i;
     OrgGUID := OrgGUID i; SpaceGUID := SpaceGUID i; DeploymentName := DeploymentName i;
     GatewayToken := GatewayToken i; NodeSeed := NodeSeed i;
     RouteHostname := RouteHostname i; AppsDomain := AppsDomain i; VMType := VMType i;
     DiskType := DiskType i; State := State i; BoshTaskID := BoshTaskID i;
     SSOEnabled := SSOEnabled i; SSOClientID := v; SSOClientSecret := SSOClientSecret i;
     SSOCookieSecret := SSOCookieSecret i; OpenClawVersion := OpenClawVersion i |}.

Definition set_SSOClientSecret (v : string) (i : Instance) : Instance :=
  {| ID := ID i; PlanID := PlanID i; PlanName := PlanName i; Owner := Owner i;
     OrgGUID := OrgGUID i; SpaceGUID := SpaceGUID i; DeploymentName := DeploymentName i;
     GatewayToken := GatewayToken i; NodeSeed := NodeSeed i;
     RouteHostname := RouteHostname i; AppsDomain := AppsDomain i; VMType := VMType i;
     DiskType := DiskType i; State := State i; BoshTaskID := BoshTaskID i;
     SSOEnabled := SSOEnabled i; SSOClientID := SSOClientID i; SSOClientSecret := v;
     SSOCookieSecret := SSOCookieSecret i; OpenClawVersion := OpenClawVersion i |}.

Definition set_SSOCookieSecret (v : string) (i : Instance) : Instance :=
  {| ID := ID i; PlanID := PlanID i; PlanName := PlanName i; Owner := Owner i;
     OrgGUID := OrgGUID i; SpaceGUID := SpaceGUID i; DeploymentName := DeploymentName i;
     GatewayToken := GatewayToken i; NodeSeed := NodeSeed i;
     RouteHostname := RouteHostname i; AppsDomain := AppsDomain i; VMType := VMType i;
     DiskType := DiskType i; State := State i; BoshTaskID := BoshTaskID i;
     SSOEnabled := SSOEnabled i; SSOClientID := SSOClientID i;
     SSOClientSecret := SSOClientSecret i; SSOCookieSecret := v;
     OpenClawVersion := OpenClawVersion i |}.

Definition set_plan (planID planName vmType diskType : string) (i : Instance) : Instance :=
  {| ID := ID i; PlanID := planID; PlanName := planName; Owner := Owner i;
     OrgGUID := OrgGUID i; SpaceGUID := SpaceGUID i; DeploymentName := DeploymentName i;
     GatewayToken := GatewayToken i; NodeSeed := NodeSeed i;
     RouteHostname := RouteHostname i; AppsDomain := AppsDomain i; VMType := vmType;
     DiskType := diskType; State := State i; BoshTaskID := BoshTaskID i;
     SSOEnabled := SSOEnabled i; SSOClientID := SSOClientID i;
     SSOClientSecret := SSOClientSecret i; SSOCookieSecret := SSOCookieSecret i;
     OpenClawVersion := OpenClawVersion i |}.

Definition set_OpenClawVersion (v : string) (i : Instance) : Instance :=
  {| ID := ID i; PlanID := PlanID i; PlanName := PlanName i; Owner := Owner i;
     OrgGUID := OrgGUID i; SpaceGUID := SpaceGUID i; DeploymentName := DeploymentName i;
     GatewayToken := GatewayToken i; NodeSeed := NodeSeed i;
     RouteHostname := RouteHostname i; AppsDomain := AppsDomain i; VMType := VMType i;
     DiskType := DiskType i; State := State i; BoshTaskID := BoshTaskID i;
     SSOEnabled := SSOEnabled i; SSOClientID := SSOClientID i;
     SSOClientSecret := SSOClientSecret i; SSOCookieSecret := SSOCookieSecret i;
     OpenClawVersion := v |}.

(** The zero value of the struct. *)
Definition zero : Instance :=
  {| ID := ""; PlanID := ""; PlanName := ""; Owner := ""; OrgGUID := ""; SpaceGUID := "";
     DeploymentName := ""; GatewayToken := ""; NodeSeed := ""; RouteHostname := "";
     AppsDomain := ""; VMType := ""; DiskType := ""; State := ""; BoshTaskID := 0%Z;
     SSOEnabled := false; SSOClientID := ""; SSOClientSecret := ""; SSOCookieSecret := "";
     OpenClawVersion := "" |}.
End Instance.
Notation Instance := Instance.Instance.
Notation BrokerConfig := BrokerConfig.BrokerConfig.
Notation Plan := Plan.Plan.

(** ** The state directory

    A file system as far as the state file needs one: names point to inodes, an
    open with truncation empties the inode in place, a rename moves the name. *)

Module FileSys.

(** What a file holds: bytes, or what a failed write left, of which nothing is known. *)
Inductive FileData : Type :=
| Data (bytes : string)
| Garbage.

Record t : Type := mk { names : gmap string nat; inodes : list FileData }.

Definition empty : t := mk ∅ [].

(** open(2) with O_CREAT and O_TRUNC: the inode written to. *)
Definition open_trunc (path : string) (d : t) : t * nat :=
  match names d !! path with
  | Some i => (mk (names d) (<[i := Data ""]> (inodes d)), i)
  | None => (mk (<[path := length (inodes d)]> (names d)) (inodes d ++ [Data ""]), length (inodes d))
  end.

(** write(2) at the start of the inode: what was there before goes on after the new
    bytes, as it may when two processes have opened the file. *)
Definition overwrite (bytes : string) (old : FileData) : FileData :=
  match old with
  | Data s => Data (bytes +:+ sdrop (String.length bytes) s)
  | Garbage => Garbage
  end.

Definition write (i : nat) (bytes : string) (d : t) : t :=
  mk (names d) (alter (overwrite bytes) i (inodes d)).

(** A write that failed on the way. *)
Definition spoil (i : nat) (d : t) : t := mk (names d) (<[i := Garbage]> (inodes d)).

(** rename(2); nothing to rename is an error. *)
Definition rename (from to : string) (d : t) : t * option GoError :=
  match names d !! from with
  | Some i => (mk (<[to := i]> (delete from (names d))) (inodes d), None)
  | None => (d, Some (Errorf "rename: no such file or directory" [from; to]))
  end.

Definition read (path : string) (d : t) : option FileData :=
  i ← names d !! path; inodes d !! i.

End FileSys.

(** ** The shared store

    [instances] maps an id to the location of its instance in [heap]: a handler
    that has looked an instance up keeps the location, and sees and makes
    updates there after the map entry is gone or points elsewhere. *)

Record Store : Type := mkStore {
  instances : gmap string nat;
  heap : list Instance;
  upgrades : gmap string Z;
  disk : FileSys.t;
  token : option Bosh.uaaToken;
}.

Definition set_instances (m : gmap string nat) (s : Store) : Store :=
  mkStore m (heap s) (upgrades s) (disk s) (token s).
Definition set_heap (h : list Instance) (s : Store) : Store :=
  mkStore (instances s) h (upgrades s) (disk s) (token s).
Definition set_upgrades (u : gmap string Z) (s : Store) : Store :=
  mkStore (instances s) (heap s) u (disk s) (token s).
Definition set_disk (d : FileSys.t) (s : Store) : Store :=
  mkStore (instances s) (heap s) (upgrades s) d (token s).

#[export] Instance store_token : Bosh.TokenStore Store :=
  {| Bosh.token_of := token;
     Bosh.set_token := fun t s => mkStore (instances s) (heap s) (upgrades s) (disk s) (Some t);
     Bosh.token_set := fun _ _ => eq_refl |}.

(** A new instance on the heap, and the updates through a pointer. *)
Definition alloc (i : Instance) (s : Store) : nat * Store :=
  (length (heap s), set_heap (heap s ++ [i]) s).

Definition deref (l : nat) (s : Store) : Instance := default Instance.zero (heap s !! l).

Definition update (l : nat) (f : Instance → Instance) (s : Store) : Store :=
  set_heap (alter f l (heap s)) s.

Definition map_insert (id : string) (l : nat) (s : Store) : Store :=
  set_instances (<[id := l]> (instances s)) s.

Definition map_delete (id : string) (s : Store) : Store :=
  set_instances (delete id (instances s)) s.

(** What the broker knows: the instances by id. *)
Definition view (s : Store) : gmap string Instance :=
  omap (fun l => heap s !! l) (instances s).

(** ** The broker: what does not change after New *)

Record Broker : Type := mkBroker {
  config : BrokerConfig;
  director : Director Store;
  uaaClient : option (ClientRegistry Store);
}.

(** The naming convention of agent deployments, shared by the handlers. *)
Definition deploymentName (instanceID : string) : string := "openclaw-agent-" +:+ instanceID.

(** ** Responses: writeJSON of a status and a body *)

(** [cause] is the error whose text the description of the body is. *)
Record Response : Type := {
  status : Z;
  body : json;
  cause : option GoError;
}.

Definition writeJSON (status : Z) (v : json) : Response :=
  {| status := status; body := v; cause := None |}.

(** The body of most errors. *)
Definition error_body (msg : string) : json := JObj [("error", JStr msg)].

(** ** normalizePlans *)

Definition normalizePlan (p : Plan) : Plan :=
  let id :=
    if String.eqb (Plan.ID p) "" && negb (String.eqb (Plan.Name p) "")
    then "openclaw-" +:+ Plan.Name p +:+ "-plan" else Plan.ID p in
  let description :=
    if String.eqb (Plan.Description p) "" && negb (String.eqb (Plan.PlanDescription p) "")
    then Plan.PlanDescription p else Plan.Description p in
  let description :=
    if String.eqb description "" && negb (String.eqb (Plan.Name p) "")
    then "OpenClaw " +:+ Plan.Name p +:+ " plan" else description in
  {| Plan.Name := Plan.Name p; Plan.ID := id; Plan.Description := description;
     Plan.PlanDescription := Plan.PlanDescription p; Plan.VMType := Plan.VMType p;
     Plan.DiskType := Plan.DiskType p; Plan.Memory := Plan.Memory p; Plan.AZs := Plan.AZs p;
     Plan.Features := Plan.Features p; Plan.Metadata := Plan.Metadata p |}.

Definition normalizePlans (plans : list Plan) : list Plan := map normalizePlan plans.

(** ** defaultPlans and findPlan *)

Definition default_plan (id name description vm disk_ : string) (memory : Z) : Plan :=
  {| Plan.Name := name; Plan.ID := id; Plan.Description := description;
     Plan.PlanDescription := ""; Plan.VMType := vm; Plan.DiskType := disk_;
     Plan.Memory := memory; Plan.AZs := []; Plan.Features := ∅; Plan.Metadata := ∅ |}.

Definition defaultPlans : list Plan :=
  [default_plan "openclaw-developer-plan" "developer"
     "Dedicated OpenClaw agent for individual developers" "small" "10GB" 2048;
   default_plan "openclaw-developer-plus-plan" "developer-plus"
     "Enhanced agent with browser automation" "medium" "20GB" 4096;
   default_plan "openclaw-team-plan" "team" "Shared agent for teams" "large" "50GB" 8192].

(** The plans in force: the configured ones, or the defaults when there are none. *)
Definition plans_of (c : BrokerConfig) : list Plan :=
  match BrokerConfig.Plans c with
  | [] => defaultPlans
  | plans => plans
  end.

Definition findPlan (c : BrokerConfig) (planID : string) : option Plan :=
  find (fun p => String.eqb (Plan.ID p) planID) (plans_of c).

(** ** Counting instances *)

Definition active (i : Instance) : bool := negb (String.eqb (Instance.State i) "deprovisioning").

(** A loop over the map that counts the instances satisfying [p]. *)
Definition count_if (p : Instance → bool) (s : Store) : Z :=
  Z.of_nat (size (filter (fun kl => p (deref kl.2 s)) (instances s))).

Definition countInstances (s : Store) : Z := count_if active s.

Definition countInstancesByOrg (orgGUID : string) (s : Store) : Z :=
  count_if (fun i => String.eqb (Instance.OrgGUID i) orgGUID && active i) s.

(** ** saveState and loadState *)

(** filepath.Clean of a path: components are resolved left to right. *)
Fixpoint clean_comps (rooted : bool) (stack comps : list string) : list string :=
  match comps with
  | [] => rev stack
  | c :: r =>
      if String.eqb c "" || String.eqb c "." then clean_comps rooted stack r
      else if String.eqb c ".." then
        match stack with
        | top :: stack' =>
            if String.eqb top ".." then clean_comps rooted (c :: stack) r
            else clean_comps rooted stack' r
        | [] => if rooted then clean_comps rooted [] r else clean_comps rooted [c] r
        end
      else clean_comps rooted (c :: stack) r
  end.

Definition Clean (p : string) : string :=
  let rooted := String.prefix "/" p in
  let out := (if rooted then "/" else "") +:+ join "/" (clean_comps rooted [] (split_on "/" p)) in
  if String.eqb out "" then "." else out.

(** ** New *)

Definition with_plans (plans : list Plan) (c : BrokerConfig) : BrokerConfig :=
  {| BrokerConfig.MinOpenClawVersion := BrokerConfig.MinOpenClawVersion c;
     BrokerConfig.SandboxMode := BrokerConfig.SandboxMode c;
     BrokerConfig.OpenClawVersion := BrokerConfig.OpenClawVersion c;
     BrokerConfig.Plans := plans; BrokerConfig.AppsDomain := BrokerConfig.AppsDomain c;
     BrokerConfig.Network := BrokerConfig.Network c; BrokerConfig.AZs := BrokerConfig.AZs c;
     BrokerConfig.StemcellOS := BrokerConfig.StemcellOS c;
     BrokerConfig.StemcellVersion := BrokerConfig.StemcellVersion c;
     BrokerConfig.CFDeploymentName := BrokerConfig.CFDeploymentName c;
     BrokerConfig.OpenClawReleaseVersion := BrokerConfig.OpenClawReleaseVersion c;
     BrokerConfig.BPMReleaseVersion := BrokerConfig.BPMReleaseVersion c;
     BrokerConfig.RoutingReleaseVersion := BrokerConfig.RoutingReleaseVersion c;
     BrokerConfig.SSOEnabled := BrokerConfig.SSOEnabled c;
     BrokerConfig.SSOOIDCIssuerURL := BrokerConfig.SSOOIDCIssuerURL c;
     BrokerConfig.SSOAllowedEmailDomains := BrokerConfig.SSOAllowedEmailDomains c;
     BrokerConfig.SSOSessionTimeoutHours := BrokerConfig.SSOSessionTimeoutHours c;
     BrokerConfig.CFUaaURL := BrokerConfig.CFUaaURL c;
     BrokerConfig.CFUaaAdminClientID := BrokerConfig.CFUaaAdminClientID c;
     BrokerConfig.CFUaaAdminClientSecret := BrokerConfig.CFUaaAdminClientSecret c;
     BrokerConfig.MaxInstances := BrokerConfig.MaxInstances c;
     BrokerConfig.MaxInstancesPerOrg := BrokerConfig.MaxInstancesPerOrg c;
     BrokerConfig.LLMProvider := BrokerConfig.LLMProvider c;
     BrokerConfig.LLMEndpoint := BrokerConfig.LLMEndpoint c;
     BrokerConfig.LLMAPIKey := BrokerConfig.LLMAPIKey c;
     BrokerConfig.LLMModel := BrokerConfig.LLMModel c;
     BrokerConfig.LLMPreferredModel := BrokerConfig.LLMPreferredModel c;
     BrokerConfig.LLMAPIEndpoint := BrokerConfig.LLMAPIEndpoint c;
     BrokerConfig.GenAIOfferingName := BrokerConfig.GenAIOfferingName c;
     BrokerConfig.GenAIPlanName := BrokerConfig.GenAIPlanName c;
     BrokerConfig.BlockedCommands := BrokerConfig.BlockedCommands c;
     BrokerConfig.NATSTLSEnabled := BrokerConfig.NATSTLSEnabled c;
     BrokerConfig.NATSTLSClientCert := BrokerConfig.NATSTLSClientCert c;
     BrokerConfig.NATSTLSClientKey := BrokerConfig.NATSTLSClientKey c;
     BrokerConfig.NATSTLSCACert := BrokerConfig.NATSTLSCACert c;
     BrokerConfig.StateDir := BrokerConfig.StateDir c |}.

(** The broker and the start-up program: the store of a fresh process is empty
    but for the disk. *)
Definition New (c : BrokerConfig) (director : Director Store) : Broker :=
  let c := with_plans (normalizePlans (BrokerConfig.Plans c)) c in
  mkBroker c director
    (if BrokerConfig.SSOEnabled c && negb (String.eqb (BrokerConfig.CFUaaURL c) "")
        && negb (String.eqb (BrokerConfig.CFUaaAdminClientSecret c) "")
     then Some (Uaa.uaa_registry (Uaa.NewClient (BrokerConfig.CFUaaURL c)
            (BrokerConfig.CFUaaAdminClientID c) (BrokerConfig.CFUaaAdminClientSecret c) true))
     else None).

Definition initial_store (d : FileSys.t) : Store := mkStore ∅ [] ∅ d None.

(** ** A concrete configuration, for the examples and the witnesses *)

Definition demo_config : BrokerConfig :=
  {| BrokerConfig.MinOpenClawVersion := "2026.1.29"; BrokerConfig.SandboxMode := "";
     BrokerConfig.OpenClawVersion := "2026.1.30"; BrokerConfig.Plans := [];
     BrokerConfig.AppsDomain := "apps.example.com"; BrokerConfig.Network := "";
     BrokerConfig.AZs := ["z1"]; BrokerConfig.StemcellOS := ""; BrokerConfig.StemcellVersion := "";
     BrokerConfig.CFDeploymentName := ""; BrokerConfig.OpenClawReleaseVersion := "";
     BrokerConfig.BPMReleaseVersion := ""; BrokerConfig.RoutingReleaseVersion := "";
     BrokerConfig.SSOEnabled := true; BrokerConfig.SSOOIDCIssuerURL := "";
     BrokerConfig.SSOAllowedEmailDomains := ""; BrokerConfig.SSOSessionTimeoutHours := 8;
     BrokerConfig.CFUaaURL := "https://uaa.example.com";
     BrokerConfig.CFUaaAdminClientID := "admin"; BrokerConfig.CFUaaAdminClientSecret := "secret";
     BrokerConfig.MaxInstances := 2; BrokerConfig.MaxInstancesPerOrg := 1;
     BrokerConfig.LLMProvider := ""; BrokerConfig.LLMEndpoint := ""; BrokerConfig.LLMAPIKey := "";
     BrokerConfig.LLMModel := ""; BrokerConfig.LLMPreferredModel := "";
     BrokerConfig.LLMAPIEndpoint := ""; BrokerConfig.GenAIOfferingName := "";
     BrokerConfig.GenAIPlanName := ""; BrokerConfig.BlockedCommands := "";
     BrokerConfig.NATSTLSEnabled := false; BrokerConfig.NATSTLSClientCert := "";
     BrokerConfig.NATSTLSClientKey := ""; BrokerConfig.NATSTLSCACert := "";
     BrokerConfig.StateDir := "/var/vcap/store/openclaw-broker" |}.

(** Basic authentication towards the director, so no token request. *)
Definition demo_director : Bosh.Client :=
  Bosh.NewClient "https://10.0.0.6:25555" "admin" "secret" "" "".

Definition demo_broker : Broker := New demo_config (Bosh.bosh_director demo_director).
