(* ===== verification/Http.v ===== *)
(** * Package net/http: answers as bytes

    What leaves the broker: the status, the headers the code sets and the text of the
    body, as broker.writeJSON, http.Error and the router of gorilla/mux write them. *)

From S2P Require Import Prelude GoStrings Json Errors Url Prog BoshClient UaaClient Broker.

Record Answer : Type := {
  code : Z;
  headers : list (string * string);
  text : string;
}.

Section Answers.
Context (is_print : N → bool).

(** The body as it is encoded; a version error becomes its description. *)
Definition response_json (r : Response) : json :=
  match cause r, body r with
  | Some e, JObj fs => JObj (("description", JStr (Error is_print e)) :: fs)
  | _, j => j
  end.

(** Content-Type, status, and json.Encoder with the line feed it adds. *)
Definition json_answer (r : Response) : Answer :=
  {| code := status r; headers := [("Content-Type", "application/json")];
     text := Marshal (response_json r) +:+ String lf "" |}.

(** What a handler answers, as it is sent. *)
Definition respond {S} (p : prog S Response) : prog S Answer := r ⇐ p; Ret (json_answer r).
End Answers.

(** http.Error *)
Definition http_Error (more : list (string * string)) (code : Z) (msg : string) : Answer :=
  {| code := code;
     headers := more ++ [("Content-Type", "text/plain; charset=utf-8"); ("X-Content-Type-Options", "nosniff")];
     text := msg +:+ String lf "" |}.

(** ** The answers of basicAuthMiddleware and of the router *)

Definition unauthorized : Answer :=
  http_Error [("WWW-Authenticate", "Basic realm=" +:+ String dquote "OpenClaw Broker" +:+ String dquote "")]
    401 "Unauthorized".

Definition not_found : Answer := http_Error [] 404 "404 page not found".

Definition method_not_allowed : Answer := {| code := 405; headers := []; text := "" |}.

(** Redirect to the clean path, with the query kept. *)
Definition moved (path rawquery : string) : Answer :=
  let query := if String.eqb rawquery "" then "" else "?" +:+ rawquery in
  {| code := 301; headers := [("Location", Url.escape_path path +:+ query)]; text := "" |}.
