(* ===== verification/StateFile.v ===== *)
(** * Package broker, broker.go: the state file

    The JSON text of the instance map, [saveState], [loadState], and the theorem
    that a text decodes to the map it was made of. *)

From S2P Require Import Prelude GoStrings Json JsonFacts JsonRead Prog BoshClient UaaClient Broker.

(** ** The document *)

(** The fields in the order of the struct; empty credentials of the single sign-on
    are left out. *)
Definition instance_fields (i : Instance) : list (string * json) :=
  [("id", JStr (Instance.ID i)); ("plan_id", JStr (Instance.PlanID i));
   ("plan_name", JStr (Instance.PlanName i)); ("owner", JStr (Instance.Owner i));
   ("org_guid", JStr (Instance.OrgGUID i)); ("space_guid", JStr (Instance.SpaceGUID i));
   ("deployment_name", JStr (Instance.DeploymentName i));
   ("gateway_token", JStr (Instance.GatewayToken i)); ("node_seed", JStr (Instance.NodeSeed i));
   ("route_hostname", JStr (Instance.RouteHostname i));
   ("apps_domain", JStr (Instance.AppsDomain i)); ("vm_type", JStr (Instance.VMType i));
   ("disk_type", JStr (Instance.DiskType i)); ("state", JStr (Instance.State i));
   ("bosh_task_id", JNum (Itoa (Instance.BoshTaskID i)));
   ("sso_enabled", JBool (Instance.SSOEnabled i))]
  ++ omitempty "sso_client_id" (Instance.SSOClientID i)
  ++ omitempty "sso_client_secret" (Instance.SSOClientSecret i)
  ++ omitempty "sso_cookie_secret" (Instance.SSOCookieSecret i)
  ++ [("openclaw_version", JStr (Instance.OpenClawVersion i))].

Definition instance_json (i : Instance) : json := JObj (instance_fields i).

Definition state_json (m : gmap string Instance) : json := map_json (instance_json <$> m).

(** What MarshalIndent makes of the map. *)
Definition state_text (m : gmap string Instance) : string := MarshalIndent (state_json m).

Definition decode_instance (fs : list (string * json)) : option Instance :=
  id ← str "id" fs; planID ← str "plan_id" fs; planName ← str "plan_name" fs;
  owner ← str "owner" fs; org ← str "org_guid" fs; space ← str "space_guid" fs;
  deployment ← str "deployment_name" fs; tok ← str "gateway_token" fs; seed ← str "node_seed" fs;
  route ← str "route_hostname" fs; apps ← str "apps_domain" fs; vm ← str "vm_type" fs;
  disk_ ← str "disk_type" fs; state ← str "state" fs; task ← int "bosh_task_id" fs;
  sso ← boolean "sso_enabled" fs; client ← str "sso_client_id" fs;
  secret ← str "sso_client_secret" fs; cookie ← str "sso_cookie_secret" fs;
  version ← str "openclaw_version" fs;
  Some {| Instance.ID := id; Instance.PlanID := planID; Instance.PlanName := planName;
          Instance.Owner := owner; Instance.OrgGUID := org; Instance.SpaceGUID := space;
          Instance.DeploymentName := deployment; Instance.GatewayToken := tok;
          Instance.NodeSeed := seed; Instance.RouteHostname := route; Instance.AppsDomain := apps;
          Instance.VMType := vm; Instance.DiskType := disk_; Instance.State := state;
          Instance.BoshTaskID := task; Instance.SSOEnabled := sso; Instance.SSOClientID := client;
          Instance.SSOClientSecret := secret; Instance.SSOCookieSecret := cookie;
          Instance.OpenClawVersion := version |}.

(** The members of the document. A null member, which [saveState] never writes, would
    be a nil pointer in the map; it is left out here. *)
Fixpoint decode_members (m : gmap string Instance) (fs : list (string * json)) :
    option (gmap string Instance) :=
  match fs with
  | [] => Some m
  | (k, JObj fields) :: r => i ← decode_instance fields; decode_members (<[k := i]> m) r
  | (k, JNull) :: r => decode_members (delete k m) r
  | _ => None
  end.

Definition decode_state (text : string) : option (gmap string Instance) :=
  match Unmarshal text with
  | Some (JObj fs) => decode_members ∅ fs
  | Some JNull => Some ∅
  | _ => None
  end.

(** ** Saving and loading *)

(** filepath.Join of the state directory and the file name. *)
Definition state_path (dir : string) : string := Clean (dir +:+ "/" +:+ "instances.json").

Section Persistence.
Context (b : Broker).

(** os.WriteFile: open with truncation, then write. *)
Definition WriteFile (path : string) (data : string) : prog Store (option GoError) :=
  Fs (FsOpen path) (fun err =>
    match err with
    | Some e => Ret (Some e)
    | None =>
        i ⇐ atomic (fun s => let '(d, i) := FileSys.open_trunc path (disk s) in (set_disk d s, i));
        Fs (FsWrite path) (fun err =>
          match err with
          | Some e => writes (fun s => set_disk (FileSys.spoil i (disk s)) s) >>> Ret (Some e)
          | None => writes (fun s => set_disk (FileSys.write i data (disk s)) s) >>> Ret None
          end)
    end).

Definition Rename (from to : string) : prog Store (option GoError) :=
  Fs (FsRename from to) (fun err =>
    match err with
    | Some e => Ret (Some e)
    | None =>
        atomic (fun s => let '(d, e) := FileSys.rename from to (disk s) in (set_disk d s, e))
    end).

(** Marshalling an instance map cannot fail; a failed write or rename is logged
    and otherwise ignored. *)
Definition saveState : prog Store unit :=
  let dir := BrokerConfig.StateDir (config b) in
  if String.eqb dir "" then Ret tt
  else
    data ⇐ reads (fun s => state_text (view s));
    let path := state_path dir in
    let tmp := path +:+ ".tmp" in
    err ⇐ WriteFile tmp data;
    match err with
    | Some _ => Ret tt
    | None => Rename tmp path >>> Ret tt
    end.

(** A fresh instance for every entry of the document, in the order of the list. *)
Definition load_entries (l : list (string * Instance)) (s : Store) : Store :=
  mkStore (list_to_map (zip l.*1 (seq (length (heap s)) (length l)))) (heap s ++ l.*2)
    (upgrades s) (disk s) (token s).

Definition loadState : prog Store unit :=
  let dir := BrokerConfig.StateDir (config b) in
  if String.eqb dir "" then Ret tt
  else
    let path := state_path dir in
    Fs (FsRead path) (fun err =>
      match err with
      | Some _ => Ret tt
      | None =>
          writes (fun s =>
            match FileSys.read path (disk s) with
            | Some (FileSys.Data bytes) =>
                match decode_state bytes with
                | Some m => load_entries (map_to_list m) s
                | None => s
                end
            | _ => s
            end)
      end).
End Persistence.


(** ** The text decodes to the map *)

(** An instance with every text as it is after a save and a load. *)
Definition utf8_instance (i : Instance) : Instance :=
  let u := sanitize_utf8 in
  {| Instance.ID := u (Instance.ID i); Instance.PlanID := u (Instance.PlanID i);
     Instance.PlanName := u (Instance.PlanName i); Instance.Owner := u (Instance.Owner i);
     Instance.OrgGUID := u (Instance.OrgGUID i); Instance.SpaceGUID := u (Instance.SpaceGUID i);
     Instance.DeploymentName := u (Instance.DeploymentName i);
     Instance.GatewayToken := u (Instance.GatewayToken i); Instance.NodeSeed := u (Instance.NodeSeed i);
     Instance.RouteHostname := u (Instance.RouteHostname i);
     Instance.AppsDomain := u (Instance.AppsDomain i); Instance.VMType := u (Instance.VMType i);
     Instance.DiskType := u (Instance.DiskType i); Instance.State := u (Instance.State i);
     Instance.BoshTaskID := Instance.BoshTaskID i; Instance.SSOEnabled := Instance.SSOEnabled i;
     Instance.SSOClientID := u (Instance.SSOClientID i);
     Instance.SSOClientSecret := u (Instance.SSOClientSecret i);
     Instance.SSOCookieSecret := u (Instance.SSOCookieSecret i);
     Instance.OpenClawVersion := u (Instance.OpenClawVersion i) |}.

Definition utf8_member (kv : string * json) : string * json :=
  let (k, v) := kv in (sanitize_utf8 k, utf8_json v).

Lemma omitempty_utf8 k v : valid_utf8 k = true →
  map utf8_member (omitempty k v) = omitempty k (sanitize_utf8 v).
Proof.
  intros Hk%valid_utf8_eq. unfold omitempty. rewrite sanitize_empty.
  destruct (String.eqb v ""); [done|]. simpl. by rewrite Hk.
Qed.

Lemma instance_fields_utf8 i : map utf8_member (instance_fields i) = instance_fields (utf8_instance i).
Proof.
  unfold instance_fields. rewrite !map_app, !omitempty_utf8 by done. done.
Qed.

(** Every field reads its own member; the task id must fit. *)
Lemma decode_instance_fields i :
  decode_instance (instance_fields i) =
    (t ← Atoi (Itoa (Instance.BoshTaskID i)); Some (Instance.set_BoshTaskID t i)).
Proof.
  destruct i as [id pid pn ow og sp dn gt ns rh ad vm dt st task en ci cs cc v]. unfold instance_fields.
  cbn [Instance.SSOClientID Instance.SSOClientSecret Instance.SSOCookieSecret Instance.BoshTaskID].
  unfold omitempty. generalize (Itoa task). intros lit.
  destruct (String.eqb_spec ci "") as [->|_], (String.eqb_spec cs "") as [->|_],
    (String.eqb_spec cc "") as [->|_]; lazy -[Atoi]; by destruct (Atoi lit).
Qed.

(** ** Documents *)

(** What the state file can hold: well-formed texts and machine integers. *)
Definition storable_record (k : string) (i : Instance) : Prop :=
  valid_utf8 k = true ∧ utf8_instance i = i ∧ in_int64 (Instance.BoshTaskID i) = true.

Definition storable (m : gmap string Instance) : Prop := map_Forall storable_record m.

#[export] Instance instance_eq_dec : EqDecision Instance.
Proof. solve_decision. Defined.

#[export] Instance storable_record_dec k i : Decision (storable_record k i).
Proof. unfold storable_record. apply _. Defined.

#[export] Instance storable_dec m : Decision (storable m).
Proof. unfold storable. apply _. Defined.

Definition members (l : list (string * Instance)) : list (string * json) :=
  map (prod_map id instance_json) l.

Lemma members_utf8 l :
  map utf8_member (members l) = members (map (prod_map sanitize_utf8 utf8_instance) l).
Proof.
  unfold members. rewrite !map_map. apply map_ext. intros [k i]. simpl. unfold instance_json.
  by rewrite <- instance_fields_utf8.
Qed.

Lemma instance_json_ok n i : json_ok (S n) (instance_json i) = true.
Proof.
  unfold instance_json, instance_fields, omitempty. cbn [json_ok]. rewrite !forallb_app.
  destruct (String.eqb (Instance.SSOClientID i) ""), (String.eqb (Instance.SSOClientSecret i) ""),
    (String.eqb (Instance.SSOCookieSecret i) ""); cbn [forallb andb]; destruct n; cbn [json_ok];
    by rewrite number_ok_Itoa.
Qed.

Lemma state_json_members m : state_json m = JObj (members (sorted_entries m)).
Proof. unfold state_json, map_json, members. by rewrite sorted_entries_fmap. Qed.

Lemma state_json_ok n m : json_ok (2 + n) (state_json m) = true.
Proof.
  rewrite state_json_members. unfold members. cbn [Nat.add json_ok].
  apply forallb_forall. intros [k v] ([k' i] & [= <- <-] & _)%in_map_iff. apply (instance_json_ok n).
Qed.

(** The state file read back, with whatever follows the document. *)
Lemma decode_state_text m u :
  decode_state (state_text m +:+ u) =
    if blank u then
      decode_members ∅ (members (map (prod_map sanitize_utf8 utf8_instance) (sorted_entries m)))
    else None.
Proof.
  unfold decode_state, state_text.
  rewrite (Unmarshal_MarshalIndent 2) by (done || apply (state_json_ok 0) || by rewrite state_json_members).
  destruct (blank u); [|done]. rewrite state_json_members. cbn [utf8_json].
  change (fun kv : string * json => let (k, v) := kv in (sanitize_utf8 k, utf8_json v)) with utf8_member.
  by rewrite members_utf8.
Qed.

Lemma decode_members_cons acc k i l :
  decode_members acc (members ((k, i) :: l)) =
    (t ← Atoi (Itoa (Instance.BoshTaskID i)); decode_members (<[k := Instance.set_BoshTaskID t i]> acc) (members l)).
Proof.
  unfold members. cbn [map prod_map id fst snd]. unfold instance_json. cbn [decode_members].
  rewrite decode_instance_fields. by destruct (Atoi _).
Qed.

(** Every record read was a member. *)
Lemma decode_members_inv acc l m : decode_members acc (members l) = Some m →
  ∀ k i, m !! k = Some i →
    acc !! k = Some i ∨ ∃ i0 t, (k, i0) ∈ l ∧ i = Instance.set_BoshTaskID t i0.
Proof.
  revert acc. induction l as [|[k0 i0] l IH]; intros acc; [intros [= ->]; auto|].
  rewrite decode_members_cons. destruct (Atoi _) as [t|]; [|done]. cbn [mbind option_bind].
  intros H k i Hi. destruct (IH _ H k i Hi) as [Ha|(i1 & t1 & Hin & ->)].
  - apply lookup_insert_Some in Ha as [[<- <-]|[_ Ha]]; [|by left]. right. exists i0, t. split; [left|done].
  - right. exists i1, t1. split; [by right|done].
Qed.

Lemma decode_state_inv m u m' : decode_state (state_text m +:+ u) = Some m' →
  ∀ k i, m' !! k = Some i → ∃ k0 i0 t, m !! k0 = Some i0 ∧ k = sanitize_utf8 k0 ∧
    i = Instance.set_BoshTaskID t (utf8_instance i0).
Proof.
  rewrite decode_state_text. destruct (blank u); [|done]. intros H k i Hi.
  destruct (decode_members_inv _ _ _ H k i Hi) as [?|(i0 & t & Hin & ->)]; [done|].
  apply list_elem_of_fmap in Hin as ([k1 i1] & [= -> ->] & Hin).
  rewrite sorted_entries_perm in Hin. apply elem_of_map_to_list in Hin. by exists k1, i1, t.
Qed.

Lemma decode_members_storable acc l :
  Forall (fun kv => in_int64 (Instance.BoshTaskID kv.2) = true) l →
  decode_members acc (members l) = Some (foldl (fun m kv => <[kv.1 := kv.2]> m) acc l).
Proof.
  intros H. revert acc. induction H as [|[k i] l Hi _ IH]; intros acc; [done|].
  rewrite decode_members_cons, Atoi_Itoa by done. cbn [mbind option_bind foldl fst snd].
  rewrite IH. by destruct i.
Qed.

(** A storable map is what its text decodes to. *)
Lemma decode_state_storable m u : storable m → blank u = true →
  decode_state (state_text m +:+ u) = Some m.
Proof.
  intros Hm Hu. rewrite decode_state_text, Hu.
  assert (Hs : ∀ kv, kv ∈ sorted_entries m → storable_record kv.1 kv.2).
  { intros [k i]. rewrite sorted_entries_perm, elem_of_map_to_list. apply Hm. }
  assert (E : map (prod_map sanitize_utf8 utf8_instance) (sorted_entries m) = sorted_entries m).
  { rewrite <- (map_id (sorted_entries m)) at 2. apply map_ext_in. intros [k i] Hin.
    apply list_elem_of_In, Hs in Hin as (Hk%valid_utf8_eq & Hi & _). simpl in *. by rewrite Hk, Hi. }
  rewrite E, decode_members_storable.
  - by rewrite fold_sorted_entries.
  - apply Forall_forall. intros kv Hkv. by destruct (Hs kv Hkv) as (_ & _ & ?).
Qed.

(** ** Properties *)

(** C24. A state file that was cut off is never taken for a state: no proper prefix
    of the text of any instance map decodes, so a load either sees all of what a save
    wrote or keeps nothing of it. *)
Theorem cut_off_unreadable m n :
  (n < String.length (state_text m))%nat → decode_state (stake n (state_text m)) = None.
Proof.
  intros Hn. set (p := stake n (state_text m)). set (q := sdrop n (state_text m)).
  assert (E : p +:+ q = state_text m) by apply stake_sdrop.
  assert (Hq : q ≠ "").
  { intros Hq. apply (f_equal String.length) in E. rewrite Hq, app_nil_r_s in E. subst p.
    rewrite stake_length in E. lia. }
  assert (Hd : Decode p = None).
  { apply (cut_off_undecodable p q (utf8_json (state_json m))); [|done|].
    - rewrite E, <- (app_nil_r_s (state_text m)). unfold state_text, MarshalIndent.
      apply (decode_printed _ " " 2); [intros; apply blank_indent|done|apply (state_json_ok 0)|done|].
      by rewrite state_json_members.
    - rewrite E. unfold state_text, MarshalIndent. rewrite state_json_members. cbn [print].
      by destruct (members (sorted_entries m)). }
  unfold decode_state. destruct (Unmarshal p) as [v|] eqn:Eu; [|done].
  apply Unmarshal_Decode in Eu. congruence.
Qed.

(** A file of one instance that lost its last byte. *)
Lemma cut_off_unreadable_witness :
  decode_state (stake 385 (state_text {[ "i-1" := Instance.zero ]})) = None.
Proof. apply (cut_off_unreadable {[ "i-1" := Instance.zero ]} 385). apply Nat.ltb_lt. vm_compute. reflexivity. Defined.
