(* ===== verification/Store.v ===== *)
(** * The store of the broker: well-formedness, evolution, persistence

    [wf] is the invariant of the shared store, [evolves] the relation every
    critical section of every handler stays inside, [view] the abstraction to a
    map of instances. The last part is about [saveState] and [loadState]. *)

From S2P Require Import Prelude GoStrings Json JsonFacts Prog BoshClient UaaClient Broker StateFile.

(** ** The invariant *)

(** A record is filed under its own id and names its own deployment. *)
Definition record_ok (id : string) (i : Instance) : Prop :=
  Instance.ID i = id ∧ Instance.DeploymentName i = deploymentName id.

Definition doc_ok (m : gmap string Instance) : Prop :=
  ∀ id i, m !! id = Some i → record_ok id i.

(** What an inode reads as: a document, if its bytes are the text of one. *)
Definition holds (d : FileSys.t) (n : nat) (m : gmap string Instance) : Prop :=
  ∃ text, FileSys.inodes d !! n = Some (FileSys.Data text) ∧ decode_state text = Some m.

(** Names of a sound file system point to distinct existing inodes. *)
Definition disk_ok (d : FileSys.t) : Prop :=
  (∀ p q i, FileSys.names d !! p = Some i → FileSys.names d !! q = Some i → p = q) ∧
  (∀ p i, FileSys.names d !! p = Some i → (i < length (FileSys.inodes d))%nat).

Record wf (s : Store) : Prop := {
  wf_instances id l : instances s !! id = Some l → ∃ i, heap s !! l = Some i ∧ record_ok id i;
  wf_docs n m : holds (disk s) n m → doc_ok m;
  wf_disk : disk_ok (disk s);
}.

(** ** Evolution *)

(** What never changes about an instance once it is created. *)
Definition identity (i : Instance) : list string :=
  [Instance.ID i; Instance.Owner i; Instance.OrgGUID i; Instance.SpaceGUID i;
   Instance.DeploymentName i; Instance.GatewayToken i; Instance.NodeSeed i;
   Instance.RouteHostname i; Instance.AppsDomain i].

Definition heap_le (h h' : list Instance) : Prop :=
  ∀ l i, h !! l = Some i → ∃ i', h' !! l = Some i' ∧ identity i' = identity i.

#[export] Instance heap_le_preorder : PreOrder heap_le.
Proof.
  split.
  - intros h l i Hl. eauto.
  - intros h1 h2 h3 H12 H23 l i Hl. destruct (H12 _ _ Hl) as (i2 & H2 & E2).
    destruct (H23 _ _ H2) as (i3 & H3 & E3). exists i3. split; [done|congruence].
Qed.

Definition evolves (s s' : Store) : Prop := heap_le (heap s) (heap s') ∧ (wf s → wf s').

#[export] Instance evolves_preorder : PreOrder evolves.
Proof.
  split.
  - intros s. split; [done|auto].
  - intros s1 s2 s3 [H12 W12] [H23 W23]. split; [by etrans|auto].
Qed.

Lemma evolves_wf s s' : wf s → evolves s s' → wf s'.
Proof. intros Hs [_ H]. auto. Qed.

Lemma record_ok_identity id i i' : identity i' = identity i → record_ok id i → record_ok id i'.
Proof. unfold identity, record_ok. intros E [? ?]. injection E. intros. split; congruence. Qed.

(** Changes to the heap and the map, with the disk unchanged. *)
Lemma evolves_intro s s' :
  heap_le (heap s) (heap s') → disk s' = disk s →
  (∀ id l, wf s → instances s' !! id = Some l →
     instances s !! id = Some l ∨ ∃ i, heap s' !! l = Some i ∧ record_ok id i) →
  evolves s s'.
Proof.
  intros Hh Hd Hi. split; [done|]. intros [W1 W2 W3]. split; [|by rewrite Hd..].
  intros id l Hl. destruct (Hi id l ltac:(done) Hl) as [Hl'|?]; [|done].
  destruct (W1 _ _ Hl') as (i & Hi' & Hr). destruct (Hh _ _ Hi') as (i' & ? & ?).
  exists i'. split; [done|]. by eapply record_ok_identity.
Qed.

Lemma evolves_update s l f : (∀ i, identity (f i) = identity i) → evolves s (update l f s).
Proof.
  intros Hf. apply evolves_intro; [|done|by left].
  intros l' i Hl. simpl. destruct (decide (l = l')) as [->|].
  - rewrite list_lookup_alter_eq, Hl. simpl. eauto.
  - rewrite list_lookup_alter_ne by done. eauto.
Qed.

Lemma evolves_map_delete s id : evolves s (map_delete id s).
Proof.
  apply evolves_intro; [done|done|]. intros id' l _. simpl.
  rewrite lookup_delete_Some. tauto.
Qed.

Lemma heap_le_app h h' : heap_le h (h ++ h').
Proof. intros l i Hl. exists i. split; [|done]. by apply lookup_app_l_Some. Qed.

(** Reserving a slot: a new record on the heap, filed under its id. *)
Definition reserve (id : string) (i : Instance) (s : Store) : Store :=
  map_insert id (length (heap s)) (alloc i s).2.

Lemma evolves_reserve s id i : record_ok id i → evolves s (reserve id i s).
Proof.
  intros Hr. apply evolves_intro; [apply heap_le_app|done|].
  intros id' l _. simpl. rewrite lookup_insert_Some. intros [[<- <-]|[_ ?]]; [right|by left].
  exists i. split; [|done]. by rewrite lookup_app_r, Nat.sub_diag.
Qed.

Lemma evolves_token s t : evolves s (Bosh.set_token t s).
Proof. apply evolves_intro; [done|done|by left]. Qed.

Lemma evolves_upgrades s u : evolves s (set_upgrades u s).
Proof. apply evolves_intro; [done|done|by left]. Qed.

Lemma evolves_disk s d :
  (∀ n m, holds d n m → holds (disk s) n m ∨ doc_ok m) →
  (disk_ok (disk s) → disk_ok d) →
  evolves s (set_disk d s).
Proof.
  intros Hd Hok. split; [done|]. intros [W1 W2 W3]. split; [done| |by apply Hok]. simpl.
  intros n m Hn. destruct (Hd n m Hn) as [?|?]; eauto.
Qed.

#[export] Hint Resolve evolves_map_delete evolves_token evolves_upgrades evolves_wf : store.

(** ** The view *)

Lemma lookup_view s id : view s !! id = l ← instances s !! id; heap s !! l.
Proof. apply lookup_omap. Qed.

Lemma wf_lookup s id l : wf s → instances s !! id = Some l →
  ∃ i, heap s !! l = Some i ∧ deref l s = i ∧ view s !! id = Some i ∧ record_ok id i.
Proof.
  intros Hw Hl. destruct (wf_instances s Hw _ _ Hl) as (i & Hi & Hr). exists i.
  unfold deref. rewrite lookup_view, Hl. simpl. by rewrite Hi.
Qed.

Lemma view_None s id : wf s → view s !! id = None ↔ instances s !! id = None.
Proof.
  intros Hw. rewrite lookup_view. destruct (instances s !! id) as [l|] eqn:E; [|done].
  destruct (wf_lookup s id l Hw E) as (i & Hi & _). simpl. by rewrite Hi.
Qed.

(** Two ids never share a record. *)
Lemma wf_inj s id id' l : wf s → instances s !! id = Some l → instances s !! id' = Some l → id = id'.
Proof.
  intros Hw H1 H2. destruct (wf_instances s Hw _ _ H1) as (i & Hi & <- & _).
  destruct (wf_instances s Hw _ _ H2) as (i' & Hi' & <- & _). congruence.
Qed.

Lemma view_update s id l f : wf s → instances s !! id = Some l →
  view (update l f s) = alter f id (view s).
Proof.
  intros Hw Hl. apply map_eq. intros id'. rewrite lookup_view. simpl.
  destruct (decide (id = id')) as [<-|Hne].
  - rewrite lookup_alter_eq, lookup_view, Hl. simpl. by rewrite list_lookup_alter_eq.
  - rewrite lookup_alter_ne, lookup_view by done.
    destruct (instances s !! id') as [l'|] eqn:El; [|done]. simpl.
    rewrite list_lookup_alter_ne; [done|]. intros ->. by eapply Hne, wf_inj.
Qed.

(** Writes through a pointer that the map no longer holds are invisible. *)
Lemma view_update_stale s l f :
  (∀ id, instances s !! id ≠ Some l) → view (update l f s) = view s.
Proof.
  intros Hl. apply map_eq. intros id. rewrite !lookup_view. simpl.
  destruct (instances s !! id) as [l'|] eqn:El; [|done]. simpl.
  rewrite list_lookup_alter_ne; [done|]. intros ->. by eapply Hl.
Qed.

Lemma view_map_delete s id : view (map_delete id s) = delete id (view s).
Proof.
  apply map_eq. intros id'. rewrite lookup_view. simpl. destruct (decide (id = id')) as [<-|].
  - by rewrite !lookup_delete_eq.
  - by rewrite !lookup_delete_ne, lookup_view.
Qed.

Lemma view_reserve s id i : wf s → view (reserve id i s) = <[id := i]> (view s).
Proof.
  intros Hw. apply map_eq. intros id'. rewrite lookup_view. simpl.
  destruct (decide (id = id')) as [<-|].
  - rewrite !lookup_insert_eq. simpl. by rewrite lookup_app_r, Nat.sub_diag.
  - rewrite !lookup_insert_ne, lookup_view by done.
    destruct (instances s !! id') as [l|] eqn:El; [|done]. simpl.
    destruct (wf_instances s Hw _ _ El) as (i' & Hi' & _).
    rewrite lookup_app_l by by eapply lookup_lt_Some. done.
Qed.

(** The store operations that do not touch instances leave the view alone. *)
Lemma view_set_token s t : view (Bosh.set_token t s) = view s.
Proof. done. Qed.

(** ** Stores that differ in the director token only *)

Definition same (s s' : Store) : Prop :=
  instances s' = instances s ∧ heap s' = heap s ∧ upgrades s' = upgrades s ∧ disk s' = disk s.

#[export] Instance same_equiv : Equivalence same.
Proof.
  split; unfold same; [done|intros ?? (?&?&?&?); split_and!; congruence|].
  intros ??? (?&?&?&?) (?&?&?&?). split_and!; congruence.
Qed.

#[export] Instance view_same : Proper (same ==> eq) view.
Proof. intros s s' (E1 & E2 & _ & _). unfold view. by rewrite E1, E2. Qed.

#[export] Instance wf_same : Proper (same ==> iff) wf.
Proof.
  assert (H : ∀ s s', same s s' → wf s → wf s').
  { intros s s' (E1 & E2 & _ & E4) [W1 W2 W3]. split; [by rewrite E1, E2|by rewrite E4..]. }
  intros s s' E. split; [by apply H|]. apply H. by symmetry.
Qed.

Lemma same_evolves s s' : same s s' → evolves s s'.
Proof. intros E. split; [by destruct E as (_ & -> & _ & _)|]. by rewrite E. Qed.

(** ** Assignment through a pointer *)

Definition put (l : nat) (i : Instance) (s : Store) : Store := set_heap (<[l := i]> (heap s)) s.

#[export] Instance put_same l i : Proper (same ==> same) (put l i).
Proof. intros s s' (E1 & E2 & E3 & E4). unfold same, put. simpl. by rewrite E1, E2, E3, E4. Qed.

#[export] Instance update_same l f : Proper (same ==> same) (update l f).
Proof. intros s s' (E1 & E2 & E3 & E4). unfold same, update. simpl. by rewrite E1, E2, E3, E4. Qed.

#[export] Instance map_delete_same id : Proper (same ==> same) (map_delete id).
Proof. intros s s' (E1 & E2 & E3 & E4). unfold same, map_delete. simpl. by rewrite E1, E2, E3, E4. Qed.

Lemma update_put l f i s : heap s !! l = Some i → update l f s = put l (f i) s.
Proof.
  intros H. unfold update, put. f_equal. apply list_eq. intros j.
  destruct (decide (l = j)) as [<-|].
  - rewrite list_lookup_alter_eq, H. simpl. rewrite list_lookup_insert_eq; [done|].
    by eapply lookup_lt_Some.
  - by rewrite list_lookup_alter_ne, list_lookup_insert_ne.
Qed.

Lemma put_id l i s : heap s !! l = Some i → put l i s = s.
Proof. intros H. unfold put, set_heap. rewrite list_insert_id by done. by destruct s. Qed.

Lemma evolves_put l i i' s : heap s !! l = Some i → identity i' = identity i → evolves s (put l i' s).
Proof.
  intros H Hi. apply evolves_intro; [|done|by left]. intros k j Hk. simpl.
  destruct (decide (l = k)) as [<-|]; [|rewrite list_lookup_insert_ne by done; by exists j].
  rewrite list_lookup_insert_eq by by eapply lookup_lt_Some. exists i'. split; [done|congruence].
Qed.

Lemma put_put l i i' s : put l i' (put l i s) = put l i' s.
Proof. unfold put, set_heap. simpl. by rewrite list_insert_insert_eq. Qed.

Lemma heap_put l i i' s : heap s !! l = Some i' → heap (put l i s) !! l = Some i.
Proof. intros H. simpl. rewrite list_lookup_insert_eq; [done|]. by eapply lookup_lt_Some. Qed.

Lemma same_upgrades s s' : same s s' → upgrades s' = upgrades s.
Proof. by intros (_ & _ & ? & _). Qed.
Lemma same_disk s s' : same s s' → disk s' = disk s.
Proof. by intros (_ & _ & _ & ?). Qed.
Lemma same_heap s s' : same s s' → heap s' = heap s.
Proof. by intros (_ & ? & _ & _). Qed.
Lemma same_instances s s' : same s s' → instances s' = instances s.
Proof. by intros (? & _ & _ & _). Qed.

#[export] Instance disk_same : Proper (same ==> eq) disk.
Proof. intros s s' H. symmetry. by apply same_disk. Qed.
#[export] Instance upgrades_same : Proper (same ==> eq) upgrades.
Proof. intros s s' H. symmetry. by apply same_upgrades. Qed.

Lemma deref_same l s s' : same s s' → deref l s' = deref l s.
Proof. intros (_ & E & _ & _). unfold deref. by rewrite E. Qed.

Lemma view_put s id l i : wf s → instances s !! id = Some l →
  view (put l i s) = <[id := i]> (view s).
Proof.
  intros Hw Hl. destruct (wf_lookup s id l Hw Hl) as (i0 & Hi & _ & Hv & _).
  rewrite <- (update_put l (fun _ => i) i0 s Hi), (view_update s id l) by done.
  apply map_eq. intros id'. destruct (decide (id = id')) as [<-|].
  - by rewrite lookup_alter_eq, lookup_insert_eq, Hv.
  - by rewrite lookup_alter_ne, lookup_insert_ne.
Qed.

Lemma lookup_alter_id {A} (m : gmap string A) k x :
  m !! k = Some x → partial_alter (fun _ => Some x) k m = m.
Proof. intros <-. apply partial_alter_self. Qed.

Lemma view_record_ok s id i : wf s → view s !! id = Some i → record_ok id i.
Proof.
  intros Hw. rewrite lookup_view. destruct (instances s !! id) as [l|] eqn:E; [|done]. simpl.
  destruct (wf_instances s Hw _ _ E) as (j & -> & Hr). by intros [= <-].
Qed.

(** Counting over the map is counting over the view. *)
Definition count_view (p : Instance → bool) (v : gmap string Instance) : Z :=
  Z.of_nat (size (filter (fun kv => p kv.2) v)).

Lemma view_fmap s : wf s → view s = (fun l => deref l s) <$> instances s.
Proof.
  intros Hw. apply map_eq. intros id. rewrite lookup_view, lookup_fmap.
  destruct (instances s !! id) as [l|] eqn:E; [|done]. simpl.
  destruct (wf_lookup s id l Hw E) as (i & -> & -> & _). done.
Qed.

Lemma count_if_view p s : wf s → count_if p s = count_view p (view s).
Proof.
  intros Hw. unfold count_if, count_view. rewrite view_fmap by done.
  by rewrite map_filter_fmap, map_size_fmap.
Qed.

Lemma count_view_insert p v id i : v !! id = None →
  count_view p (<[id := i]> v) = (count_view p v + (if p i then 1 else 0))%Z.
Proof.
  intros Hv. unfold count_view. destruct (p i) eqn:E.
  - rewrite map_filter_insert_True by (simpl; by rewrite E).
    rewrite map_size_insert_None; [lia|]. by apply map_lookup_filter_None_2; left.
  - rewrite map_filter_insert_False by (simpl; rewrite E; by intros []). rewrite delete_id by done. lia.
Qed.

Lemma count_view_replace p v id i i' : v !! id = Some i → p i = true → p i' = false →
  count_view p (<[id := i']> v) = (count_view p v - 1)%Z.
Proof.
  intros Hv Hi Hi'. rewrite <- (insert_id v id i Hv) at 2. rewrite <- (insert_delete_eq v).
  rewrite <- (insert_delete_eq v id i), !count_view_insert by apply lookup_delete_eq.
  rewrite Hi, Hi'. lia.
Qed.

Lemma count_view_delete p v id :
  (count_view p (delete id v) ≤ count_view p v)%Z.
Proof.
  unfold count_view. rewrite map_filter_delete.
  pose proof (map_size_delete id (filter (fun kv : string * Instance => Is_true (p kv.2)) v)) as H.
  destruct (filter _ v !! id); simpl in H; lia.
Qed.

(** ** What the broker relies on

    The clients touch the token only, and the director client keeps its
    contract. *)

Class GoodBroker (b : Broker) : Type := {
  good_contract :: @DirectorContract Store (director b);
  good_director : @DirectorFrame Store (director b) same;
  good_range :: @DirectorRange Store (director b);
  good_registry r : uaaClient b = Some r → @RegistryFrame Store r same;
}.

(** The broker that New builds over the BOSH client is one. *)
#[export] Instance New_good c d : GoodBroker (New c (Bosh.bosh_director d)).
Proof.
  split.
  - apply Bosh.bosh_contract.
  - apply Bosh.bosh_frame; [apply _|done].
  - apply Bosh.bosh_range.
  - intros r. unfold New. simpl. destruct (_ && _); intros [= <-]. apply Uaa.uaa_frame.
Qed.

Section Clients.
Context (b : Broker) `{!GoodBroker b}.

Lemma same_steps {A} (p : prog Store A) :
  steps_in (fun _ => True) same p → steps_in wf evolves p.
Proof. apply steps_in_mono; [done|apply same_evolves]. Qed.

Lemma same_wp {A} (p : prog Store A) s tr :
  steps_in (fun _ => True) same p → wp p s tr (fun _ s' _ => same s s').
Proof.
  intros H. eapply wp_mono, (steps_in_wp (fun _ => True) same p s s tr); [by intros ??? [? _]|done..].
Qed.

(** A director call changes the token only, and its success is the last event. *)
Definition backed {A} (ev : A → event → Prop) (s : Store) (r : result GoError A) (s' : Store)
    (tr' : list event) : Prop :=
  same s s' ∧ ∀ a, r = Ok a → ∃ tr0 e, tr' = tr0 ++ [e] ∧ ev a e.

Definition deploy_sent := @deploy_event Store (director b) good_contract.
Definition delete_sent := @delete_event Store (director b) good_contract.
Definition status_sent := @status_event Store (director b) good_contract.

Lemma Deploy_wp m s tr : wp (@Deploy Store (director b) m) s tr (backed (deploy_sent m) s).
Proof. apply wp_and; [apply same_wp, good_director|apply deploy_contract]. Qed.
Lemma Delete_wp n s tr :
  wp (@DeleteDeployment Store (director b) n) s tr (backed (delete_sent n) s).
Proof. apply wp_and; [apply same_wp, good_director|apply delete_contract]. Qed.
Lemma Status_wp t s tr : wp (@TaskStatus Store (director b) t) s tr (backed (status_sent t) s).
Proof. apply wp_and; [apply same_wp, good_director|apply status_contract]. Qed.
Lemma Deploy_steps m : steps_in wf evolves (@Deploy Store (director b) m).
Proof. apply same_steps, good_director. Qed.
Lemma Delete_steps n : steps_in wf evolves (@DeleteDeployment Store (director b) n).
Proof. apply same_steps, good_director. Qed.
Lemma Status_steps t : steps_in wf evolves (@TaskStatus Store (director b) t).
Proof. apply same_steps, good_director. Qed.
End Clients.

#[export] Hint Resolve Deploy_steps Delete_steps Status_steps : store.

(** ** Persistence *)

Definition fs_failed (e : event) : Prop :=
  match e with EvFs _ (Some _) => True | _ => False end.

Section SaveState.
Context (b : Broker).

Lemma open_trunc_docs path d n m : holds (FileSys.open_trunc path d).1 n m → holds d n m.
Proof.
  intros (text & Hn & Hm). assert (Ht : text ≠ "") by by intros ->. exists text. split; [|done].
  revert Hn. unfold FileSys.open_trunc. destruct (FileSys.names d !! path) as [i|]; simpl.
  - by intros [(_ & [=] & _)|[? ?]]%list_lookup_insert_Some.
  - intros [?|[_ H]]%lookup_app_Some; [done|].
    destruct (n - length (FileSys.inodes d))%nat; [|done]. simpl in H. congruence.
Qed.

(** What the text of a sound document decodes to is sound, whatever bytes of a longer
    file follow it. *)
Lemma doc_ok_text m u m' : doc_ok m → decode_state (state_text m +:+ u) = Some m' → doc_ok m'.
Proof.
  intros Hm H k i Hi. destruct (decode_state_inv _ _ _ H k i Hi) as (k0 & i0 & t & Hi0 & -> & ->).
  destruct (Hm k0 i0 Hi0) as [H1 H2]. unfold record_ok, deploymentName in *. simpl.
  by rewrite H1, H2, sanitize_ascii_app.
Qed.

(** A document read after a write was there before, or its text is the start of one. *)
Lemma write_docs i m d n m' : holds (FileSys.write i (state_text m) d) n m' →
  holds d n m' ∨ ∃ u, decode_state (state_text m +:+ u) = Some m'.
Proof.
  intros (text & Hn & Ht). simpl in Hn. destruct (decide (i = n)) as [->|Hne].
  - rewrite list_lookup_alter_eq in Hn. destruct (FileSys.inodes d !! n) as [[old|]|]; [|done..].
    injection Hn as <-. right. by eexists.
  - rewrite list_lookup_alter_ne in Hn by done. left. by exists text.
Qed.

Lemma spoil_docs i d n m : holds (FileSys.spoil i d) n m → holds d n m.
Proof.
  intros (text & Hn & Ht). exists text. split; [|done].
  by apply list_lookup_insert_Some in Hn as [(_ & [=] & _)|[_ ?]].
Qed.

Lemma rename_inodes p q d : FileSys.inodes (FileSys.rename p q d).1 = FileSys.inodes d.
Proof. unfold FileSys.rename. by destruct (FileSys.names d !! p). Qed.

(** The three calls keep the file system sound. *)
Lemma open_trunc_ok path d : disk_ok d → disk_ok (FileSys.open_trunc path d).1.
Proof.
  intros [Hinj Hlt]. unfold FileSys.open_trunc.
  destruct (FileSys.names d !! path) as [i|] eqn:E; simpl.
  - split; simpl; [done|]. intros p j. rewrite length_insert. apply Hlt.
  - split; simpl.
    + intros p q i. rewrite !lookup_insert_Some. intros [[<- <-]|[? Hp]] [[<- ?]|[? Hq]];
        [done|apply Hlt in Hq; lia|subst; apply Hlt in Hp; lia|eauto].
    + intros p i. rewrite lookup_insert_Some, length_app. simpl. intros [[_ <-]|[_ ?%Hlt]]; lia.
Qed.

Lemma write_ok i data d : disk_ok d → disk_ok (FileSys.write i data d).
Proof. intros [Hinj Hlt]. split; simpl; [done|]. intros p j. rewrite length_alter. apply Hlt. Qed.

Lemma spoil_ok i d : disk_ok d → disk_ok (FileSys.spoil i d).
Proof. intros [Hinj Hlt]. split; simpl; [done|]. intros p j. rewrite length_insert. apply Hlt. Qed.

Lemma rename_ok p q d : disk_ok d → disk_ok (FileSys.rename p q d).1.
Proof.
  intros [Hinj Hlt]. unfold FileSys.rename. destruct (FileSys.names d !! p) as [i|] eqn:E; [|done].
  split; simpl.
  - intros x y j. rewrite !lookup_insert_Some, !lookup_delete_Some.
    intros [[<- <-]|(? & ? & Hx)] [[<- ?]|(? & ? & Hy)]; [done| | |by eapply Hinj].
    + by destruct (Hinj _ _ _ E Hy).
    + subst j. by destruct (Hinj _ _ _ E Hx).
  - intros x j. rewrite lookup_insert_Some, lookup_delete_Some. intros [[_ <-]|(_ & _ & ?)]; eauto.
Qed.

Lemma doc_ok_view s : wf s → doc_ok (view s).
Proof.
  intros Hw id i. rewrite lookup_view. destruct (instances s !! id) as [l|] eqn:E; [|done].
  destruct (wf_lookup s id l Hw E) as (i' & Hi & _ & _ & Hr). simpl. rewrite Hi. congruence.
Qed.

(** The disk after a step of a save, compared to the disk before it. *)
Definition saving (I : Store → Prop) (d d' : FileSys.t) : Prop :=
  (disk_ok d → disk_ok d') ∧
  ∀ n m, holds d' n m →
    holds d n m ∨ ∃ s u, I s ∧ decode_state (state_text (view s) +:+ u) = Some m.

Lemma saveState_steps_in (I : Store → Prop) (G : Store → Store → Prop) :
  (∀ s, G s s) → (∀ s d, I s → saving I (disk s) d → G s (set_disk d s)) →
  steps_in I G (saveState b).
Proof.
  intros Hr HG. unfold saveState. destruct (String.eqb _ ""); [done|].
  apply steps_in_reads_bind; [done|]. intros s0 Hs0. apply steps_in_bind.
  - intros [e|]; [done|]. split.
    + intros s Hs. destruct (FileSys.open_trunc _ (disk s)) as [d i] eqn:E. simpl.
      apply HG; [done|]. change d with (d, i).1. rewrite <- E.
      split; [apply open_trunc_ok|]. intros n m Hn. left. by eapply open_trunc_docs.
    + intros s _. simpl. destruct (FileSys.open_trunc _ (disk s)) as [d i].
      intros [e|]; (split; [|done]); intros s' Hs'; (apply HG; [done|split]).
      * apply spoil_ok.
      * intros n m Hn. left. by eapply spoil_docs.
      * apply write_ok.
      * intros n m [?|[u Hu]]%write_docs; [by left|]. right. by exists s0, u.
  - intros [e|]; [done|]. apply steps_in_bind; [|done]. intros [e|]; [done|]. split; [|done].
    intros s Hs. simpl. destruct (FileSys.rename _ _ (disk s)) as [d e] eqn:E. simpl.
    apply HG; [done|]. change d with (d, e).1. rewrite <- E. split; [apply rename_ok|].
    intros n m (text & Hn & Ht). left. rewrite rename_inodes in Hn. by exists text.
Qed.

Lemma saveState_steps : steps_in wf evolves (saveState b).
Proof.
  apply saveState_steps_in; [done|]. intros s d _ [Hok Hd]. apply evolves_disk; [|done].
  intros n m [?|(s0 & u & Hw & Hu)]%Hd; [by left|]. right. eapply doc_ok_text, Hu. by apply doc_ok_view.
Qed.

End SaveState.

#[export] Hint Resolve saveState_steps : store.

(** Saving leaves the instances alone at every step. *)
Lemma saveState_calm b : steps_in (fun _ => True)
  (fun s s' => instances s' = instances s ∧ heap s' = heap s) (saveState b).
Proof. by apply saveState_steps_in. Qed.

(** ** Relations that tolerate the quiet steps of a handler

    The steps every request takes beside its own decisions: director and UAA
    calls, assignments that change neither the identity nor the state of an
    instance, removals, and saving. *)

Definition keeps (f : Instance → Instance) : Prop :=
  ∀ i, identity (f i) = identity i ∧ Instance.State (f i) = Instance.State i.

Class Quiet (b : Broker) (G : Store → Store → Prop) : Prop := {
  quiet_refl s : G s s;
  quiet_same s s' : same s s' → G s s';
  quiet_update l f s : keeps f → wf s → G s (update l f s);
  quiet_delete id s : wf s → G s (map_delete id s);
  quiet_save : steps_in wf G (saveState b);
}.

#[export] Instance evolves_quiet b : Quiet b evolves.
Proof.
  split; [done|apply same_evolves| |auto with store|apply saveState_steps].
  intros l f s Hf _. apply evolves_update. apply Hf.
Qed.

Lemma quiet_steps {A} b G `{!Quiet b G} (p : prog Store A) :
  steps_in (fun _ => True) same p → steps_in wf G p.
Proof. apply steps_in_mono; [done|apply quiet_same]. Qed.


(** Loading a document gives back the map it holds. *)
Lemma load_entries_lookup (l : list (string * Instance)) h id : NoDup l.*1 →
  (list_to_map (zip l.*1 (seq (length h) (length l))) : gmap string nat) !! id
    ≫= (fun k => (h ++ l.*2) !! k) = (list_to_map l : gmap string Instance) !! id.
Proof.
  revert h. induction l as [|[k v] l IH]; intros h Hnd; [done|].
  simpl in *. apply NoDup_cons in Hnd as [Hk Hnd]. destruct (decide (k = id)) as [->|Hne].
  - rewrite !lookup_insert_eq. simpl. by rewrite lookup_app_r, Nat.sub_diag.
  - rewrite !lookup_insert_ne by done. specialize (IH (h ++ [v]) Hnd).
    rewrite length_app, Nat.add_1_r in IH. by rewrite <- IH, <- app_assoc.
Qed.

Lemma view_load m s : view (load_entries (map_to_list m) s) = m.
Proof.
  apply map_eq. intros id. rewrite lookup_view. unfold load_entries. cbn [instances heap].
  rewrite (load_entries_lookup (map_to_list m) (heap s) id) by apply NoDup_fst_map_to_list.
  by rewrite list_to_map_to_list.
Qed.

(** Opening another file: an empty inode no other name leads to. *)
Lemma open_trunc_spec p q d d1 i : disk_ok d → p ≠ q → FileSys.open_trunc q d = (d1, i) →
  FileSys.names d1 !! q = Some i ∧ FileSys.inodes d1 !! i = Some (FileSys.Data "") ∧
  FileSys.read p d1 = FileSys.read p d ∧ FileSys.names d1 !! p ≠ Some i.
Proof.
  intros [Hinj Hlt] Hne. unfold FileSys.open_trunc, FileSys.read.
  destruct (FileSys.names d !! q) as [k|] eqn:Eq; intros [= <- <-]; simpl.
  - assert (Hp : FileSys.names d !! p ≠ Some k) by (intros Hp; by eapply Hne, Hinj).
    split_and!; [done|apply list_lookup_insert_eq; eauto| |done].
    destruct (FileSys.names d !! p) as [j|] eqn:Ep; [|done]. simpl.
    apply list_lookup_insert_ne. congruence.
  - rewrite lookup_insert_eq, lookup_insert_ne by done. split_and!; [done|by rewrite lookup_app_r, Nat.sub_diag| |].
    + destruct (FileSys.names d !! p) as [j|] eqn:Ep; [|done]. simpl. by rewrite lookup_app_l by eauto.
    + intros Hp. apply Hlt in Hp. lia.
Qed.

(** The file a write and a rename reveal. *)
Lemma read_open_write_rename p q d d1 i bytes :
  disk_ok d → p ≠ q → FileSys.open_trunc q d = (d1, i) →
  let d2 := FileSys.write i bytes d1 in
  FileSys.read p d1 = FileSys.read p d ∧ FileSys.read p (FileSys.spoil i d1) = FileSys.read p d ∧
  FileSys.read p d2 = FileSys.read p d ∧
  (FileSys.rename q p d2).2 = None ∧
  FileSys.read p (FileSys.rename q p d2).1 = Some (FileSys.Data bytes).
Proof.
  intros Hd Hne E. destruct (open_trunc_spec p q d d1 i Hd Hne E) as (Hq & Hi & Hr & Hp).
  split; [done|]. unfold FileSys.read, FileSys.spoil, FileSys.write, FileSys.rename in *. simpl.
  rewrite Hq. simpl. rewrite lookup_insert_eq. simpl. rewrite list_lookup_alter_eq, Hi.
  assert (H0 : sdrop (String.length bytes) "" = "") by by destruct bytes.
  split_and!; [| |done|by cbn; rewrite H0, app_nil_r_s];
    rewrite <- Hr; (destruct (FileSys.names d1 !! p) as [j|]; [|done]); simpl.
  - apply list_lookup_insert_ne. congruence.
  - apply list_lookup_alter_ne. congruence.
Qed.

Lemma state_tmp_ne path : path ≠ path +:+ ".tmp".
Proof.
  intros H. apply (f_equal String.length) in H. rewrite length_app_s in H. simpl in H. lia.
Qed.

(** The state file holds what the store holds. *)
Definition saved (b : Broker) (s : Store) : Prop :=
  let dir := BrokerConfig.StateDir (config b) in
  dir ≠ "" → FileSys.read (state_path dir) (disk s) = Some (FileSys.Data (state_text (view s))).

(** No file operation among the events of the trace failed. *)
Definition fs_fine (tr : list event) : Prop := Forall (fun e => ¬ fs_failed e) tr.

Lemma fs_fine_snoc tr op e : ¬ fs_fine (tr ++ [EvFs op (Some e)]).
Proof. intros [_ F]%Forall_app. apply Forall_cons in F as [F _]. by destruct F. Qed.

(** Saving only ever touches the disk, and saves unless a file operation fails. *)
Lemma saveState_wp b s tr : disk_ok (disk s) →
  wp (saveState b) s tr (fun _ s' tr' =>
    (∃ d, s' = set_disk d s) ∧ (fs_fine tr' → saved b s')).
Proof.
  intros Hd. assert (Hid : ∃ d, s = set_disk d s) by (exists (disk s); by destruct s).
  unfold saveState, saved. destruct (String.eqb _ "") eqn:E; [bool_prop; by split|].
  set (path := state_path _).
  assert (Hf : ∀ tr op e P, fs_fine (tr ++ [EvFs op (Some e)]) → P)
    by (intros ??? P F; by destruct (fs_fine_snoc _ _ _ F)).
  intros [e|]; simpl; [split; [eauto|exact (Hf _ _ _ _)]|].
  destruct (FileSys.open_trunc _ (disk s)) as [d i] eqn:Eo.
  destruct (read_open_write_rename path (path +:+ ".tmp") _ d i (state_text (view s)) Hd (state_tmp_ne path) Eo)
    as (_ & _ & _ & _ & H). simpl.
  intros [e|]; simpl; [split; [eauto|exact (Hf _ _ _ _)]|]. intros [e|]; simpl; [split; [eauto|exact (Hf _ _ _ _)]|].
  destruct (FileSys.rename _ _ _) as [d' e]. simpl in *. eauto.
Qed.

Lemma loadState_wp b s : saved b s → BrokerConfig.StateDir (config b) ≠ "" → storable (view s) →
  wp (loadState b) (initial_store (disk s)) [] (fun _ s' tr' => fs_fine tr' → view s' = view s).
Proof.
  intros Hs Hdir Hst. unfold loadState. rewrite (proj2 (String.eqb_neq _ _)) by done.
  intros [e|]; simpl; [intros F; by destruct (fs_fine_snoc [] _ _ F)|].
  intros _. rewrite (Hs Hdir). rewrite <- (app_nil_r_s (state_text _)).
  by rewrite decode_state_storable, view_load.
Qed.

(** ** Properties *)

(** C22. Saving is atomic, crashes included: at every moment of a save that runs
    alone the state file holds either what it held before or the whole new
    snapshot, never a part of it. *)
Theorem saveState_crash_safe b s :
  disk_ok (disk s) →
  along (saveState b) s (fun s' =>
    let path := state_path (BrokerConfig.StateDir (config b)) in
    FileSys.read path (disk s') = FileSys.read path (disk s) ∨
    FileSys.read path (disk s') = Some (FileSys.Data (state_text (view s)))).
Proof.
  intros Hd. unfold saveState. destruct (String.eqb _ ""); [by split; [left|]|].
  set (path := state_path _).
  split; [by left|]. split; [by left|]. intros [e|]; [by split; [left|]|].
  split; [by left|]. simpl. destruct (FileSys.open_trunc _ (disk s)) as [d1 i] eqn:Eo. simpl.
  destruct (read_open_write_rename path (path +:+ ".tmp") _ d1 i (state_text (view s)) Hd (state_tmp_ne path) Eo)
    as (H1 & H2 & H3 & _ & H4).
  split; [by left|]. intros [e|]; [by repeat split; try left|].
  split; [by left|]. split; [by left|]. intros [e|]; [by split; [left|]|].
  split; [by left|]. simpl. destruct (FileSys.rename _ _ _) as [d' e] eqn:E. simpl.
  split; [|done]. by right.
Qed.

(** C23. A restart loses nothing that was saved: if no file operation of the save
    fails and the texts are well-formed UTF-8 and the task ids machine integers, a
    fresh process that reads the JSON text back from the state directory knows
    exactly the instances the old one knew, with all their fields. *)
Theorem restart_restores b s tr :
  disk_ok (disk s) → BrokerConfig.StateDir (config b) ≠ "" → storable (view s) →
  wp (saveState b) s tr (fun _ s1 tr1 => fs_fine tr1 →
    wp (loadState b) (initial_store (disk s1)) [] (fun _ s2 tr2 => fs_fine tr2 → view s2 = view s)).
Proof.
  intros Hd Hdir Hst. eapply wp_mono, saveState_wp; [|done].
  intros [] s1 tr1 [[d ->] Hs] F. eapply wp_mono, loadState_wp; auto.
Qed.

(** ** Witnesses *)

(** The demonstration broker saves a store of one instance. *)
Definition demo_instance : Instance :=
  {| Instance.ID := "i-1"; Instance.PlanID := "openclaw-developer-plan";
     Instance.PlanName := "developer"; Instance.Owner := "alice";
     Instance.OrgGUID := "org"; Instance.SpaceGUID := "space";
     Instance.DeploymentName := deploymentName "i-1"; Instance.GatewayToken := "token";
     Instance.NodeSeed := "seed"; Instance.RouteHostname := "oc-alice-i-1";
     Instance.AppsDomain := "apps.example.com"; Instance.VMType := "small";
     Instance.DiskType := "10GB"; Instance.State := "ready"; Instance.BoshTaskID := 41;
     Instance.SSOEnabled := false; Instance.SSOClientID := ""; Instance.SSOClientSecret := "";
     Instance.SSOCookieSecret := ""; Instance.OpenClawVersion := "2026.1.30" |}.

Definition demo_store : Store := reserve "i-1" demo_instance (initial_store FileSys.empty).

Lemma empty_disk_ok : disk_ok FileSys.empty.
Proof. by split. Qed.

Lemma initial_wf d : disk_ok d → (∀ n m, holds d n m → doc_ok m) →
  wf (initial_store d).
Proof. by split. Qed.

Lemma demo_wf : wf demo_store.
Proof.
  apply (evolves_wf (initial_store FileSys.empty)); [|by apply evolves_reserve].
  apply initial_wf; [done|]. by intros n m (text & ? & _).
Qed.

Lemma demo_storable : storable (view demo_store).
Proof.
  intros k i. rewrite lookup_view. simpl.
  destruct (decide (k = "i-1")) as [->|Hne]; [|by rewrite lookup_insert_ne].
  rewrite lookup_insert_eq. intros [= <-]. by split_and!.
Qed.

Lemma saveState_crash_safe_witness :
  along (saveState demo_broker) demo_store (fun s' =>
    let path := state_path (BrokerConfig.StateDir (config demo_broker)) in
    FileSys.read path (disk s') = FileSys.read path (disk demo_store) ∨
    FileSys.read path (disk s') = Some (FileSys.Data (state_text (view demo_store)))).
Proof. apply (saveState_crash_safe demo_broker demo_store), empty_disk_ok. Defined.

Lemma restart_restores_witness :
  wp (saveState demo_broker) demo_store [] (fun _ s1 tr1 => fs_fine tr1 →
    wp (loadState demo_broker) (initial_store (disk s1)) [] (fun _ s2 tr2 =>
      fs_fine tr2 → view s2 = view demo_store)).
Proof. apply (restart_restores demo_broker demo_store []); [apply empty_disk_ok|discriminate|apply demo_storable]. Defined.

(** An environment for the examples: the UAA answers, the director accepts every
    deploy as task 42 and every delete as task 43 (or answers [deploy] and
    [delete] instead), tasks are in state [state]; random bytes are all the same,
    no file operation fails and maps are visited in key order. *)
Definition http_status (status : Z) (location : string) (body : string) :
    result GoError HttpResponse :=
  Ok {| rs_status := status; rs_location := location; rs_body := body |}.

Definition demo_http (deploy delete : Z) (state : string) (r : HttpRequest) :
    result GoError HttpResponse :=
  let director := "https://10.0.0.6:25555" in
  if String.eqb (rq_url r) "https://uaa.example.com/oauth/token" then
    http_status 200 "" (Marshal (JObj [("access_token", JStr "uaa-token")]))
  else if String.eqb (rq_url r) "https://uaa.example.com/oauth/clients" then http_status 201 "" ""
  else if String.eqb (rq_url r) (director +:+ "/deployments") then
    http_status deploy "/tasks/42" ""
  else if String.eqb (rq_method r) "DELETE" then http_status delete "/tasks/43" ""
  else http_status 200 "" (Marshal (JObj [("state", JStr state)])).

Fixpoint fill (n : nat) : string :=
  match n with O => "" | S n => String "x" (fill n) end.

Definition demo_oracle (deploy delete : Z) (state : string) : Oracle :=
  {| o_http := fun _ => demo_http deploy delete state;
     o_now := fun _ => 0%Z;
     o_rand := fun _ n => fill n;
     o_fs := fun _ _ => None;
     o_order := fun _ keys => keys |}.

#[export] Instance demo_valid deploy delete state : ValidOracle (demo_oracle deploy delete state).
Proof. split; [|done]. intros tr n. simpl. clear tr. induction n; simpl; congruence. Qed.
