(* ===== verification/Provision.v ===== *)
(** * Package broker, provision.go: creating an instance

    [ProvisionRequest], [Provision] and [buildManifestParams] of
    src/src/openclaw-broker/broker/provision.go. *)

From S2P Require Import Prelude GoStrings Json Floats Encoding Policy Hostname Prog Template Manifest Tokens BoshClient UaaClient Broker StateFile Store.

(** ** Decoded JSON parameters *)

(** A value of an interface type: what encoding/json makes of a parameter. The
    entries of a map are listed in key order, the order fmt prints them in. *)
Inductive any : Type :=
| AnyNil
| AnyBool (b : bool)
| AnyFloat (f : Float.float64)
| AnyString (s : string)
| AnyList (l : list any)
| AnyMap (l : list (string * any)).

(** fmt.Sprintf of one value with the verb %v. *)
Fixpoint fmt_v (v : any) : string :=
  match v with
  | AnyNil => "<nil>"
  | AnyBool b => if b then "true" else "false"
  | AnyFloat f => Float.format_v f
  | AnyString s => s
  | AnyList l => "[" +:+ join " " (map fmt_v l) +:+ "]"
  | AnyMap l => "map[" +:+ join " " (map (fun kv => kv.1 +:+ ":" +:+ fmt_v kv.2) l) +:+ "]"
  end.

Module ProvisionRequest.
Record ProvisionRequest : Type := {
  ServiceID : string;
  PlanID : string;
  OrganizationGUID : string;
  SpaceGUID : string;
  Parameters : gmap string any;
}.
End ProvisionRequest.
Notation ProvisionRequest := ProvisionRequest.ProvisionRequest.

Module ProvisionResponse.
Record ProvisionResponse : Type := {
  DashboardURL : string;
  Operation : string;
}.
End ProvisionResponse.
Notation ProvisionResponse := ProvisionResponse.ProvisionResponse.

Definition provision_json (r : ProvisionResponse) : json :=
  JObj (omitempty "dashboard_url" (ProvisionResponse.DashboardURL r)
        ++ omitempty "operation" (ProvisionResponse.Operation r)).

(** ** Responses shared by the asynchronous operations *)

Definition AsyncRequired : Response :=
  writeJSON 422 (JObj
    [("description", JStr "This service plan requires client support for asynchronous service operations.");
     ("error", JStr "AsyncRequired")]).

Definition BadRequest : Response := writeJSON 400 (error_body "Bad request").

(** ** buildManifestParams *)

Definition or_default (s d : string) : string := if String.eqb s "" then d else s.

(** Newlines count as commas, carriage returns are dropped, items are trimmed and
    empty items skipped. *)
Definition parse_blocked (s : string) : list string :=
  if String.eqb s "" then []
  else
    let normalized := replace_byte lf "," s in
    let normalized := replace_byte cr "" normalized in
    List.filter (fun cmd => negb (String.eqb cmd "")) (map TrimSpace (split_on "," normalized)).

Definition buildManifestParams (c : BrokerConfig) (instance : Instance) : Manifest.ManifestParams :=
  let plan := findPlan c (Instance.PlanID instance) in
  let azs :=
    match plan with
    | Some p => match Plan.AZs p with [] => BrokerConfig.AZs c | azs => azs end
    | None => BrokerConfig.AZs c
    end in
  let browserEnabled :=
    match plan with
    | Some p => default false (Plan.Features p !! "browser")
    | None => false
    end in
  let ssoEnabled :=
    Instance.SSOEnabled instance && negb (String.eqb (Instance.SSOClientID instance) "") in
  {| Manifest.DeploymentName := Instance.DeploymentName instance;
     Manifest.ID := Instance.ID instance;
     Manifest.Owner := Instance.Owner instance;
     Manifest.PlanName := Instance.PlanName instance;
     Manifest.GatewayToken := Instance.GatewayToken instance;
     Manifest.NodeSeed := Instance.NodeSeed instance;
     Manifest.RouteHostname := Instance.RouteHostname instance;
     Manifest.VMType := Instance.VMType instance;
     Manifest.DiskType := Instance.DiskType instance;
     Manifest.SSOEnabled := ssoEnabled;
     Manifest.OpenClawVersion := Instance.OpenClawVersion instance;
     Manifest.SandboxMode := or_default (BrokerConfig.SandboxMode c) "strict";
     Manifest.Network := or_default (BrokerConfig.Network c) "default";
     Manifest.AZs := azs;
     Manifest.StemcellOS := or_default (BrokerConfig.StemcellOS c) "ubuntu-jammy";
     Manifest.StemcellVersion := or_default (BrokerConfig.StemcellVersion c) "latest";
     Manifest.CFDeploymentName := or_default (BrokerConfig.CFDeploymentName c) "cf";
     Manifest.OpenClawReleaseVersion := or_default (BrokerConfig.OpenClawReleaseVersion c) "latest";
     Manifest.BPMReleaseVersion := or_default (BrokerConfig.BPMReleaseVersion c) "latest";
     Manifest.RoutingReleaseVersion := or_default (BrokerConfig.RoutingReleaseVersion c) "latest";
     Manifest.AppsDomain := Instance.AppsDomain instance;
     Manifest.SSOClientID := Instance.SSOClientID instance;
     Manifest.SSOClientSecret := Instance.SSOClientSecret instance;
     Manifest.SSOCookieSecret := Instance.SSOCookieSecret instance;
     Manifest.SSOOIDCIssuerURL := BrokerConfig.SSOOIDCIssuerURL c;
     Manifest.SSOAllowedEmailDomains := BrokerConfig.SSOAllowedEmailDomains c;
     Manifest.SSOSessionTimeoutHours := BrokerConfig.SSOSessionTimeoutHours c;
     Manifest.LLMProvider := BrokerConfig.LLMProvider c;
     Manifest.LLMEndpoint := BrokerConfig.LLMEndpoint c;
     Manifest.LLMAPIKey := BrokerConfig.LLMAPIKey c;
     Manifest.LLMModel := BrokerConfig.LLMModel c;
     Manifest.LLMPreferredModel := BrokerConfig.LLMPreferredModel c;
     Manifest.LLMAPIEndpoint := BrokerConfig.LLMAPIEndpoint c;
     Manifest.BrowserEnabled := browserEnabled;
     Manifest.BlockedCommands := parse_blocked (BrokerConfig.BlockedCommands c);
     Manifest.NATSTLSClientCert := BrokerConfig.NATSTLSClientCert c;
     Manifest.NATSTLSClientKey := BrokerConfig.NATSTLSClientKey c;
     Manifest.NATSTLSCACert := BrokerConfig.NATSTLSCACert c |}.

(** ** Provision *)

Section Provision.
Context (b : Broker).

(** The version gate of Provision: skipped when no minimum is configured. *)
Definition version_gate : option GoError :=
  if String.eqb (BrokerConfig.MinOpenClawVersion (config b)) "" then None
  else Policy.ValidateVersion (BrokerConfig.OpenClawVersion (config b))
         (BrokerConfig.MinOpenClawVersion (config b)).

Definition request_owner (req : ProvisionRequest) : string :=
  match ProvisionRequest.Parameters req !! "owner" with
  | Some o => fmt_v o
  | None => "user"
  end.

Definition new_instance (instanceID : string) (req : ProvisionRequest) (plan : Plan)
    (gatewayToken nodeSeed : string) : Instance :=
  let owner := request_owner req in
  {| Instance.ID := instanceID; Instance.PlanID := ProvisionRequest.PlanID req;
     Instance.PlanName := Plan.Name plan; Instance.Owner := owner;
     Instance.OrgGUID := ProvisionRequest.OrganizationGUID req;
     Instance.SpaceGUID := ProvisionRequest.SpaceGUID req;
     Instance.DeploymentName := deploymentName instanceID;
     Instance.GatewayToken := gatewayToken; Instance.NodeSeed := nodeSeed;
     Instance.RouteHostname :=
       Hostname.uniqueRouteHostname (Hostname.sanitizedOwner owner) instanceID;
     Instance.AppsDomain := BrokerConfig.AppsDomain (config b);
     Instance.VMType := Plan.VMType plan; Instance.DiskType := Plan.DiskType plan;
     Instance.State := "provisioning"; Instance.BoshTaskID := 0;
     Instance.SSOEnabled := BrokerConfig.SSOEnabled (config b);
     Instance.SSOClientID := ""; Instance.SSOClientSecret := ""; Instance.SSOCookieSecret := "";
     Instance.OpenClawVersion := BrokerConfig.OpenClawVersion (config b) |}.

(** The checks under the lock, up to the plan. *)
Definition checks (instanceID : string) (req : ProvisionRequest) (s : Store) : result Response Plan :=
  let c := config b in
  if bool_decide (is_Some (instances s !! instanceID)) then
    Err (writeJSON 409 (error_body "Instance already exists"))
  else if (0 <? BrokerConfig.MaxInstances c)%Z
          && (BrokerConfig.MaxInstances c <=? countInstances s)%Z then
    Err (writeJSON 422 (JObj
      [("description", JStr ("Maximum total instances (" +:+ Itoa (BrokerConfig.MaxInstances c) +:+ ") reached"));
       ("error", JStr "Quota exceeded")]))
  else if (0 <? BrokerConfig.MaxInstancesPerOrg c)%Z
          && (BrokerConfig.MaxInstancesPerOrg c <=?
                countInstancesByOrg (ProvisionRequest.OrganizationGUID req) s)%Z then
    Err (writeJSON 422 (JObj
      [("description", JStr ("Maximum instances per org (" +:+ Itoa (BrokerConfig.MaxInstancesPerOrg c) +:+ ") reached"));
       ("error", JStr "Quota exceeded")]))
  else match version_gate with
  | Some e =>
      Err {| status := 422; body := error_body "Version below minimum safe version"; cause := Some e |}
  | None =>
      match findPlan c (ProvisionRequest.PlanID req) with
      | None => Err (writeJSON 400 (error_body "Unknown plan"))
      | Some plan => Ok plan
      end
  end.

(** The infrastructure a plan needs, checked last. *)
Definition misconfigured (plan : Plan) : option Response :=
  if bool_decide (Plan.AZs plan = []) && bool_decide (BrokerConfig.AZs (config b) = []) then
    Some (writeJSON 500 (error_body "Broker misconfiguration: no availability zones configured"))
  else if String.eqb (BrokerConfig.AppsDomain (config b)) "" then
    Some (writeJSON 500 (error_body "Broker misconfiguration: no apps domain configured"))
  else None.

(** The decision taken under the lock: the refusal, or the instance to reserve. *)
Definition admission (instanceID : string) (req : ProvisionRequest) (gatewayToken nodeSeed : string)
    (s : Store) : result Response Instance :=
  plan ←? checks instanceID req s;
  match misconfigured plan with
  | Some resp => Err resp
  | None => Ok (new_instance instanceID req plan gatewayToken nodeSeed)
  end.

(** The credentials are generated once a plan was found. *)
Definition credential_generators (instanceID : string) (req : ProvisionRequest) (s : Store) :
    list Generator :=
  if is_ok (checks instanceID req s) then [Tokens.GenerateGatewayToken; Tokens.GenerateNodeSeed] else [].

(** The critical section: decide and, when admitted, reserve the slot. *)
Definition admit_and_reserve (instanceID : string) (req : ProvisionRequest)
    (secrets : list string) (s : Store) : Store * result Response nat :=
  match admission instanceID req (nth 0 secrets "") (nth 1 secrets "") s with
  | Err r => (s, Err r)
  | Ok i => (reserve instanceID i s, Ok (length (heap s)))
  end.

Definition sso_client (instanceID routeHostname clientSecret : string) : OAuthClient :=
  {| ClientID := Tokens.ClientIDForInstance instanceID;
     ClientSecret := clientSecret;
     AuthorizedGrantTypes := ["authorization_code"];
     RedirectURI := ["https://" +:+ routeHostname +:+ "." +:+
                       BrokerConfig.AppsDomain (config b) +:+ "/oauth2/callback"];
     Scope := ["openid"];
     Authorities := ["uaa.resource"];
     Name := "OpenClaw Agent " +:+ instanceID |}.

(** The per-instance UAA client, written into the reserved record outside the
    lock, field by field. *)
Definition setup_sso (instanceID routeHostname : string) (l : nat) : prog Store unit :=
  sso ⇐ reads (fun s => Instance.SSOEnabled (deref l s));
  if sso then
    match uaaClient b with
    | Some uaa =>
        secret ⇐ generate Tokens.GenerateClientSecret;
        cookie ⇐ generate Tokens.GenerateCookieSecret;
        err ⇐ Prog.CreateClient (sso_client instanceID routeHostname secret);
        match err with
        | Some _ => writes (update l (Instance.set_SSOEnabled false))
        | None =>
            writes (update l (Instance.set_SSOClientID (Tokens.ClientIDForInstance instanceID))) >>>
            writes (update l (Instance.set_SSOClientSecret secret)) >>>
            writes (update l (Instance.set_SSOCookieSecret cookie))
        end
    | None => writes (update l (Instance.set_SSOEnabled false))
    end
  else Ret tt.

(** Rendering and deploying: the task id, or the refusal. *)
Definition render_and_deploy (params : Manifest.ManifestParams) (deploy_failed : string) :
    prog Store (result Response Z) :=
  match Manifest.RenderAgentManifest params with
  | Err _ => Ret (Err (writeJSON 500 (error_body "Failed to render deployment manifest")))
  | Ok manifest =>
      r ⇐ @Deploy Store (director b) manifest;
      match r with
      | Err _ => Ret (Err (writeJSON 500 (error_body deploy_failed)))
      | Ok taskID => Ret (Ok taskID)
      end
  end.

Definition provision_response (instanceID routeHostname : string) : Response :=
  writeJSON 202 (provision_json
    {| ProvisionResponse.DashboardURL :=
         "https://" +:+ routeHostname +:+ "." +:+ BrokerConfig.AppsDomain (config b);
       ProvisionResponse.Operation := "provision-" +:+ instanceID |}).

(** What follows the reservation of location [l]. *)
Definition deploy_reserved (instanceID routeHostname : string) (l : nat) : prog Store Response :=
  setup_sso instanceID routeHostname l >>>
  (params ⇐ reads (fun s => buildManifestParams (config b) (deref l s));
   r ⇐ render_and_deploy params "Deployment failed";
   match r with
   | Err resp => writes (map_delete instanceID) >>> Ret resp
   | Ok taskID =>
       writes (update l (Instance.set_BoshTaskID taskID)) >>>
       saveState b >>>
       Ret (provision_response instanceID routeHostname)
   end).

(** [accepts] is the accepts_incomplete parameter of the query, [req] the decoded
    body ([None]: it does not decode). *)
Definition Provision (instanceID accepts : string) (req : option ProvisionRequest) :
    prog Store Response :=
  if negb (Hostname.validInstanceID instanceID) then
    Ret (writeJSON 400 (error_body "Invalid instance_id format"))
  else if negb (String.eqb accepts "true") then Ret AsyncRequired
  else match req with
  | None => Ret BadRequest
  | Some req =>
      r ⇐ locked (credential_generators instanceID req) (admit_and_reserve instanceID req);
      match r with
      | Err resp => Ret resp
      | Ok l =>
          deploy_reserved instanceID
            (Hostname.uniqueRouteHostname (Hostname.sanitizedOwner (request_owner req)) instanceID) l
      end
  end.
End Provision.

(** * Proofs *)

(** The task id and the state are no manifest parameters. *)
Lemma params_State c st i :
  buildManifestParams c (Instance.set_State st i) = buildManifestParams c i.
Proof. reflexivity. Qed.

Lemma params_BoshTaskID c task i :
  buildManifestParams c (Instance.set_BoshTaskID task i) = buildManifestParams c i.
Proof. reflexivity. Qed.

Lemma params_version c i :
  Manifest.OpenClawVersion (buildManifestParams c i) = Instance.OpenClawVersion i.
Proof. reflexivity. Qed.

Lemma params_ID c i : Manifest.ID (buildManifestParams c i) = Instance.ID i.
Proof. reflexivity. Qed.

(** Rendering is never unfolded below. *)
#[global] Opaque Manifest.RenderAgentManifest buildManifestParams.

Section ProvisionFacts.
Context (b : Broker) `{!GoodBroker b}.

(** ** The admission decision *)

Record admitted (instanceID : string) (req : ProvisionRequest) (gatewayToken nodeSeed : string)
    (s : Store) (i : Instance) : Prop := {
  adm_absent : instances s !! instanceID = None;
  adm_quota : (0 < BrokerConfig.MaxInstances (config b))%Z →
    (countInstances s < BrokerConfig.MaxInstances (config b))%Z;
  adm_org : (0 < BrokerConfig.MaxInstancesPerOrg (config b))%Z →
    (countInstancesByOrg (ProvisionRequest.OrganizationGUID req) s
       < BrokerConfig.MaxInstancesPerOrg (config b))%Z;
  adm_version : version_gate b = None;
  adm_plan : ∃ plan, findPlan (config b) (ProvisionRequest.PlanID req) = Some plan ∧
    (Plan.AZs plan ≠ [] ∨ BrokerConfig.AZs (config b) ≠ []) ∧
    i = new_instance b instanceID req plan gatewayToken nodeSeed;
  adm_domain : BrokerConfig.AppsDomain (config b) ≠ "";
}.

Lemma quota_guard m n : (0 <? m)%Z && (m <=? n)%Z = false → (0 < m → n < m)%Z.
Proof. intros [?|?]%andb_false_iff ?; bool_prop; lia. Qed.

Lemma admit_ok instanceID req tok seed s i :
  admission b instanceID req tok seed s = Ok i → admitted instanceID req tok seed s i.
Proof.
  unfold admission, checks. destruct (bool_decide (is_Some (instances s !! instanceID))) eqn:E1; [done|].
  destruct (_ && (_ <=? countInstances s)%Z) eqn:E2; [done|].
  destruct (_ && (_ <=? countInstancesByOrg _ s)%Z) eqn:E3; [done|].
  destruct (version_gate b) eqn:E4; [done|].
  destruct (findPlan _ _) as [plan|] eqn:E5; [|done]. cbn [rbind]. unfold misconfigured.
  destruct (bool_decide (Plan.AZs plan = []) && _) eqn:E6; [done|].
  destruct (String.eqb (BrokerConfig.AppsDomain _) "") eqn:E7; [done|].
  intros [= <-]. bool_prop. split; auto using quota_guard.
  - by apply eq_None_not_Some.
  - exists plan. split_and!; [done| |done].
    apply andb_false_iff in E6 as [?|?]; bool_prop; auto.
Qed.

Lemma guard_passed m n : (0 < m → n < m)%Z → (0 <? m)%Z && (m <=? n)%Z = false.
Proof.
  intros H. apply andb_false_iff. destruct (0 <? m)%Z eqn:E; [right|by left].
  bool_prop. apply Z.leb_gt. auto.
Qed.

Lemma admit_complete instanceID req plan s tok seed :
  instances s !! instanceID = None →
  ((0 < BrokerConfig.MaxInstances (config b))%Z →
     (countInstances s < BrokerConfig.MaxInstances (config b))%Z) →
  ((0 < BrokerConfig.MaxInstancesPerOrg (config b))%Z →
     (countInstancesByOrg (ProvisionRequest.OrganizationGUID req) s
        < BrokerConfig.MaxInstancesPerOrg (config b))%Z) →
  version_gate b = None → findPlan (config b) (ProvisionRequest.PlanID req) = Some plan →
  Plan.AZs plan ≠ [] ∨ BrokerConfig.AZs (config b) ≠ [] →
  BrokerConfig.AppsDomain (config b) ≠ "" →
  admission b instanceID req tok seed s = Ok (new_instance b instanceID req plan tok seed).
Proof.
  intros Hnone Hmax Horg Hver Hplan Haz Hdom. unfold admission, checks.
  rewrite bool_decide_eq_false_2 by (rewrite Hnone; by intros []).
  rewrite (guard_passed _ _ Hmax), (guard_passed _ _ Horg), Hver, Hplan. cbn [rbind].
  unfold misconfigured.
  replace (bool_decide (Plan.AZs plan = []) && _) with false
    by (symmetry; apply andb_false_iff; rewrite !bool_decide_eq_false; tauto).
  by rewrite (proj2 (String.eqb_neq _ _)).
Qed.

Lemma admit_refused instanceID req tok seed s r :
  admission b instanceID req tok seed s = Err r → status r ≠ 202%Z.
Proof.
  unfold admission, checks, misconfigured. intros H.
  repeat (case_match; simplify_eq/=); done.
Qed.

(** A refusal that is no internal failure comes before the credentials. *)
Lemma early_refusal instanceID req tok seed s r :
  admission b instanceID req tok seed s = Err r → status r ≠ 500%Z →
  credential_generators b instanceID req s = [].
Proof.
  unfold admission, credential_generators. destruct (checks b instanceID req s) as [plan|]; [|done].
  cbn [rbind]. unfold misconfigured. intros H H5. repeat (case_match; simplify_eq/=); done.
Qed.

(** The reserved record keeps what the handler fills in later apart. *)
Lemma admitted_record instanceID req tok seed s i :
  admitted instanceID req tok seed s i → record_ok instanceID i.
Proof. by intros [_ _ _ _ (p & _ & _ & ->) _]. Qed.

(** ** The steps of Provision *)

Section Steps.
Context (G : Store → Store → Prop) `{!Quiet b G}.

Lemma setup_sso_steps instanceID h l : steps_in wf G (setup_sso b instanceID h l).
Proof.
  assert (Hu : ∀ f s, keeps f → wf s → G s (update l f s)) by (intros; by apply quiet_update).
  unfold setup_sso. apply steps_in_reads_bind; [apply quiet_refl|]. intros s _.
  destruct (Instance.SSOEnabled _); [|done].
  destruct (uaaClient b) as [uaa|] eqn:Hr; [|apply steps_in_writes; intros; by apply Hu].
  intros x _ y _. cbn [bind]. apply steps_in_bind.
  - pose proof (good_registry uaa Hr). apply (quiet_steps b); [done|apply create_frame].
  - intros [e|]; [apply steps_in_writes; intros; by apply Hu|].
    do 2 (apply steps_in_writes_bind; [intros; by apply Hu|]). apply steps_in_writes; intros; by apply Hu.
Qed.

Lemma render_and_deploy_steps params m : steps_in wf G (render_and_deploy b params m).
Proof.
  unfold render_and_deploy. destruct (Manifest.RenderAgentManifest params); [|done].
  apply steps_in_bind; [apply (quiet_steps b); [done|apply good_director]|]. by intros [?|?].
Qed.

Lemma deploy_reserved_steps instanceID h l : steps_in wf G (deploy_reserved b instanceID h l).
Proof.
  unfold deploy_reserved. apply steps_in_bind; [apply setup_sso_steps|]. intros _.
  apply steps_in_reads_bind; [apply quiet_refl|]. intros s _.
  apply steps_in_bind; [apply render_and_deploy_steps|]. intros [t|r].
  - apply steps_in_writes_bind; [intros; by apply quiet_update|].
    apply steps_in_bind; [by apply quiet_save|done].
  - apply steps_in_writes_bind; [intros; by apply quiet_delete|done].
Qed.

(** All that is left to check of Provision is the reservation. *)
Lemma Provision_steps_in instanceID accepts req :
  (∀ rq tok seed s i, wf s → admitted instanceID rq tok seed s i → G s (reserve instanceID i s)) →
  steps_in wf G (Provision b instanceID accepts req).
Proof.
  intros HG. unfold Provision. destruct (negb _); [done|]. destruct (negb _); [done|].
  destruct req as [req|]; [|done]. apply steps_in_locked_bind.
  - intros s ts Hs. unfold admit_and_reserve. destruct (admission _ _ _ _ _ s) as [i|r] eqn:E;
      [|by apply quiet_refl]. apply admit_ok in E. eauto.
  - intros s ts _. destruct (_.2); [apply deploy_reserved_steps|done].
Qed.
End Steps.

Lemma Provision_steps instanceID accepts req :
  steps_in wf evolves (Provision b instanceID accepts req).
Proof.
  apply (Provision_steps_in evolves). intros rq tok seed s i _ Ha.
  by eapply evolves_reserve, admitted_record.
Qed.

(** ** Provision run alone *)

(** The record after the UAA step. *)
Definition with_sso (enabled : bool) (id secret cookie : string) (i : Instance) : Instance :=
  Instance.set_SSOCookieSecret cookie (Instance.set_SSOClientSecret secret
    (Instance.set_SSOClientID id (Instance.set_SSOEnabled enabled i))).

Definition with_sso_some (i i' : Instance) : Prop := ∃ e id sec ck, i' = with_sso e id sec ck i.

Lemma with_sso_refl i : with_sso_some i i.
Proof.
  exists (Instance.SSOEnabled i), (Instance.SSOClientID i), (Instance.SSOClientSecret i),
    (Instance.SSOCookieSecret i). by destruct i.
Qed.

Lemma with_sso_off i : with_sso_some i (Instance.set_SSOEnabled false i).
Proof.
  exists false, (Instance.SSOClientID i), (Instance.SSOClientSecret i),
    (Instance.SSOCookieSecret i). by destruct i.
Qed.

Lemma setup_sso_wp instanceID h l i s tr : heap s !! l = Some i →
  wp (setup_sso b instanceID h l) s tr (fun _ s' _ => ∃ i', with_sso_some i i' ∧ same (put l i' s) s').
Proof.
  intros Hi. assert (Hid : same (put l i s) s) by by rewrite put_id.
  unfold setup_sso. apply wp_bind. simpl.
  destruct (Instance.SSOEnabled (deref l s)); [|simpl; exists i; auto using with_sso_refl].
  destruct (uaaClient b) as [uaa|] eqn:Hr.
  - intros secret _ cookie _. cbn [bind]. apply wp_bind.
    pose proof (good_registry uaa Hr). eapply wp_mono, same_wp, create_frame.
    intros [e|] s' tr' Hs; simpl.
    + rewrite (update_put l _ i) by by destruct Hs as (_ & -> & _).
      exists (Instance.set_SSOEnabled false i). split; [apply with_sso_off|by rewrite Hs].
    + rewrite (update_put l _ i s') by by destruct Hs as (_ & -> & _).
      rewrite (update_put l _ _ (put l _ s'))
        by (eapply heap_put; destruct Hs as (_ & -> & _); done).
      rewrite put_put.
      rewrite (update_put l _ _ (put l _ s'))
        by (eapply heap_put; destruct Hs as (_ & -> & _); done).
      rewrite put_put. eexists. split; [|by rewrite Hs].
      eexists (Instance.SSOEnabled i), _, _, _. by destruct i.
  - simpl. rewrite (update_put l _ i) by done.
    exists (Instance.set_SSOEnabled false i). split; [apply with_sso_off|done].
Qed.

(** The manifest of [params] was rendered and handed to the director, which
    answered with [task]: one event of the trace shows it. *)
Definition deployed_as (params : Manifest.ManifestParams) (task : Z) (tr : list event) : Prop :=
  ∃ manifest e, Manifest.RenderAgentManifest params = Ok manifest ∧
    e ∈ tr ∧ deploy_sent b manifest task e.

Lemma deployed_as_mono params task tr tr' :
  tr `prefix_of` tr' → deployed_as params task tr → deployed_as params task tr'.
Proof. intros [k ->] (m & e & ? & ? & ?). exists m, e. by rewrite elem_of_app; auto. Qed.

Lemma render_and_deploy_wp params m s tr :
  wp (render_and_deploy b params m) s tr (fun r s' tr' => same s s' ∧
    match r with
    | Err resp => resp = writeJSON 500 (error_body m)
    | Ok task => deployed_as params task tr'
    end).
Proof.
  unfold render_and_deploy.
  assert (∃ out, Manifest.RenderAgentManifest params = Ok out) as [out Ho].
  { rewrite Manifest.RenderAgentManifest_exec.
    destruct (Manifest.render_some params Manifest.agentManifest) as [out ->]; [by vm_compute|eauto]. }
  rewrite Ho. apply wp_bind. eapply wp_mono, Deploy_wp. intros [t|e] s' tr' [Hs Ht]; [|split; [exact Hs|reflexivity]].
  split; [done|]. destruct (Ht t eq_refl) as (tr0 & e & -> & He). exists out, e.
  rewrite elem_of_app, list_elem_of_singleton. auto.
Qed.

(** What follows the reservation either completes the record, or takes the
    reservation back. *)
Definition deploy_reserved_post (instanceID h : string) (i : Instance) (s0 : Store) (r : Response)
    (s' : Store) (tr' : list event) : Prop :=
  upgrades s' = upgrades s0 ∧
  ((r = writeJSON 500 (error_body "Deployment failed") ∧ view s' = view s0 ∧ disk s' = disk s0) ∨
   ∃ i' task, with_sso_some i i' ∧ r = provision_response b instanceID h ∧
     view s' = <[instanceID := Instance.set_BoshTaskID task i']> (view s0) ∧
     deployed_as (buildManifestParams (config b) i') task tr' ∧ (fs_fine tr' → saved b s')).

Lemma deploy_reserved_wp instanceID h i s0 tr :
  wf s0 → instances s0 !! instanceID = None → record_ok instanceID i →
  wp (deploy_reserved b instanceID h (length (heap s0))) (reserve instanceID i s0) tr
    (deploy_reserved_post instanceID h i s0).
Proof.
  intros Hw Hnone Hr. set (l := length (heap s0)). set (s := reserve instanceID i s0).
  assert (Hws : wf s) by (eapply evolves_wf, evolves_reserve; done).
  assert (Hi : heap s !! l = Some i) by (subst s l; simpl; by rewrite lookup_app_r, Nat.sub_diag).
  assert (Hl : instances s !! instanceID = Some l) by apply lookup_insert_eq.
  assert (Hv : view s = <[instanceID := i]> (view s0)) by by apply view_reserve.
  unfold deploy_reserved. apply wp_bind. eapply wp_mono, setup_sso_wp, Hi.
  intros [] s1 tr1 (i' & Hsso & H1). cbn [bind reads]. simpl.
  assert (Hi' : heap s1 !! l = Some i') by (destruct H1 as (_ & -> & _); by eapply heap_put).
  unfold deref. rewrite Hi'. simpl. apply wp_bind. eapply wp_mono, render_and_deploy_wp.
  intros [task|resp] s2 tr2 [H2 Hd]; simpl.
  - assert (Hi2 : heap s2 !! l = Some i') by (destruct H2 as (_ & -> & _); done).
    rewrite (update_put l _ i' s2) by done. set (i2 := Instance.set_BoshTaskID task i').
    assert (H3 : same (put l i2 s) (put l i2 s2)) by by rewrite <- H2, <- H1, put_put.
    assert (Hv3 : view (put l i2 s2) = <[instanceID := i2]> (view s0))
      by (rewrite <- H3, (view_put s instanceID l), Hv by done; by rewrite insert_insert_eq).
    apply wp_bind. eapply wp_mono, wp_and, saveState_wp; [|apply wp_extends|].
    + intros [] s4 tr4 [Hpre [[d ->] Hsaved]]. split; [exact (same_upgrades _ _ H3)|].
      right. exists i', task. split_and!; [done..|by eapply deployed_as_mono|done].
    + rewrite (same_disk _ _ H3). apply Hw.
  - subst resp. split; [trans (upgrades s2); [done|]; by rewrite (same_upgrades _ _ H2), (same_upgrades _ _ H1)|].
    left. split; [done|]. split.
    + rewrite view_map_delete, <- H2, <- H1, (view_put s instanceID l), Hv, insert_insert_eq, delete_insert_id by
        (done || by apply view_None). done.
    + trans (disk s2); [done|]. by rewrite (same_disk _ _ H2), (same_disk _ _ H1).
Qed.

(** The whole handler. *)
Definition drawn (prefix tok : string) : Prop :=
  ∃ bytes, String.length bytes = 32%nat ∧ tok = prefix +:+ EncodeToString RawURLEncoding bytes.

(** The two credentials, generated from two reads of 32 bytes. *)
Lemma generated_drawn bs :
  map String.length bs = [32%nat; 32%nat] →
  drawn "oc_tok_" (nth 0 (generated [Tokens.GenerateGatewayToken; Tokens.GenerateNodeSeed] bs) "") ∧
  drawn "seed_" (nth 1 (generated [Tokens.GenerateGatewayToken; Tokens.GenerateNodeSeed] bs) "").
Proof. destruct bs as [|x [|y [|]]]; [done..| |done]. intros [= Hx Hy]. split; [by exists x|by exists y]. Qed.

(** An admitted request found a plan, so it got its credentials. *)
Lemma secrets_drawn instanceID rq tok seed s i bs :
  admission b instanceID rq tok seed s = Ok i →
  map String.length bs = map gen_bytes (credential_generators b instanceID rq s) →
  let ts := generated (credential_generators b instanceID rq s) bs in
  drawn "oc_tok_" (nth 0 ts "") ∧ drawn "seed_" (nth 1 ts "").
Proof.
  unfold admission, credential_generators. destruct (checks b instanceID rq s); [|done].
  intros _. apply generated_drawn.
Qed.

Lemma Provision_wp instanceID accepts req s tr :
  wf s →
  wp (Provision b instanceID accepts req) s tr (fun r s' tr' =>
    (status r ≠ 202%Z ∧ s' = s ∧ (status r ≠ 500%Z → tr' = tr)) ∨
    ∃ rq tok seed i, Hostname.validInstanceID instanceID = true ∧ accepts = "true" ∧
      req = Some rq ∧ drawn "oc_tok_" tok ∧ drawn "seed_" seed ∧
      admitted instanceID rq tok seed s i ∧
      deploy_reserved_post instanceID (Instance.RouteHostname i) i s r s' tr').
Proof.
  intros Hw.
  unfold Provision.
  destruct (Hostname.validInstanceID instanceID) eqn:E1; cbn [negb]; [|by left].
  destruct (String.eqb accepts "true") eqn:E2; cbn [negb]; [|by left].
  destruct req as [rq|]; [|by left]. bool_prop. intros bs Hbs.
  cbn [bind locked wp]. set (ts := generated _ bs). unfold admit_and_reserve.
  set (tok := nth 0 ts ""). set (seed := nth 1 ts "").
  destruct (admission b instanceID rq tok seed s) as [i|resp] eqn:Ha; cbn [fst snd].
  - destruct (secrets_drawn instanceID rq tok seed s i bs Ha Hbs) as [Htok Hseed].
    apply admit_ok in Ha. eapply wp_mono, (deploy_reserved_wp _ _ i);
      [|done|apply Ha|by eapply admitted_record]. intros r s' tr' Hp. right.
    exists rq, tok, seed, i. split_and!; [done..|].
    destruct (adm_plan _ _ _ _ _ _ Ha) as (p & _ & _ & ->). done.
  - left. split_and!; [by eapply admit_refused|done|]. intros H5.
    destruct bs; [by rewrite app_nil_r|]. by rewrite (early_refusal _ _ _ _ _ _ Ha H5) in Hbs.
Qed.
End ProvisionFacts.

(** * Properties *)

Section Properties.
Context (b : Broker) `{!GoodBroker b}.

(** The response and the store of an accepted request agree with the instance
    that was built for it. *)
Record provisioned (instanceID : string) (rq : ProvisionRequest) (plan : Plan) (i : Instance) : Prop := {
  prov_ids : Instance.ID i = instanceID ∧ Instance.DeploymentName i = deploymentName instanceID;
  prov_plan : Instance.PlanID i = ProvisionRequest.PlanID rq ∧ Instance.PlanName i = Plan.Name plan ∧
    Instance.VMType i = Plan.VMType plan ∧ Instance.DiskType i = Plan.DiskType plan;
  prov_org : Instance.OrgGUID i = ProvisionRequest.OrganizationGUID rq ∧
    Instance.SpaceGUID i = ProvisionRequest.SpaceGUID rq;
  prov_owner : Instance.Owner i = request_owner rq;
  prov_secrets : drawn "oc_tok_" (Instance.GatewayToken i) ∧ drawn "seed_" (Instance.NodeSeed i);
  prov_host : Instance.RouteHostname i =
    Hostname.uniqueRouteHostname (Hostname.sanitizedOwner (request_owner rq)) instanceID;
  prov_state : Instance.State i = "provisioning";
  prov_version : Instance.OpenClawVersion i = BrokerConfig.OpenClawVersion (config b);
}.

(** The shape of an accepted request. *)
Lemma accepted_wp instanceID accepts req s tr :
  wf s →
  wp (Provision b instanceID accepts req) s tr (fun r s' tr' => status r = 202%Z →
    ∃ rq plan i, accepts = "true" ∧ req = Some rq ∧ Hostname.validInstanceID instanceID = true ∧
      view s !! instanceID = None ∧
      version_gate b = None ∧ findPlan (config b) (ProvisionRequest.PlanID rq) = Some plan ∧
      provisioned instanceID rq plan i ∧
      view s' = <[instanceID := i]> (view s) ∧ upgrades s' = upgrades s ∧
      deployed_as b (buildManifestParams (config b) i) (Instance.BoshTaskID i) tr' ∧
      r = provision_response b instanceID (Instance.RouteHostname i)).
Proof.
  intros Hw. eapply wp_mono, Provision_wp, Hw.
  intros r s' tr' [(? & _)|(rq & tok & seed & i & E1 & -> & -> & Htok & Hseed & Ha & Hu & Hp)] Hr; [done|].
  destruct Hp as [(-> & _)|(i' & task & (e & cid & sec & ck & ->) & -> & Hv & Hd & _)]; [done|].
  destruct (adm_plan _ _ _ _ _ _ _ Ha) as (plan & Hplan & _ & ->).
  eexists rq, plan, _. split_and!; [done|done|done| | |done| |exact Hv|done|by rewrite params_BoshTaskID|done].
  - by apply view_None, (adm_absent _ _ _ _ _ _ _ Ha).
  - apply Ha.
  - by split.
Qed.


(** C25. A Provision that is not accepted changes nothing the broker knows or has
    saved; refused for any other reason than a failure of its own (500), it has
    not asked the outside for anything, not even for random bytes, and the store is
    untouched. *)
Theorem Provision_refused instanceID accepts req s tr :
  wf s →
  wp (Provision b instanceID accepts req) s tr (fun r s' tr' => status r ≠ 202%Z →
    view s' = view s ∧ upgrades s' = upgrades s ∧ disk s' = disk s ∧
    (status r ≠ 500%Z → s' = s ∧ tr' = tr)).
Proof.
  intros Hw. eapply wp_mono, Provision_wp, Hw.
  intros r s' tr' [(_ & -> & Hrs)|(rq & tok & seed & i & _ & _ & _ & _ & _ & _ & Hu & Hp)] Hr;
    [by split_and!; auto|].
  destruct Hp as [(-> & Hv & Hd)|(i' & task & _ & -> & _)]; [|done]. by split_and!.
Qed.

(** C26. Nothing else is refused: a request with a valid id, a decodable body and
    accepts_incomplete, for an unknown id, below both quotas, past the version
    gate, for a known plan with a zone and with a domain configured, is answered
    202, or 500 with the message of a failed deployment. *)
Theorem Provision_admits instanceID rq plan s tr :
  wf s → Hostname.validInstanceID instanceID = true → view s !! instanceID = None →
  ((0 < BrokerConfig.MaxInstances (config b))%Z →
     (countInstances s < BrokerConfig.MaxInstances (config b))%Z) →
  ((0 < BrokerConfig.MaxInstancesPerOrg (config b))%Z →
     (countInstancesByOrg (ProvisionRequest.OrganizationGUID rq) s
        < BrokerConfig.MaxInstancesPerOrg (config b))%Z) →
  version_gate b = None → findPlan (config b) (ProvisionRequest.PlanID rq) = Some plan →
  Plan.AZs plan ≠ [] ∨ BrokerConfig.AZs (config b) ≠ [] →
  BrokerConfig.AppsDomain (config b) ≠ "" →
  wp (Provision b instanceID "true" (Some rq)) s tr (fun r _ _ =>
    status r = 202%Z ∨ r = writeJSON 500 (error_body "Deployment failed")).
Proof.
  intros Hw Hid Hnone%view_None Hmax Horg Hver Hplan Haz Hdom; [|done].
  unfold Provision. rewrite Hid. cbn [negb String.eqb Ascii.eqb Bool.eqb].
  intros bs _. cbn [bind locked wp]. unfold admit_and_reserve.
  pose proof (fun tok seed => admit_complete b instanceID rq plan s tok seed Hnone Hmax Horg Hver Hplan Haz Hdom) as Hi.
  rewrite Hi. cbn [fst snd].
  eapply admit_ok in Hi.
  eapply wp_mono, (deploy_reserved_wp b); [|done|apply Hi|by eapply admitted_record].
  intros r s' tr' [_ [(-> & _)|(i' & task & _ & -> & _)]]; auto.
Qed.
End Properties.

(** ** Witnesses *)

Definition demo_request : ProvisionRequest :=
  {| ProvisionRequest.ServiceID := "openclaw-service";
     ProvisionRequest.PlanID := "openclaw-team-plan";
     ProvisionRequest.OrganizationGUID := "org-2"; ProvisionRequest.SpaceGUID := "space-2";
     ProvisionRequest.Parameters := {["owner" := AnyString "Bob Smith"]} |}.

Definition demo_provision : prog Store Response :=
  Provision demo_broker "i-2" "true" (Some demo_request).


Lemma Provision_refused_witness :
  wf demo_store ∧
  let '(r, s', tr') := run (demo_oracle 500 302 "done") demo_provision demo_store [] in
  status r = 500%Z ∧ view s' = view demo_store ∧ disk s' = disk demo_store.
Proof.
  split; [exact demo_wf|].
  pose proof (wp_run (demo_oracle 500 302 "done") _ _ _ _
    (Provision_refused demo_broker "i-2" "true" (Some demo_request) demo_store [] demo_wf)) as H.
  change (Provision demo_broker "i-2" "true" (Some demo_request)) with demo_provision in H.
  assert (Hr : status (run (demo_oracle 500 302 "done") demo_provision demo_store []).1.1 = 500%Z)
    by (vm_compute; reflexivity).
  destruct (run _ _ _ _) as [[r s'] tr']. simpl in Hr.
  destruct H as (Hv & _ & Hd & _); [by rewrite Hr|]. auto.
Defined.

Lemma Provision_admits_witness :
  wp demo_provision demo_store [] (fun r _ _ =>
    status r = 202%Z ∨ r = writeJSON 500 (error_body "Deployment failed")).
Proof.
  apply (Provision_admits demo_broker "i-2" demo_request
    (default_plan "openclaw-team-plan" "team" "Shared agent for teams" "large" "50GB" 8192)
    demo_store []); try (vm_compute; reflexivity); [exact demo_wf|right; discriminate|discriminate].
Defined.

(** An answered request of the method to the URL, with the status. *)
Definition answered (method url : string) (status : Z) (e : event) : bool :=
  match e with
  | EvHttp rq (Ok resp) =>
      String.eqb (rq_method rq) method && String.eqb (rq_url rq) url && (rs_status resp =? status)%Z
  | _ => false
  end.

(** A request of the method. *)
Definition requested (method : string) (e : event) : bool :=
  match e with EvHttp rq _ => String.eqb (rq_method rq) method | _ => false end.

(** A failed Provision leaves its UAA client behind: there is a run in which
    UAA registers the client (201), the director then refuses the deployment, the
    handler answers 500 and forgets the instance, and no DELETE was ever sent. *)
Theorem Provision_leaks_client :
  ∃ o, ValidOracle o ∧
    let '(r, s', tr') := run o demo_provision demo_store [] in
    status r = 500%Z ∧ view s' !! "i-2" = None ∧
    existsb (answered "POST" "https://uaa.example.com/oauth/clients" 201) tr' = true ∧
    existsb (requested "DELETE") tr' = false.
Proof.
  exists (demo_oracle 500 302 "done"). split; [apply _|]. vm_compute. by split_and!.
Qed.
