(* ===== verification/Update.v ===== *)
(** * Package broker, update.go: changing the plan of an instance, redeploying it *)

From S2P Require Import Prelude GoStrings Json Encoding Policy Hostname Prog Template Manifest Tokens BoshClient UaaClient Broker StateFile Store Provision.

Module UpdateRequest.
Record UpdateRequest : Type := {
  ServiceID : string;
  PlanID : string;
  Parameters : gmap string any;
}.
End UpdateRequest.
Notation UpdateRequest := UpdateRequest.UpdateRequest.

Section Update.
Context (b : Broker).

(** The record made for an instance the broker has no memory of. *)
Definition recovered_instance (instanceID : string) (plan : Plan) (gatewayToken nodeSeed : string) : Instance :=
  {| Instance.ID := instanceID; Instance.PlanID := Plan.ID plan;
     Instance.PlanName := Plan.Name plan; Instance.Owner := "recovered";
     Instance.OrgGUID := ""; Instance.SpaceGUID := "";
     Instance.DeploymentName := deploymentName instanceID;
     Instance.GatewayToken := gatewayToken; Instance.NodeSeed := nodeSeed;
     Instance.RouteHostname := Hostname.uniqueRouteHostname "recovered" instanceID;
     Instance.AppsDomain := BrokerConfig.AppsDomain (config b);
     Instance.VMType := Plan.VMType plan; Instance.DiskType := Plan.DiskType plan;
     Instance.State := "provisioning"; Instance.BoshTaskID := 0;
     Instance.SSOEnabled := BrokerConfig.SSOEnabled (config b);
     Instance.SSOClientID := ""; Instance.SSOClientSecret := ""; Instance.SSOCookieSecret := "";
     Instance.OpenClawVersion := BrokerConfig.OpenClawVersion (config b) |}.

(** The plan of a recovery: the requested one, else the first available. *)
Definition recovery_plan (planID : string) : option Plan :=
  match findPlan (config b) planID with
  | Some plan => Some plan
  | None => head (plans_of (config b))
  end.

(** The record with the requested plan; [None]: the plan is unknown. *)
Definition replan (planID : string) (i : Instance) : option Instance :=
  if negb (String.eqb planID "") && negb (String.eqb planID (Instance.PlanID i)) then
    plan ← findPlan (config b) planID;
    Some (Instance.set_plan planID (Plan.Name plan) (Plan.VMType plan) (Plan.DiskType plan) i)
  else Some i.

(** The critical section: the location of the instance to redeploy and the
    parameters of its manifest, or the refusal. *)
Definition prepare_update (instanceID planID gatewayToken nodeSeed : string) (s : Store) :
    Store * result Response (nat * Manifest.ManifestParams) :=
  let unknown := Err (writeJSON 400 (error_body "Unknown plan")) in
  match instances s !! instanceID with
  | None =>
      match recovery_plan planID with
      | None => (s, unknown)
      | Some plan =>
          let i := recovered_instance instanceID plan gatewayToken nodeSeed in
          (reserve instanceID i s, Ok (length (heap s), buildManifestParams (config b) i))
      end
  | Some l =>
      match replan planID (deref l s) with
      | None => (s, unknown)
      | Some i => (put l i s, Ok (l, buildManifestParams (config b) i))
      end
  end.

(** The result of a redeploy, recorded in one critical section. *)
Definition redeployed (taskID : Z) (i : Instance) : Instance :=
  Instance.set_BoshTaskID taskID (Instance.set_State "provisioning" i).

(** Credentials are generated for a recovery only. *)
Definition recovery_generators (instanceID planID : string) (s : Store) : list Generator :=
  match instances s !! instanceID, recovery_plan planID with
  | None, Some _ => [Tokens.GenerateGatewayToken; Tokens.GenerateNodeSeed]
  | _, _ => []
  end.

Definition Update (instanceID accepts : string) (req : option UpdateRequest) : prog Store Response :=
  if negb (String.eqb accepts "true") then Ret AsyncRequired
  else match req with
  | None => Ret BadRequest
  | Some req =>
      r ⇐ locked (recovery_generators instanceID (UpdateRequest.PlanID req))
            (fun secrets => prepare_update instanceID (UpdateRequest.PlanID req)
               (nth 0 secrets "") (nth 1 secrets ""));
      match r with
      | Err resp => Ret resp
      | Ok (l, params) =>
          r ⇐ render_and_deploy b params "Update deployment failed";
          match r with
          | Err resp => Ret resp
          | Ok taskID =>
              writes (update l (redeployed taskID)) >>>
              saveState b >>>
              Ret (writeJSON 202 (JObj [("operation", JStr ("update-" +:+ instanceID))]))
          end
      end
  end.
End Update.

(** * Proofs *)

Section UpdateFacts.
Context (b : Broker) `{!GoodBroker b}.

Lemma replan_identity planID i i' : replan b planID i = Some i' → identity i' = identity i.
Proof. unfold replan. intros H. repeat case_match; simplify_option_eq; done. Qed.

(** The defaults stand in for an empty configuration, so there is always a plan. *)
Lemma recovery_plan_some planID :
  ∃ plan, recovery_plan b planID = Some plan ∧ plan ∈ plans_of (config b).
Proof.
  unfold recovery_plan, findPlan. destruct (find _ _) as [p|] eqn:E.
  - exists p. split; [done|]. apply find_some in E as [Hin _]. by apply list_elem_of_In.
  - unfold plans_of. destruct (BrokerConfig.Plans (config b)) as [|p ps].
    + eexists. split; [reflexivity|]. left.
    + exists p. split; [done|left].
Qed.

Lemma replan_State planID i i' : replan b planID i = Some i' →
  Instance.State i' = Instance.State i ∧ Instance.BoshTaskID i' = Instance.BoshTaskID i.
Proof. unfold replan. intros H. repeat case_match; simplify_option_eq; done. Qed.

Lemma prepare_update_evolves instanceID planID tok seed s :
  wf s → evolves s (prepare_update b instanceID planID tok seed s).1.
Proof.
  intros Hw. unfold prepare_update. destruct (instances s !! instanceID) as [l|] eqn:El.
  - destruct (wf_lookup s instanceID l Hw El) as (i & Hi & -> & _).
    destruct (replan b planID i) as [i'|] eqn:E; [|done]. by eapply evolves_put, replan_identity.
  - destruct (recovery_plan b planID); [|done]. by apply evolves_reserve.
Qed.

Lemma Update_steps instanceID accepts req : steps_in wf evolves (Update b instanceID accepts req).
Proof.
  unfold Update. destruct (negb _); [done|]. destruct req as [req|]; [|done].
  apply steps_in_locked_bind; [intros s ts; apply prepare_update_evolves|].
  intros s ts _. destruct (_.2) as [[l params]|]; [|done].
  apply steps_in_bind; [apply render_and_deploy_steps; apply _|]. intros [task|resp]; [|done].
  apply steps_in_writes_bind; [auto using evolves_update|].
  apply steps_in_bind; [apply saveState_steps|done].
Qed.

(** The parameters do not depend on what the redeploy changes. *)
Lemma params_redeployed c task i :
  buildManifestParams c (redeployed task i) = buildManifestParams c i.
Proof. unfold redeployed. by rewrite params_BoshTaskID, params_State. Qed.

(** What follows the critical section, for a record [i] that is in place. *)
Definition redeploy_post (instanceID : string) (i : Instance) (s0 : Store) (r : Response)
    (s' : Store) (tr' : list event) : Prop :=
  upgrades s' = upgrades s0 ∧
  ((r = writeJSON 500 (error_body "Update deployment failed") ∧
    view s' = <[instanceID := i]> (view s0) ∧ disk s' = disk s0) ∨
   ∃ task, r = writeJSON 202 (JObj [("operation", JStr ("update-" +:+ instanceID))]) ∧
     view s' = <[instanceID := redeployed task i]> (view s0) ∧
     deployed_as b (buildManifestParams (config b) i) task tr' ∧ (fs_fine tr' → saved b s')).

Lemma redeploy_wp instanceID params l i s0 s1 tr :
  wf s1 → instances s1 !! instanceID = Some l → heap s1 !! l = Some i →
  params = buildManifestParams (config b) i →
  view s1 = <[instanceID := i]> (view s0) → upgrades s1 = upgrades s0 → disk s1 = disk s0 →
  wp (r ⇐ render_and_deploy b params "Update deployment failed";
      match r with
      | Err resp => Ret resp
      | Ok taskID =>
          writes (update l (redeployed taskID)) >>>
          saveState b >>>
          Ret (writeJSON 202 (JObj [("operation", JStr ("update-" +:+ instanceID))]))
      end) s1 tr (redeploy_post instanceID i s0).
Proof.
  intros Hw Hl Hi -> Hv Hu Hd. apply wp_bind. eapply wp_mono, render_and_deploy_wp.
  intros [task|resp] s2 tr2 [H2 Hdep]; cbn [bind writes wp].

  - rewrite (update_put l _ i) by by rewrite (same_heap _ _ H2).
    apply wp_bind. eapply wp_mono, wp_and, saveState_wp; [|apply wp_extends|].
    + intros [] s4 tr4 [Hpre [[d ->] Hsaved]]. split; [by trans (upgrades s2); [|rewrite (same_upgrades _ _ H2)]|].
      right. exists task. split_and!; [done| |by eapply deployed_as_mono|done].
      trans (view (put l (redeployed task i) s2)); [done|].
      rewrite <- H2, (view_put s1 instanceID l), Hv by done. by rewrite insert_insert_eq.
    + simpl. rewrite (same_disk _ _ H2). apply Hw.
  - subst resp. split; [by rewrite (same_upgrades _ _ H2)|]. left.
    split_and!; [done|by rewrite <- H2|by rewrite (same_disk _ _ H2)].
Qed.

(** The handler on a request that reaches the critical section. *)
Lemma Update_wp instanceID rq s tr :
  wf s →
  wp (Update b instanceID "true" (Some rq)) s tr (fun r s' tr' =>
    match view s !! instanceID with
    | Some i =>
        match replan b (UpdateRequest.PlanID rq) i with
        | Some i' => redeploy_post instanceID i' s r s' tr'
        | None => r = writeJSON 400 (error_body "Unknown plan") ∧ s' = s
        end
    | None =>
        match recovery_plan b (UpdateRequest.PlanID rq) with
        | Some plan => ∃ tok seed, drawn "oc_tok_" tok ∧ drawn "seed_" seed ∧
            redeploy_post instanceID (recovered_instance b instanceID plan tok seed) s r s' tr'
        | None => r = writeJSON 400 (error_body "Unknown plan") ∧ s' = s
        end
    end).
Proof.
  intros Hw. unfold Update. cbn [negb String.eqb Ascii.eqb Bool.eqb]. intros bs Hbs.
  cbn [bind locked wp]. unfold prepare_update. unfold recovery_generators in Hbs |- *.
  destruct (instances s !! instanceID) as [l|] eqn:El.
  - destruct (wf_lookup s instanceID l Hw El) as (i & Hi & -> & -> & Hr).
    destruct (replan b _ i) as [i'|] eqn:Er; cbn [fst snd]; [|done].
    apply redeploy_wp; try done.
    + eapply evolves_wf, evolves_put; [done..|by eapply replan_identity].
    + by eapply heap_put.
    + by apply view_put.
  - rewrite (proj2 (view_None s instanceID Hw)) by done.
    destruct (recovery_plan b _) as [plan|] eqn:Ep; cbn [fst snd]; [|done].
    destruct (generated_drawn bs Hbs) as [Htok Hseed].
    set (i := recovered_instance _ _ _ _ _).
    eapply wp_mono; [|apply (redeploy_wp instanceID _ _ i s); try done].
    + intros r s' tr' H. eexists _, _. split_and!; [exact Htok|exact Hseed|done].
    + by eapply evolves_wf, evolves_reserve.
    + apply lookup_insert_eq.
    + simpl. by rewrite lookup_app_r, Nat.sub_diag.
    + by apply view_reserve.
Qed.
End UpdateFacts.

(** * Properties *)

Section Properties.
Context (b : Broker) `{!GoodBroker b}.


(** C32. Updating an unknown instance never fails for want of a plan: it files a
    recovery record under the id, in state provisioning with fresh credentials,
    the owner recovered and the requested plan or else the first one, and deploys
    it. If that deploy fails the record stays, with no task to wait for. *)
Theorem Update_recovers instanceID rq s tr :
  wf s → view s !! instanceID = None →
  wp (Update b instanceID "true" (Some rq)) s tr (fun r s' tr' =>
    ∃ plan tok seed, recovery_plan b (UpdateRequest.PlanID rq) = Some plan ∧
      plan ∈ plans_of (config b) ∧ drawn "oc_tok_" tok ∧ drawn "seed_" seed ∧
      let i := recovered_instance b instanceID plan tok seed in
      (status r = 500%Z ∧ view s' = <[instanceID := i]> (view s)) ∨
      (status r = 202%Z ∧ ∃ task, view s' = <[instanceID := redeployed task i]> (view s) ∧
         deployed_as b (buildManifestParams (config b) i) task tr')).
Proof.
  intros Hw Hi. eapply wp_mono, Update_wp, Hw. intros r s' tr'. rewrite Hi.
  destruct (recovery_plan_some b (UpdateRequest.PlanID rq)) as (plan & -> & Hin).
  intros (tok & seed & Ht & Hs & _ & [(-> & Hv & _)|(task & -> & Hv & Hdep & _)]);
    exists plan, tok, seed; (split_and!; [done..|]); [by left|right]. eauto.
Qed.
End Properties.

Definition demo_update : UpdateRequest :=
  {| UpdateRequest.ServiceID := "openclaw-service"; UpdateRequest.PlanID := "openclaw-team-plan";
     UpdateRequest.Parameters := ∅ |}.


Lemma Update_recovers_witness :
  wf demo_store ∧ view demo_store !! "i-9" = None ∧
  wp (Update demo_broker "i-9" "true" (Some demo_update)) demo_store [] (fun r s' _ =>
    ∃ i, view s' !! "i-9" = Some i ∧ Instance.Owner i = "recovered" ∧ Instance.State i = "provisioning").
Proof.
  split_and!; [exact demo_wf|reflexivity|].
  eapply wp_mono, (Update_recovers demo_broker "i-9" demo_update demo_store [] demo_wf eq_refl).
  intros r s' tr' (plan & tok & seed & _ & _ & _ & _ & [[_ ->]|(_ & task & -> & _)]);
    rewrite lookup_insert_eq; eexists; split_and!; reflexivity.
Defined.

(** The lines of the manifests handed to the director. *)
Definition deployed_lines (tr : list event) : list string :=
  tr ≫= (fun e =>
    match e with
    | EvHttp rq _ =>
        match rq_body rq with
        | TextBody m => if requested "POST" e then split_on lf m else []
        | _ => []
        end
    | _ => []
    end).

(** Update does not validate the instance id: an id that Provision refuses
    because of a line break is accepted, and what follows the break is a line of
    its own, at the top level, of the manifest sent to the director. *)
Theorem Update_injects :
  ∃ id, Hostname.validInstanceID id = false ∧
    let '(r, _, tr') := run (demo_oracle 302 302 "done")
      (Update demo_broker id "true" (Some demo_update)) demo_store [] in
    status r = 202%Z ∧ existsb (String.eqb "director_uuid: evil") (deployed_lines tr') = true.
Proof.
  exists ("x" +:+ String lf "director_uuid: evil"). vm_compute. by split_and!.
Qed.
