(* ===== verification/Deprovision.v ===== *)
(** * Package broker, deprovision.go: deleting an instance *)

From S2P Require Import Prelude GoStrings Json Encoding Prog Tokens BoshClient UaaClient Broker StateFile Store Provision Update.

Module DeprovisionResponse.
Record DeprovisionResponse : Type := { Operation : string }.
End DeprovisionResponse.
Notation DeprovisionResponse := DeprovisionResponse.DeprovisionResponse.

Definition deprovision_json (r : DeprovisionResponse) : json :=
  JObj (omitempty "operation" (DeprovisionResponse.Operation r)).

Section Deprovision.
Context (b : Broker).

(** Best effort: errors are logged only. *)
Definition deleteUAAClient (instanceID : string) : prog Store unit :=
  match uaaClient b with
  | None => Ret tt
  | Some uaa => Prog.DeleteClient (Tokens.ClientIDForInstance instanceID) >>> Ret tt
  end.

(** The record filed for a deployment the broker has no memory of. *)
Definition orphan_instance (instanceID : string) : Instance :=
  {| Instance.ID := instanceID; Instance.PlanID := ""; Instance.PlanName := "";
     Instance.Owner := ""; Instance.OrgGUID := ""; Instance.SpaceGUID := "";
     Instance.DeploymentName := deploymentName instanceID; Instance.GatewayToken := "";
     Instance.NodeSeed := ""; Instance.RouteHostname := ""; Instance.AppsDomain := "";
     Instance.VMType := ""; Instance.DiskType := ""; Instance.State := "deprovisioning";
     Instance.BoshTaskID := 0; Instance.SSOEnabled := false; Instance.SSOClientID := "";
     Instance.SSOClientSecret := ""; Instance.SSOCookieSecret := "";
     Instance.OpenClawVersion := "" |}.

(** What the critical section found: nothing, a deletion under way, or an
    instance, with its location, previous state and deployment name. *)
Inductive Found : Type :=
| Orphan (l : nat)
| Already
| Known (l : nat) (previousState deployment : string).

Definition mark_deprovisioning (instanceID : string) (s : Store) : Store * Found :=
  match instances s !! instanceID with
  | None => (reserve instanceID (orphan_instance instanceID) s, Orphan (length (heap s)))
  | Some l =>
      let i := deref l s in
      if String.eqb (Instance.State i) "deprovisioning" then (s, Already)
      else (update l (Instance.set_State "deprovisioning") s,
            Known l (Instance.State i) (Instance.DeploymentName i))
  end.

Definition deprovision_response (instanceID : string) : Response :=
  writeJSON 202 (deprovision_json
    {| DeprovisionResponse.Operation := "deprovision-" +:+ instanceID |}).

(** The part both branches share: delete the client and the deployment; on
    success record the task and save, on failure undo and answer. *)
Definition delete_deployment (instanceID deployment : string) (l : nat)
    (undo : Store → Store) (failed : Response) : prog Store Response :=
  deleteUAAClient instanceID >>>
  (r ⇐ @DeleteDeployment Store (director b) deployment;
   match r with
   | Err _ => writes undo >>> Ret failed
   | Ok taskID =>
       writes (update l (Instance.set_BoshTaskID taskID)) >>>
       saveState b >>>
       Ret (deprovision_response instanceID)
   end).

Definition Deprovision (instanceID accepts : string) : prog Store Response :=
  if negb (String.eqb accepts "true") then Ret AsyncRequired
  else
    found ⇐ atomic (mark_deprovisioning instanceID);
    match found with
    | Orphan l =>
        delete_deployment instanceID (deploymentName instanceID) l (map_delete instanceID)
          (writeJSON 410 (JObj []))
    | Already => Ret (deprovision_response instanceID)
    | Known l previousState deployment =>
        delete_deployment instanceID deployment l (update l (Instance.set_State previousState))
          (writeJSON 500 (error_body "Deprovision failed"))
    end.
End Deprovision.

(** * Proofs *)

Section DeprovisionFacts.
Context (b : Broker) `{!GoodBroker b}.

Lemma deleteUAAClient_same instanceID :
  steps_in (fun _ => True) same (deleteUAAClient b instanceID).
Proof.
  unfold deleteUAAClient. destruct (uaaClient b) as [uaa|] eqn:Hr; [|done].
  pose proof (good_registry uaa Hr). apply steps_in_bind; [apply remove_frame|done].
Qed.

Lemma delete_deployment_steps instanceID n l undo failed :
  (∀ s, evolves s (undo s)) →
  steps_in wf evolves (delete_deployment b instanceID n l undo failed).
Proof.
  intros Hundo. unfold delete_deployment.
  apply steps_in_bind; [apply same_steps, deleteUAAClient_same|]. intros _.
  apply steps_in_bind; [apply (Delete_steps b)|]. intros [task|e].
  - apply steps_in_writes_bind; [auto using evolves_update|].
    apply steps_in_bind; [apply saveState_steps|done].
  - apply steps_in_writes_bind; [auto|done].
Qed.

Lemma mark_evolves instanceID s : evolves s (mark_deprovisioning instanceID s).1.
Proof.
  unfold mark_deprovisioning. destruct (instances s !! instanceID); [|by apply evolves_reserve].
  destruct (String.eqb _ _); [done|]. by apply evolves_update.
Qed.

Lemma Deprovision_steps instanceID accepts : steps_in wf evolves (Deprovision b instanceID accepts).
Proof.
  unfold Deprovision. destruct (negb _); [done|].
  apply steps_in_atomic_bind; [intros s _; apply mark_evolves|]. intros s _.
  destruct (_.2); [apply delete_deployment_steps; auto with store|done|].
  apply delete_deployment_steps. intros s'. by apply evolves_update.
Qed.

(** The shared part, for a record [i] that is in place at [l]. *)
Lemma delete_deployment_wp instanceID n l i undo failed s1 tr :
  wf s1 → instances s1 !! instanceID = Some l → heap s1 !! l = Some i →
  (∀ s', same s1 s' → same (undo s1) (undo s')) →
  wp (delete_deployment b instanceID n l undo failed) s1 tr (fun r s' tr' =>
    (r = failed ∧ same (undo s1) s') ∨
    ∃ task e, r = deprovision_response instanceID ∧ e ∈ tr' ∧ delete_sent b n task e ∧
      view s' = <[instanceID := Instance.set_BoshTaskID task i]> (view s1) ∧
      upgrades s' = upgrades s1 ∧ (fs_fine tr' → saved b s')).
Proof.
  intros Hw Hl Hi Hundo. unfold delete_deployment. apply wp_bind.
  eapply wp_mono, same_wp, deleteUAAClient_same. intros [] s2 tr2 H2.
  apply wp_bind. eapply wp_mono, (Delete_wp b). intros [task|e] s3 tr3 [H3 Hev]; cbn [bind writes wp].
  - assert (H13 : same s1 s3) by by rewrite H2. destruct (Hev task eq_refl) as (tr0 & e & -> & He).
    rewrite (update_put l _ i) by by rewrite (same_heap _ _ H13).
    apply wp_bind. eapply wp_mono, wp_and, saveState_wp; [|apply wp_extends|].
    + intros [] s4 tr4 [[k ->] [[d ->] Hsaved]]. right. exists task, e.
      split_and!; [done|rewrite !elem_of_app, list_elem_of_singleton; auto|done| | |done].
      * trans (view (put l (Instance.set_BoshTaskID task i) s3)); [done|].
        by rewrite <- H13, (view_put s1 instanceID l).
      * trans (upgrades s3); [done|]. by apply same_upgrades.
    + simpl. rewrite (same_disk _ _ H13). apply Hw.
  - left. split; [done|]. apply Hundo. by rewrite H2.
Qed.

Lemma Deprovision_wp instanceID s tr :
  wf s →
  wp (Deprovision b instanceID "true") s tr (fun r s' tr' =>
    match view s !! instanceID with
    | Some i =>
        if String.eqb (Instance.State i) "deprovisioning" then
          r = deprovision_response instanceID ∧ s' = s ∧ tr' = tr
        else
          (r = writeJSON 500 (error_body "Deprovision failed") ∧ same s s') ∨
          ∃ task e, r = deprovision_response instanceID ∧ e ∈ tr' ∧
            delete_sent b (deploymentName instanceID) task e ∧
            view s' = <[instanceID := Instance.set_BoshTaskID task
                          (Instance.set_State "deprovisioning" i)]> (view s) ∧
            upgrades s' = upgrades s ∧ (fs_fine tr' → saved b s')
    | None =>
        (r = writeJSON 410 (JObj []) ∧ view s' = view s ∧ disk s' = disk s) ∨
        ∃ task e, r = deprovision_response instanceID ∧ e ∈ tr' ∧
          delete_sent b (deploymentName instanceID) task e ∧
          view s' = <[instanceID := Instance.set_BoshTaskID task (orphan_instance instanceID)]> (view s) ∧
          upgrades s' = upgrades s ∧ (fs_fine tr' → saved b s')
    end).
Proof.
  intros Hw. unfold Deprovision. cbn [negb String.eqb Ascii.eqb Bool.eqb bind atomic wp].
  unfold mark_deprovisioning. destruct (instances s !! instanceID) as [l|] eqn:El.
  - destruct (wf_lookup s instanceID l Hw El) as (i & Hi & -> & -> & [_ Hn]).
    destruct (String.eqb _ _) eqn:Es; cbn [fst snd]; [done|].
    rewrite (update_put l _ i), Hn by done. set (i1 := Instance.set_State "deprovisioning" i).
    assert (Hi1 : heap (put l i1 s) !! l = Some i1) by by eapply heap_put.
    eapply wp_mono; [|eapply (delete_deployment_wp instanceID _ l i1); try done].
    + intros r s' tr' [[-> Hs]|(task & e & -> & He & Hd & Hv & Hu & Hsv)]; [left|right].
      * split; [done|]. rewrite <- Hs, (update_put l _ i1), put_put by done.
        replace (Instance.set_State _ i1) with i by by destruct i. by rewrite put_id.
      * exists task, e. split_and!; [done..| |done|done].
        rewrite Hv, (view_put s instanceID l) by done. by rewrite insert_insert_eq.
    + by eapply evolves_wf, evolves_put.
    + intros s' H. rewrite (update_put l _ i1), (update_put l _ i1 s') by
        (done || by rewrite (same_heap _ _ H)). by rewrite H.
  - rewrite (proj2 (view_None s instanceID Hw)) by done. cbn [fst snd].
    set (i := orphan_instance instanceID).
    assert (Hv : view (reserve instanceID i s) = <[instanceID := i]> (view s)) by by apply view_reserve.
    eapply wp_mono; [|eapply (delete_deployment_wp instanceID _ _ i)].
    + intros r s' tr' [[-> Hs]|(task & e & -> & He & Hd & Hv' & Hu & Hsv)]; [left|right].
      * split_and!; [done| |by rewrite (same_disk _ _ Hs)].
        rewrite <- Hs, view_map_delete, Hv, delete_insert_id by by apply view_None. done.
      * exists task, e. split_and!; [done..| |done|done]. by rewrite Hv', Hv, insert_insert_eq.
    + by eapply evolves_wf, evolves_reserve.
    + apply lookup_insert_eq.
    + simpl. by rewrite lookup_app_r, Nat.sub_diag.
    + intros s' H. by rewrite H.
Qed.
End DeprovisionFacts.

(** * Properties *)

Section Properties.
Context (b : Broker) `{!GoodBroker b}.

(** C17. Deprovisioning an instance that is not being deleted either succeeds (202):
    the director accepted the deletion of exactly its deployment, and the instance
    is in state deprovisioning under that task, hence counted no more; or fails
    (500) and the instances are exactly what they were. *)
Theorem Deprovision_known instanceID i s tr :
  wf s → view s !! instanceID = Some i → Instance.State i ≠ "deprovisioning" →
  wp (Deprovision b instanceID "true") s tr (fun r s' tr' =>
    (status r = 500%Z ∧ view s' = view s ∧ disk s' = disk s) ∨
    (status r = 202%Z ∧ ∃ task e i', e ∈ tr' ∧ delete_sent b (Instance.DeploymentName i) task e ∧
       view s' = <[instanceID := i']> (view s) ∧ Instance.State i' = "deprovisioning" ∧
       Instance.BoshTaskID i' = task ∧ identity i' = identity i ∧
       count_view active (view s') = count_view active (view s) - 1)%Z).
Proof.
  intros Hw Hi Hst. eapply wp_mono, Deprovision_wp, Hw. intros r s' tr'. rewrite Hi.
  rewrite (proj2 (String.eqb_neq _ _)) by done.
  intros [[-> Hs]|(task & e & -> & He & Hd & Hv & _)]; [left|right].
  - by rewrite <- Hs.
  - split; [done|]. destruct (view_record_ok s instanceID i Hw Hi) as [_ Hn]. rewrite <- Hn in Hd.
    eexists task, e, _. split_and!; [done..|exact Hv|done|done|done|].
    rewrite Hv. apply (count_view_replace active _ _ i); [done|by apply negb_true_iff, String.eqb_neq|done].
Qed.

(** While an instance is being deleted, deprovisioning it again is answered
    202 at once and does nothing: no request is sent and nothing changes, whether
    the deletion is still running or its task has failed. *)
Theorem Deprovision_idempotent instanceID i s tr :
  wf s → view s !! instanceID = Some i → Instance.State i = "deprovisioning" →
  wp (Deprovision b instanceID "true") s tr (fun r s' tr' =>
    status r = 202%Z ∧ s' = s ∧ tr' = tr).
Proof.
  intros Hw Hi Hst. eapply wp_mono, Deprovision_wp, Hw. intros r s' tr'. rewrite Hi, Hst.
  by intros (-> & -> & ->).
Qed.

End Properties.

Lemma Deprovision_known_witness :
  wf demo_store ∧
  let '(r, s', tr') := run (demo_oracle 302 302 "done") (Deprovision demo_broker "i-1" "true") demo_store [] in
  status r = 202%Z ∧ ∃ i', view s' !! "i-1" = Some i' ∧ Instance.State i' = "deprovisioning".
Proof.
  split; [exact demo_wf|].
  assert (Hst : Instance.State demo_instance ≠ "deprovisioning") by discriminate.
  pose proof (wp_run (demo_oracle 302 302 "done") _ _ _ _
    (Deprovision_known demo_broker "i-1" demo_instance demo_store [] demo_wf eq_refl Hst)) as H.
  assert (Hr : status (run (demo_oracle 302 302 "done")
    (Deprovision demo_broker "i-1" "true") demo_store []).1.1 = 202%Z) by (vm_compute; reflexivity).
  destruct (run _ _ _ _) as [[r s'] tr']. cbn [fst snd] in Hr. split; [exact Hr|].
  destruct H as [[H5 _]|(_ & task & e & i' & _ & _ & -> & Hs & _)]; [congruence|].
  exists i'. rewrite lookup_insert_eq. split; [reflexivity|exact Hs].
Defined.

(** The demonstration store while its instance is being deleted. *)
Definition deleting_store : Store := update 0 (Instance.set_State "deprovisioning") demo_store.

Lemma deleting_wf : wf deleting_store.
Proof. eapply evolves_wf, evolves_update; [exact demo_wf|done]. Qed.

Lemma Deprovision_idempotent_witness :
  wf deleting_store ∧
  wp (Deprovision demo_broker "i-1" "true") deleting_store [] (fun r s' tr' =>
    status r = 202%Z ∧ s' = deleting_store ∧ tr' = []).
Proof.
  split; [exact deleting_wf|].
  apply (Deprovision_idempotent demo_broker "i-1"
    (Instance.set_State "deprovisioning" demo_instance) deleting_store []);
    [exact deleting_wf|reflexivity|reflexivity].
Defined.

