(* ===== verification/LastOperation.v ===== *)
(** * Package broker, last_operation.go: polling an operation *)

From S2P Require Import Prelude GoStrings Json Encoding Prog Tokens BoshClient UaaClient Broker StateFile Store Provision Update Deprovision.

Section LastOperation.
Context (b : Broker).

(** A LastOperationResponse: the state, and a description. *)
Definition operation_response (state description : string) : Response :=
  writeJSON 200 (JObj [("state", JStr state); ("description", JStr description)]).

Definition in_progress (description : string) : Response := operation_response "in progress" description.
Definition succeeded (description : string) : Response := operation_response "succeeded" description.
Definition failed (description : string) : Response := operation_response "failed" description.

(** The state of the task; an error is logged and counts as the empty state. *)
Definition task_state (taskID : Z) : prog Store string :=
  r ⇐ @TaskStatus Store (director b) taskID;
  Ret (match r with Ok state => state | Err _ => "" end).

Definition task_failed (taskState : string) : bool :=
  String.eqb taskState "error" || String.eqb taskState "cancelled".

(** Under the read lock: location, state and task id of the instance. *)
Definition poll (instanceID : string) (s : Store) : option (nat * string * Z) :=
  match instances s !! instanceID with
  | None => None
  | Some l => Some (l, Instance.State (deref l s), Instance.BoshTaskID (deref l s))
  end.

Definition LastOperation (instanceID : string) : prog Store Response :=
  found ⇐ reads (poll instanceID);
  match found with
  | None => Ret (writeJSON 404 (error_body "Instance not found"))
  | Some (l, state, taskID) =>
      if String.eqb state "provisioning" then
        if (taskID =? 0)%Z then Ret (in_progress "Waiting for deployment task...")
        else
          taskState ⇐ task_state taskID;
          if String.eqb taskState "done" then
            writes (update l (Instance.set_State "ready")) >>> saveState b >>>
            Ret (succeeded "Agent ready")
          else if task_failed taskState then
            writes (update l (Instance.set_State "failed")) >>> saveState b >>>
            Ret (failed "BOSH deployment failed")
          else Ret (in_progress "Deploying agent VM...")
      else if String.eqb state "deprovisioning" then
        if (taskID =? 0)%Z then Ret (in_progress "Waiting for delete task...")
        else
          taskState ⇐ task_state taskID;
          if String.eqb taskState "done" then
            writes (map_delete instanceID) >>> saveState b >>>
            Ret (succeeded "Agent deprovisioned")
          else if task_failed taskState then Ret (failed "Deprovision failed")
          else Ret (in_progress "Deprovisioning agent VM...")
      else if String.eqb state "ready" then Ret (succeeded "Agent ready")
      else if String.eqb state "failed" then Ret (failed "Deployment failed")
      else Ret (in_progress "Processing...")
  end.
End LastOperation.

(** * Proofs *)

Section LastOperationFacts.
Context (b : Broker) `{!GoodBroker b}.

Lemma task_state_steps t : steps_in wf evolves (task_state b t).
Proof. apply steps_in_bind; [apply (Status_steps b)|done]. Qed.

Lemma finish_steps f (r : Response) : (∀ s, evolves s (f s)) →
  steps_in wf evolves (writes f >>> saveState b >>> Ret r).
Proof.
  intros Hf. apply steps_in_writes_bind; [auto|]. apply steps_in_bind; [apply saveState_steps|done].
Qed.

Lemma LastOperation_steps instanceID : steps_in wf evolves (LastOperation b instanceID).
Proof.
  unfold LastOperation. apply steps_in_reads_bind; [done|]. intros s _.
  destruct (poll instanceID s) as [[[l st] t]|]; [|done].
  repeat (destruct (String.eqb st _); [|try done]); try done;
    (destruct (t =? 0)%Z; [done|]); (apply steps_in_bind; [apply task_state_steps|]);
    intros ts; repeat (case_match; try done);
    apply finish_steps; intros s'; first [by apply evolves_update | apply evolves_map_delete].
Qed.

(** The task state is backed by the director unless it is empty. *)
Definition reported (t : Z) (ts : string) (tr : list event) : Prop :=
  ts = "" ∨ ∃ e, e ∈ tr ∧ status_sent b t ts e.

Lemma reported_mono t ts tr tr' : tr `prefix_of` tr' → reported t ts tr → reported t ts tr'.
Proof. intros [k ->] [?|(e & He & ?)]; [by left|right]. exists e. rewrite elem_of_app. auto. Qed.

Lemma task_state_wp t s tr :
  wp (task_state b t) s tr (fun ts s' tr' => same s s' ∧ reported t ts tr').
Proof.
  unfold task_state. apply wp_bind. eapply wp_mono, (Status_wp b). intros [ts|e] s' tr' [Hs Hev].
  - split; [done|]. right. destruct (Hev ts eq_refl) as (tr0 & e & -> & He). exists e.
    rewrite elem_of_app, list_elem_of_singleton. auto.
  - split; [done|by left].
Qed.

Lemma finish_wp f (r : Response) s0 s tr :
  disk_ok (disk s0) → same (f s0) (f s) → disk (f s0) = disk s0 → upgrades (f s0) = upgrades s0 →
  wp (writes f >>> saveState b >>> Ret r) s tr (fun r' s' tr' =>
    r' = r ∧ view s' = view (f s0) ∧ upgrades s' = upgrades s0 ∧ (fs_fine tr' → saved b s') ∧
    tr `prefix_of` tr').
Proof.
  intros Hd Hs Hf Hu. cbn [bind writes wp]. apply wp_bind.
  eapply wp_mono, wp_and, saveState_wp; [|apply wp_extends|by rewrite <- Hs, Hf].
  intros [] s' tr' [Hpre [[d ->] Hsv]]. split_and!; [done| | |done|done].
  - trans (view (f s)); [done|]. by rewrite Hs.
  - trans (upgrades (f s)); [done|]. by rewrite <- Hs.
Qed.

(** An operation is under way: there is a task to ask the director about. *)
Definition under_way (i : Instance) : bool :=
  (String.eqb (Instance.State i) "provisioning" || String.eqb (Instance.State i) "deprovisioning")
  && negb (Instance.BoshTaskID i =? 0)%Z.

(** The answer for an instance that needs no request. *)
Definition settled (i : Instance) : Response :=
  if String.eqb (Instance.State i) "provisioning" then in_progress "Waiting for deployment task..."
  else if String.eqb (Instance.State i) "deprovisioning" then in_progress "Waiting for delete task..."
  else if String.eqb (Instance.State i) "ready" then succeeded "Agent ready"
  else if String.eqb (Instance.State i) "failed" then failed "Deployment failed"
  else in_progress "Processing...".

(** The answer, and what becomes of the instance, once the task state is known. *)
Definition polled (i : Instance) (taskState : string) : Response * option Instance :=
  if String.eqb (Instance.State i) "provisioning" then
    if String.eqb taskState "done" then (succeeded "Agent ready", Some (Instance.set_State "ready" i))
    else if task_failed taskState then
      (failed "BOSH deployment failed", Some (Instance.set_State "failed" i))
    else (in_progress "Deploying agent VM...", Some i)
  else
    if String.eqb taskState "done" then (succeeded "Agent deprovisioned", None)
    else if task_failed taskState then (failed "Deprovision failed", Some i)
    else (in_progress "Deprovisioning agent VM...", Some i).

Lemma LastOperation_wp instanceID s tr :
  wf s →
  wp (LastOperation b instanceID) s tr (fun r s' tr' =>
    match view s !! instanceID with
    | None => r = writeJSON 404 (error_body "Instance not found") ∧ s' = s ∧ tr' = tr
    | Some i =>
        if under_way i then
          ∃ ts, reported (Instance.BoshTaskID i) ts tr' ∧
            r = (polled i ts).1 ∧
            view s' = partial_alter (fun _ => (polled i ts).2) instanceID (view s) ∧
            upgrades s' = upgrades s
        else r = settled i ∧ s' = s ∧ tr' = tr
    end).
Proof.
  intros Hw. unfold LastOperation. apply wp_bind. cbn [reads wp]. unfold poll.
  destruct (instances s !! instanceID) as [l|] eqn:El;
    [|by rewrite (proj2 (view_None s instanceID Hw)) by done].
  destruct (wf_lookup s instanceID l Hw El) as (i & Hi & -> & Hvi & _). rewrite Hvi.
  pose proof (lookup_alter_id _ _ _ Hvi) as Hid.
  unfold under_way, settled, polled.
  destruct (String.eqb (Instance.State i) "provisioning") eqn:E1; [|
    destruct (String.eqb (Instance.State i) "deprovisioning") eqn:E2]; cbn [orb andb];
    [| |by repeat case_match];
    (destruct (Instance.BoshTaskID i =? 0)%Z eqn:E3; cbn [negb]; [done|]);
    apply wp_bind; (eapply wp_mono, task_state_wp); intros ts s2 tr2 [H2 Hev].
  - destruct (String.eqb ts "done") eqn:E4; [|destruct (task_failed ts) eqn:E5].
    + eapply wp_mono; [|apply (finish_wp _ _ s); [apply Hw|by apply update_same|done..]].
      intros r s' tr' (-> & -> & -> & _ & Hpre). exists ts. rewrite ?E4, ?E5. cbn [fst snd]. split_and!; [by eapply reported_mono|done| |done].
      by rewrite (update_put l _ i), (view_put s instanceID l).
    + eapply wp_mono; [|apply (finish_wp _ _ s); [apply Hw|by apply update_same|done..]].
      intros r s' tr' (-> & -> & -> & _ & Hpre). exists ts. rewrite ?E4, ?E5. cbn [fst snd]. split_and!; [by eapply reported_mono|done| |done].
      by rewrite (update_put l _ i), (view_put s instanceID l).
    + exists ts. rewrite ?E4, ?E5. cbn [fst snd]. split_and!; [done..|by rewrite <- H2, Hid|by rewrite <- H2].
  - destruct (String.eqb ts "done") eqn:E4; [|destruct (task_failed ts) eqn:E5].
    + eapply wp_mono; [|apply (finish_wp _ _ s); [apply Hw|by apply map_delete_same|done..]].
      intros r s' tr' (-> & -> & -> & _ & Hpre). exists ts. rewrite ?E4, ?E5. cbn [fst snd]. split_and!; [by eapply reported_mono|done| |done].
      by rewrite view_map_delete.
    + exists ts. rewrite ?E4, ?E5. cbn [fst snd]. split_and!; [done..|by rewrite <- H2, Hid|by rewrite <- H2].
    + exists ts. rewrite ?E4, ?E5. cbn [fst snd]. split_and!; [done..|by rewrite <- H2, Hid|by rewrite <- H2].
Qed.
End LastOperationFacts.

(** * Properties *)

Section Properties.
Context (b : Broker) `{!GoodBroker b}.


(** Otherwise no request is sent and nothing changes: an unknown id is 404, an
    operation whose task is not known yet is in progress, a ready instance has
    succeeded and a failed one has failed. *)
Theorem LastOperation_settled instanceID s tr :
  wf s → (∀ i, view s !! instanceID = Some i → under_way i = false) →
  wp (LastOperation b instanceID) s tr (fun r s' tr' => s' = s ∧ tr' = tr ∧
    match Instance.State <$> view s !! instanceID with
    | None => status r = 404%Z
    | Some st =>
        ∃ description, r = operation_response
          (if String.eqb st "ready" then "succeeded" else if String.eqb st "failed" then "failed"
           else "in progress") description
    end).
Proof.
  intros Hw Hu. eapply wp_mono, LastOperation_wp, Hw. intros r s' tr'.
  destruct (view s !! instanceID) as [i|]; simpl; [|by intros (-> & -> & ->)].
  rewrite (Hu i eq_refl). intros (-> & -> & ->). split_and!; [done..|]. unfold settled.
  destruct (String.eqb_spec (Instance.State i) "provisioning") as [->|]; [by eexists|].
  destruct (String.eqb_spec (Instance.State i) "deprovisioning") as [->|]; [by eexists|].
  destruct (String.eqb _ "ready"); [by eexists|]. destruct (String.eqb _ "failed"); by eexists.
Qed.
End Properties.

(** The demonstration store while a deletion runs as task 43. *)
Definition deleting_task_store : Store := update 0 (Instance.set_BoshTaskID 43) deleting_store.

Lemma deleting_task_wf : wf deleting_task_store.
Proof. eapply evolves_wf, evolves_update; [exact deleting_wf|done]. Qed.


Lemma LastOperation_settled_witness :
  wf demo_store ∧
  wp (LastOperation demo_broker "i-1") demo_store [] (fun r s' tr' =>
    s' = demo_store ∧ tr' = [] ∧ ∃ description, r = operation_response "succeeded" description).
Proof.
  split; [exact demo_wf|].
  apply (LastOperation_settled demo_broker "i-1" demo_store [] demo_wf).
  intros i H. vm_compute in H. injection H as <-. reflexivity.
Defined.
