(* ===== verification/Binding.v ===== *)
(** * Package broker, binding.go: credentials of an instance *)

From S2P Require Import Prelude GoStrings Json Prog BoshClient UaaClient Broker StateFile Store LastOperation.

Module BindResponse.
Record BindResponse : Type := { Credentials : json }.
End BindResponse.
Notation BindResponse := BindResponse.BindResponse.

Definition bind_json (r : BindResponse) : json := JObj [("credentials", BindResponse.Credentials r)].

Section Binding.
Context (b : Broker).

(** The credentials, in the key order encoding/json writes a map in. *)
Definition credentials (i : Instance) : json :=
  let base := "https://" +:+ Instance.RouteHostname i +:+ "." +:+ Instance.AppsDomain i in
  JObj [("api_endpoint", JStr (base +:+ "/api"));
        ("api_token", JStr (Instance.GatewayToken i));
        ("dashboard_url", JStr (base +:+ "?token=" +:+ Instance.GatewayToken i));
        ("instance_id", JStr (Instance.ID i));
        ("node_seed", JStr (Instance.NodeSeed i));
        ("openclaw_version", JStr (Instance.OpenClawVersion i));
        ("owner", JStr (Instance.Owner i));
        ("plan", JStr (Instance.PlanName i));
        ("sso_enabled", JBool (Instance.SSOEnabled i))].

(** The read-only critical section, and the response. *)
Definition bind_response (instanceID : string) (s : Store) : Response :=
  match instances s !! instanceID with
  | None => writeJSON 404 (error_body "Instance not found")
  | Some l =>
      let i := deref l s in
      if negb (String.eqb (Instance.State i) "ready") then
        writeJSON 422 (error_body "Instance not ready")
      else writeJSON 201 (bind_json {| BindResponse.Credentials := credentials i |})
  end.

(** The body of the request is not read. *)
Definition Bind (instanceID : string) : prog Store Response := reads (bind_response instanceID).

Definition Unbind : prog Store Response := Ret (writeJSON 200 (JObj [])).
End Binding.

Lemma Bind_steps instanceID : steps_in wf evolves (Bind instanceID).
Proof. by apply steps_in_reads. Qed.

(** Credentials are only handed out for a ready instance: 404 for an unknown
    id, 422 for an instance in any other state, else 201 with the gateway token
    of that very instance; never a request, never a change. *)
Theorem Bind_spec instanceID s tr :
  wf s →
  wp (Bind instanceID) s tr (fun r s' tr' => s' = s ∧ tr' = tr ∧
    match view s !! instanceID with
    | None => status r = 404%Z
    | Some i =>
        (Instance.State i = "ready" ∧ status r = 201%Z ∧ body r = JObj [("credentials", credentials i)]) ∨
        (Instance.State i ≠ "ready" ∧ status r = 422%Z ∧ body r = error_body "Instance not ready")
    end).
Proof.
  intros Hw. simpl. split_and!; [done..|]. unfold bind_response.
  destruct (instances s !! instanceID) as [l|] eqn:El;
    [|by rewrite (proj2 (view_None s instanceID Hw)) by done].
  destruct (wf_lookup s instanceID l Hw El) as (i & _ & -> & -> & _).
  destruct (String.eqb_spec (Instance.State i) "ready"); simpl; auto.
Qed.

Lemma Bind_spec_witness :
  wf demo_store ∧
  wp (Bind "i-1") demo_store [] (fun r s' tr' =>
    status r = 201%Z ∧ body r = JObj [("credentials", credentials demo_instance)]).
Proof.
  split; [exact demo_wf|].
  eapply wp_mono, (Bind_spec "i-1" demo_store [] demo_wf).
  intros r s' tr' (_ & _ & [(_ & Hr)|(Hs & _)]); [exact Hr|].
  exfalso. apply Hs. reflexivity.
Defined.
