(* ===== verification/Catalog.v ===== *)
(** * Package broker, catalog.go and icon.go: the service catalog *)

From S2P Require Import Prelude GoStrings Json Encoding Prog Tokens Manifest BoshClient UaaClient Broker StateFile Store.

(** ** icon.go *)

(** The SVG source, with backquotes for its double quotes. *)
Definition iconSVG : string := Manifest.raw
"<svg xmlns=`http://www.w3.org/2000/svg` viewBox=`0 0 256 256` width=`256` height=`256`>
  <!-- Background circle -->
  <circle cx=`128` cy=`128` r=`120` fill=`#1a1a2e`/>
  <circle cx=`128` cy=`128` r=`112` fill=`#16213e`/>

  <!-- Left claw arm -->
  <path d=`M88 180 L88 120 Q88 100 78 85 L60 58 Q55 50 62 46 Q69 42 74 50 L98 88 Q105 100 105 115 L105 180`
        fill=`#c0392b` stroke=`#e74c3c` stroke-width=`2` stroke-linejoin=`round`/>

  <!-- Right claw arm -->
  <path d=`M168 180 L168 120 Q168 100 178 85 L196 58 Q201 50 194 46 Q187 42 182 50 L158 88 Q151 100 151 115 L151 180`
        fill=`#c0392b` stroke=`#e74c3c` stroke-width=`2` stroke-linejoin=`round`/>

  <!-- Left pincer (upper jaw) -->
  <path d=`M60 58 Q50 42 38 38 Q28 35 30 45 Q32 55 45 60 L60 58 Z`
        fill=`#e74c3c` stroke=`#ff6b6b` stroke-width=`1.5`/>

  <!-- Left pincer (lower jaw) -->
  <path d=`M60 58 Q48 62 40 72 Q34 80 44 78 Q54 76 60 66 L60 58 Z`
        fill=`#d63031` stroke=`#ff6b6b` stroke-width=`1.5`/>

  <!-- Right pincer (upper jaw) -->
  <path d=`M196 58 Q206 42 218 38 Q228 35 226 45 Q224 55 211 60 L196 58 Z`
        fill=`#e74c3c` stroke=`#ff6b6b` stroke-width=`1.5`/>

  <!-- Right pincer (lower jaw) -->
  <path d=`M196 58 Q208 62 216 72 Q222 80 212 78 Q202 76 196 66 L196 58 Z`
        fill=`#d63031` stroke=`#ff6b6b` stroke-width=`1.5`/>

  <!-- Central body -->
  <rect x=`96` y=`110` rx=`8` ry=`8` width=`64` height=`80` fill=`#c0392b` stroke=`#e74c3c` stroke-width=`2`/>

  <!-- AI `eye` / sensor -->
  <circle cx=`128` cy=`140` r=`18` fill=`#1a1a2e` stroke=`#e74c3c` stroke-width=`2`/>
  <circle cx=`128` cy=`140` r=`10` fill=`#00d2ff`/>
  <circle cx=`128` cy=`140` r=`5` fill=`#ffffff` opacity=`0.9`/>

  <!-- Circuit lines on body -->
  <line x1=`108` y1=`168` x2=`118` y2=`168` stroke=`#ff6b6b` stroke-width=`1.5` opacity=`0.6`/>
  <line x1=`138` y1=`168` x2=`148` y2=`168` stroke=`#ff6b6b` stroke-width=`1.5` opacity=`0.6`/>
  <line x1=`108` y1=`176` x2=`148` y2=`176` stroke=`#ff6b6b` stroke-width=`1.5` opacity=`0.6`/>

  <!-- Joint details -->
  <circle cx=`88` cy=`120` r=`5` fill=`#e74c3c` stroke=`#ff6b6b` stroke-width=`1`/>
  <circle cx=`168` cy=`120` r=`5` fill=`#e74c3c` stroke=`#ff6b6b` stroke-width=`1`/>

  <!-- Base / platform feet -->
  <rect x=`82` y=`188` rx=`4` ry=`4` width=`92` height=`16` fill=`#922b21` stroke=`#c0392b` stroke-width=`1.5`/>
  <rect x=`90` y=`202` rx=`3` ry=`3` width=`76` height=`10` fill=`#7b241c` stroke=`#922b21` stroke-width=`1`/>
</svg>".

Definition IconDataURI : string := "data:image/svg+xml;base64," +:+ EncodeToString StdEncoding iconSVG.

(** ** catalog.go *)

Module ServicePlan.
Record ServicePlan : Type := {
  ID : string;
  Name : string;
  Description : string;
  Free : bool;
  Metadata : gmap string json;
}.
End ServicePlan.
Notation ServicePlan := ServicePlan.ServicePlan.

Module Service.
Record Service : Type := {
  ID : string;
  Name : string;
  Description : string;
  Bindable : bool;
  PlanUpdatable : bool;
  InstancesRetrievable : bool;
  BindingsRetrievable : bool;
  Plans : list ServicePlan;
  Metadata : list (string * json);
  Tags : list string;
}.
End Service.
Notation Service := Service.Service.

Module CatalogResponse.
Record CatalogResponse : Type := { Services : list Service }.
End CatalogResponse.
Notation CatalogResponse := CatalogResponse.CatalogResponse.

Definition service_plan (p : Plan) : ServicePlan :=
  {| ServicePlan.ID := Plan.ID p; ServicePlan.Name := Plan.Name p;
     ServicePlan.Description := Plan.Description p; ServicePlan.Free := false;
     ServicePlan.Metadata := Plan.Metadata p |}.

Definition buildServicePlans (c : BrokerConfig) : list ServicePlan := map service_plan (plans_of c).

Definition openclaw_service (c : BrokerConfig) : Service :=
  {| Service.ID := "openclaw-service"; Service.Name := "openclaw";
     Service.Description := "Dedicated OpenClaw AI agent on an isolated VM with WebChat UI";
     Service.Bindable := true; Service.PlanUpdatable := true;
     Service.InstancesRetrievable := true; Service.BindingsRetrievable := true;
     Service.Plans := buildServicePlans c;
     Service.Metadata :=
       [("displayName", JStr "OpenClaw AI Agent");
        ("documentationUrl", JStr "https://github.com/openclaw/openclaw");
        ("imageUrl", JStr IconDataURI);
        ("longDescription", JStr "Deploy a dedicated OpenClaw AI agent with persistent memory, shell access, browser automation, and 50+ integrations. Each instance runs on its own isolated VM with a dedicated WebChat UI.");
        ("providerDisplayName", JStr "OpenClaw Platform")];
     Service.Tags := ["ai"; "agent"; "openclaw"; "llm"] |}.

(** The metadata of a plan is omitted when empty. *)
Definition plan_json (p : ServicePlan) : json :=
  JObj ([("id", JStr (ServicePlan.ID p)); ("name", JStr (ServicePlan.Name p));
         ("description", JStr (ServicePlan.Description p)); ("free", JBool (ServicePlan.Free p))]
    ++ if bool_decide (ServicePlan.Metadata p = ∅) then [] else [("metadata", map_json (ServicePlan.Metadata p))]).

Definition service_json (s : Service) : json :=
  JObj [("id", JStr (Service.ID s)); ("name", JStr (Service.Name s));
        ("description", JStr (Service.Description s)); ("bindable", JBool (Service.Bindable s));
        ("plan_updateable", JBool (Service.PlanUpdatable s));
        ("instances_retrievable", JBool (Service.InstancesRetrievable s));
        ("bindings_retrievable", JBool (Service.BindingsRetrievable s));
        ("plans", JArr (map plan_json (Service.Plans s)));
        ("metadata", JObj (Service.Metadata s));
        ("tags", JArr (map JStr (Service.Tags s)))].

Definition catalog_json (c : CatalogResponse) : json :=
  JObj [("services", JArr (map service_json (CatalogResponse.Services c)))].

Definition Catalog (b : Broker) : prog Store Response :=
  Ret (writeJSON 200 (catalog_json
    {| CatalogResponse.Services := [openclaw_service (config b)] |})).

(** ** Properties *)

Lemma normalizePlan_named p : Plan.Name p ≠ "" →
  Plan.ID (normalizePlan p) ≠ "" ∧ Plan.Description (normalizePlan p) ≠ "".
Proof.
  intros Hn. unfold normalizePlan. rewrite (proj2 (String.eqb_neq _ _) Hn). cbn [negb andb Plan.ID Plan.Description].
  destruct (String.eqb_spec (Plan.ID p) ""), (String.eqb_spec (Plan.Description p) ""),
    (String.eqb_spec (Plan.PlanDescription p) ""); cbn [negb andb];
    repeat match goal with |- context [String.eqb ?x ""] => destruct (String.eqb_spec x "") end;
    cbn [negb andb]; try congruence; split; done.
Qed.

Lemma plans_of_New c d p : p ∈ plans_of (config (New c d)) →
  p ∈ defaultPlans ∨ ∃ q, p = normalizePlan q.
Proof.
  unfold plans_of, New. cbn [config with_plans BrokerConfig.Plans]. unfold normalizePlans.
  destruct (BrokerConfig.Plans c) as [|q qs]; cbn [map]; [by left|]. intros H. right.
  apply elem_of_cons in H as [->|H]; [by eexists|]. apply list_elem_of_fmap in H as (x & -> & _). eauto.
Qed.

Lemma find_map {A B} (f : A → B) (p : B → bool) l :
  find p (map f l) = f <$> find (fun x => p (f x)) l.
Proof. induction l as [|x l IH]; [done|]. simpl. by destruct (p (f x)). Qed.

Lemma find_is_Some {A} (p : A → bool) l : is_Some (find p l) ↔ ∃ x, x ∈ l ∧ p x = true.
Proof.
  split.
  - intros [x Hx]. apply find_some in Hx as [Hin Hp]. exists x. by rewrite list_elem_of_In.
  - intros (x & Hin & Hp). destruct (find p l) eqn:E; [by eexists|].
    apply list_elem_of_In in Hin. by rewrite (find_none _ _ E x Hin) in Hp.
Qed.

