(* ===== verification/Admin.v ===== *)
(** * Package broker, admin.go: listing and upgrading instances *)

From S2P Require Import Prelude GoStrings Json Encoding Prog Manifest BoshClient UaaClient Broker StateFile Store Provision Update Deprovision LastOperation.

Module UpgradeRequest.
Record UpgradeRequest : Type := {
  TargetVersion : string;
  Count : Z;
  MaxParallel : Z;
}.
End UpgradeRequest.
Notation UpgradeRequest := UpgradeRequest.UpgradeRequest.

Section Admin.
Context (b : Broker).

(** A range over a map taken under the lock: the entries in the order the keys
    come. *)
Definition visit {A} (m : gmap string A) (keys : list string) : list (string * A) :=
  omap (fun k => pair k <$> m !! k) keys.

Definition deprovisioning (i : Instance) : bool := String.eqb (Instance.State i) "deprovisioning".

(** ** AdminListInstances *)

Definition instance_info (i : Instance) : json :=
  JObj [("id", JStr (Instance.ID i)); ("deployment_name", JStr (Instance.DeploymentName i));
        ("state", JStr (Instance.State i)); ("openclaw_version", JStr (Instance.OpenClawVersion i));
        ("plan_name", JStr (Instance.PlanName i)); ("owner", JStr (Instance.Owner i))].

Definition AdminListInstances : prog Store Response :=
  m ⇐ reads view;
  Order (map_to_list m).*1 (fun keys =>
    Ret (writeJSON 200 (JArr (map instance_info
      (List.filter (fun i => negb (deprovisioning i)) (visit m keys).*2))))).

(** ** AdminUpgrade *)

(** The loop that collects the locations of the candidates. *)
Fixpoint collect (version : string) (count : Z) (candidates : list nat)
    (l : list (nat * Instance)) : list nat :=
  match l with
  | [] => candidates
  | (k, i) :: l =>
      if deprovisioning i then collect version count candidates l
      else
        let candidates :=
          if negb (String.eqb (Instance.OpenClawVersion i) version) then candidates ++ [k]
          else candidates in
        if (count <=? Z.of_nat (length candidates))%Z then candidates
        else collect version count candidates l
  end.

Definition upgraded_instance (version : string) (taskID : Z) (i : Instance) : Instance :=
  Instance.set_OpenClawVersion version
    (Instance.set_BoshTaskID taskID (Instance.set_State "provisioning" i)).

(** The loop that redeploys the candidates; the result is how many deploys the
    director accepted. *)
Fixpoint upgrade_all (version : string) (candidates : list nat) (upgraded : Z) : prog Store Z :=
  match candidates with
  | [] => Ret upgraded
  | l :: rest =>
      params ⇐ reads (fun s => buildManifestParams (config b) (deref l s));
      r ⇐ render_and_deploy b params "Upgrade deploy failed";
      match r with
      | Err _ => upgrade_all version rest upgraded
      | Ok taskID =>
          writes (update l (upgraded_instance version taskID)) >>>
          writes (fun s => set_upgrades (<[Instance.ID (deref l s) := taskID]> (upgrades s)) s) >>>
          upgrade_all version rest (upgraded + 1)
      end
  end.

Definition AdminUpgrade (req : option UpgradeRequest) : prog Store Response :=
  match req with
  | None => Ret BadRequest
  | Some req =>
      let count := UpgradeRequest.Count req in
      if (count <=? 0)%Z then Ret (writeJSON 400 (error_body "count must be positive"))
      else
        let configVersion := BrokerConfig.OpenClawVersion (config b) in
        m ⇐ reads (fun s => (fun l => (l, deref l s)) <$> instances s);
        Order (map_to_list m).*1 (fun keys =>
          upgraded ⇐ upgrade_all configVersion (collect configVersion count [] (visit m keys).*2) 0;
          saveState b >>>
          Ret (writeJSON 200 (JObj [("upgrading", JNum (Itoa upgraded))])))
  end.

(** ** AdminUpgradeStatus *)

Definition mark (instID state : string) (s : Store) : Store :=
  match instances s !! instID with
  | Some l => update l (Instance.set_State state) s
  | None => s
  end.

Record Counts : Type := { healthy : Z; failures : Z; inProgress : Z }.

Definition one_healthy (c : Counts) : Counts :=
  {| healthy := healthy c + 1; failures := failures c; inProgress := inProgress c |}.
Definition one_failed (c : Counts) : Counts :=
  {| healthy := healthy c; failures := failures c + 1; inProgress := inProgress c |}.
Definition one_in_progress (c : Counts) : Counts :=
  {| healthy := healthy c; failures := failures c; inProgress := inProgress c + 1 |}.

Fixpoint check_all (tasks : list (string * Z)) (c : Counts) : prog Store Counts :=
  match tasks with
  | [] => Ret c
  | (instID, taskID) :: rest =>
      r ⇐ @TaskStatus Store (director b) taskID;
      match r with
      | Err _ => check_all rest (one_failed c)
      | Ok state =>
          if String.eqb state "done" then
            writes (mark instID "ready") >>> check_all rest (one_healthy c)
          else if task_failed state then
            writes (mark instID "failed") >>> check_all rest (one_failed c)
          else check_all rest (one_in_progress c)
      end
  end.

Definition AdminUpgradeStatus : prog Store Response :=
  tasks ⇐ reads upgrades;
  Order (map_to_list tasks).*1 (fun keys =>
    c ⇐ check_all (visit tasks keys) {| healthy := 0; failures := 0; inProgress := 0 |};
    saveState b >>>
    Ret (writeJSON 200 (JObj
      [("failed", JNum (Itoa (failures c))); ("healthy", JNum (Itoa (healthy c)));
       ("in_progress", JNum (Itoa (inProgress c)));
       ("total", JNum (Itoa (Z.of_nat (size tasks))))]))).
End Admin.

(** * Proofs *)

(** ** Ranges and counts *)

Lemma visit_list {A} (m : gmap string A) l :
  (∀ kv, kv ∈ l → m !! kv.1 = Some kv.2) → visit m l.*1 = l.
Proof.
  induction l as [|[k v] l IH]; intros H; [done|]. unfold visit in *. simpl.
  pose proof (H (k, v) ltac:(left)) as Hk. simpl in Hk. rewrite Hk. simpl. f_equal. apply IH. intros kv Hkv. apply H. by right.
Qed.

Lemma visit_perm {A} (m : gmap string A) keys :
  keys ≡ₚ (map_to_list m).*1 → visit m keys ≡ₚ map_to_list m.
Proof.
  intros H. unfold visit. rewrite H. change (visit m (map_to_list m).*1 ≡ₚ map_to_list m).
  rewrite visit_list; [done|]. intros [k v]. apply elem_of_map_to_list.
Qed.

Lemma count_view_list p (v : gmap string Instance) l : l ≡ₚ map_to_list v →
  count_view p v = Z.of_nat (length (List.filter p l.*2)).
Proof.
  intros Hl. unfold count_view. f_equal.
  rewrite map_filter_alt, <- length_map_to_list, map_to_list_to_map.
  - rewrite <- Hl. clear Hl. induction l as [|[k i] l IH]; [done|]. simpl.
    rewrite filter_cons. simpl. destruct (p i); simpl; [f_equal|]; apply IH.
  - apply (sublist_NoDup _ (map_to_list v).*1);
      [apply NoDup_fst_map_to_list|apply fmap_sublist, sublist_filter].
Qed.

(** What AdminUpgrade looks for. *)
Definition outdated (version : string) (i : Instance) : bool :=
  negb (deprovisioning i) && negb (String.eqb (Instance.OpenClawVersion i) version).

Lemma collect_take version count acc l :
  (Z.of_nat (length acc) < count)%Z →
  collect version count acc l =
    acc ++ take (Z.to_nat count - length acc)
      (List.filter (fun ki => outdated version ki.2) l).*1.
Proof.
  revert acc. induction l as [|[k i] l IH]; intros acc Hc; simpl.
  - by rewrite take_nil, app_nil_r.
  - unfold outdated at 1. simpl. destruct (deprovisioning i); simpl; [by apply IH|].
    destruct (String.eqb _ _); simpl.
    + rewrite (proj2 (Z.leb_gt _ _)) by done. by apply IH.
    + rewrite length_app. simpl. destruct (Z.leb_spec count (Z.of_nat (length acc + 1))).
      * replace (Z.to_nat count - length acc)%nat with 1%nat by lia. simpl. by rewrite take_0.
      * rewrite IH by (rewrite length_app; simpl; lia). rewrite length_app, <- app_assoc. simpl.
        by replace (Z.to_nat count - length acc)%nat with (S (Z.to_nat count - (length acc + 1))) by lia.
Qed.

Section AdminFacts.
Context (b : Broker) `{!GoodBroker b}.

(** ** The steps *)

Lemma AdminListInstances_steps : steps_in wf evolves AdminListInstances.
Proof. by apply steps_in_reads_bind. Qed.

Lemma upgrade_all_steps v cs n : steps_in wf evolves (upgrade_all b v cs n).
Proof.
  revert n. induction cs as [|l cs IH]; intros n; [done|]. cbn [upgrade_all].
  apply steps_in_reads_bind; [done|]. intros s _.
  apply steps_in_bind; [apply render_and_deploy_steps; apply _|]. intros [task|resp]; [|apply IH].
  apply steps_in_writes_bind; [auto using evolves_update|].
  apply steps_in_writes_bind; [auto with store|]. apply IH.
Qed.

Lemma AdminUpgrade_steps req : steps_in wf evolves (AdminUpgrade b req).
Proof.
  destruct req as [req|]; [|done]. unfold AdminUpgrade. destruct (_ <=? 0)%Z; [done|].
  apply steps_in_reads_bind; [done|]. intros s _ keys _.
  apply steps_in_bind; [apply upgrade_all_steps|]. intros n.
  apply steps_in_bind; [apply saveState_steps|done].
Qed.

Lemma evolves_mark id st s : evolves s (mark id st s).
Proof. unfold mark. destruct (instances s !! id); [by apply evolves_update|done]. Qed.

Lemma check_all_steps ts c : steps_in wf evolves (check_all b ts c).
Proof.
  revert c. induction ts as [|[id t] ts IH]; intros c; [done|]. cbn [check_all].
  apply steps_in_bind; [apply (Status_steps b)|]. intros [st|e]; [|apply IH].
  destruct (String.eqb st "done"); [|destruct (task_failed st); [|apply IH]];
    (apply steps_in_writes_bind; [auto using evolves_mark|apply IH]).
Qed.

Lemma AdminUpgradeStatus_steps : steps_in wf evolves (AdminUpgradeStatus b).
Proof.
  apply steps_in_reads_bind; [done|]. intros s _ keys _.
  apply steps_in_bind; [apply check_all_steps|]. intros c.
  apply steps_in_bind; [apply saveState_steps|done].
Qed.

(** ** AdminUpgrade run alone *)

(** The instance of [id] in [s] was redeployed and is now tracked. *)
Definition upgraded (v : string) (s : Store) (id : string) (s' : Store) (tr' : list event) : Prop :=
  ∃ i task, view s !! id = Some i ∧ view s' !! id = Some (upgraded_instance v task i) ∧
    upgrades s' !! id = Some task ∧ deployed_as b (buildManifestParams (config b) i) task tr'.

Definition untouched (s s' : Store) (id : string) : Prop :=
  view s' !! id = view s !! id ∧ upgrades s' !! id = upgrades s !! id.

Definition upgrade_post (v : string) (ids : list string) (s : Store) (n : Z) (s' : Store)
    (tr' : list event) : Prop :=
  disk s' = disk s ∧
  ∃ done, n = Z.of_nat (length done) ∧ done `sublist_of` ids ∧
    (∀ id, id ∈ done → upgraded v s id s' tr') ∧ (∀ id, id ∉ done → untouched s s' id).

(** One accepted redeploy, in the store: the record and the tracker. *)
Lemma upgrade_one s s2 id l i v task :
  wf s → instances s !! id = Some l → heap s !! l = Some i → record_ok id i → same s s2 →
  let i' := upgraded_instance v task i in
  let s3 := update l (upgraded_instance v task) s2 in
  let s4 := set_upgrades (<[Instance.ID (deref l s3) := task]> (upgrades s3)) s3 in
  wf s4 ∧ instances s4 = instances s ∧ disk s4 = disk s ∧
  view s4 = <[id := i']> (view s) ∧ upgrades s4 = <[id := task]> (upgrades s).
Proof.
  intros Hw Hl Hi [Hid _] H2 i' s3 s4.
  assert (E3 : s3 = put l i' s2) by (apply update_put; by rewrite (same_heap _ _ H2)).
  assert (Hs3 : same (put l i' s) s3) by (rewrite E3; by rewrite H2).
  assert (Hw3 : wf s3).
  { rewrite <- Hs3. eapply evolves_wf, evolves_put; done. }
  split_and!.
  - eapply evolves_wf, evolves_upgrades; done.
  - trans (instances s3); [done|]. by rewrite (same_instances _ _ Hs3).
  - trans (disk s3); [done|]. by rewrite <- Hs3.
  - trans (view s3); [done|]. by rewrite <- Hs3, (view_put s id l).
  - unfold s4. simpl. replace (Instance.ID (deref l s3)) with id.
    + f_equal. by rewrite <- H2.
    + rewrite E3. unfold deref. erewrite heap_put by by rewrite (same_heap _ _ H2). done.
Qed.

Lemma upgrade_all_wp v cs n s tr :
  wf s → NoDup cs.*1 → (∀ c, c ∈ cs → instances s !! c.1 = Some c.2) →
  wp (upgrade_all b v cs.*2 n) s tr (fun n' s' tr' => tr `prefix_of` tr' ∧
    upgrade_post v cs.*1 s (n' - n) s' tr').
Proof.
  revert n s tr. induction cs as [|[id l] cs IH]; intros n s tr Hw Hnd Hcs.
  { split; [done|]. split; [done|]. exists []. split_and!; [simpl; lia|done|set_solver|done]. }
  cbn [fmap list_fmap upgrade_all fst snd]. apply NoDup_cons in Hnd as [Hid Hnd].
  assert (Hl : instances s !! id = Some l) by apply (Hcs (id, l)), elem_of_cons, or_introl, eq_refl.
  assert (Hcs' : ∀ c, c ∈ cs → instances s !! c.1 = Some c.2) by (intros c ?; apply Hcs; by right).
  destruct (wf_lookup s id l Hw Hl) as (i & Hi & Hderef & Hv & Hr).
  apply wp_bind. cbn [reads wp]. rewrite Hderef. apply wp_bind.
  eapply wp_mono, wp_and, render_and_deploy_wp; [|apply wp_extends].
  intros [task|resp] s2 tr2 [Hpre [H2 Hdep]].
  - cbn [bind writes wp].
    destruct (upgrade_one s s2 id l i v task Hw Hl Hi Hr H2) as (Hw4 & Hin & Hd & Hv4 & Hu4).
    eapply wp_mono, IH; [|done|done|intros c Hc; rewrite Hin; auto].
    intros n' s' tr' [Hpre' (Hd' & done & Hn & Hsub & Hup & Hun)].
    assert (Hnot : id ∉ done) by (intros ?; by eapply Hid, elem_of_sublist).
    split; [by etrans|]. split; [by rewrite Hd'|]. exists (id :: done). split_and!.
    + simpl. lia.
    + by apply sublist_skip.
    + intros id' [->|Hin']%elem_of_cons.
      * destruct (Hun id Hnot) as [E1 E2]. exists i, task.
        rewrite E1, E2, Hv4, Hu4, !lookup_insert_eq. split_and!; [done..|by eapply deployed_as_mono].
      * destruct (Hup id' Hin') as (j & t & E1 & E2 & E3 & E4). exists j, t.
        rewrite Hv4, lookup_insert_ne in E1 by (intros <-; done). done.
    + intros id' [Hne Hni]%not_elem_of_cons. destruct (Hun id' Hni) as [E1 E2].
      split; rewrite ?E1, ?E2, ?Hv4, ?Hu4; by rewrite lookup_insert_ne.
  - eapply wp_mono, IH; [|by rewrite <- H2|done|intros c Hc; rewrite (same_instances _ _ H2); auto].
    intros n' s' tr' [Hpre' (Hd' & done & Hn & Hsub & Hup & Hun)].
    split; [by etrans|]. split; [by rewrite Hd', <- H2|]. exists done.
    split_and!; [done|by apply sublist_cons| |]; intros id' Hid'.
    + destruct (Hup id' Hid') as (j & t & E1 & E). exists j, t. by rewrite <- H2 in E1.
    + destruct (Hun id' Hid') as [E1 E2]. by rewrite <- H2 in E1, E2.
Qed.

(** The snapshot of the instances with their locations. *)
Lemma snapshot_view s : wf s →
  (fun li : nat * Instance => li.2) <$> ((fun l => (l, deref l s)) <$> instances s) = view s.
Proof. intros Hw. by rewrite view_fmap, <- map_fmap_compose. Qed.

Lemma omap_fst {A} (m : gmap string A) keys : (visit m keys).*1 `sublist_of` keys.
Proof.
  unfold visit. induction keys as [|k keys IH]; [done|]. simpl.
  destruct (m !! k); simpl; [by apply sublist_skip|by apply sublist_cons].
Qed.

Lemma AdminUpgrade_wp rq s tr :
  wf s → (0 < UpgradeRequest.Count rq)%Z →
  let v := BrokerConfig.OpenClawVersion (config b) in
  wp (AdminUpgrade b (Some rq)) s tr (fun r s' tr' => ∃ picked n,
    Z.of_nat (length picked) = Z.min (UpgradeRequest.Count rq) (count_view (outdated v) (view s)) ∧
    NoDup picked ∧ (∀ id, id ∈ picked → ∃ i, view s !! id = Some i ∧ outdated v i = true) ∧
    r = writeJSON 200 (JObj [("upgrading", JNum (Itoa n))]) ∧
    ∃ s1 tr1 d, upgrade_post v picked s n s1 tr1 ∧ s' = set_disk d s1 ∧ tr1 `prefix_of` tr').
Proof.
  intros Hw Hc v. unfold AdminUpgrade. rewrite (proj2 (Z.leb_gt _ _)) by done.
  apply wp_bind. cbn [reads wp]. set (m := (fun l => (l, deref l s)) <$> instances s).
  intros keys Hkeys. apply wp_bind. fold v. rewrite collect_take by done.
  set (vs := visit m keys). assert (Hvs : vs ≡ₚ map_to_list m) by by apply visit_perm.
  assert (Hin : ∀ x, x ∈ vs → instances s !! x.1 = Some x.2.1 ∧ view s !! x.1 = Some x.2.2).
  { intros [id [l i]] Hx. rewrite Hvs in Hx. apply elem_of_map_to_list in Hx. subst m.
    apply lookup_fmap_Some in Hx as (l' & [= -> <-] & Hl). simpl. split; [done|].
    by destruct (wf_lookup s id l Hw Hl) as (j & _ & -> & -> & _). }
  set (k := Z.to_nat (UpgradeRequest.Count rq)).
  set (found := List.filter (fun x : string * (nat * Instance) => outdated v x.2.2) vs).
  set (cs := (fun x : string * (nat * Instance) => (x.1, x.2.1)) <$> take k found).
  assert (Hsub : take k found `sublist_of` vs)
    by (etrans; [apply sublist_take|apply list_filter_sublist]).
  assert (E : [] ++ take (k - length (@nil nat)) (List.filter (fun ki => outdated v ki.2) vs.*2).*1 = cs.*2).
  { simpl. rewrite Nat.sub_0_r, list_filter_map. subst cs. rewrite <- !list_fmap_compose.
    by rewrite <- firstn_map. }
  rewrite E. eapply wp_mono; [|apply (upgrade_all_wp v cs 0); [done| |]].
  - intros n s1 tr1 [_ Hpost]. apply wp_bind.
    eapply wp_mono, wp_and, saveState_wp; [|apply wp_extends|].
    + intros [] s' tr' [Hpre [[d ->] _]]. exists cs.*1, n. split_and!.
      * rewrite length_fmap. unfold cs. rewrite length_fmap, length_take.
        rewrite (count_view_list _ _ ((fun x => (x.1, x.2.2)) <$> vs)).
        -- rewrite <- list_fmap_compose, list_filter_map, length_fmap. unfold found, compose. simpl. lia.
        -- rewrite Hvs, <- (snapshot_view s Hw), map_to_list_fmap. done.
      * unfold cs. rewrite <- list_fmap_compose.
        eapply sublist_NoDup; [|by apply fmap_sublist]. simpl.
        unfold compose. simpl. change (NoDup vs.*1). rewrite Hvs. apply NoDup_fst_map_to_list.
      * intros id Hid. unfold cs in Hid. rewrite <- list_fmap_compose in Hid.
        apply list_elem_of_fmap in Hid as (x & -> & Hx). exists x.2.2.
        assert (Hf : x ∈ found) by (eapply elem_of_sublist, sublist_take; done).
        apply elem_of_list_filter_bool in Hf as [Hf Ho]. split; [|done]. by apply Hin.
      * done.
      * exists s1, tr1, d. rewrite Z.sub_0_r in Hpost. done.
    + destruct Hpost as [Hd _]. rewrite Hd. apply Hw.
  - unfold cs. rewrite <- list_fmap_compose. eapply sublist_NoDup; [|by apply fmap_sublist].
    change (NoDup vs.*1). rewrite Hvs. apply NoDup_fst_map_to_list.
  - intros c (x & -> & Hx)%list_elem_of_fmap. apply Hin. by eapply elem_of_sublist.
Qed.

(** ** AdminUpgradeStatus run alone *)

(** What a check may do to the record of [id], tracked under [task]. *)
Definition checked (tasks : list (string * Z)) (tr' : list event) (id : string)
    (i i' : Instance) : Prop :=
  i' = i ∨ ∃ task ts e, (id, task) ∈ tasks ∧ e ∈ tr' ∧ status_sent b task ts e ∧
    ((ts = "done" ∧ i' = Instance.set_State "ready" i) ∨
     (task_failed ts = true ∧ i' = Instance.set_State "failed" i)).

Lemma checked_mono ts ts' tr tr' id i i' :
  (∀ x, x ∈ ts → x ∈ ts') → tr `prefix_of` tr' → checked ts tr id i i' → checked ts' tr' id i i'.
Proof.
  intros Hts [k ->] [?|(t & st & e & H1 & H2 & H3)]; [by left|right].
  exists t, st, e. rewrite elem_of_app. auto.
Qed.

Lemma checked_trans ts tr id i1 i2 i3 :
  checked ts tr id i1 i2 → checked ts tr id i2 i3 → checked ts tr id i1 i3.
Proof.
  intros H12 [->|(t & st & e & H1 & H2 & H3 & H4)]; [done|right].
  exists t, st, e. split_and!; [done..|].
  assert (E : ∀ x, Instance.set_State x i2 = Instance.set_State x i1).
  { intros x. by destruct H12 as [->|(? & ? & ? & _ & _ & _ & [[_ ->]|[_ ->]])]. }
  by rewrite !E in H4.
Qed.

(** The same of all records. *)
Definition all_checked (tasks : list (string * Z)) (tr' : list event) (v v' : gmap string Instance) : Prop :=
  ∀ id, option_relation (checked tasks tr' id) (fun _ => False) (fun _ => False) (v !! id) (v' !! id).

Lemma all_checked_refl ts tr v : all_checked ts tr v v.
Proof. intros id. destruct (v !! id); simpl; [by left|done]. Qed.

Lemma all_checked_cons x ts tr1 tr v1 v2 v3 : tr1 `prefix_of` tr →
  all_checked [x] tr1 v1 v2 → all_checked ts tr v2 v3 → all_checked (x :: ts) tr v1 v3.
Proof.
  intros Htr H1 H2 id. specialize (H1 id). specialize (H2 id).
  destruct (v1 !! id), (v2 !! id), (v3 !! id); simpl in *; try done.
  eapply checked_trans; (eapply checked_mono; [| |done]); try done.
  - intros y ->%list_elem_of_singleton. by left.
  - intros y Hy. by right.
Qed.

Definition check_post (tasks : list (string * Z)) (c : Counts) (s : Store) (c' : Counts) (s' : Store)
    (tr' : list event) : Prop :=
  (healthy c' + failures c' + inProgress c' =
     healthy c + failures c + inProgress c + Z.of_nat (length tasks))%Z ∧
  (healthy c ≤ healthy c' ∧ failures c ≤ failures c' ∧ inProgress c ≤ inProgress c')%Z ∧
  disk s' = disk s ∧ upgrades s' = upgrades s ∧ all_checked tasks tr' (view s) (view s').

(** Marking the instance of an id, if there is one. *)
Lemma mark_view s id st : wf s →
  view (mark id st s) = alter (Instance.set_State st) id (view s).
Proof.
  intros Hw. unfold mark. destruct (instances s !! id) as [l|] eqn:El; [by apply view_update|].
  symmetry. apply map_eq. intros id'. destruct (decide (id = id')) as [<-|].
  - by rewrite lookup_alter_eq, (proj2 (view_None s id Hw)).
  - by rewrite lookup_alter_ne.
Qed.

Lemma mark_checked s s2 id t st ts tr e :
  wf s → same s s2 → e ∈ tr → status_sent b t ts e →
  (st = "ready" ∧ ts = "done") ∨ (st = "failed" ∧ task_failed ts = true) →
  all_checked [(id, t)] tr (view s) (view (mark id st s2)).
Proof.
  intros Hw H2 He Hev Hst id'. assert (Hw2 : wf s2) by by rewrite <- H2.
  rewrite mark_view by done. rewrite <- H2. destruct (decide (id = id')) as [<-|Hne].
  - rewrite lookup_alter_eq. destruct (view s !! id) as [i|]; simpl; [|done].
    right. exists t, ts, e. split_and!; [by left|done|done|].
    destruct Hst as [[-> ->]|[-> ?]]; auto.
  - rewrite lookup_alter_ne by done. apply (all_checked_refl _ _ (view s)).
Qed.

Lemma mark_rest s id st : disk (mark id st s) = disk s ∧ upgrades (mark id st s) = upgrades s.
Proof. unfold mark. by destruct (instances s !! id). Qed.

Lemma check_all_wp ts c s tr :
  wf s →
  wp (check_all b ts c) s tr (fun c' s' tr' => tr `prefix_of` tr' ∧ check_post ts c s c' s' tr').
Proof.
  revert c s tr. induction ts as [|[id t] ts IH]; intros c s tr Hw.
  { split; [done|]. split_and!; simpl; try lia; try done. apply all_checked_refl. }
  cbn [check_all]. apply wp_bind. eapply wp_mono, wp_and, (Status_wp b); [|apply wp_extends].
  intros r s2 tr2 [Hpre [H2 Hev]]. assert (Hw2 : wf s2) by by rewrite <- H2.
  assert (Hgo : ∀ c1 s1, wf s1 → disk s1 = disk s → upgrades s1 = upgrades s →
    all_checked [(id, t)] tr2 (view s) (view s1) →
    (healthy c1 + failures c1 + inProgress c1 = healthy c + failures c + inProgress c + 1)%Z →
    (healthy c ≤ healthy c1 ∧ failures c ≤ failures c1 ∧ inProgress c ≤ inProgress c1)%Z →
    wp (check_all b ts c1) s1 tr2 (fun c' s' tr' =>
      tr `prefix_of` tr' ∧ check_post ((id, t) :: ts) c s c' s' tr')).
  { intros c1 s1 Hw1 Hd Hu Hv Hsum Hle. eapply wp_mono, IH, Hw1.
    intros c' s' tr' [Hpre' (Hsum' & Hle' & Hd' & Hu' & Hv')].
    split; [by etrans|]. split_and!; [simpl; lia|lia|lia|lia|congruence|congruence|].
    by eapply all_checked_cons. }
  assert (Hsame : all_checked [(id, t)] tr2 (view s) (view s2))
    by (rewrite <- H2; apply all_checked_refl).
  assert (Hd2 : disk s2 = disk s ∧ upgrades s2 = upgrades s) by by rewrite <- H2.
  destruct r as [st|e]; [|apply Hgo; [done|apply Hd2|apply Hd2|done|simpl; lia..]].
  destruct (Hev st eq_refl) as (tr0 & e & -> & He).
  assert (Hin : e ∈ tr0 ++ [e]) by (rewrite elem_of_app, list_elem_of_singleton; auto).
  destruct (String.eqb_spec st "done") as [->|]; [|destruct (task_failed st) eqn:Ef];
    [cbn [bind writes wp]..|apply Hgo; [done|apply Hd2|apply Hd2|done|simpl; lia..]].
  - destruct (mark_rest s2 id "ready") as [Ed Eu]. apply Hgo;
      [by eapply evolves_wf, evolves_mark|by rewrite Ed; apply Hd2|by rewrite Eu; apply Hd2| |simpl; lia..].
    eapply mark_checked; eauto.
  - destruct (mark_rest s2 id "failed") as [Ed Eu]. apply Hgo;
      [by eapply evolves_wf, evolves_mark|by rewrite Ed; apply Hd2|by rewrite Eu; apply Hd2| |simpl; lia..].
    eapply mark_checked; eauto.
Qed.
End AdminFacts.

(** * Properties *)

Section Properties.
Context (b : Broker) `{!GoodBroker b}.


(** AdminUpgrade deploys the old version: whenever it changes an instance, it
    records the version of the configuration, but the manifest it deployed for it
    names the different version the instance had before. *)
Theorem AdminUpgrade_stale_version rq s tr :
  wf s → (0 < UpgradeRequest.Count rq)%Z →
  let v := BrokerConfig.OpenClawVersion (config b) in
  wp (AdminUpgrade b (Some rq)) s tr (fun r s' tr' => ∀ id i',
    view s' !! id = Some i' → view s !! id ≠ Some i' →
    Instance.OpenClawVersion i' = v ∧
    ∃ params, deployed_as b params (Instance.BoshTaskID i') tr' ∧
      Manifest.ID params = id ∧ Manifest.OpenClawVersion params ≠ v).
Proof.
  intros Hw Hc v. eapply wp_mono, AdminUpgrade_wp; [|done..].
  intros r s' tr' (picked & n & _ & _ & Hp & _ & s1 & tr1 & d & Hpost & -> & Hpre) id i' Hi' Hne.
  destruct Hpost as (_ & done & _ & Hsub & Hup & Hun).
  destruct (decide (id ∈ done)) as [Hin|Hni];
    [|destruct (Hun id Hni) as [E _]; change (view s1 !! id = Some i') in Hi'; congruence].
  destruct (Hup id Hin) as (i & task & Hi & E & _ & Hdep).
  change (view s1 !! id = Some i') in Hi'. rewrite Hi' in E. injection E as ->.
  destruct (Hp id) as (j & Hj & Ho); [by eapply elem_of_sublist|].
  assert (j = i) as -> by congruence. unfold outdated in Ho. bool_prop.
  split; [done|]. exists (buildManifestParams (config b) i). split_and!.
  - by eapply deployed_as_mono.
  - rewrite params_ID. by destruct (view_record_ok s id i Hw Hi).
  - by rewrite params_version.
Qed.

End Properties.

(** ** Witnesses *)

(** The demonstration instance before an upgrade. *)
Definition old_store : Store := update 0 (Instance.set_OpenClawVersion "2026.1.28") demo_store.

Lemma old_wf : wf old_store.
Proof. eapply evolves_wf, evolves_update; [exact demo_wf|done]. Qed.

Definition demo_upgrade : UpgradeRequest :=
  {| UpgradeRequest.TargetVersion := ""; UpgradeRequest.Count := 5; UpgradeRequest.MaxParallel := 1 |}.


Lemma AdminUpgrade_stale_version_witness :
  let '(r, s', tr') := run (demo_oracle 302 302 "done")
    (AdminUpgrade demo_broker (Some demo_upgrade)) old_store [] in
  status r = 200%Z ∧ ∃ params, deployed_as demo_broker params 42 tr' ∧
    Manifest.ID params = "i-1" ∧ Manifest.OpenClawVersion params ≠ "2026.1.30".
Proof.
  assert (Hc : (0 < UpgradeRequest.Count demo_upgrade)%Z) by reflexivity.
  pose proof (wp_run (demo_oracle 302 302 "done") _ _ _ _
    (AdminUpgrade_stale_version demo_broker demo_upgrade old_store [] old_wf Hc)) as H.
  set (i' := upgraded_instance "2026.1.30" 42 (Instance.set_OpenClawVersion "2026.1.28" demo_instance)).
  assert (Hi : view (run (demo_oracle 302 302 "done")
    (AdminUpgrade demo_broker (Some demo_upgrade)) old_store []).1.2 !! "i-1" = Some i')
    by (vm_compute; reflexivity).
  assert (Hr : status (run (demo_oracle 302 302 "done")
    (AdminUpgrade demo_broker (Some demo_upgrade)) old_store []).1.1 = 200%Z)
    by (vm_compute; reflexivity).
  destruct (run _ _ _ _) as [[r s'] tr']. cbn [fst snd] in Hi, Hr. split; [exact Hr|].
  destruct (H "i-1" i' Hi) as [_ Hp]; [vm_compute; discriminate|exact Hp].
Defined.

(** The demonstration store with the upgrade of its instance tracked. *)
Definition tracked_store : Store := set_upgrades {["i-1" := 42%Z]} deleting_store.

Lemma tracked_wf : wf tracked_store.
Proof. eapply evolves_wf, evolves_upgrades. exact deleting_wf. Qed.


(** AdminUpgradeStatus resurrects: a tracked instance whose deletion is under
    way, answered done for its old upgrade task, is marked ready again, with
    credentials handed out for it, while the director deletes its deployment. *)
Theorem AdminUpgradeStatus_resurrects :
  let '(r, s', _) := run (demo_oracle 302 302 "done") (AdminUpgradeStatus demo_broker) tracked_store [] in
  status r = 200%Z ∧
  (Instance.State <$> view tracked_store !! "i-1") = Some "deprovisioning" ∧
  (Instance.State <$> view s' !! "i-1") = Some "ready".
Proof. vm_compute. by split_and!. Qed.
