(* ===== verification/Concurrency.v ===== *)
(** * All handlers, interleaved

    The server runs every request in its own goroutine. [handle] is the program
    of a request, [served] the interleavings of any number of them over the shared
    store, one critical section at a time. *)

From S2P Require Import Prelude GoStrings Json Prog Tokens BoshClient UaaClient Broker StateFile Store Provision Update Deprovision LastOperation Binding Catalog Admin.

(** ** Requests *)

(** The routes of main.go, with the path variable, the accepts_incomplete
    parameter and the decoded body ([None]: it does not decode). *)
Inductive Request : Type :=
| GetCatalog
| PutInstance (id accepts : string) (body : option ProvisionRequest)
| PatchInstance (id accepts : string) (body : option UpdateRequest)
| DeleteInstance (id accepts : string)
| GetLastOperation (id : string)
| PutBinding (id : string)
| DeleteBinding
| GetAdminInstances
| PostAdminUpgrade (body : option UpgradeRequest)
| GetAdminUpgradeStatus.

Definition handle (b : Broker) (r : Request) : prog Store Response :=
  match r with
  | GetCatalog => Catalog b
  | PutInstance id accepts body => Provision b id accepts body
  | PatchInstance id accepts body => Update b id accepts body
  | DeleteInstance id accepts => Deprovision b id accepts
  | GetLastOperation id => LastOperation b id
  | PutBinding id => Bind id
  | DeleteBinding => Unbind
  | GetAdminInstances => AdminListInstances
  | PostAdminUpgrade body => AdminUpgrade b body
  | GetAdminUpgradeStatus => AdminUpgradeStatus b
  end.

(** Serving the requests of a class. *)
Definition served (b : Broker) (P : Request → Prop) : relation (Store * list (prog Store Response)) :=
  rtc (pool (fun p => ∃ r, P r ∧ p = handle b r)).

(** ** Executing a schedule *)

Section Schedule.
Context {S A : Type} (o : Oracle).

(** One step of a program, answered by the oracle. *)
Definition step_with (s : S) (tr : list event) (p : prog S A) : S * list event * prog S A :=
  match p with
  | Ret a => (s, tr, Ret a)
  | Step f k => (f s, tr, k s)
  | Http r k => let x := o_http o tr r in (s, tr ++ [EvHttp r x], k x)
  | Now k => let x := o_now o tr in (s, tr ++ [EvNow x], k x)
  | Rand n k => let x := o_rand o tr n in (s, tr ++ [EvRand x], k x)
  | Fs op k => let x := o_fs o tr op in (s, tr ++ [EvFs op x], k x)
  | Order l k => let x := o_order o tr l in (s, tr ++ [EvOrder x], k x)
  | Draw n f k => let '(xs, tr') := draw_all o (n s) tr in (f s xs, tr', k s xs)
  | Lock k => (s, tr, k)
  | Unlock k => (s, tr, k)
  end.

(** The programs to step, by their index in the pool. *)
Fixpoint execute (schedule : list nat) (s : S) (tr : list event) (ps : list (prog S A)) :
    S * list event * list (prog S A) :=
  match schedule with
  | [] => (s, tr, ps)
  | n :: schedule =>
      match ps !! n with
      | None => execute schedule s tr ps
      | Some p =>
          let '(s', tr', p') := step_with s tr p in execute schedule s' tr' (<[n := p']> ps)
      end
  end.

Lemma step_with_pstep `{!ValidOracle o} s tr p :
  (∃ a, p = Ret a ∧ step_with s tr p = (s, tr, p)) ∨
  pstep s p (step_with s tr p).1.1 (step_with s tr p).2.
Proof.
  destruct p as [| | | | | | |n f k| |]; [left; by eexists|right..];
    try (constructor; apply valid_rand || apply valid_order).
  simpl. pose proof (draw_all_spec o (n s) tr) as [Hl _].
  destruct (draw_all o (n s) tr) as [xs tr']. by constructor.
Qed.

(** A schedule is one of the interleavings. *)
Lemma execute_pool `{!ValidOracle o} H schedule s tr ps :
  rtc (pool H) (s, ps) ((execute schedule s tr ps).1.1, (execute schedule s tr ps).2).
Proof.
  revert s tr ps. induction schedule as [|n sch IH]; intros s tr ps; [done|]. simpl.
  destruct (ps !! n) as [p|] eqn:E; [|done].
  pose proof (step_with_pstep s tr p) as Hp.
  destruct (step_with s tr p) as [[s' tr'] p']. simpl in Hp.
  destruct Hp as [(a & -> & [= -> -> ->])|Hp]; [by rewrite list_insert_id|].
  etrans; [apply rtc_once|apply IH].
  rewrite <- (take_drop_middle ps n p E) at 1. rewrite insert_take_drop by by eapply lookup_lt_Some.
  by constructor.
Qed.
End Schedule.

(** ** Every handler stays inside the relations *)

Section Handlers.
Context (b : Broker) `{!GoodBroker b}.

Lemma handle_steps r : steps_in wf evolves (handle b r).
Proof.
  destruct r; simpl.
  - done.
  - by apply (Provision_steps b).
  - by apply Update_steps.
  - by apply Deprovision_steps.
  - by apply LastOperation_steps.
  - exact (Bind_steps id).
  - done.
  - apply AdminListInstances_steps.
  - by apply AdminUpgrade_steps.
  - by apply AdminUpgradeStatus_steps.
Qed.

Lemma served_evolves P c c' :
  served b P c c' → wf c.1 → Forall (steps_in wf evolves) c.2 → evolves c.1 c'.1 ∧ wf c'.1.
Proof.
  intros Hs Hw Hps.
  destruct (pool_steps_in (fun p => ∃ r, P r ∧ p = handle b r) wf evolves c c') as (He & Hw' & _);
    [apply evolves_wf| |done..].
  intros p (r & _ & ->). apply handle_steps.
Qed.

(** ** Quotas *)

(** The limits of the configuration, where there are any. *)
Definition quota (s : Store) : Prop :=
  ((0 < BrokerConfig.MaxInstances (config b))%Z →
     (countInstances s ≤ BrokerConfig.MaxInstances (config b))%Z) ∧
  ((0 < BrokerConfig.MaxInstancesPerOrg (config b))%Z →
     ∀ org, (countInstancesByOrg org s ≤ BrokerConfig.MaxInstancesPerOrg (config b))%Z).

(** What the two counts look at. *)
Definition by_state (p : Instance → bool) : Prop :=
  ∀ i i', identity i' = identity i → Instance.State i' = Instance.State i → p i' = p i.

Lemma by_state_active : by_state active.
Proof. intros i i' _ E. unfold active. by rewrite E. Qed.

Lemma by_state_org org : by_state (fun i => String.eqb (Instance.OrgGUID i) org && active i).
Proof. intros i i' Hi E. unfold active. rewrite E. unfold identity in Hi. by injection Hi as _ _ -> _. Qed.

(** Steps that raise no count. *)
Definition no_more (s s' : Store) : Prop := ∀ p, by_state p → (count_if p s' ≤ count_if p s)%Z.

Lemma no_more_eq s s' : instances s' = instances s → heap s' = heap s → no_more s s'.
Proof. intros E1 E2 p _. unfold count_if, deref. by rewrite E1, E2. Qed.

Lemma no_more_update l f s : keeps f → no_more s (update l f s).
Proof.
  intros Hf p Hp. unfold count_if. simpl.
  apply Z.eq_le_incl. do 2 f_equal. apply map_filter_ext.
  intros id l' _. simpl. unfold deref. simpl. destruct (decide (l = l')) as [<-|].
  - rewrite list_lookup_alter_eq. destruct (heap s !! l) as [i|]; [|done]. simpl.
    by rewrite (Hp i (f i)) by apply Hf.
  - by rewrite list_lookup_alter_ne.
Qed.

Lemma no_more_delete id s : wf s → no_more s (map_delete id s).
Proof.
  intros Hw p _. rewrite !count_if_view by (done || by eapply evolves_wf, evolves_map_delete).
  rewrite view_map_delete. apply count_view_delete.
Qed.

Lemma quota_no_more s s' : no_more s s' → quota s → quota s'.
Proof.
  intros H [Q1 Q2]. split.
  - intros Hm. etrans; [apply (H _ by_state_active)|auto].
  - intros Hm org. etrans; [apply (H _ (by_state_org org))|by apply Q2].
Qed.

(** The relation of the quota proof: evolution that keeps the quotas. *)
Definition evolves_in_quota (s s' : Store) : Prop := evolves s s' ∧ (wf s → quota s → quota s').

#[export] Instance evolves_in_quota_preorder : PreOrder evolves_in_quota.
Proof.
  split; [by split|]. intros s1 s2 s3 [E12 Q12] [E23 Q23].
  split; [by etrans|]. intros Hw Q. apply Q23; [by eapply evolves_wf|auto].
Qed.

#[export] Instance evolves_in_quota_quiet : Quiet b evolves_in_quota.
Proof.
  split.
  - done.
  - intros s s' H. split; [by apply same_evolves|]. intros _. apply quota_no_more, no_more_eq;
      [by apply same_instances|by apply same_heap].
  - intros l f s Hf Hw. split; [by apply (quiet_update (b := b))|]. intros _. by apply quota_no_more, no_more_update.
  - intros id s Hw. split; [by apply evolves_map_delete|]. intros _. by apply quota_no_more, no_more_delete.
  - apply (steps_in_mono wf wf (fun s s' => evolves s s' ∧ (instances s' = instances s ∧ heap s' = heap s))).
    + done.
    + intros s s' [He [E1 E2]]. split; [done|]. intros _. by apply quota_no_more, no_more_eq.
    + apply steps_in_and; [apply (saveState_steps b)|]. by eapply steps_in_mono, (saveState_calm b).
Qed.

(** Reserving an admitted slot keeps the quotas. *)
Lemma admitted_in_quota instanceID rq tok seed s i :
  wf s → admitted b instanceID rq tok seed s i → evolves_in_quota s (reserve instanceID i s).
Proof.
  intros Hw Ha. assert (He : evolves s (reserve instanceID i s))
    by by eapply evolves_reserve, admitted_record.
  split; [done|]. intros _ [Q1 Q2].
  assert (Hc : ∀ p, count_if p (reserve instanceID i s) = (count_if p s + (if p i then 1 else 0))%Z).
  { intros p. rewrite !count_if_view, view_reserve by (done || by eapply evolves_wf).
    apply count_view_insert. apply view_None, Ha. done. }
  pose proof (adm_quota _ _ _ _ _ _ _ Ha) as A1. pose proof (adm_org _ _ _ _ _ _ _ Ha) as A2.
  destruct (adm_plan _ _ _ _ _ _ _ Ha) as (plan & _ & _ & Hi).
  assert (Horg : Instance.OrgGUID i = ProvisionRequest.OrganizationGUID rq) by by subst i.
  unfold quota, countInstances, countInstancesByOrg in *. split.
  - intros Hm. rewrite Hc. specialize (A1 Hm). destruct (active i); lia.
  - intros Hm org. rewrite Hc. specialize (A2 Hm). specialize (Q2 Hm org).
    destruct (String.eqb_spec (Instance.OrgGUID i) org) as [<-|]; simpl; [|lia].
    rewrite Horg in *. destruct (active i); lia.
Qed.
End Handlers.

(** * Properties *)

(** Requests that never raise a count but by the admission of Provision. *)
Definition frugal (r : Request) : Prop :=
  match r with
  | GetCatalog | PutInstance _ _ _ | PutBinding _ | DeleteBinding | GetAdminInstances => True
  | _ => False
  end.

Section Properties.
Context (b : Broker) `{!GoodBroker b}.

(** C3. Whatever requests are served concurrently, however their critical sections
    and their calls interleave and whatever the outside world answers: every
    instance the broker knows is filed under its own id and owns the deployment
    named after that id, so no two share one, and what is saved on disk has the
    same property; a record once created never changes its id, owner,
    organization, space, deployment, gateway token, node seed or route. *)
Theorem served_invariant s s' ps :
  wf s → served b (fun _ => True) (s, []) (s', ps) →
  (∀ id i, view s' !! id = Some i →
     Instance.ID i = id ∧ Instance.DeploymentName i = "openclaw-agent-" +:+ id) ∧
  (∀ id1 id2 i1 i2, view s' !! id1 = Some i1 → view s' !! id2 = Some i2 →
     Instance.DeploymentName i1 = Instance.DeploymentName i2 → id1 = id2) ∧
  (∀ n m, holds (disk s') n m → doc_ok m) ∧
  (∀ l i, heap s !! l = Some i → ∃ i', heap s' !! l = Some i' ∧ identity i' = identity i).
Proof.
  intros Hw Hs. destruct (served_evolves b _ _ _ Hs) as [[Hh _] Hw']; [done..|]. simpl in *.
  split_and!.
  - intros id i. by apply view_record_ok.
  - intros id1 id2 i1 i2 H1%view_record_ok H2%view_record_ok E; [|done..].
    destruct H1 as [_ H1], H2 as [_ H2]. rewrite H1, H2 in E. by injection E.
  - apply Hw'.
  - exact Hh.
Qed.

(** C6. The quotas hold under concurrency: as long as only provisions, bindings,
    unbindings, catalog and listing requests are served, from a store within the
    limits no interleaving ever exceeds them, in total or for any organization. *)
Theorem served_quota s s' ps :
  wf s → quota b s → served b frugal (s, []) (s', ps) → quota b s'.
Proof.
  intros Hw Hq Hs.
  destruct (pool_steps_in (fun p => ∃ r, frugal r ∧ p = handle b r) wf (evolves_in_quota b)
    (s, []) (s', ps)) as ((_ & Hq') & _); [intros ? ? ? [??]; by eapply evolves_wf| |done|done|done|by apply Hq'].
  intros p (r & Hr & ->). destruct r; try done.
  apply (Provision_steps_in b (evolves_in_quota b)). intros *. apply admitted_in_quota.
Qed.
End Properties.

(** ** Witnesses *)

Lemma initial_demo_wf : wf (initial_store FileSys.empty).
Proof. apply initial_wf; [done|]. by intros n m (text & ? & _). Qed.

(** Two clients of the demonstration broker, in turns. *)
Definition turns (a b c : nat) : list nat := repeat 0 a ++ repeat 1 b ++ repeat 0 c.

(** Serving two requests: both arrive, then the schedule runs. *)
Lemma serve_two b o `{!ValidOracle o} (P : Request → Prop) r0 r1 schedule s :
  P r0 → P r1 →
  served b P (s, []) ((execute o schedule s [] [handle b r0; handle b r1]).1.1,
                      (execute o schedule s [] [handle b r0; handle b r1]).2).
Proof.
  intros H0 H1. eapply rtc_l; [apply (pool_spawn _ s [] (handle b r0)); eauto|].
  eapply rtc_l; [apply (pool_spawn _ s [handle b r0] (handle b r1)); eauto|].
  apply execute_pool. apply _.
Qed.

(** Both requests ask for an instance of the same organization, whose limit is one. *)
Definition rival1 : Request := PutInstance "i-1" "true" (Some demo_request).
Definition rival2 : Request := PutInstance "i-2" "true" (Some demo_request).

Definition quota_rivals : Store * list event * list (prog Store Response) :=
  execute (demo_oracle 302 302 "done") (turns 2 40 40) (initial_store FileSys.empty) []
    [handle demo_broker rival1; handle demo_broker rival2].

Definition answers (ps : list (prog Store Response)) : list Z :=
  omap (fun p => match p with Ret r => Some (status r) | _ => None end) ps.

Lemma rivals_served (P : Request → Prop) : P rival1 → P rival2 →
  served demo_broker P (initial_store FileSys.empty, []) (quota_rivals.1.1, quota_rivals.2).
Proof. unfold quota_rivals. apply serve_two. apply _. Qed.

Lemma served_quota_witness :
  answers quota_rivals.2 = [202%Z; 422%Z] ∧ quota demo_broker quota_rivals.1.1.
Proof.
  split; [vm_compute; reflexivity|].
  apply (served_quota demo_broker (initial_store FileSys.empty) quota_rivals.1.1 quota_rivals.2
    initial_demo_wf); [|apply (rivals_served frugal I I)].
  split; intros _; [vm_compute; discriminate|]. intros org. vm_compute. discriminate.
Defined.

Lemma served_invariant_witness :
  ∃ i, view quota_rivals.1.1 !! "i-1" = Some i ∧ Instance.ID i = "i-1" ∧
    Instance.DeploymentName i = "openclaw-agent-i-1".
Proof.
  destruct (served_invariant demo_broker (initial_store FileSys.empty) quota_rivals.1.1 quota_rivals.2
    initial_demo_wf (rivals_served _ I I)) as [Hid _].
  destruct (view quota_rivals.1.1 !! "i-1") as [i|] eqn:E; [|vm_compute in E; discriminate].
  exists i. split; [reflexivity|exact (Hid "i-1" i E)].
Defined.

(** ** Races *)

(** A request for the organization that already has the demonstration instance. *)
Definition same_org_request : ProvisionRequest :=
  {| ProvisionRequest.ServiceID := "openclaw-service"; ProvisionRequest.PlanID := "openclaw-team-plan";
     ProvisionRequest.OrganizationGUID := "org"; ProvisionRequest.SpaceGUID := "space";
     ProvisionRequest.Parameters := ∅ |}.

(** With deletions in play the quotas do not hold: while the director is asked
    to delete the only instance an organization may have, a second one is
    admitted; the deletion fails, the first instance is restored, and the
    organization has two. *)
Theorem deprovision_exceeds_quota :
  quota demo_broker demo_store ∧
  ∃ s' ps, served demo_broker (fun _ => True) (demo_store, []) (s', ps) ∧
    answers ps = [500%Z; 202%Z] ∧ countInstancesByOrg "org" s' = 2%Z ∧
    BrokerConfig.MaxInstancesPerOrg (config demo_broker) = 1%Z.
Proof.
  split.
  { split; intros _; [vm_compute; discriminate|]. intros org.
    unfold countInstancesByOrg. rewrite count_if_view by exact demo_wf.
    change (view demo_store) with (<["i-1" := demo_instance]> (∅ : gmap string Instance)).
    rewrite count_view_insert by done. destruct (String.eqb_spec (Instance.OrgGUID demo_instance) org);
      vm_compute; discriminate. }
  eexists _, _. split.
  - apply (serve_two demo_broker (demo_oracle 302 500 "done") _ (DeleteInstance "i-1" "true")
      (PutInstance "i-2" "true" (Some same_org_request)) (turns 1 40 40)); exact I.
  - vm_compute. by split_and!.
Qed.

(** The demonstration store while its instance is being deployed as task 42. *)
Definition deploying_store : Store :=
  update 0 (fun i => Instance.set_BoshTaskID 42 (Instance.set_State "provisioning" i)) demo_store.

(** LastOperation checks, then acts: it reads that an instance is provisioning,
    a Deprovision of it is accepted and the director takes the DELETE, and then
    the poll, told that the deployment task is done, marks the instance ready. *)
Theorem last_operation_race :
  ∃ s' ps, served demo_broker (fun _ => True) (deploying_store, []) (s', ps) ∧
    answers ps = [200%Z; 202%Z] ∧
    (Instance.State <$> view s' !! "i-1") = Some "ready" ∧
    (Instance.BoshTaskID <$> view s' !! "i-1") = Some 43%Z.
Proof.
  eexists _, _. split.
  - apply (serve_two demo_broker (demo_oracle 302 302 "done") _ (GetLastOperation "i-1")
      (DeleteInstance "i-1" "true") (turns 1 40 40)); exact I.
  - vm_compute. by split_and!.
Qed.

(** Two saves share one temporary file: when a second one truncates it between
    the write and the rename of the first, the rename publishes an empty file. Here
    two polls of the same instance do it: the first has answered, the second is under
    way, the broker knows the instance, and a crash at that moment loses it. *)
Theorem saveState_race :
  ∃ s' ps, served demo_broker (fun _ => True) (deploying_store, []) (s', ps) ∧
    answers ps = [200%Z] ∧
    view s' !! "i-1" ≠ None ∧
    FileSys.read (state_path (BrokerConfig.StateDir (config demo_broker))) (disk s') =
      Some (FileSys.Data "").
Proof.
  eexists _, _. split.
  - apply (serve_two demo_broker (demo_oracle 302 302 "done") _ (GetLastOperation "i-1")
      (GetLastOperation "i-1") (1 :: turns 9 5 30)); exact I.
  - vm_compute. by split_and!.
Qed.

(** What a restart would read. *)
Definition on_disk (b : Broker) (s : Store) : option (gmap string Instance) :=
  match FileSys.read (state_path (BrokerConfig.StateDir (config b))) (disk s) with
  | Some (FileSys.Data text) => decode_state text
  | _ => None
  end.

(** A request of another organization. *)
Definition other_org_request : ProvisionRequest :=
  {| ProvisionRequest.ServiceID := "openclaw-service"; ProvisionRequest.PlanID := "openclaw-team-plan";
     ProvisionRequest.OrganizationGUID := "org-2"; ProvisionRequest.SpaceGUID := "space";
     ProvisionRequest.Parameters := ∅ |}.

(** The poll of an instance and a provision, the poll pausing after [n] steps. *)
Definition poll_and_provision (n : nat) : Store * list event * list (prog Store Response) :=
  execute (demo_oracle 302 302 "done") (turns n 60 60) deploying_store []
    [handle demo_broker (GetLastOperation "i-1");
     handle demo_broker (PutInstance "i-2" "true" (Some other_org_request))].

Lemma poll_and_provision_served n :
  served demo_broker (fun _ => True) (deploying_store, [])
    ((poll_and_provision n).1.1, (poll_and_provision n).2).
Proof. unfold poll_and_provision. apply serve_two; [apply _|exact I..]. Qed.

(** Saves do not exclude each other, so what two requests were promised can be
    lost without a crash and without a failed file operation. A poll takes its
    snapshot, a provision is accepted and saved, the poll writes its older snapshot:
    the accepted instance is missing from the state file. Or the poll opens the
    temporary file, the provision writes and renames it, and the poll writes its
    shorter text over the published file: nothing can be read back at all. Both
    requests have been answered with success. *)
Theorem concurrent_saves_lose :
  (∃ s' ps, served demo_broker (fun _ => True) (deploying_store, []) (s', ps) ∧
    answers ps = [200%Z; 202%Z] ∧ view s' !! "i-2" ≠ None ∧
    (fun m : gmap string Instance => (m !! "i-1", m !! "i-2")) <$> on_disk demo_broker s' =
      Some (view s' !! "i-1", None)) ∧
  (∃ s' ps, served demo_broker (fun _ => True) (deploying_store, []) (s', ps) ∧
    answers ps = [200%Z; 202%Z] ∧ on_disk demo_broker s' = None ∧
    ∃ text, FileSys.read (state_path (BrokerConfig.StateDir (config demo_broker))) (disk s') =
      Some (FileSys.Data text)).
Proof.
  split; eexists _, _.
  - split; [apply (poll_and_provision_served 4)|]. vm_compute. by split_and!.
  - split; [apply (poll_and_provision_served 6)|]. split; [vm_compute; reflexivity|].
    split; [vm_compute; reflexivity|].
    assert (H : match FileSys.read (state_path (BrokerConfig.StateDir (config demo_broker)))
        (disk (poll_and_provision 6).1.1) with Some (FileSys.Data _) => true | _ => false end = true)
      by (vm_compute; reflexivity).
    destruct (FileSys.read _ _) as [[text|]|]; [by exists text|discriminate H..].
Qed.
