(* ===== verification/Typed.v ===== *)
(** * The types the records keep

    Every record the broker holds or has saved is well typed: its texts are
    well-formed UTF-8, its task id is a machine integer, its state one of the four
    the code knows; and its route is made of its id. That is what the state file can hold, so nothing is lost in it. *)

From S2P Require Import Prelude GoStrings Json JsonFacts JsonRead Encoding Policy Hostname Prog Template Manifest Tokens BoshClient UaaClient Broker StateFile Store Provision Update Deprovision LastOperation Binding Catalog Admin Concurrency.

(** ** Well-typed records *)

Definition texts (i : Instance) : list string :=
  [Instance.ID i; Instance.PlanID i; Instance.PlanName i; Instance.Owner i; Instance.OrgGUID i;
   Instance.SpaceGUID i; Instance.DeploymentName i; Instance.GatewayToken i; Instance.NodeSeed i;
   Instance.RouteHostname i; Instance.AppsDomain i; Instance.VMType i; Instance.DiskType i;
   Instance.SSOClientID i; Instance.SSOClientSecret i; Instance.SSOCookieSecret i;
   Instance.OpenClawVersion i].

Definition all_utf8 : list string → Prop := Forall (fun s => valid_utf8 s = true).

(** The comment in the struct: provisioning, ready, deprovisioning, failed. *)
Definition states : list string := ["provisioning"; "ready"; "deprovisioning"; "failed"].

Definition typed_fields (i : Instance) : Prop :=
  all_utf8 (texts i) ∧ Instance.State i ∈ states ∧ in_int64 (Instance.BoshTaskID i) = true.

(** The route is made of the id and the name of some owner; the record of an orphan
    has none. *)
Definition routed (i : Instance) : Prop :=
  Instance.RouteHostname i = "" ∨ ∃ owner, Instance.RouteHostname i =
    Hostname.uniqueRouteHostname (Hostname.sanitizedOwner owner) (Instance.ID i).

Definition typed_record (i : Instance) : Prop := typed_fields i ∧ routed i.

Definition typed_doc (m : gmap string Instance) : Prop := map_Forall (fun _ => typed_record) m.

Record typed (s : Store) : Prop := {
  typed_heap : Forall typed_record (heap s);
  typed_docs n m : holds (disk s) n m → typed_doc m;
}.

(** ** Well-typed configurations and requests *)

Definition typed_plan (p : Plan) : Prop :=
  all_utf8 [Plan.ID p; Plan.Name p; Plan.VMType p; Plan.DiskType p].

Definition typed_config (c : BrokerConfig) : Prop :=
  all_utf8 [BrokerConfig.AppsDomain c; BrokerConfig.OpenClawVersion c] ∧
  Forall typed_plan (BrokerConfig.Plans c).

Definition typed_request (r : Request) : Prop :=
  match r with
  | PutInstance id _ (Some req) =>
      all_utf8 [ProvisionRequest.OrganizationGUID req; ProvisionRequest.SpaceGUID req;
                request_owner req]
  | PatchInstance id _ _ | DeleteInstance id _ => valid_utf8 id = true
  | _ => True
  end.

(** ** Records *)

Lemma utf8_record i : all_utf8 (texts i) → Instance.State i ∈ states → utf8_instance i = i.
Proof.
  destruct i. unfold all_utf8, texts, utf8_instance. cbn. rewrite !Forall_cons. intros H Hs.
  destruct_and!. f_equal; try (by apply valid_utf8_eq).
  unfold states in Hs. rewrite !elem_of_cons in Hs.
  destruct Hs as [-> |[-> |[-> |[-> |Hs]]]]; [done..|]. by apply elem_of_nil in Hs.
Qed.

Lemma typed_storable m : doc_ok m → typed_doc m → storable m.
Proof.
  intros Hd Ht k i Hi. destruct (Ht k i Hi) as [(Hu & Hs & Hz) _]. destruct (Hd k i Hi) as [<- _].
  split_and!; [|by apply utf8_record|done]. unfold all_utf8, texts in Hu. by apply Forall_cons in Hu as [? _].
Qed.

(** Assignments to the fields. *)
Lemma typed_set_State st i : st ∈ states → typed_record i → typed_record (Instance.set_State st i).
Proof. intros Hst [(? & ? & ?) ?]. by repeat split. Qed.

Lemma typed_set_task t i : in_int64 t = true → typed_record i → typed_record (Instance.set_BoshTaskID t i).
Proof. intros Ht [(? & ? & ?) ?]. by repeat split. Qed.

Ltac typed_texts :=
  unfold typed_record, typed_fields, typed_plan, all_utf8, texts in *; cbn in *; rewrite ?Forall_cons in *;
  destruct_and?; split_and!; try done.

Lemma typed_set_SSOEnabled v i : typed_record i → typed_record (Instance.set_SSOEnabled v i).
Proof. done. Qed.
Lemma typed_set_SSOClientID v i :
  valid_utf8 v = true → typed_record i → typed_record (Instance.set_SSOClientID v i).
Proof. intros. typed_texts. Qed.
Lemma typed_set_SSOClientSecret v i :
  valid_utf8 v = true → typed_record i → typed_record (Instance.set_SSOClientSecret v i).
Proof. intros. typed_texts. Qed.
Lemma typed_set_SSOCookieSecret v i :
  valid_utf8 v = true → typed_record i → typed_record (Instance.set_SSOCookieSecret v i).
Proof. intros. typed_texts. Qed.
Lemma typed_set_OpenClawVersion v i :
  valid_utf8 v = true → typed_record i → typed_record (Instance.set_OpenClawVersion v i).
Proof. intros. typed_texts. Qed.
Lemma typed_set_plan p i :
  typed_plan p → typed_record i →
  typed_record (Instance.set_plan (Plan.ID p) (Plan.Name p) (Plan.VMType p) (Plan.DiskType p) i).
Proof. intros. typed_texts. Qed.

(** ** Stores *)

(** What a handler relies on at each of its steps, and what it guarantees. *)
Definition sound (s : Store) : Prop := wf s ∧ typed s.

Definition keeps_types (s s' : Store) : Prop := typed s → typed s'.

#[export] Instance keeps_types_preorder : PreOrder keeps_types.
Proof. split; [by intros s ?|]. intros s1 s2 s3 H12 H23 H. auto. Qed.

Lemma typed_update l f s : (∀ i, typed_record i → typed_record (f i)) → keeps_types s (update l f s).
Proof. intros Hf [Hh Hd]. split; [|done]. simpl. by apply Forall_alter; auto. Qed.

Lemma typed_put l i s : typed_record i → keeps_types s (put l i s).
Proof. intros Hi [Hh Hd]. split; [|done]. by apply Forall_insert. Qed.

Lemma typed_reserve id i s : typed_record i → keeps_types s (reserve id i s).
Proof. intros Hi [Hh Hd]. split; [|done]. simpl. apply Forall_app. split; [done|by apply Forall_singleton]. Qed.

Lemma typed_map_delete id s : keeps_types s (map_delete id s).
Proof. by intros [Hh Hd]. Qed.

Lemma typed_same s s' : same s s' → keeps_types s s'.
Proof. intros (_ & E2 & _ & E4) [Hh Hd]. split; [by rewrite E2|by rewrite E4]. Qed.

Lemma typed_lookup s l i : typed s → heap s !! l = Some i → typed_record i.
Proof. intros [Hh _]. by eapply Forall_lookup_1. Qed.

Lemma typed_view s : typed s → typed_doc (view s).
Proof.
  intros Ht id i. rewrite lookup_view. destruct (instances s !! id); [|done]. by apply typed_lookup.
Qed.

Lemma sound_storable s : sound s → storable (view s).
Proof. intros [Hw Ht]. apply typed_storable; [by apply doc_ok_view|by apply typed_view]. Qed.

(** What is read of a file that a save wrote is what was saved. *)
Lemma read_saved s u m : sound s → decode_state (state_text (view s) +:+ u) = Some m → m = view s.
Proof.
  intros Hs. destruct (blank u) eqn:Hu.
  - rewrite decode_state_storable; [congruence|by apply sound_storable|done].
  - by rewrite decode_state_text, Hu.
Qed.

Lemma saveState_typed b : steps_in sound keeps_types (saveState b).
Proof.
  apply saveState_steps_in; [by intros s ?|]. intros s d _ [_ Hd] [Hh Hdocs]. split; [done|].
  intros n m [?|(s0 & u & Hs0 & Hu)]%Hd; [by eapply Hdocs|].
  rewrite (read_saved _ _ _ Hs0 Hu). by apply typed_view, Hs0.
Qed.

Lemma same_typed {A} (p : prog Store A) :
  steps_in (fun _ => True) same p → steps_in sound keeps_types p.
Proof. apply steps_in_mono; [done|apply typed_same]. Qed.

(** A last assignment, the save, the answer. *)
Lemma finish_typed b f (r : Response) : (∀ s, keeps_types s (f s)) →
  steps_in sound keeps_types (writes f >>> saveState b >>> Ret r).
Proof.
  intros Hf. apply steps_in_writes_bind; [auto|]. apply steps_in_bind; [apply saveState_typed|done].
Qed.

(** ** Generated credentials *)

Lemma url_safe_ascii c : Tokens.url_safe c = true → is_ascii c = true.
Proof. by_bytes c. Qed.

Lemma valid_url_safe s : sall Tokens.url_safe s = true → valid_utf8 s = true.
Proof. intros H. eapply valid_ascii, sall_impl, H. apply url_safe_ascii. Qed.

Definition typed_generator (g : Generator) : Prop := ∀ bs, valid_utf8 (gen_text g bs) = true.

Lemma raw_prefix_valid p bs : sall Tokens.url_safe p = true →
  valid_utf8 (p +:+ EncodeToString RawURLEncoding bs) = true.
Proof. intros Hp. apply valid_url_safe. by rewrite sall_app, Hp, Tokens.raw_url_safe. Qed.

Lemma gateway_typed : typed_generator Tokens.GenerateGatewayToken.
Proof. intros bs. by apply raw_prefix_valid. Qed.
Lemma seed_typed : typed_generator Tokens.GenerateNodeSeed.
Proof. intros bs. by apply raw_prefix_valid. Qed.
Lemma cookie_typed : typed_generator Tokens.GenerateCookieSecret.
Proof. intros bs. by apply (raw_prefix_valid ""). Qed.
Lemma secret_typed : typed_generator Tokens.GenerateClientSecret.
Proof. intros bs. apply valid_url_safe, sall_hex, Tokens.hex_letter. Qed.

Lemma generated_valid gens bs n : Forall typed_generator gens →
  valid_utf8 (nth n (generated gens bs) "") = true.
Proof.
  intros H. revert n bs. induction H as [|g gens Hg _ IH]; intros n bs; [by destruct n|].
  destruct bs as [|x bs]; [by destruct n|]. destruct n as [|n]; [apply Hg|apply IH].
Qed.

Lemma generate_yields g : typed_generator g → yields (S := Store) (fun t => valid_utf8 t = true) (generate g).
Proof. intros Hg x. apply Hg. Qed.

(** ** The handlers *)

Section Handlers.
Context (b : Broker) `{!GoodBroker b}.
Context (Hconfig : typed_config (config b)).

Lemma default_plans_typed : Forall typed_plan defaultPlans.
Proof. unfold typed_plan, all_utf8. by repeat (constructor; [by repeat constructor|]). Qed.

Lemma plans_typed : Forall typed_plan (plans_of (config b)).
Proof.
  unfold plans_of. destruct Hconfig as [_ H]. destruct (BrokerConfig.Plans (config b)); [|done].
  apply default_plans_typed.
Qed.

Lemma findPlan_typed id p : findPlan (config b) id = Some p → typed_plan p ∧ Plan.ID p = id.
Proof.
  unfold findPlan. intros [Hin E]%find_some. apply String.eqb_eq in E. split; [|done].
  pose proof plans_typed as H. rewrite Forall_forall in H. by apply H, list_elem_of_In.
Qed.

Lemma deployment_valid id : valid_utf8 id = true → valid_utf8 (deploymentName id) = true.
Proof. intros. by apply (valid_app "openclaw-agent-"). Qed.

Lemma hostname_valid owner id : sall Hostname.dns_char owner = true →
  valid_utf8 (Hostname.uniqueRouteHostname owner id) = true.
Proof.
  intros Ho. eapply valid_ascii, sall_impl, Hostname.uniqueRouteHostname_dns, Ho.
  intros c. by_bytes c.
Qed.

(** The new records. *)
Lemma new_instance_typed id rq plan tok seed :
  all_utf8 [id; ProvisionRequest.OrganizationGUID rq; ProvisionRequest.SpaceGUID rq; request_owner rq; tok; seed] →
  typed_plan plan → Plan.ID plan = ProvisionRequest.PlanID rq →
  typed_record (new_instance b id rq plan tok seed).
Proof.
  intros H Hp Hid. split; [|by right; exists (request_owner rq)]. pose proof (proj1 Hconfig) as Hc.
  pose proof (deployment_valid id ltac:(by apply Forall_cons in H as [? _])) as Hd.
  pose proof (hostname_valid (Hostname.sanitizedOwner (request_owner rq)) id
    (proj1 (Hostname.sanitizedOwner_spec _))) as Hh.
  unfold new_instance. revert Hd Hh. generalize (deploymentName id), (Hostname.uniqueRouteHostname
    (Hostname.sanitizedOwner (request_owner rq)) id). rewrite <- Hid.
  intros d h Hd Hh. typed_texts. by left.
Qed.

Lemma recovered_instance_typed id plan tok seed :
  all_utf8 [id; tok; seed] → typed_plan plan → typed_record (recovered_instance b id plan tok seed).
Proof.
  intros H Hp. split; [|by right; exists "recovered"]. pose proof (proj1 Hconfig) as Hc.
  pose proof (deployment_valid id ltac:(by apply Forall_cons in H as [? _])) as Hd.
  pose proof (hostname_valid "recovered" id eq_refl) as Hh. unfold recovered_instance. revert Hd Hh.
  generalize (deploymentName id), (Hostname.uniqueRouteHostname "recovered" id).
  intros d h Hd Hh. typed_texts. by left.
Qed.

Lemma orphan_instance_typed id : valid_utf8 id = true → typed_record (orphan_instance id).
Proof.
  intros H. split; [|by left]. pose proof (deployment_valid id H) as Hd. unfold orphan_instance. revert Hd.
  generalize (deploymentName id). intros d Hd. typed_texts. by right; right; left.
Qed.

(** ** The steps of the handlers *)

Lemma render_yields params msg :
  yields (fun r => ∀ t, r = Ok t → in_int64 t = true) (render_and_deploy b params msg).
Proof.
  unfold render_and_deploy. destruct (Manifest.RenderAgentManifest params); [|done].
  apply (yields_bind task_range); [apply deploy_range|]. intros [t|e] Ht; [|done].
  intros t' [= <-]. by apply Ht.
Qed.

Lemma render_typed params msg : steps_in sound keeps_types (render_and_deploy b params msg).
Proof.
  unfold render_and_deploy. destruct (Manifest.RenderAgentManifest params); [|done].
  apply steps_in_bind; [apply same_typed, good_director|]. by intros [?|?].
Qed.

(** A deploy and what follows: a task id that fits, or a refusal. *)
Lemma deploy_typed {B} params msg (h : result Response Z → prog Store B) :
  (∀ t, in_int64 t = true → steps_in sound keeps_types (h (Ok t))) →
  (∀ r, steps_in sound keeps_types (h (Err r))) →
  steps_in sound keeps_types (bind (render_and_deploy b params msg) h).
Proof.
  intros Hok Herr. eapply steps_in_bind_yields; [apply render_yields|apply render_typed|].
  intros [t|r] Ht; [by apply Hok, Ht|apply Herr].
Qed.

Lemma client_id_valid id : valid_utf8 id = true → valid_utf8 (Tokens.ClientIDForInstance id) = true.
Proof. intros. by apply (valid_app "openclaw-"). Qed.

Lemma setup_sso_typed id h l : valid_utf8 id = true → steps_in sound keeps_types (setup_sso b id h l).
Proof.
  intros Hid. unfold setup_sso. apply steps_in_reads_bind; [done|]. intros s _.
  destruct (Instance.SSOEnabled _); [|done].
  assert (Hoff : steps_in sound keeps_types (writes (update l (Instance.set_SSOEnabled false))))
    by (apply steps_in_writes; intros; by apply typed_update).
  destruct (uaaClient b) as [uaa|] eqn:Hr; [|done].
  eapply steps_in_bind_yields; [apply generate_yields, secret_typed|done|]. intros secret Hs.
  eapply steps_in_bind_yields; [apply generate_yields, cookie_typed|done|]. intros cookie Hc.
  apply steps_in_bind; [pose proof (good_registry uaa Hr); apply same_typed, create_frame|].
  intros [e|]; [done|]. pose proof (client_id_valid id Hid).
  apply steps_in_writes_bind; [intros; apply typed_update; intros; by apply typed_set_SSOClientID|].
  apply steps_in_writes_bind; [intros; apply typed_update; intros; by apply typed_set_SSOClientSecret|].
  apply steps_in_writes. intros. apply typed_update. intros. by apply typed_set_SSOCookieSecret.
Qed.

Lemma deploy_reserved_typed id h l : valid_utf8 id = true →
  steps_in sound keeps_types (deploy_reserved b id h l).
Proof.
  intros Hid. unfold deploy_reserved. apply steps_in_bind; [by apply setup_sso_typed|]. intros _.
  apply steps_in_reads_bind; [done|]. intros s _. apply deploy_typed.
  - intros t Ht. apply finish_typed. intros s'. apply typed_update. intros i. by apply typed_set_task.
  - intros r. apply steps_in_writes_bind; [intros; apply typed_map_delete|done].
Qed.

Lemma valid_id id : Hostname.validInstanceID id = true → valid_utf8 id = true.
Proof. intros. by apply valid_ascii, Hostname.valid_id_ascii. Qed.

Lemma credentials_typed id req s : Forall typed_generator (credential_generators b id req s).
Proof.
  unfold credential_generators. destruct (is_ok _); [|done].
  repeat constructor; [apply gateway_typed|apply seed_typed].
Qed.

Lemma Provision_typed id accepts req : typed_request (PutInstance id accepts req) →
  steps_in sound keeps_types (Provision b id accepts req).
Proof.
  intros Hr. unfold Provision. destruct (Hostname.validInstanceID id) eqn:Hv; [|done]. cbn [negb].
  apply valid_id in Hv. destruct (negb _); [done|]. destruct req as [req|]; [|done].
  apply steps_in_locked_gen.
  - intros s bs Hs. unfold admit_and_reserve.
    destruct (admission _ _ _ _ _ s) as [i|r] eqn:E; [|done].
    apply admit_ok, adm_plan in E as (plan & [Hp Hid]%findPlan_typed & _ & ->).
    apply typed_reserve, (new_instance_typed _ _ plan); [|done|done].
    apply Forall_cons; split; [done|]. apply (Forall_app_2 _ [_; _; _]); [done|].
    repeat constructor; apply generated_valid, credentials_typed.
  - intros s bs _. destruct (_.2); [by apply deploy_reserved_typed|done].
Qed.

Lemma replan_typed planID i i' : typed_record i → replan b planID i = Some i' → typed_record i'.
Proof.
  intros Hi. unfold replan. destruct (_ && _); [|by intros [= <-]].
  destruct (findPlan _ _) as [p|] eqn:E; [|done]. apply findPlan_typed in E as [Hp <-].
  intros [= <-]. by apply typed_set_plan.
Qed.

Lemma recovery_typed id planID s : Forall typed_generator (recovery_generators b id planID s).
Proof.
  unfold recovery_generators. destruct (instances s !! id), (recovery_plan b planID); try done.
  repeat constructor; [apply gateway_typed|apply seed_typed].
Qed.

Lemma prepare_update_typed id planID tok seed s : all_utf8 [id; tok; seed] → sound s →
  keeps_types s (prepare_update b id planID tok seed s).1.
Proof.
  intros Hv [Hw Ht]. unfold prepare_update. destruct (instances s !! id) as [l|] eqn:El.
  - destruct (wf_lookup s id l Hw El) as (i & Hi & -> & _).
    destruct (replan b planID i) as [i'|] eqn:E; [|done]. apply typed_put. eapply replan_typed, E.
    by eapply typed_lookup.
  - destruct (recovery_plan_some b planID) as (plan & -> & Hin). apply typed_reserve.
    apply recovered_instance_typed; [done|]. pose proof plans_typed as H.
    rewrite Forall_forall in H. by apply H.
Qed.

Lemma Update_typed id accepts req : valid_utf8 id = true →
  steps_in sound keeps_types (Update b id accepts req).
Proof.
  intros Hid. unfold Update. destruct (negb _); [done|]. destruct req as [req|]; [|done].
  apply steps_in_locked_gen.
  - intros s bs. apply prepare_update_typed.
    repeat (constructor; [first [done|apply generated_valid, recovery_typed]|]). constructor.
  - intros s bs _. destruct (_.2) as [[l params]|r]; [|done]. apply deploy_typed; [|done].
    intros t Ht. apply finish_typed. intros s'. apply typed_update. intros i Hi.
    apply typed_set_task, typed_set_State; [done|by left|done].
Qed.

Lemma delete_deployment_typed id n l undo failed : (∀ s, keeps_types s (undo s)) →
  steps_in sound keeps_types (delete_deployment b id n l undo failed).
Proof.
  intros Hundo. unfold delete_deployment.
  apply steps_in_bind; [apply same_typed, deleteUAAClient_same; apply _|]. intros _.
  eapply steps_in_bind_yields; [apply delete_range|apply same_typed, good_director|].
  intros [t|e] Ht; [|apply steps_in_writes_bind; [auto|done]].
  apply finish_typed. intros s. apply typed_update. intros i. by apply typed_set_task, Ht.
Qed.

Lemma Deprovision_typed id accepts : valid_utf8 id = true →
  steps_in sound keeps_types (Deprovision b id accepts).
Proof.
  intros Hid. unfold Deprovision. destruct (negb _); [done|]. unfold mark_deprovisioning.
  apply steps_in_atomic_bind.
  - intros s _. destruct (instances s !! id); [|by apply typed_reserve, orphan_instance_typed].
    destruct (String.eqb _ _); [done|]. apply typed_update. intros i.
    apply typed_set_State. by right; right; left.
  - intros s [Hw Ht]. destruct (instances s !! id) as [l|] eqn:El;
      [|apply delete_deployment_typed; intros; apply typed_map_delete].
    destruct (wf_lookup s id l Hw El) as (i & Hi & -> & _). destruct (String.eqb _ _); [done|].
    apply delete_deployment_typed. intros s'. apply typed_update. intros i'. apply typed_set_State.
    by apply (typed_lookup s l i Ht Hi).
Qed.

Lemma LastOperation_typed id : steps_in sound keeps_types (LastOperation b id).
Proof.
  unfold LastOperation. apply steps_in_reads_bind; [done|]. intros s _.
  destruct (poll id s) as [[[l st] t]|]; [|done].
  assert (Hts : steps_in sound keeps_types (task_state b t))
    by (apply steps_in_bind; [apply same_typed, good_director|done]).
  repeat (destruct (String.eqb st _); [|try done]); try done;
    (destruct (t =? 0)%Z; [done|]); (apply steps_in_bind; [done|]);
    intros ts; repeat (case_match; try done); apply finish_typed; intros s';
    first [apply typed_map_delete | apply typed_update; intros i; apply typed_set_State; by repeat constructor].
Qed.

Lemma upgrade_all_typed version cs n : valid_utf8 version = true →
  steps_in sound keeps_types (upgrade_all b version cs n).
Proof.
  intros Hv. revert n. induction cs as [|l cs IH]; intros n; [done|]. cbn [upgrade_all].
  apply steps_in_reads_bind; [done|]. intros s _. apply deploy_typed; [|intros r; apply IH].
  intros t Ht. apply steps_in_writes_bind.
  - intros s' _. apply typed_update. intros i Hi.
    apply typed_set_OpenClawVersion, typed_set_task, typed_set_State; [done|done|by left|done].
  - apply steps_in_writes_bind; [by intros s' _ [??]|apply IH].
Qed.

Lemma check_all_typed tasks c : steps_in sound keeps_types (check_all b tasks c).
Proof.
  revert c. induction tasks as [|[id t] tasks IH]; intros c; [done|]. cbn [check_all].
  apply steps_in_bind; [apply same_typed, good_director|].
  assert (Hmark : ∀ st s, st ∈ states → keeps_types s (mark id st s)).
  { intros st s Hst. unfold mark. destruct (instances s !! id); [|done].
    apply typed_update. intros i. by apply typed_set_State. }
  intros [st|e]; [|apply IH]. repeat case_match; try apply IH;
    (apply steps_in_writes_bind; [intros s _; apply Hmark; by repeat constructor|apply IH]).
Qed.

Lemma handle_typed r : typed_request r → steps_in sound keeps_types (handle b r).
Proof.
  pose proof (proj1 Hconfig) as Hc. unfold all_utf8 in Hc. rewrite !Forall_cons in Hc.
  destruct r as [|id a body|id a body|id a|id|id| | |body|]; cbn [handle]; intros Hr.
  - done.
  - by apply Provision_typed.
  - by apply Update_typed.
  - by apply Deprovision_typed.
  - apply LastOperation_typed.
  - by apply steps_in_reads_bind.
  - done.
  - by apply steps_in_reads_bind.
  - destruct body as [body|]; [|done]. unfold AdminUpgrade. destruct (_ <=? 0)%Z; [done|].
    apply steps_in_reads_bind; [done|]. intros s _ keys _.
    apply steps_in_bind; [apply upgrade_all_typed; tauto|]. intros n.
    apply steps_in_bind; [apply saveState_typed|done].
  - unfold AdminUpgradeStatus. apply steps_in_reads_bind; [done|]. intros s _ keys _.
    apply steps_in_bind; [apply check_all_typed|]. intros c.
    apply steps_in_bind; [apply saveState_typed|done].
Qed.

(** The steps of a handler keep the store well formed and well typed. *)
Definition soundly (s s' : Store) : Prop := evolves s s' ∧ keeps_types s s'.

#[export] Instance soundly_preorder : PreOrder soundly.
Proof. split; [by split|]. intros s1 s2 s3 [??] [??]. by split; etrans. Qed.

Lemma soundly_sound s s' : sound s → soundly s s' → sound s'.
Proof. intros [Hw Ht] [He Hk]. split; [by eapply evolves_wf|auto]. Qed.

Lemma handle_soundly r : typed_request r → steps_in sound soundly (handle b r).
Proof.
  intros Hr. apply steps_in_and; [|by apply handle_typed].
  eapply steps_in_mono, (handle_steps b); [by intros s [? _]|done].
Qed.

(** Served alone, a request leaves a sound store. *)
Lemma handle_sound r s : typed_request r → sound s →
  wp (handle b r) s [] (fun _ s' _ => sound s').
Proof.
  intros Hr Hs. eapply wp_mono, (steps_in_wp sound soundly _ s s); [by intros ??? [_ ?]| | |by apply handle_soundly|done];
    [apply soundly_sound|done].
Qed.

Lemma served_sound c c' : served b typed_request c c' → sound c.1 →
  Forall (steps_in sound soundly) c.2 → sound c'.1.
Proof.
  intros Hs Hc Hps. edestruct (pool_steps_in (fun p => ∃ r, typed_request r ∧ p = handle b r)
    sound soundly) as (_ & ? & _); [apply soundly_sound| |exact Hs|done|done|done].
  intros p (r & Hr & ->). by apply handle_soundly.
Qed.
End Handlers.

(** * Property *)


Lemma initial_typed d : (∀ n m, ¬ holds d n m) → typed (initial_store d).
Proof. intros H. split; [done|]. intros n m Hn. by destruct (H n m). Qed.

Lemma empty_holds n m : ¬ holds FileSys.empty n m.
Proof. by intros (text & ? & _). Qed.

Lemma demo_config_typed : typed_config (config demo_broker).
Proof. split; [|constructor]. by repeat (constructor; [vm_compute; reflexivity|]). Qed.

Lemma rival_typed id : typed_request (PutInstance id "true" (Some demo_request)).
Proof. by repeat (constructor; [vm_compute; reflexivity|]). Qed.

