(* ===== verification/Restarts.v ===== *)
(** * Restarts

    What a new process reads back from the state directory of an old one: loading
    keeps the store well formed and well typed when the readable documents are. *)

From S2P Require Import Prelude GoStrings Json Prog BoshClient UaaClient Broker StateFile Store Concurrency Typed.

Section Restarts.
Context (b : Broker).

(** ** Loading *)

Lemma read_holds path d text m :
  FileSys.read path d = Some (FileSys.Data text) → decode_state text = Some m → ∃ n, holds d n m.
Proof.
  unfold FileSys.read. destruct (FileSys.names d !! path) as [n|]; [|done]. intros Hn Hm. by exists n, text.
Qed.

(** A loaded entry points to its record. *)
Lemma load_entries_points (l : list (string * Instance)) s id k :
  instances (load_entries l s) !! id = Some k →
  ∃ i, heap (load_entries l s) !! k = Some i ∧ (id, i) ∈ l.
Proof.
  simpl. intros Hk%elem_of_list_to_map_2. apply list_elem_of_lookup in Hk as [j Hj].
  apply lookup_zip_Some in Hj as [H1 H2].
  apply lookup_seq in H2 as [-> Hj]. rewrite list_lookup_fmap in H1.
  destruct (l !! j) as [[id' i]|] eqn:E; [|done]. injection H1 as ->. exists i.
  split; [|by eapply list_elem_of_lookup_2].
  rewrite lookup_app_r by lia. replace (length (heap s) + j - length (heap s))%nat with j by lia.
  by rewrite list_lookup_fmap, E.
Qed.

Lemma load_sound m s : doc_ok m → typed_doc m → sound s → sound (load_entries (map_to_list m) s).
Proof.
  intros Hd Ht [[W1 W2 W3] [T1 T2]]. split; split; [|done|done| |done].
  - intros id l (i & Hi & Hin)%load_entries_points. exists i. split; [done|].
    by apply Hd, elem_of_map_to_list.
  - simpl. apply Forall_app. split; [done|]. apply Forall_forall.
    intros i ([id i'] & -> & Hin)%list_elem_of_fmap. apply elem_of_map_to_list in Hin. by apply (Ht id).
Qed.

Definition keeps_sound (s s' : Store) : Prop := sound s → sound s'.

#[export] Instance keeps_sound_preorder : PreOrder keeps_sound.
Proof. split; [by intros s ?|]. intros s1 s2 s3 ???. auto. Qed.

Lemma loadState_sound : steps_in sound keeps_sound (loadState b).
Proof.
  unfold loadState. destruct (String.eqb _ ""); [done|]. intros [e|]; [done|].
  apply steps_in_writes. intros s _ Hs. destruct (FileSys.read _ _) as [[text|]|] eqn:E; [|done..].
  destruct (decode_state text) as [m|] eqn:Em; [|done]. destruct (read_holds _ _ _ _ E Em) as [n Hn].
  apply load_sound; [by eapply Hs|by eapply Hs|done].
Qed.

(** The store a crash leaves to the next process. *)
Lemma initial_sound s : sound s → sound (initial_store (disk s)).
Proof. intros [[W1 W2 W3] [T1 T2]]. split; [by apply initial_wf|by split]. Qed.
End Restarts.
