(* ===== verification/Lifecycle.v ===== *)
(** * The service contract: an abstract life cycle, and that the broker refines it

    An abstract broker knows a phase for every instance id. [lifecycle] says which
    changes of that map a request may make and with which status; the handlers,
    run one after the other, make no other. *)

From S2P Require Import Prelude GoStrings Json Prog BoshClient UaaClient Broker StateFile Store Provision Update Deprovision LastOperation Binding Catalog Admin Concurrency.

(** ** The abstract broker *)

Inductive phase : Type := Deploying | Ready | Failed | Deleting.

#[export] Instance phase_eq_dec : EqDecision phase.
Proof. solve_decision. Defined.

Notation phases := (gmap string phase).

(** A change of some of the ids: [R id p p'] for every id that has a phase. *)
Definition pointwise (R : string → phase → phase → Prop) (m m' : phases) : Prop :=
  ∀ id, option_relation (R id) (fun _ => False) (fun _ => False) (m !! id) (m' !! id).

Inductive lifecycle (m : phases) : Request → Z → phases → Prop :=
(** Reading requests. *)
| life_catalog : lifecycle m GetCatalog 200 m
| life_list : lifecycle m GetAdminInstances 200 m
| life_unbind : lifecycle m DeleteBinding 200 m
| life_bind id : m !! id = Some Ready → lifecycle m (PutBinding id) 201 m
| life_bind_not_ready id p : m !! id = Some p → p ≠ Ready → lifecycle m (PutBinding id) 422 m
| life_bind_unknown id : m !! id = None → lifecycle m (PutBinding id) 404 m
(** Creating: a new id starts deploying, a refusal changes nothing. *)
| life_provision id a body : m !! id = None →
    lifecycle m (PutInstance id a body) 202 (<[id := Deploying]> m)
| life_provision_refused id a body st : st ≠ 202%Z → lifecycle m (PutInstance id a body) st m
(** Updating: accepted, the instance is deploying; a failed recovery of an unknown
    id leaves it deploying too; any other refusal changes no phase. *)
| life_update id a body : lifecycle m (PatchInstance id a body) 202 (<[id := Deploying]> m)
| life_update_recovery id a body : m !! id = None →
    lifecycle m (PatchInstance id a body) 500 (<[id := Deploying]> m)
| life_update_refused id a body st : st ≠ 202%Z → lifecycle m (PatchInstance id a body) st m
(** Deleting: accepted, the instance is being deleted; a refusal changes nothing. *)
| life_delete id a : lifecycle m (DeleteInstance id a) 202 (<[id := Deleting]> m)
| life_delete_refused id a st : st ≠ 202%Z → lifecycle m (DeleteInstance id a) st m
(** Polling settles an operation, or changes nothing. *)
| life_poll id st : lifecycle m (GetLastOperation id) st m
| life_poll_deployed id p : m !! id = Some Deploying → p = Ready ∨ p = Failed →
    lifecycle m (GetLastOperation id) 200 (<[id := p]> m)
| life_poll_deleted id : m !! id = Some Deleting →
    lifecycle m (GetLastOperation id) 200 (delete id m)
(** Upgrades redeploy instances that are not being deleted; checks settle tracked ones. *)
| life_upgrade body st m' :
    pointwise (fun _ p p' => p' = p ∨ (p ≠ Deleting ∧ p' = Deploying)) m m' →
    lifecycle m (PostAdminUpgrade body) st m'
| life_status m' :
    pointwise (fun _ p p' => p' = p ∨ p' = Ready ∨ p' = Failed) m m' →
    lifecycle m GetAdminUpgradeStatus 200 m'.

(** ** The abstraction *)

(** The phase of a state. The code writes four states; any other one, from a state
    file, is treated as still in progress. *)
Definition phase_of (state : string) : phase :=
  if String.eqb state "ready" then Ready
  else if String.eqb state "failed" then Failed
  else if String.eqb state "deprovisioning" then Deleting
  else Deploying.

Definition phases_of (s : Store) : phases := (fun i => phase_of (Instance.State i)) <$> view s.

Section Refinement.
Context (b : Broker) `{!GoodBroker b}.

Lemma phases_insert s s' id i : view s' = <[id := i]> (view s) →
  phases_of s' = <[id := phase_of (Instance.State i)]> (phases_of s).
Proof. intros H. unfold phases_of. by rewrite H, fmap_insert. Qed.

Lemma phases_same s s' : view s' = view s → phases_of s' = phases_of s.
Proof. unfold phases_of. by intros ->. Qed.

(** A record in the phase it already had is no change. *)
Lemma phases_insert_id s s' id i j : view s !! id = Some j → Instance.State i = Instance.State j →
  view s' = <[id := i]> (view s) → phases_of s' = phases_of s.
Proof.
  intros Hj Hi Hv. rewrite (phases_insert _ _ _ _ Hv). apply insert_id. unfold phases_of.
  by rewrite lookup_fmap, Hj, Hi.
Qed.

Lemma phases_None s id : view s !! id = None → phases_of s !! id = None.
Proof. intros H. unfold phases_of. by rewrite lookup_fmap, H. Qed.

Lemma phases_Some s id i : view s !! id = Some i →
  phases_of s !! id = Some (phase_of (Instance.State i)).
Proof. intros H. unfold phases_of. by rewrite lookup_fmap, H. Qed.

(** What the refinement says of one request. *)
Definition refines (s : Store) (r : Request) (resp : Response) (s' : Store) : Prop :=
  lifecycle (phases_of s) r (status resp) (phases_of s').

Lemma refines_provision id a body s tr : wf s →
  wp (Provision b id a body) s tr (fun resp s' _ => refines s (PutInstance id a body) resp s').
Proof.
  intros Hw. eapply wp_mono, Provision_wp, Hw. intros resp s' tr' H. unfold refines.
  destruct H as [(Hst & -> & _)|(rq & tok & seed & i & _ & _ & _ & _ & _ & Ha & _ & Hp)];
    [by constructor|].
  destruct Hp as [(-> & Hv & _)|(i' & task & (e & cid & sec & ck & ->) & -> & Hv & _)].
  - rewrite (phases_same _ _ Hv). by constructor.
  - destruct (adm_plan _ _ _ _ _ _ _ Ha) as (plan & _ & _ & ->).
    rewrite (phases_insert _ _ _ _ Hv). constructor.
    apply phases_None, view_None; [done|apply Ha].
Qed.

Lemma refines_update id a body s tr : wf s →
  wp (Update b id a body) s tr (fun resp s' _ => refines s (PatchInstance id a body) resp s').
Proof.
  intros Hw. destruct (String.eqb_spec a "true") as [->|Ha].
  2:{ unfold Update. rewrite (proj2 (String.eqb_neq _ _)) by done. by constructor. }
  destruct body as [rq|]; [|by constructor].
  eapply wp_mono, Update_wp, Hw. intros resp s' tr' H. unfold refines.
  destruct (view s !! id) as [i|] eqn:Ei.
  - destruct (replan b _ i) as [i'|] eqn:Er; [|destruct H as [-> ->]; by constructor].
    destruct H as [_ [(-> & Hv & _)|(task & -> & Hv & _)]].
    + rewrite (phases_insert_id s s' id i' i Ei) by (done || by eapply replan_State). by constructor.
    + rewrite (phases_insert _ _ _ _ Hv). constructor.
  - destruct (recovery_plan b _) as [plan|]; [|destruct H as [-> ->]; by constructor].
    destruct H as (tok & seed & _ & _ & _ & [(-> & Hv & _)|(task & -> & Hv & _)]);
      rewrite (phases_insert _ _ _ _ Hv).
    + by apply life_update_recovery, phases_None.
    + constructor.
Qed.

Lemma refines_delete id a s tr : wf s →
  wp (Deprovision b id a) s tr (fun resp s' _ => refines s (DeleteInstance id a) resp s').
Proof.
  intros Hw. destruct (String.eqb_spec a "true") as [->|Ha].
  2:{ unfold Deprovision. rewrite (proj2 (String.eqb_neq _ _)) by done. by constructor. }
  eapply wp_mono, Deprovision_wp, Hw. intros resp s' tr' H. unfold refines.
  destruct (view s !! id) as [i|] eqn:Ei.
  - destruct (String.eqb_spec (Instance.State i) "deprovisioning") as [Es|Es].
    + destruct H as (-> & -> & _). rewrite <- (insert_id (phases_of s) id Deleting) at 2; [constructor|].
      by rewrite (phases_Some _ _ _ Ei), Es.
    + destruct H as [[-> Hs]|(task & e & -> & _ & _ & Hv & _)].
      * rewrite (phases_same s s') by by rewrite <- Hs. by constructor.
      * rewrite (phases_insert _ _ _ _ Hv). constructor.
  - destruct H as [(-> & Hv & _)|(task & e & -> & _ & _ & Hv & _)].
    + rewrite (phases_same _ _ Hv). by constructor.
    + rewrite (phases_insert _ _ _ _ Hv). constructor.
Qed.

Lemma refines_poll id s tr : wf s →
  wp (LastOperation b id) s tr (fun resp s' _ => refines s (GetLastOperation id) resp s').
Proof.
  intros Hw. eapply wp_mono, LastOperation_wp, Hw. intros resp s' tr' H. unfold refines.
  destruct (view s !! id) as [i|] eqn:Ei; [|destruct H as (-> & -> & _); constructor].
  destruct (under_way i) eqn:Eu; [|destruct H as (-> & -> & _); constructor].
  destruct H as (ts & _ & -> & Hv & _). unfold under_way in Eu. bool_split.
  pose proof (lookup_alter_id _ _ _ Ei) as Hid.
  pose proof (phases_Some _ _ _ Ei) as Hph. unfold polled in *.
  destruct (String.eqb_spec (Instance.State i) "provisioning") as [Es|Es]; rewrite ?Es in Hph;
    [|destruct (String.eqb_spec (Instance.State i) "deprovisioning") as [Ed|]; [rewrite Ed in Hph|done]];
    (destruct (String.eqb ts "done"); [|destruct (task_failed ts)]); cbn [fst snd] in *;
    rewrite ?Hid in Hv; try (rewrite (phases_same _ _ Hv); constructor).
  - change (view s' = <[id := Instance.set_State "ready" i]> (view s)) in Hv.
    rewrite (phases_insert _ _ _ _ Hv). apply life_poll_deployed; auto.
  - change (view s' = <[id := Instance.set_State "failed" i]> (view s)) in Hv.
    rewrite (phases_insert _ _ _ _ Hv). apply life_poll_deployed; auto.
  - change (view s' = delete id (view s)) in Hv. unfold phases_of at 2. rewrite Hv, fmap_delete.
    by apply life_poll_deleted.
Qed.

(** The requests about many instances, from their effect on one. *)
Lemma pointwise_phases (R : string → phase → phase → Prop) s s' :
  (∀ id, option_relation (fun i i' => R id (phase_of (Instance.State i)) (phase_of (Instance.State i')))
     (fun _ => False) (fun _ => False) (view s !! id) (view s' !! id)) →
  pointwise R (phases_of s) (phases_of s').
Proof.
  intros H id. specialize (H id). unfold phases_of. rewrite !lookup_fmap.
  by destruct (view s !! id), (view s' !! id).
Qed.

Lemma refines_upgrade body s tr : wf s →
  wp (AdminUpgrade b body) s tr (fun resp s' _ => refines s (PostAdminUpgrade body) resp s').
Proof.
  intros Hw.
  assert (Hid : ∀ R : string → phase → phase → Prop, (∀ id p, R id p p) → pointwise R (phases_of s) (phases_of s))
    by (intros R HR id; destruct (phases_of s !! id); simpl; auto).
  destruct body as [rq|]; [|constructor; apply Hid; auto].
  destruct (Z.leb_spec (UpgradeRequest.Count rq) 0) as [Hc|Hc].
  { unfold AdminUpgrade. rewrite (proj2 (Z.leb_le _ _)) by done. constructor. apply Hid; auto. }
  eapply wp_mono, AdminUpgrade_wp; [|done..].
  intros resp s' tr' (picked & n & _ & _ & Hp & -> & s1 & tr1 & d & Hpost & -> & _).
  constructor. change (phases_of (set_disk d s1)) with (phases_of s1). apply pointwise_phases.
  destruct Hpost as (_ & done & _ & Hsub & Hup & Hun). intros id.
  destruct (decide (id ∈ done)) as [Hin|Hni].
  - destruct (Hup id Hin) as (i & task & Ei & -> & _). rewrite Ei. simpl.
    destruct (Hp id) as (j & Hj & Ho); [by eapply elem_of_sublist|].
    assert (j = i) as -> by congruence. right. split; [|done].
    unfold outdated, deprovisioning in Ho. bool_split. unfold phase_of.
    rewrite H. by repeat case_match.
  - destruct (Hun id Hni) as [-> _]. destruct (view s !! id); simpl; auto.
Qed.

Lemma refines_status s tr : wf s →
  wp (AdminUpgradeStatus b) s tr (fun resp s' _ => refines s GetAdminUpgradeStatus resp s').
Proof.
  intros Hw. unfold AdminUpgradeStatus. apply wp_bind. cbn [reads wp]. intros keys _.
  apply wp_bind. eapply wp_mono; [|apply (check_all_wp b); exact Hw].
  intros c s1 tr1 [_ (_ & _ & Hd & _ & Hv)]. apply wp_bind.
  eapply wp_mono, saveState_wp; [|rewrite Hd; apply Hw].
  intros [] s' tr' [[d ->] _]. constructor.
  change (phases_of (set_disk d s1)) with (phases_of s1). apply pointwise_phases.
  intros id. specialize (Hv id). destruct (view s !! id) as [i|], (view s1 !! id) as [i'|]; try done.
  destruct Hv as [->|(t & ts & e & _ & _ & _ & [[_ ->]|[_ ->]])]; simpl; auto.
Qed.

(** C2. The broker refines the life cycle: every request, served alone from any well
    formed store, whatever the outside world answers, answers with a status and
    changes the phases of the instances in a way the abstract broker allows, and
    leaves a well formed store. *)
Theorem handle_refines_lifecycle r s tr :
  wf s →
  wp (handle b r) s tr (fun resp s' _ =>
    lifecycle (phases_of s) r (status resp) (phases_of s') ∧ wf s').
Proof.
  intros Hw. apply wp_and.
  - destruct r; simpl; [constructor|by apply refines_provision|by apply refines_update|
      by apply refines_delete|by apply refines_poll| |constructor|intros; constructor|
      by apply refines_upgrade|by apply refines_status].
    unfold bind_response. destruct (instances s !! id) as [l|] eqn:El.
    + destruct (wf_lookup s id l Hw El) as (i & _ & -> & Hv & _).
      pose proof (phases_Some _ _ _ Hv) as Hp.
      destruct (String.eqb_spec (Instance.State i) "ready") as [E|E]; cbn [negb].
      * constructor. by rewrite Hp, E.
      * econstructor; [exact Hp|]. unfold phase_of. rewrite (proj2 (String.eqb_neq _ _)) by done.
        by repeat case_match.
    + constructor. by apply phases_None, view_None.
  - eapply wp_mono; [|apply (steps_in_wp wf evolves); [apply evolves_wf|exact Hw|apply (handle_steps b)|done]].
    intros ? ? ? [_ ?]. done.
Qed.
End Refinement.

Lemma handle_refines_lifecycle_witness :
  wf demo_store ∧ phases_of demo_store !! "i-1" = Some Ready ∧
  wp (handle demo_broker (DeleteInstance "i-1" "true")) demo_store [] (fun resp s' _ =>
    lifecycle (phases_of demo_store) (DeleteInstance "i-1" "true") (status resp) (phases_of s')).
Proof.
  split; [exact demo_wf|split; [reflexivity|]].
  eapply wp_mono, (handle_refines_lifecycle demo_broker (DeleteInstance "i-1" "true") demo_store [] demo_wf).
  intros resp s' tr' [H _]. exact H.
Defined.
