(* ===== verification/Durability.v ===== *)
(** * Acknowledged requests survive a restart

    [handle], served alone: when a request is answered with success and has changed
    what the broker knows about its instances, the change is in the state file
    before the answer is given, unless a file operation failed. *)

From S2P Require Import Prelude GoStrings Json Prog Tokens BoshClient UaaClient Broker StateFile Store Provision Update Deprovision LastOperation Binding Catalog Admin Concurrency Typed.

(** A fresh process over the state directory of [s] knows the instances of [s]. *)
Definition restartable (b : Broker) (s : Store) : Prop :=
  wp (loadState b) (initial_store (disk s)) [] (fun _ s1 tr1 => fs_fine tr1 → view s1 = view s).

Section Durability.
Context (b : Broker) `{!GoodBroker b}.
Context (Hdir : BrokerConfig.StateDir (config b) ≠ "").

(** What an answer promises, started from [s]. *)
Definition promises (s : Store) (r : Response) (s' : Store) (tr' : list event) : Prop :=
  fs_fine tr' → (status r < 300)%Z → (view s' = view s ∧ disk s' = disk s) ∨ (storable (view s') → restartable b s').

Lemma saved_restartable s : saved b s → storable (view s) → restartable b s.
Proof. intros Hs ?. by apply loadState_wp. Qed.

(** A part of a handler that keeps the store well formed. *)
Lemma wp_after {A B} (p : prog Store A) (h : A → prog Store B) s tr Q :
  steps_in wf evolves p → wf s → (∀ a s' tr', wf s' → wp (h a) s' tr' Q) → wp (bind p h) s tr Q.
Proof.
  intros Hp Hw Hh. apply wp_bind. eapply wp_mono, (steps_in_wp wf evolves p s); eauto.
  - intros a s' tr' [_ Hw']. by apply Hh.
  - intros ?? H [_ H']. auto.
  - done.
Qed.

(** Answers after a save. *)
Lemma promises_save s0 (r : Response) s tr : wf s →
  wp (saveState b >>> Ret r) s tr (promises s0).
Proof.
  intros Hw. apply wp_bind. eapply wp_mono, saveState_wp; [|by destruct Hw].
  intros [] s' tr' [_ Hs] Hf _. right. by apply saved_restartable, Hs.
Qed.

(** Answers that are no success, and answers that change nothing. *)
Lemma promises_refusal s0 (r : Response) s tr : (300 <= status r)%Z →
  wp (Ret r) s tr (promises s0).
Proof. intros H. cbn [wp]. unfold promises. lia. Qed.

Lemma promises_nothing s0 (r : Response) s tr : view s = view s0 → disk s = disk s0 →
  wp (Ret r) s tr (promises s0).
Proof. intros H Hd. cbn [wp]. unfold promises. auto. Qed.

Lemma render_and_deploy_ack s0 params m s tr (h : result Response Z → prog Store Response) :
  wf s →
  (∀ t s' tr', wf s' → wp (h (Ok t)) s' tr' (promises s0)) →
  (∀ r s' tr', wf s' → (300 <= status r)%Z → wp (h (Err r)) s' tr' (promises s0)) →
  wp (bind (render_and_deploy b params m) h) s tr (promises s0).
Proof.
  intros Hw Hok Herr. unfold render_and_deploy.
  destruct (Manifest.Manifest.RenderAgentManifest params) as [y|e]; [|by apply Herr].
  apply wp_bind. apply wp_after; [apply Deploy_steps; apply _|done|].
  intros [t|e] s' tr' Hw'; [by apply Hok|by apply Herr].
Qed.

(** Recording the outcome, saving, answering. *)
Lemma promises_record s0 f (r : Response) s tr : (∀ s, evolves s (f s)) → wf s →
  wp (writes f >>> saveState b >>> Ret r) s tr (promises s0).
Proof. intros Hf Hw. cbn [bind writes wp]. by apply promises_save, Hf. Qed.

Lemma Provision_durable instanceID accepts req s tr : wf s →
  wp (Provision b instanceID accepts req) s tr (promises s).
Proof.
  intros Hw. unfold Provision.
  destruct (negb _); [by apply promises_refusal|]. destruct (negb _); [by apply promises_refusal|].
  destruct req as [req|]; [|by apply promises_refusal].
  intros bs _. cbn [bind locked wp]. unfold admit_and_reserve. destruct (admission _ _ _ _ _ s) as [i|r] eqn:E; cbn [fst snd];
    [|by apply promises_nothing].
  apply admit_ok, admitted_record in E.
  apply wp_after; [by apply setup_sso_steps; apply _|by apply evolves_reserve|].
  intros _ s1 tr1 Hw1. apply wp_after; [by apply steps_in_reads|done|]. intros params s2 tr2 Hw2.
  apply render_and_deploy_ack; [done| |].
  - intros t s' tr' Hw'. apply promises_record; [|done]. intros ?. by apply evolves_update.
  - intros r s' tr' Hw' Hr. by apply promises_refusal.
Qed.

Lemma Update_durable instanceID accepts req s tr : wf s →
  wp (Update b instanceID accepts req) s tr (promises s).
Proof.
  intros Hw. unfold Update. destruct (negb _); [by apply promises_refusal|].
  destruct req as [req|]; [|by apply promises_refusal]. intros bs _.
  cbn [bind locked wp].
  match goal with |- context [prepare_update b ?i ?p ?t ?n s] =>
    pose proof (prepare_update_evolves b i p t n s Hw) as [_ Hw'] end.
  destruct (prepare_update b instanceID _ _ _ s) as [s' [[l params]|r]] eqn:E; cbn [fst snd] in *.
  - apply render_and_deploy_ack; [auto| |].
    + intros t s1 tr1 Hw1. apply promises_record; [|done]. intros ?. by apply evolves_update.
    + intros r s1 tr1 Hw1 Hr. by apply promises_refusal.
  - unfold prepare_update in E. repeat case_match; simplify_eq/=; by apply promises_nothing.
Qed.

Lemma delete_deployment_durable instanceID n l undo failed s0 s tr :
  wf s → (300 <= status failed)%Z →
  wp (delete_deployment b instanceID n l undo failed) s tr (promises s0).
Proof.
  intros Hw Hf. unfold delete_deployment.
  apply wp_after; [by apply same_steps, deleteUAAClient_same; apply _|done|]. intros _ s1 tr1 Hw1.
  apply wp_after; [apply Delete_steps; apply _|done|]. intros [t|e] s2 tr2 Hw2.
  - apply promises_record; [|done]. intros ?. by apply evolves_update.
  - by apply promises_refusal.
Qed.

Lemma Deprovision_durable instanceID accepts s tr : wf s →
  wp (Deprovision b instanceID accepts) s tr (promises s).
Proof.
  intros Hw. unfold Deprovision. destruct (negb _); [by apply promises_refusal|].
  cbn [bind atomic wp]. pose proof (mark_evolves instanceID s) as [_ Hw'].
  destruct (mark_deprovisioning instanceID s) as [s' found] eqn:E. cbn [fst snd] in *.
  destruct found; [by apply delete_deployment_durable; auto| |by apply delete_deployment_durable; auto].
  unfold mark_deprovisioning in E. repeat case_match; simplify_eq/=. by apply promises_nothing.
Qed.

(** An answer given without a write, after the director was asked. *)
Lemma LastOperation_durable instanceID s tr : wf s →
  wp (LastOperation b instanceID) s tr (promises s).
Proof.
  intros Hw. unfold LastOperation. cbn [bind reads wp].
  destruct (poll instanceID s) as [[[l st] t]|]; [|by apply promises_nothing].
  repeat (destruct (String.eqb st _); [|try (by apply promises_nothing)]);
    try (by apply promises_nothing);
    (destruct (t =? 0)%Z; [by apply promises_nothing|]);
    apply wp_bind; (eapply wp_mono, task_state_wp); intros ts s' tr' [Hs _];
    assert (wf s') by (by rewrite <- Hs);
    repeat case_match;
    solve [apply promises_nothing; [by rewrite Hs|by apply same_disk]
          |apply promises_record; [intros; auto using evolves_update with store|done]].
Qed.

Lemma AdminUpgrade_durable req s tr : wf s → wp (AdminUpgrade b req) s tr (promises s).
Proof.
  intros Hw. destruct req as [req|]; [|by apply promises_refusal]. unfold AdminUpgrade.
  destruct (_ <=? 0)%Z; [by apply promises_refusal|]. cbn [bind reads wp]. intros keys _.
  apply wp_after; [apply upgrade_all_steps; apply _|done|]. intros n s1 tr1 Hw1. by apply promises_save.
Qed.

Lemma AdminUpgradeStatus_durable s tr : wf s → wp (AdminUpgradeStatus b) s tr (promises s).
Proof.
  intros Hw. unfold AdminUpgradeStatus. cbn [bind reads wp]. intros keys _.
  apply wp_after; [apply check_all_steps; apply _|done|]. intros c s1 tr1 Hw1. by apply promises_save.
Qed.

Lemma handle_promises req s : wf s → wp (handle b req) s [] (promises s).
Proof.
  intros Hw. destruct req; cbn [handle].
  - by apply promises_nothing.
  - by apply Provision_durable.
  - by apply Update_durable.
  - by apply Deprovision_durable.
  - by apply LastOperation_durable.
  - by apply promises_nothing.
  - by apply promises_nothing.
  - unfold AdminListInstances. cbn [bind reads wp]. intros keys _. by apply promises_nothing.
  - by apply AdminUpgrade_durable.
  - by apply AdminUpgradeStatus_durable.
Qed.

(** With the invariants: what is known is storable. *)
Lemma handle_durable req s : typed_config (config b) → typed_request req → wf s → typed s →
  wp (handle b req) s [] (fun r s' tr' =>
    fs_fine tr' → (status r < 300)%Z →
    (view s' = view s ∧ disk s' = disk s) ∨ restartable b s').
Proof.
  intros Hc Hr Hw Ht.
  eapply wp_mono, wp_and, handle_sound; [|by apply handle_promises|done..].
  intros r s' tr' [Hp Hs] Hf Hst. destruct (Hp Hf Hst) as [?|H]; [by left|].
  right. by apply H, sound_storable.
Qed.

(** ** The properties *)

(** C15. Acknowledged changes are durable: when a request with well-formed texts,
    served alone and whatever the outside answers, is answered with a success
    status, then either it has left the instances as they were or, provided no file
    operation failed, a fresh process that reads the JSON text back from the state
    directory knows exactly the instances this one knows, with all their fields. *)
Theorem acknowledged_durable req s :
  typed_config (config b) → typed_request req → wf s → typed s →
  wp (handle b req) s [] (fun r s' tr' =>
    fs_fine tr' → (status r < 300)%Z →
    (view s' = view s ∧ disk s' = disk s) ∨ restartable b s').
Proof. apply handle_durable. Qed.

(** Requests served one after the other, each answered with success and with no
    file operation failing. *)
Inductive session : Store → Store → Prop :=
| session_start s : session s s
| session_next s s1 s2 req o r tr :
    session s s1 → typed_request req → ValidOracle o →
    run o (handle b req) s1 [] = (r, s2, tr) → fs_fine tr → (status r < 300)%Z →
    session s s2.

Lemma restartable_same s s' : view s' = view s → disk s' = disk s → restartable b s → restartable b s'.
Proof. unfold restartable. by intros -> ->. Qed.

End Durability.

(** A provision of the demonstration broker: the new instance survives a restart. *)
Lemma acknowledged_durable_witness :
  let '(r, s', tr') := run (demo_oracle 302 302 "done") (handle demo_broker rival1)
    (initial_store FileSys.empty) [] in
  status r = 202%Z ∧ (Instance.ID <$> view s' !! "i-1") = Some "i-1" ∧ restartable demo_broker s'.
Proof.
  pose proof (wp_run (demo_oracle 302 302 "done") _ _ _ _
    (acknowledged_durable demo_broker ltac:(discriminate) rival1 (initial_store FileSys.empty)
      demo_config_typed (rival_typed "i-1") initial_demo_wf (initial_typed _ empty_holds))) as H.
  assert (E : let '(r, s', tr') := run (demo_oracle 302 302 "done") (handle demo_broker rival1)
      (initial_store FileSys.empty) [] in
    status r = 202%Z ∧ (Instance.ID <$> view s' !! "i-1") = Some "i-1" ∧ fs_fine tr')
    by (vm_compute; split_and!; [done..|repeat constructor; by intros []]).
  destruct (run _ _ _ _) as [[r s'] tr']. destruct E as (Er & Ei & Ef).
  split_and!; [done..|]. destruct H as [H|H]; [done|by rewrite Er| |done].
  exfalso. rewrite (proj1 H) in Ei. vm_compute in Ei. discriminate.
Defined.

(** Before the first request there is nothing to lose. *)
Lemma first_restartable : restartable demo_broker (initial_store FileSys.empty).
Proof. intros [e|]; simpl; [|done]. intros F. by destruct (fs_fine_snoc [] _ _ F). Qed.

(** A provision, then a poll that finds it deployed. *)
Lemma demo_session : let o := demo_oracle 302 302 "done" in
  let s1 := (run o (handle demo_broker rival1) (initial_store FileSys.empty) []).1.2 in
  session demo_broker (initial_store FileSys.empty) (run o (handle demo_broker (GetLastOperation "i-1")) s1 []).1.2.
Proof.
  intros o s1.
  assert (H1 : fs_fine (run o (handle demo_broker rival1) (initial_store FileSys.empty) []).2 ∧
    (status (run o (handle demo_broker rival1) (initial_store FileSys.empty) []).1.1 < 300)%Z)
    by (split; [vm_compute; repeat constructor; by intros []|vm_compute; reflexivity]).
  assert (H2 : fs_fine (run o (handle demo_broker (GetLastOperation "i-1")) s1 []).2 ∧
    (status (run o (handle demo_broker (GetLastOperation "i-1")) s1 []).1.1 < 300)%Z)
    by (split; [vm_compute; repeat constructor; by intros []|vm_compute; reflexivity]).
  subst s1. destruct (run o (handle demo_broker rival1) (initial_store FileSys.empty) []) as [[r1 s1] tr1] eqn:E1.
  cbn [fst snd] in *. destruct (run o (handle demo_broker (GetLastOperation "i-1")) s1 []) as [[r2 s2] tr2] eqn:E2.
  cbn [fst snd] in *. apply (session_next _ _ s1 s2 (GetLastOperation "i-1") o r2 tr2);
    [|exact I|apply demo_valid|exact E2|apply H2|apply H2].
  apply (session_next _ _ (initial_store FileSys.empty) s1 rival1 o r1 tr1);
    [apply session_start|apply (rival_typed "i-1")|apply demo_valid|exact E1|apply H1|apply H1].
Qed.


(** The texts have to be well formed: an update of an unknown instance does not look
    at the id, and one that is no UTF-8 is accepted, saved and known under another
    key after a restart, so that every later request for it finds nothing. *)
Lemma invalid_id_forgotten :
  let id := String "255" "" in
  let o := demo_oracle 302 302 "done" in
  let '(r, s, tr) := run o (handle demo_broker (PatchInstance id "true" (Some demo_update)))
    (initial_store FileSys.empty) [] in
  let '(_, s1, tr1) := run o (loadState demo_broker) (initial_store (disk s)) [] in
  status r = 202%Z ∧ is_Some (view s !! id) ∧ fs_fine tr ∧ fs_fine tr1 ∧
  view s1 !! id = None ∧ is_Some (view s1 !! rune_error).
Proof.
  vm_compute. split_and!; [done|by eexists| | |done|by eexists];
    repeat (constructor; [by intros []|]); constructor.
Qed.
