(* ===== verification/Journey.v ===== *)
(** * The life of one service, as a platform drives it

    The handlers in the order the service broker API prescribes: provision, poll until
    the deployment is done, bind, deprovision, poll until the deletion is done. *)

From S2P Require Import Prelude GoStrings Json Encoding Hostname Prog Manifest BoshClient UaaClient Broker StateFile Store Provision Update Deprovision LastOperation Binding Catalog Admin Concurrency Typed Durability.

Section Journey.
Context (b : Broker) `{!GoodBroker b}.

(** [n] polls and one more; the last answer counts. *)
Fixpoint poll_times (id : string) (n : nat) : prog Store Response :=
  match n with
  | O => LastOperation b id
  | S n => LastOperation b id >>> poll_times id n
  end.

(** The answers to the provision, to its last poll, to the binding, to the
    deprovision and to its last poll. *)
Record Journey : Type := {
  on_provision : Response;
  on_deployed : Response;
  on_bind : Response;
  on_deprovision : Response;
  on_deleted : Response;
}.

Definition journey (id : string) (body : ProvisionRequest) (n m : nat) : prog Store Journey :=
  r1 ⇐ Provision b id "true" (Some body);
  r2 ⇐ poll_times id n;
  r3 ⇐ Bind id;
  r4 ⇐ Deprovision b id "true";
  r5 ⇐ poll_times id m;
  Ret {| on_provision := r1; on_deployed := r2; on_bind := r3; on_deprovision := r4; on_deleted := r5 |}.

(** Every answer is the good one. *)
Definition smooth (j : Journey) : Prop :=
  status (on_provision j) = 202%Z ∧ on_deployed j = succeeded "Agent ready" ∧
  status (on_deprovision j) = 202%Z ∧ on_deleted j = succeeded "Agent deprovisioned".

(** ** Lemmas *)

Lemma wp_keeps_wf {A} (p : prog Store A) s tr Q : steps_in wf evolves p → wf s →
  wp p s tr Q → wp p s tr (fun a s' tr' => wf s' ∧ tr `prefix_of` tr' ∧ Q a s' tr').
Proof.
  intros Hp Hw HQ. eapply wp_mono, wp_and, wp_and, HQ; [|eapply (steps_in_wp wf evolves p s)|apply wp_extends]; eauto.
  - intros a s' tr' [[_ H1] [H2 H3]]. done.
  - intros ?? H [_ H']. auto.
  - done.
Qed.

(** A record that is being deployed, or has been. *)
Definition deploying (st : string) : Prop := st = "provisioning" ∨ st = "ready" ∨ st = "failed".

Lemma in_progress_ne d d' : in_progress d ≠ succeeded d'.
Proof. by intros [=]. Qed.

Lemma failed_ne d d' : failed d ≠ succeeded d'.
Proof. by intros [=]. Qed.

Lemma same_state i : Instance.set_State (Instance.State i) i = i.
Proof. by destruct i. Qed.

Lemma poll_deploying id i s tr : wf s → view s !! id = Some i → deploying (Instance.State i) →
  wp (LastOperation b id) s tr (fun r s' tr' =>
    ∃ st, deploying st ∧ view s' = <[id := Instance.set_State st i]> (view s) ∧
      (st = "ready" ∨ r ≠ succeeded "Agent ready")).
Proof.
  intros Hw Hi Hd. eapply wp_mono, LastOperation_wp, Hw. intros r s' tr'. rewrite Hi.
  assert (Hid : <[id := Instance.set_State (Instance.State i) i]> (view s) = view s)
    by (rewrite same_state; by apply insert_id).
  unfold under_way, polled, settled, deploying.
  destruct Hd as [Hst|[Hst|Hst]]; rewrite Hst in *; simpl.
  - destruct (_ =? 0)%Z; simpl.
    + intros (-> & -> & _). exists "provisioning". split_and!; [by left|done|right; apply in_progress_ne].
    + intros (ts & _ & -> & -> & _). destruct (String.eqb ts "done"); [|destruct (task_failed ts)]; simpl.
      * exists "ready". split_and!; [auto|done|by left].
      * exists "failed". split_and!; [auto|done|right; apply failed_ne].
      * exists "provisioning". rewrite Hid. split_and!; [auto|by apply lookup_alter_id|right; apply in_progress_ne].
  - intros (-> & -> & _). exists "ready". auto.
  - intros (-> & -> & _). exists "failed". split_and!; [auto|done|right; apply failed_ne].
Qed.

Lemma poll_deleting id i s tr : wf s → view s !! id = Some i → Instance.State i = "deprovisioning" →
  wp (LastOperation b id) s tr (fun r s' tr' =>
    view s' = view s ∧ r ≠ succeeded "Agent deprovisioned" ∨
    view s' = delete id (view s) ∧ r = succeeded "Agent deprovisioned").
Proof.
  intros Hw Hi Hst. eapply wp_mono, LastOperation_wp, Hw. intros r s' tr'. rewrite Hi.
  unfold under_way, polled, settled. rewrite Hst. simpl.
  pose proof (lookup_alter_id _ _ _ Hi) as Hid.
  destruct (_ =? 0)%Z; simpl.
  - intros (-> & -> & _). left. split; [done|apply in_progress_ne].
  - intros (ts & _ & -> & -> & _). destruct (String.eqb ts "done"); [|destruct (task_failed ts)]; simpl.
    + by right.
    + left. by split; [|apply failed_ne].
    + left. by split; [|apply in_progress_ne].
Qed.

(** An instance that is gone stays gone. *)
Lemma poll_gone id s tr : wf s → view s !! id = None →
  wp (LastOperation b id) s tr (fun r s' tr' => s' = s ∧ r ≠ succeeded "Agent deprovisioned").
Proof.
  intros Hw Hi. eapply wp_mono, LastOperation_wp, Hw. intros r s' tr'. rewrite Hi.
  intros (-> & -> & _). by split.
Qed.

Lemma polls_deploying n id i s tr : wf s → view s !! id = Some i → deploying (Instance.State i) →
  wp (poll_times id n) s tr (fun r s' tr' => wf s' ∧ tr `prefix_of` tr' ∧
    ∃ st, view s' = <[id := Instance.set_State st i]> (view s) ∧ (st = "ready" ∨ r ≠ succeeded "Agent ready")).
Proof.
  revert i s tr. induction n as [|n IH]; intros i s tr Hw Hi Hd; cbn [poll_times].
  - apply wp_keeps_wf; [by apply LastOperation_steps|done|].
    eapply wp_mono, poll_deploying; [|done..]. intros r s' tr' (st & _ & ?). eauto.
  - apply wp_bind. eapply wp_mono, wp_keeps_wf, poll_deploying; [|by apply LastOperation_steps|done..].
    intros _ s1 tr1 (Hw1 & Hp1 & st & Hst & Hv & _).
    eapply wp_mono, (IH (Instance.set_State st i)); [|done| |done].
    + intros r s' tr' (Hw' & Hp & st' & Hv' & Hr). split_and!; [done|by etrans|].
      exists st'. split; [|done]. by rewrite Hv', Hv, insert_insert_eq.
    + by rewrite Hv, lookup_insert_eq.
Qed.

(** The polls of a deletion, and what the state file holds after the last of them. *)
Lemma polls_deleting n id s tr : BrokerConfig.StateDir (config b) ≠ "" → wf s →
  (∀ i, view s !! id = Some i → Instance.State i = "deprovisioning") →
  wp (poll_times id n) s tr (fun r s' tr' => tr `prefix_of` tr' ∧
    (r = succeeded "Agent deprovisioned" → view s' = delete id (view s) ∧
       (fs_fine tr' → storable (view s') → restartable b s'))).
Proof.
  intros Hdir. revert s tr. induction n as [|n IH]; intros s tr Hw Hst; cbn [poll_times].
  - apply (wp_mono _ _ _ (fun r s' tr' => tr `prefix_of` tr' ∧ (promises b s r s' tr' ∧
      (r = succeeded "Agent deprovisioned" → view s' = delete id (view s) ∧ view s' ≠ view s)))).
    { intros r s' tr' (Hp & Hpr & Hr). split; [done|]. intros E. destruct (Hr E) as [Hv Hne].
      split; [done|]. intros Hf Hs. destruct (Hpr Hf) as [[]|H]; [by rewrite E|done|by apply H]. }
    eapply wp_and, wp_and; [apply wp_extends|by apply LastOperation_durable|].
    destruct (view s !! id) as [i|] eqn:Hi.
    + eapply wp_mono, poll_deleting; [|done..|by apply Hst].
      intros r s' tr' [[_ ?]|[Hv _]] E; [done|]. split; [done|]. rewrite Hv. intros H.
      rewrite <- H, lookup_delete_eq in Hi. done.
    + eapply wp_mono, poll_gone; [|done..]. by intros r s' tr' [_ ?].
  - apply wp_bind.
    eapply wp_mono, (wp_keeps_wf _ _ _ (fun _ s' _ => view s' = view s ∨ view s' = delete id (view s)));
      [|by apply LastOperation_steps|done|].
    2:{ destruct (view s !! id) as [i|] eqn:Hi.
        - eapply wp_mono, poll_deleting; [|done..|by apply Hst]. intros ??? [[? _]|[? _]]; auto.
        - eapply wp_mono, poll_gone; [|done..]. intros ??? [-> _]. auto. }
    intros _ s1 tr1 (Hw1 & Hp1 & Hv). eapply wp_mono, IH; [|done|].
    + intros r s' tr' [Hp Hr]. split; [by etrans|]. intros E. destruct (Hr E) as [-> Hf]. split; [|done].
      destruct Hv as [->| ->]; [done|]. apply delete_delete_eq.
    + intros i Hi. destruct Hv as [Hv|Hv]; rewrite Hv in Hi; [by apply Hst|by rewrite lookup_delete_eq in Hi].
Qed.
Lemma bind_ready s id i : wf s → view s !! id = Some i → Instance.State i = "ready" →
  bind_response id s = writeJSON 201 (JObj [("credentials", credentials i)]).
Proof.
  intros Hw Hi Hst. unfold bind_response. rewrite lookup_view in Hi.
  destruct (instances s !! id) as [l|] eqn:El; [|done]. cbn [mbind option_bind] in Hi.
  unfold deref. rewrite Hi. cbn. by rewrite Hst.
Qed.

(** ** The property *)

(** What is left to run does not matter. *)
Ltac run_on := cbn [bind]; repeat (apply wp_bind; eapply wp_mono, wp_true; intros ? ? ? _).

(** C7. The whole life of a service: for a platform that provisions an instance,
    polls it any number of times, binds it, deprovisions it and polls again, whatever
    director, UAA and disk do: if provision and deprovision are accepted and the last
    polls report success, then the manifest of exactly this instance was accepted by
    the director, the binding handed out the credentials of the record the provision
    made, the director accepted the deletion of exactly its deployment, the broker
    knows what it knew before the provision, and so does a process that restarts
    afterwards, unless a file operation failed. *)
Theorem service_lifecycle id body n m s tr :
  BrokerConfig.StateDir (config b) ≠ "" → wf s →
  wp (journey id body n m) s tr (fun j s' tr' => smooth j →
    ∃ plan i e task, findPlan (config b) (ProvisionRequest.PlanID body) = Some plan ∧
      provisioned b id body plan i ∧
      deployed_as b (buildManifestParams (config b) i) (Instance.BoshTaskID i) tr' ∧
      on_bind j = writeJSON 201 (JObj [("credentials", credentials (Instance.set_State "ready" i))]) ∧
      e ∈ tr' ∧ delete_sent b (deploymentName id) task e ∧
      view s' = view s ∧ (fs_fine tr' → storable (view s) → restartable b s')).
Proof.
  intros Hdir Hw. unfold journey. apply wp_bind.
  eapply wp_mono, wp_keeps_wf, accepted_wp; [|by apply Provision_steps|done..].
  intros r1 s1 tr1 (Hw1 & _ & H1).
  destruct (decide (status r1 = 202%Z)) as [E1|E1]; [|run_on; by intros [? _]].
  destruct (H1 E1) as (? & plan & i & _ & [= <-] & _ & Hnone & _ & Hplan & Hprov & Hv1 & _ & Hdep & _). clear H1.
  apply wp_bind. eapply wp_mono, (polls_deploying n id i); [|done|by rewrite Hv1, lookup_insert_eq|].
  2:{ left. apply Hprov. }
  intros r2 s2 tr2 (Hw2 & Hp2 & st & Hv2 & [->|E2]); [|run_on; by intros (_ & ? & _)].
  rewrite Hv1, insert_insert_eq in Hv2.
  apply wp_bind. cbn [Bind reads wp]. apply wp_bind.
  eapply wp_mono, wp_keeps_wf, Deprovision_wp; [|by apply Deprovision_steps|done..].
  rewrite Hv2, lookup_insert_eq. intros r4 s4 tr4 (Hw4 & Hp4 & H4). cbn [Instance.State Instance.set_State] in H4.
  destruct H4 as [[-> _]|(task & e & -> & He & Hsent & Hv4 & _)]; [run_on; by intros (_ & _ & ? & _)|].
  rewrite insert_insert_eq in Hv4.
  apply wp_bind. eapply wp_mono, polls_deleting; [|done..|].
  2:{ rewrite Hv4, lookup_insert_eq. by intros ? [= <-]. }
  intros r5 s5 tr5 (Hp5 & H5) (_ & _ & _ & E5). destruct (H5 E5) as [Hv5 Hr5].
  assert (Hv : view s5 = view s) by (by rewrite Hv5, Hv4, delete_insert_eq, delete_id).
  exists plan, i, e, task. split_and!; [done|done| | |by eapply elem_of_prefix|done|done|by rewrite <- Hv].
  - eapply deployed_as_mono, Hdep. by do 2 (etrans; [eassumption|]).
  - cbn [on_bind].
    by rewrite (bind_ready s2 id (Instance.set_State "ready" i)) by (done || by rewrite Hv2, lookup_insert_eq).
Qed.
End Journey.

(** ** Witness: the demonstration broker, two polls for each operation *)

Lemma service_lifecycle_witness :
  let '(j, s', tr') := run (demo_oracle 302 302 "done") (journey demo_broker "i-1" other_org_request 1 0)
    (initial_store FileSys.empty) [] in
  smooth j ∧ status (on_bind j) = 201%Z ∧ restartable demo_broker s'.
Proof.
  pose proof (wp_run (demo_oracle 302 302 "done") _ _ _ _
    (service_lifecycle demo_broker "i-1" other_org_request 1 0 (initial_store FileSys.empty) []
      ltac:(discriminate) initial_demo_wf)) as H.
  assert (E : let '(j, s', tr') := run (demo_oracle 302 302 "done")
      (journey demo_broker "i-1" other_org_request 1 0) (initial_store FileSys.empty) [] in
    smooth j ∧ fs_fine tr') by (vm_compute; split_and!; [done..|repeat constructor; by intros []]).
  destruct (run _ _ _ _) as [[j s'] tr']. destruct E as [Ej Ef].
  destruct (H Ej) as (plan & i & e & task & _ & _ & _ & Hb & _ & _ & _ & Hr).
  split_and!; [exact Ej|by rewrite Hb|]. by apply Hr.
Defined.
