(* ===== verification/Server.v ===== *)
(** * Package main, main.go: the HTTP server in front of the handlers

    The route table with the matching of gorilla/mux, the basic authentication
    middleware, the query parameter and the request bodies. *)

From S2P Require Import Prelude GoStrings Json Floats Encoding Hostname Prog Url BoshClient UaaClient Broker Http StateFile Store Provision Update Deprovision LastOperation Binding Catalog Admin Concurrency.

(** ** Requests as they arrive *)

(** [authorization] is the value of the Authorization header, empty when there is
    none; [payload] the bytes of the body. *)
Record HttpQuery : Type := {
  method : string;
  path : string;
  rawquery : string;
  authorization : string;
  payload : string;
}.

(** ** Basic authentication *)

(** net/http parseBasicAuth: the scheme in any case, base64 of user, colon and
    password; the user ends at the first colon. *)
Definition BasicAuth (auth : string) : option (string * string) :=
  if negb (String.eqb (smap lower_byte (stake 6 auth)) "basic ") then None
  else
    c ← DecodeString StdEncoding (sdrop 6 auth);
    cut ":" c.

(** subtle.ConstantTimeCompare of two byte strings is 1 exactly when they are
    equal. *)
Definition authorized (username password auth : string) : bool :=
  match BasicAuth auth with
  | Some (u, p) => String.eqb u username && String.eqb p password
  | None => false
  end.

(** ** The query *)

(** QueryUnescape: a plus sign is a space. *)
Definition QueryUnescape (s : string) : option string :=
  Url.unescape Url.encodePath (smap (fun c => if Ascii.eqb c "+" then " "%char else c) s).

(** url.Query().Get: the value of the first pair of that key; pairs that hold a
    semicolon or a bad escape are dropped. *)
Definition query_pairs (raw : string) : list (string * string) :=
  omap (fun pair =>
    if String.eqb pair "" || Url.byte_elem ";" pair then None
    else
      let '(k, v) := match cut "=" pair with Some kv => kv | None => (pair, "") end in
      k ← QueryUnescape k; v ← QueryUnescape v; Some (k, v)) (split_on "&" raw).

Definition query_get (key raw : string) : string :=
  match find (fun kv : string * string => String.eqb kv.1 key) (query_pairs raw) with
  | Some (_, v) => v
  | None => ""
  end.

(** ** The bodies *)

(** An entry of a decoded object, in key order; a later key replaces an equal one. *)
Fixpoint insert_entry (k : string) (v : any) (l : list (string * any)) : list (string * any) :=
  match l with
  | [] => [(k, v)]
  | (k', v') :: r =>
      if String.eqb k k' then (k, v) :: r
      else if String.ltb k k' then (k, v) :: l
      else (k', v') :: insert_entry k v r
  end.

(** Decoding into an interface value; a number out of range is an error. *)
Fixpoint any_of (j : json) : option any :=
  match j with
  | JNull => Some AnyNil
  | JBool b => Some (AnyBool b)
  | JNum lit => AnyFloat <$> Float.ParseFloat lit
  | JStr s => Some (AnyString s)
  | JArr l =>
      AnyList <$> (fix go (l : list json) : option (list any) :=
        match l with
        | [] => Some []
        | x :: r => a ← any_of x; as_ ← go r; Some (a :: as_)
        end) l
  | JObj fs =>
      AnyMap <$> (fix go (acc : list (string * any)) (fs : list (string * json)) :
          option (list (string * any)) :=
        match fs with
        | [] => Some acc
        | (k, x) :: r => a ← any_of x; go (insert_entry k a acc) r
        end) [] fs
  end.

(** Decoding an object into a map of interface values that holds [m]. *)
Fixpoint add_entries (m : gmap string any) (fs : list (string * json)) : option (gmap string any) :=
  match fs with
  | [] => Some m
  | (k, x) :: r => a ← any_of x; add_entries (<[k := a]> m) r
  end.

(** A map field: objects add to it, null empties it. *)
Fixpoint decode_map (name : string) (m : gmap string any) (fs : list (string * json)) :
    option (gmap string any) :=
  match fs with
  | [] => Some m
  | (k, v) :: r =>
      if String.eqb (fold_name k) (fold_name name) then
        match v with
        | JNull => decode_map name ∅ r
        | JObj entries => m ← add_entries m entries; decode_map name m r
        | _ => None
        end
      else decode_map name m r
  end.

Definition decode_parameters (body : option json) : option (gmap string any) :=
  match body with
  | Some (JObj fs) => decode_map "parameters" ∅ fs
  | Some JNull => Some ∅
  | _ => None
  end.

Definition string_field (name : string) (body : option json) : option string :=
  match decode_field name json_string "" body with Ok s => Some s | Err _ => None end.

Definition int_field (name : string) (body : option json) : option Z :=
  match decode_field name json_int 0%Z body with Ok z => Some z | Err _ => None end.

Definition decode_provision (body : option json) : option ProvisionRequest :=
  service ← string_field "service_id" body;
  plan ← string_field "plan_id" body;
  org ← string_field "organization_guid" body;
  space ← string_field "space_guid" body;
  params ← decode_parameters body;
  Some {| ProvisionRequest.ServiceID := service; ProvisionRequest.PlanID := plan;
          ProvisionRequest.OrganizationGUID := org; ProvisionRequest.SpaceGUID := space;
          ProvisionRequest.Parameters := params |}.

Definition decode_update (body : option json) : option UpdateRequest :=
  service ← string_field "service_id" body;
  plan ← string_field "plan_id" body;
  params ← decode_parameters body;
  Some {| UpdateRequest.ServiceID := service; UpdateRequest.PlanID := plan;
          UpdateRequest.Parameters := params |}.

Definition decode_upgrade (body : option json) : option UpgradeRequest :=
  target ← string_field "target_version" body;
  count ← int_field "count" body;
  parallel ← int_field "max_parallel" body;
  Some {| UpgradeRequest.TargetVersion := target; UpgradeRequest.Count := count;
          UpgradeRequest.MaxParallel := parallel |}.

(** ** Routes *)

(** cleanPath of gorilla/mux. *)
Definition cleanPath (p : string) : string :=
  if String.eqb p "" then "/"
  else
    let p := if String.prefix "/" p then p else "/" +:+ p in
    let np := Clean p in
    if String.eqb (sdrop (String.length p - 1) p) "/" && negb (String.eqb np "/")
    then np +:+ "/" else np.

(** A path template: literal segments and variables, which match any text but the
    empty one up to the next slash. *)
Inductive segment : Type := Lit (s : string) | Var.

Fixpoint match_segments (template : list segment) (segs : list string) : option (list string) :=
  match template, segs with
  | [], [] => Some []
  | Lit l :: t, s :: r => if String.eqb l s then match_segments t r else None
  | Var :: t, s :: r => if String.eqb s "" then None else cons s <$> match_segments t r
  | _, _ => None
  end.

Definition instance_path : list segment := [Lit ""; Lit "v2"; Lit "service_instances"; Var].
Definition binding_path : list segment := instance_path ++ [Lit "service_bindings"; Var].

(** The routes of main, in their order; a handler takes the path variables. *)
Definition routes : list (string * list segment * (list string → HttpQuery → Request)) :=
  let id vars := default "" (head vars) in
  let accepts q := query_get "accepts_incomplete" (rawquery q) in
  [("GET", [Lit ""; Lit "v2"; Lit "catalog"], fun _ _ => GetCatalog);
   ("PUT", instance_path, fun v q => PutInstance (id v) (accepts q) (decode_provision (Decode (payload q))));
   ("DELETE", instance_path, fun v q => DeleteInstance (id v) (accepts q));
   ("PATCH", instance_path, fun v q => PatchInstance (id v) (accepts q) (decode_update (Decode (payload q))));
   ("PUT", binding_path, fun v _ => PutBinding (id v));
   ("DELETE", binding_path, fun _ _ => DeleteBinding);
   ("GET", instance_path ++ [Lit "last_operation"], fun v _ => GetLastOperation (id v));
   ("GET", [Lit ""; Lit "admin"; Lit "instances"], fun _ _ => GetAdminInstances);
   ("POST", [Lit ""; Lit "admin"; Lit "upgrade"], fun _ q => PostAdminUpgrade (decode_upgrade (Decode (payload q))));
   ("GET", [Lit ""; Lit "admin"; Lit "upgrade"; Lit "status"], fun _ _ => GetAdminUpgradeStatus)].

(** The first route that matches path and method; else the status: 405 when some
    route matches the path, 404 when none does. *)
Fixpoint find_route (q : HttpQuery) (mismatch : bool)
    (rs : list (string * list segment * (list string → HttpQuery → Request))) : result Z Request :=
  match rs with
  | [] => Err (if mismatch then 405%Z else 404%Z)
  | (m, template, h) :: rs =>
      match match_segments template (split_on "/" (path q)) with
      | None => find_route q mismatch rs
      | Some vars => if String.eqb (method q) m then Ok (h vars q) else find_route q true rs
      end
  end.

(** The middleware: without the credentials the handler does not run. *)
Definition basicAuthMiddleware {S} (username password : string) (next : prog S Answer) (q : HttpQuery) :
    prog S Answer :=
  if negb (authorized username password (authorization q)) then Ret unauthorized else next.

(** Router.ServeHTTP: redirect to the clean path, else match; the middleware runs
    for matched routes only. [is_print] is the table behind strconv.Quote. *)
Definition ServeHTTP (is_print : N → bool) (username password : string) (b : Broker) (q : HttpQuery) :
    prog Store Answer :=
  if negb (String.eqb (cleanPath (path q)) (path q)) then Ret (moved (cleanPath (path q)) (rawquery q))
  else match find_route q false routes with
       | Err 404%Z => Ret not_found
       | Err _ => Ret method_not_allowed
       | Ok request => basicAuthMiddleware username password (respond is_print (handle b request)) q
       end.

(** * Proofs *)

Definition colon_free (s : string) : bool := sall (fun a => negb (Ascii.eqb a ":")) s.

Lemma prefix_char a c r : String.prefix (String c "") (String a r) = Ascii.eqb a c.
Proof.
  cbn [String.prefix]. destruct (ascii_dec c a) as [->|H]; [rewrite Ascii.eqb_refl; by destruct r|].
  symmetry. apply Ascii.eqb_neq. congruence.
Qed.

Lemma cut_colon c u p : cut ":" c = Some (u, p) ↔ c = u +:+ ":" +:+ p ∧ colon_free u = true.
Proof.
  revert u. induction c as [|a c IH]; intros u.
  - split; [done|]. intros [H _]. by destruct u.
  - cbn [cut]. rewrite prefix_char. destruct (Ascii.eqb_spec a ":") as [->|Hne]; cbn [String.length sdrop].
    + split; [intros [= <- <-]; done|]. intros [H Hu].
      destruct u as [|b u]; simpl in H; [by injection H as ->|]. by injection H as <- _.
    + destruct (cut ":" c) as [[x y]|] eqn:E; split; try done.
      * intros H. injection H as <- ->. destruct (proj1 (IH x) eq_refl) as [-> Hx]. split; [done|].
        unfold colon_free in *. cbn [sall]. rewrite Hx, andb_true_r. by apply negb_true_iff, Ascii.eqb_neq.
      * intros [H Hu]. destruct u as [|b u]; simpl in H; [congruence|]. injection H as <- H.
        unfold colon_free in *. cbn [sall] in Hu. bool_split. by specialize (proj2 (IH u) (conj H H1)) as [= -> ->].
      * intros [H Hu]. destruct u as [|b u]; simpl in H; [congruence|]. injection H as <- H.
        unfold colon_free in *. cbn [sall] in Hu. bool_split. by specialize (proj2 (IH u) (conj H H1)).
Qed.

Lemma authorized_alt username password auth :
  authorized username password auth = true ↔
  smap lower_byte (stake 6 auth) = "basic " ∧ colon_free username = true ∧
  DecodeString StdEncoding (sdrop 6 auth) = Some (username +:+ ":" +:+ password).
Proof.
  unfold authorized, BasicAuth. destruct (String.eqb_spec (smap lower_byte (stake 6 auth)) "basic ");
    cbn [negb]; [|by split; [|intros [? _]]].
  destruct (DecodeString _ _) as [c|]; simpl; [|by split; [|intros (_ & _ & ?)]].
  destruct (cut ":" c) as [[u p]|] eqn:E.
  - pose proof (proj1 (cut_colon _ _ _) E) as [Ec Hu']. rewrite andb_true_iff, !String.eqb_eq. split.
    + intros [-> ->]. by rewrite Ec.
    + intros (_ & Hu & [= ->]). rewrite (proj2 (cut_colon _ username password)) in E by done. by simplify_eq.
  - split; [done|]. intros (_ & Hu & [= ->]).
    by rewrite (proj2 (cut_colon _ username password)) in E by done.
Qed.

Lemma find_route_code q mismatch rs code :
  find_route q mismatch rs = Err code → code = 405%Z ∨ (code = 404%Z ∧ mismatch = false).
Proof.
  revert mismatch. induction rs as [|[[m t] h] rs IH]; intros mismatch; simpl.
  - destruct mismatch; intros [= <-]; auto.
  - destruct (match_segments _ _); [|apply IH]. destruct (String.eqb _ _); [done|].
    intros [?|[_ ?]]%IH; [by left|done].
Qed.

(** A path component that cleaning leaves alone. *)
Definition plain_comp (s : string) : Prop :=
  sall (fun a => negb (Ascii.eqb a "/")) s = true ∧ s ∉ [""; "."; ".."].

Lemma clean_comps_plain stack comps : Forall plain_comp comps →
  clean_comps true stack comps = rev stack ++ comps.
Proof.
  intros H. revert stack. induction H as [|c comps [_ Hc] _ IH]; intros stack; simpl.
  - by rewrite app_nil_r.
  - rewrite !not_elem_of_cons in Hc. destruct Hc as (H1 & H2 & H3 & _).
    rewrite !(proj2 (String.eqb_neq _ _)) by done. simpl. rewrite IH. simpl. by rewrite <- app_assoc.
Qed.

Lemma split_on_snoc c x y : split_on c (x +:+ String c y) = split_on c x ++ split_on c y.
Proof.
  induction x as [|a x IH]; simpl; [by rewrite Ascii.eqb_refl|]. rewrite IH.
  destruct (Ascii.eqb a c); [done|].
  pose proof (split_on_nonempty c x). by destruct (split_on c x).
Qed.

Lemma split_path comps : comps ≠ [] → Forall plain_comp comps →
  split_on "/" ("/" +:+ join "/" comps) = "" :: comps.
Proof.
  intros Hne H. simpl. rewrite split_on_join; [done..|].
  eapply Forall_impl; [exact H|]. by intros s [? _].
Qed.

(** Paths of plain components are clean. *)
Lemma cleanPath_plain comps : comps ≠ [] → Forall plain_comp comps →
  cleanPath ("/" +:+ join "/" comps) = "/" +:+ join "/" comps.
Proof.
  intros Hne H. pose proof (split_path comps Hne H) as Hs. unfold cleanPath, Clean.
  set (p := "/" +:+ join "/" comps) in *.
  assert (Hp : String.prefix "/" p = true) by (subst p; by destruct (join "/" comps)).
  change (String.eqb p "") with false. cbv zeta. rewrite Hp. cbv iota. rewrite Hp, Hs. change (clean_comps true [] ("" :: comps)) with (clean_comps true [] comps).
  rewrite clean_comps_plain by done. cbn [rev app]. fold p. change (String.eqb p "") with false. cbv iota.
  destruct (String.eqb_spec (sdrop (String.length p - 1) p) "/") as [E|]; [|done].
  exfalso. rewrite <- (stake_sdrop (String.length p - 1) p), E, split_on_snoc in Hs.
  change (split_on "/" "") with [""] in Hs.
  assert (Hl : last ("" :: comps) = Some "") by (rewrite <- Hs; apply last_snoc).
  destruct comps as [|c comps]; [done|]. change (last (c :: comps) = Some "") in Hl.
  apply last_Some_elem_of in Hl. rewrite Forall_forall in H. destruct (H "" Hl) as [_ Hn]. by apply Hn; left.
Qed.

Lemma plain_comps_lit l : forallb (fun s => sall (fun a => negb (Ascii.eqb a "/")) s
    && negb (String.eqb s "" || String.eqb s "." || String.eqb s "..")) l = true →
  Forall plain_comp l.
Proof.
  induction l as [|s l IH]; [done|]. simpl. intros H. bool_split.
  constructor; [|auto]. split; [done|]. bool_prop. rewrite !not_elem_of_cons. split_and!; [done..|]. apply not_elem_of_nil.
Qed.

(** ** Properties *)

(** C21. The credential check accepts a header exactly when its scheme is basic, in
    any case, and its base64 text decodes to the configured user name, a colon and
    the configured password, for a user name without a colon. So the header a
    client builds from credentials is accepted if and only if they are the
    configured ones; nobody can log in when the configured name has a colon. *)
Theorem authorized_spec username password :
  (∀ auth, authorized username password auth = true ↔
     smap lower_byte (stake 6 auth) = "basic " ∧ colon_free username = true ∧
     DecodeString StdEncoding (sdrop 6 auth) = Some (username +:+ ":" +:+ password)) ∧
  (∀ u p, colon_free u = true →
     authorized username password (Bosh.BasicHeader u p).2 = true ↔ u = username ∧ p = password).
Proof.
  split; [apply authorized_alt|]. intros u p Hu.
  rewrite authorized_alt. unfold Bosh.BasicHeader. cbn [snd].
  rewrite (sdrop_app "Basic "). change (stake 6 _) with "Basic ". rewrite DecodeString_EncodeToString by apply _. split.
  - intros (_ & Hun & [= H]).
    pose proof (proj2 (cut_colon _ u p) (conj eq_refl Hu)) as E1.
    change (u +:+ ":" +:+ p = username +:+ ":" +:+ password) in H. rewrite H in E1.
    rewrite (proj2 (cut_colon _ username password)) in E1 by done. by simplify_eq.
  - intros [-> ->]. done.
Qed.

Section Properties.
Context (is_print : N → bool) (b : Broker) `{!GoodBroker b}.

(** C20. Without the configured credentials nothing happens: whatever the method, the
    path, the query and the body, no handler runs: no request is sent, the store
    is untouched and the answer is a redirect to the clean form of the path, an
    error that names no instance, or the challenge of Basic authentication. *)
Theorem ServeHTTP_unauthenticated username password q s tr :
  authorized username password (authorization q) = false →
  wp (ServeHTTP is_print username password b q) s tr (fun a s' tr' =>
    s' = s ∧ tr' = tr ∧
    a ∈ [moved (cleanPath (path q)) (rawquery q); unauthorized; not_found; method_not_allowed]).
Proof.
  intros Ha. unfold ServeHTTP, basicAuthMiddleware. destruct (negb _); [cbn [wp]; set_solver+|].
  rewrite Ha. destruct (find_route _ _ _) as [request|code] eqn:E; [cbn [wp]; set_solver+|].
  apply find_route_code in E as [->|[-> _]]; cbn [wp]; set_solver+.
Qed.

(** A clean path of the given components leads to the first route that matches. *)
Lemma ServeHTTP_path username password comps q :
  authorized username password (authorization q) = true →
  comps ≠ [] → Forall plain_comp comps → path q = "/" +:+ join "/" comps →
  split_on "/" (path q) = "" :: comps ∧
  ServeHTTP is_print username password b q =
    match find_route q false routes with
    | Err 404%Z => Ret not_found
    | Err _ => Ret method_not_allowed
    | Ok request => respond is_print (handle b request)
    end.
Proof.
  intros Ha Hne H Hp. split; [by rewrite Hp, split_path|].
  unfold ServeHTTP, basicAuthMiddleware. rewrite Hp at 1 2. by rewrite cleanPath_plain, String.eqb_refl, Ha.
Qed.

(** C38. Requests reach their handlers: with the credentials, the path
    /v2/service_instances/ID with a PUT, DELETE or PATCH runs Provision,
    Deprovision or Update for exactly the id ID, whatever text without a slash ID
    is but a dot or two; ID/last_operation polls it, and ID/service_bindings/BID
    binds it; what the handler returns is sent. *)
Theorem ServeHTTP_routes username password id bid q :
  authorized username password (authorization q) = true → plain_comp id → plain_comp bid →
  let serve := ServeHTTP is_print username password b q in
  let accepts := query_get "accepts_incomplete" (rawquery q) in
  (path q = "/v2/service_instances/" +:+ id →
   serve =
     if String.eqb (method q) "PUT" then
       respond is_print (Provision b id accepts (decode_provision (Decode (payload q))))
     else if String.eqb (method q) "DELETE" then respond is_print (Deprovision b id accepts)
     else if String.eqb (method q) "PATCH" then
       respond is_print (Update b id accepts (decode_update (Decode (payload q))))
     else Ret method_not_allowed) ∧
  (path q = "/v2/service_instances/" +:+ id +:+ "/last_operation" → method q = "GET" →
   serve = respond is_print (LastOperation b id)) ∧
  (path q = "/v2/service_instances/" +:+ id +:+ "/service_bindings/" +:+ bid →
   serve =
     if String.eqb (method q) "PUT" then respond is_print (Bind id)
     else if String.eqb (method q) "DELETE" then respond is_print Unbind
     else Ret method_not_allowed).
Proof.
  intros Ha Hid Hbid serve accepts.
  assert (Hn : String.eqb id "" = false) by (apply String.eqb_neq; destruct Hid; set_solver).
  assert (Hn' : String.eqb bid "" = false) by (apply String.eqb_neq; destruct Hbid; set_solver).
  assert (Hl : Forall plain_comp ["v2"; "service_instances"; "last_operation"; "service_bindings"])
    by by apply plain_comps_lit.
  rewrite !Forall_cons in Hl. destruct Hl as (H1 & H2 & H3 & H4 & _).
  split_and!; intros Hp; [|intros Hm|].
  - destruct (ServeHTTP_path username password ["v2"; "service_instances"; id] q) as [Hs E];
      [done|done|repeat (apply Forall_cons_2; [assumption|]); apply Forall_nil_2|exact Hp|].
    subst serve. rewrite E. unfold routes, find_route. rewrite Hs. simpl. rewrite Hn. simpl.
    destruct (String.eqb (method q) "PUT"); [done|]. destruct (String.eqb (method q) "DELETE"); [done|].
    by destruct (String.eqb (method q) "PATCH").
  - destruct (ServeHTTP_path username password ["v2"; "service_instances"; id; "last_operation"] q) as [Hs E];
      [done|done|repeat (apply Forall_cons_2; [assumption|]); apply Forall_nil_2|exact Hp|].
    subst serve. rewrite E. unfold routes, find_route. rewrite Hs. simpl. by rewrite Hn, Hm.
  - destruct (ServeHTTP_path username password ["v2"; "service_instances"; id; "service_bindings"; bid] q) as [Hs E];
      [done|done|repeat (apply Forall_cons_2; [assumption|]); apply Forall_nil_2|exact Hp|].
    subst serve. rewrite E. unfold routes, find_route. rewrite Hs. simpl. rewrite Hn, Hn'. simpl.
    destruct (String.eqb (method q) "PUT"); [done|]. by destruct (String.eqb (method q) "DELETE").
Qed.
End Properties.

(** ** Witnesses *)

(** A table without any printable code point beyond ASCII. *)
Definition ascii_only (n : N) : bool := false.

Definition demo_query (method path authorization : string) : HttpQuery :=
  {| method := method; path := path; rawquery := "accepts_incomplete=true";
     authorization := authorization; payload := "" |}.

Lemma authorized_spec_witness :
  authorized "broker" "s3cret" (Bosh.BasicHeader "broker" "s3cret").2 = true.
Proof. apply (proj2 (authorized_spec "broker" "s3cret") "broker" "s3cret"); [reflexivity|split; reflexivity]. Defined.

Definition intruder : HttpQuery := demo_query "DELETE" "/v2/service_instances/i-1" "Basic d3Jvbmc6d3Jvbmc=".

Lemma ServeHTTP_unauthenticated_witness :
  authorized "broker" "s3cret" (authorization intruder) = false ∧
  wp (ServeHTTP ascii_only "broker" "s3cret" demo_broker intruder) demo_store [] (fun a s' tr' =>
    s' = demo_store ∧ tr' = [] ∧
    a ∈ [moved (cleanPath (path intruder)) (rawquery intruder); unauthorized; not_found; method_not_allowed]).
Proof.
  split; [vm_compute; reflexivity|].
  apply (ServeHTTP_unauthenticated ascii_only demo_broker "broker" "s3cret" intruder demo_store []).
  vm_compute; reflexivity.
Defined.

Definition demo_delete : HttpQuery :=
  demo_query "DELETE" "/v2/service_instances/i-1" (Bosh.BasicHeader "broker" "s3cret").2.

Lemma ServeHTTP_routes_witness :
  ServeHTTP ascii_only "broker" "s3cret" demo_broker demo_delete =
  respond ascii_only (Deprovision demo_broker "i-1" "true").
Proof.
  apply (proj1 (ServeHTTP_routes ascii_only demo_broker "broker" "s3cret" "i-1" "b-1" demo_delete
    ltac:(vm_compute; reflexivity)
    ltac:(split; [vm_compute; reflexivity|apply (bool_decide_unpack _); vm_compute; exact I])
    ltac:(split; [vm_compute; reflexivity|apply (bool_decide_unpack _); vm_compute; exact I])) eq_refl).
Defined.

(** The whole of two answers. *)
Example intruder_answer :
  (run (demo_oracle 302 302 "done") (ServeHTTP ascii_only "broker" "s3cret" demo_broker intruder) demo_store []).1.1 =
  {| code := 401;
     headers := [("WWW-Authenticate", "Basic realm=" +:+ String dquote ("OpenClaw Broker" +:+ String dquote ""));
                 ("Content-Type", "text/plain; charset=utf-8"); ("X-Content-Type-Options", "nosniff")];
     text := "Unauthorized" +:+ String lf "" |}.
Proof. vm_compute. reflexivity. Qed.

Example redirect_answer :
  (run (demo_oracle 302 302 "done") (ServeHTTP ascii_only "broker" "s3cret" demo_broker
    (demo_query "GET" "/v2//catalog/../a b" "")) demo_store []).1.1 =
  {| code := 301; headers := [("Location", "/v2/a%20b?accepts_incomplete=true")]; text := "" |}.
Proof. vm_compute. reflexivity. Qed.
