(* ===== verification/Effects.v ===== *)
(** * What the handlers do besides their director and registry calls

    A property of programs that is closed under sequencing and holds of every step
    that leaves the director token alone holds of every handler, provided it holds of
    the operations of the two clients: the handlers reach the network and the token
    through the interfaces [Director] and [ClientRegistry] only. *)

From S2P Require Import Prelude GoStrings Json Encoding Prog Url Manifest Tokens BoshClient UaaClient Broker Http StateFile Store Provision Update Deprovision LastOperation Binding Catalog Admin Concurrency Server.

(** A step that does not touch the director token. *)
Definition keeps_token (f : Store → Store) : Prop := ∀ s, token (f s) = token s.

(** Closed under everything a program can do but send requests and lock. *)
Class Closed (Φ : ∀ A, prog Store A → Prop) : Prop := {
  closed_ret {A} (a : A) : Φ A (Ret a);
  closed_bind {A B} (p : prog Store A) (h : A → prog Store B) :
    Φ A p → (∀ a, Φ B (h a)) → Φ B (bind p h);
  closed_step {A} f (k : Store → prog Store A) : keeps_token f → (∀ s, Φ A (k s)) → Φ A (Step f k);
  closed_rand {A} n (k : string → prog Store A) : (∀ x, Φ A (k x)) → Φ A (Rand n k);
  closed_fs {A} op (k : option GoError → prog Store A) : (∀ x, Φ A (k x)) → Φ A (Fs op k);
  closed_order {A} l (k : list string → prog Store A) : (∀ x, Φ A (k x)) → Φ A (Order l k);
  closed_draw {A} n f (k : Store → list string → prog Store A) :
    (∀ xs, keeps_token (fun s => f s xs)) → (∀ s xs, Φ A (k s xs)) → Φ A (Draw n f k);
}.

Section Effects.
Context (b : Broker) (Φ : ∀ A, prog Store A → Prop) `{!Closed Φ}.
Hypothesis deploy_closed : ∀ m, Φ _ (@Deploy _ (director b) m).
Hypothesis delete_closed : ∀ n, Φ _ (@DeleteDeployment _ (director b) n).
Hypothesis status_closed : ∀ t, Φ _ (@TaskStatus _ (director b) t).
Hypothesis create_closed : ∀ uaa o, uaaClient b = Some uaa → Φ _ (@Prog.CreateClient _ uaa o).
Hypothesis remove_closed : ∀ uaa id, uaaClient b = Some uaa → Φ _ (@Prog.DeleteClient _ uaa id).

#[local] Notation Φ' := (Φ _).

(** Sequences after a read, a write, and a critical section. *)
Lemma closed_reads {X B} (g : Store → X) (h : X → prog Store B) : (∀ x, Φ' (h x)) → Φ' (bind (reads g) h).
Proof. intros H. by apply closed_step. Qed.

Lemma closed_writes {B} f (h : unit → prog Store B) : keeps_token f → Φ' (h tt) → Φ' (bind (writes f) h).
Proof. intros. by apply closed_step. Qed.

Lemma closed_atomic {X B} (g : Store → Store * X) (h : X → prog Store B) :
  keeps_token (fun s => (g s).1) → (∀ x, Φ' (h x)) → Φ' (bind (atomic g) h).
Proof. intros ? H. apply closed_step; [done|]. intros s. apply H. Qed.

Lemma closed_locked {X B} gens (g : list string → Store → Store * X) (h : X → prog Store B) :
  (∀ xs, keeps_token (fun s => (g xs s).1)) → (∀ x, Φ' (h x)) → Φ' (bind (locked gens g) h).
Proof. intros Hg H. apply closed_draw; [intros xs s; apply Hg|intros s xs; apply H]. Qed.

Lemma saveState_closed : Φ' (saveState b).
Proof.
  unfold saveState. destruct (String.eqb _ _); [apply closed_ret|]. apply closed_reads. intros data.
  apply closed_bind.
  - apply closed_fs. intros [e|]; [apply closed_ret|]. apply closed_atomic.
    + intros s. cbn. by destruct (FileSys.open_trunc _ _).
    + intros i. apply closed_fs. intros [e|]; (apply closed_writes; [done|apply closed_ret]).
  - intros [e|]; [apply closed_ret|]. apply closed_bind; [|intros; apply closed_ret].
    apply closed_fs. intros [e|]; [apply closed_ret|]. apply closed_step; [|intros; apply closed_ret].
    intros s. cbn. by destruct (FileSys.rename _ _ _).
Qed.

(** A write, the save, and the answer. *)
Lemma then_save_closed {A} f (x : A) : keeps_token f → Φ' (writes f >>> saveState b >>> Ret x).
Proof.
  intros. apply closed_writes; [done|]. apply closed_bind; [apply saveState_closed|].
  intros. apply closed_ret.
Qed.

Lemma render_closed params msg : Φ' (render_and_deploy b params msg).
Proof.
  unfold render_and_deploy. destruct (Manifest.RenderAgentManifest params); [|apply closed_ret].
  apply closed_bind; [apply deploy_closed|]. intros [t|e]; apply closed_ret.
Qed.

Lemma setup_sso_closed id h l : Φ' (setup_sso b id h l).
Proof.
  unfold setup_sso. apply closed_reads. intros [|]; [|apply closed_ret].
  destruct (uaaClient b) as [uaa|] eqn:E; [|by apply closed_step; [|intros; apply closed_ret]].
  apply closed_rand. intros x. apply closed_rand. intros y. cbn [bind].
  apply closed_bind; [by apply create_closed|]. intros [e|].
  - by apply closed_step; [|intros; apply closed_ret].
  - do 2 (apply closed_writes; [done|]). by apply closed_step; [|intros; apply closed_ret].
Qed.

Lemma Provision_closed id accepts req : Φ' (Provision b id accepts req).
Proof.
  unfold Provision. do 2 (destruct (negb _); [apply closed_ret|]). destruct req as [req|]; [|apply closed_ret].
  apply closed_locked.
  - intros xs s. unfold admit_and_reserve, admission. by repeat case_match.
  - intros [l|resp]; [|apply closed_ret]. apply closed_bind; [apply setup_sso_closed|]. intros _.
    apply closed_reads. intros params. apply closed_bind; [apply render_closed|].
    intros [t|resp]; [by apply then_save_closed|]. apply closed_writes; [done|apply closed_ret].
Qed.

Lemma Update_closed id accepts req : Φ' (Update b id accepts req).
Proof.
  unfold Update. destruct (negb _); [apply closed_ret|]. destruct req as [req|]; [|apply closed_ret].
  apply closed_locked.
  - intros xs s. unfold prepare_update. by repeat case_match.
  - intros [[l params]|resp]; [|apply closed_ret]. apply closed_bind; [apply render_closed|].
    intros [t|resp]; [by apply then_save_closed|apply closed_ret].
Qed.

Lemma delete_deployment_closed id n l undo failed : keeps_token undo →
  Φ' (delete_deployment b id n l undo failed).
Proof.
  intros Hu. unfold delete_deployment, deleteUAAClient. apply closed_bind.
  - destruct (uaaClient b) as [uaa|] eqn:E; [|apply closed_ret].
    apply closed_bind; [by apply remove_closed|intros; apply closed_ret].
  - intros _. apply closed_bind; [apply delete_closed|].
    intros [t|e]; [by apply then_save_closed|]. apply closed_writes; [done|apply closed_ret].
Qed.

Lemma Deprovision_closed id accepts : Φ' (Deprovision b id accepts).
Proof.
  unfold Deprovision. destruct (negb _); [apply closed_ret|]. apply closed_atomic.
  - intros s. unfold mark_deprovisioning. by repeat case_match.
  - intros [l| |l st n]; [by apply delete_deployment_closed|apply closed_ret|by apply delete_deployment_closed].
Qed.

Lemma task_state_closed t : Φ' (task_state b t).
Proof. apply closed_bind; [apply status_closed|intros; apply closed_ret]. Qed.

Lemma LastOperation_closed id : Φ' (LastOperation b id).
Proof.
  unfold LastOperation. apply closed_reads. intros [[[l st] t]|]; [|apply closed_ret].
  destruct (String.eqb st "provisioning"); [|destruct (String.eqb st "deprovisioning");
    [|repeat case_match; apply closed_ret]];
    (destruct (t =? 0)%Z; [apply closed_ret|]; apply closed_bind; [apply task_state_closed|]; intros ts;
     destruct (String.eqb ts "done"); [by apply then_save_closed|]; destruct (task_failed ts);
     try apply closed_ret; by apply then_save_closed).
Qed.

Lemma upgrade_all_closed version l n : Φ' (upgrade_all b version l n).
Proof.
  revert n. induction l as [|x l IH]; intros n; [apply closed_ret|]. cbn [upgrade_all].
  apply closed_reads. intros params. apply closed_bind; [apply render_closed|].
  intros [t|e]; [|apply IH]. do 2 (apply closed_writes; [done|]). apply IH.
Qed.

Lemma mark_keeps id st : keeps_token (mark id st).
Proof. intros s. unfold mark. by case_match. Qed.

Lemma check_all_closed l n : Φ' (check_all b l n).
Proof.
  revert n. induction l as [|[id t] l IH]; intros n; [apply closed_ret|]. cbn [check_all].
  apply closed_bind; [apply status_closed|]. intros [st|e]; [|apply IH].
  destruct (String.eqb st "done"); [by apply closed_writes; [apply mark_keeps|]|].
  destruct (task_failed st); [by apply closed_writes; [apply mark_keeps|]|apply IH].
Qed.

(** Every handler. *)
Lemma handle_closed r : Φ' (handle b r).
Proof.
  destruct r; cbn [handle]; [apply closed_ret|apply Provision_closed|apply Update_closed|
    apply Deprovision_closed|apply LastOperation_closed|by apply closed_step; [|intros; apply closed_ret]|
    apply closed_ret| | |].
  - apply closed_reads. intros m. apply closed_order. intros keys. apply closed_ret.
  - unfold AdminUpgrade. destruct body as [req|]; [|apply closed_ret]. destruct (_ <=? 0)%Z; [apply closed_ret|].
    apply closed_reads. intros m. apply closed_order. intros keys.
    apply closed_bind; [apply upgrade_all_closed|]. intros n.
    apply closed_bind; [apply saveState_closed|intros; apply closed_ret].
  - apply closed_reads. intros m. apply closed_order. intros keys.
    apply closed_bind; [apply check_all_closed|]. intros n.
    apply closed_bind; [apply saveState_closed|intros; apply closed_ret].
Qed.

(** And every request as it arrives. *)
Lemma ServeHTTP_closed is_print username password q : Φ' (ServeHTTP is_print username password b q).
Proof.
  unfold ServeHTTP, basicAuthMiddleware, respond. destruct (negb _); [apply closed_ret|].
  destruct (find_route q false routes) as [r|e].
  - destruct (negb _); [apply closed_ret|]. apply closed_bind; [apply handle_closed|intros; apply closed_ret].
  - repeat case_match; apply closed_ret.
Qed.
End Effects.
