(* ===== verification/Config.v ===== *)
(** * Package main, main.go: the configuration and the start of the broker

    [loadConfig], [loadGenAICredentials], [discoverChatModel] and the part of
    [main] that comes before the server runs. *)

From S2P Require Import Prelude GoStrings Json Floats Prog Url BoshClient UaaClient Broker StateFile Store Provision Catalog Server.

(** ** Config

    One record per anonymous struct of the code; the TLS record stands for the
    NATS section, which holds nothing else. *)

Module Auth.
Record Auth : Type := {
  Username : string;
  Password : string;
}.
End Auth.

Module BOSH.
Record BOSH : Type := {
  DirectorURL : string;
  UaaURL : string;
  ClientID : string;
  ClientSecret : string;
  CACert : string;
}.
End BOSH.

Module AgentDefaults.
Record AgentDefaults : Type := {
  OpenClawVersion : string;
  Stemcell : string;
  Network : string;
  AZ : string;
}.
End AgentDefaults.

Module Security.
Record Security : Type := {
  MinOpenClawVersion : string;
  SandboxMode : string;
  BlockedCommands : string;
  SSOEnabled : bool;
  SSOOIDCIssuerURL : string;
  SSOAllowedEmailDomains : string;
  SSOSessionTimeoutHours : Z;
}.
End Security.

Module CFUAA.
Record CFUAA : Type := {
  URL : string;
  AdminClientID : string;
  AdminClientSecret : string;
}.
End CFUAA.

Module GenAI.
Record GenAI : Type := {
  Provider : string;
  Endpoint : string;
  APIKey : string;
  Model : string;
  PreferredModel : string;
  APIEndpoint : string;
  OfferingName : string;
  PlanName : string;
}.
End GenAI.

Module TLS.
Record TLS : Type := {
  Enabled : bool;
  ClientCert : string;
  ClientKey : string;
  CACert : string;
}.
End TLS.

Module OnDemand.
Record OnDemand : Type := {
  ServiceName : string;
  Plans : list Plan.Plan;
  StemcellOS : string;
  StemcellVersion : string;
  Network : string;
  AZs : list string;
  OpenClawReleaseVersion : string;
  BPMReleaseVersion : string;
  RoutingReleaseVersion : string;
}.
End OnDemand.

Module CF.
Record CF : Type := {
  SystemDomain : string;
  AppsDomain : string;
  DeploymentName : string;
  APIURL : string;
  AdminUsername : string;
  AdminPassword : string;
  SkipSSLValidation : bool;
}.
End CF.

Module Limits.
Record Limits : Type := {
  MaxInstances : Z;
  MaxInstancesPerOrg : Z;
}.
End Limits.

Module Config.
Record Config : Type := {
  Port : Z;
  Auth : Auth.Auth;
  BOSH : BOSH.BOSH;
  AgentDefaults : AgentDefaults.AgentDefaults;
  Security : Security.Security;
  CFUAA : CFUAA.CFUAA;
  GenAI : GenAI.GenAI;
  NATS : TLS.TLS;
  OnDemand : OnDemand.OnDemand;
  CF : CF.CF;
  Plans : list Plan.Plan;
  Limits : Limits.Limits;
}.
End Config.
Notation Config := Config.Config.

(** ** Decoding

    A field of a nested struct takes its value from all the objects given for the
    struct, in order; null leaves a field alone, but empties a slice. *)

Fixpoint section (name : string) (fs : list (string * json)) : option (list (string * json)) :=
  match fs with
  | [] => Some []
  | (k, v) :: r =>
      if String.eqb (fold_name k) (fold_name name) then
        match v with
        | JNull => section name r
        | JObj l => app l <$> section name r
        | _ => None
        end
      else section name r
  end.

(** An element decoded over one that is there: the fields of an object add to it,
    null leaves it alone. *)
Definition overlay (old new : json) : json :=
  match new, old with
  | JNull, _ => old
  | JObj l, JObj l0 => JObj (l0 ++ l)
  | _, _ => new
  end.

Fixpoint overlays (old new : list json) : list json :=
  match new, old with
  | [], _ => []
  | x :: new, [] => x :: overlays [] new
  | x :: new, y :: old => overlay y x :: overlays old new
  end.

(** A slice field; an element that is null is the zero value. A key given twice
    decodes over the elements it has. *)
Fixpoint slice {X} (elem : json → option X) (acc : list json) (name : string)
    (fs : list (string * json)) : option (list X) :=
  match fs with
  | [] => mapM elem acc
  | (k, v) :: r =>
      if String.eqb (fold_name k) (fold_name name) then
        match v with
        | JNull => slice elem [] name r
        | JArr l => _xs ← mapM elem l; slice elem (overlays acc l) name r
        | _ => None
        end
      else slice elem acc name r
  end.

Definition strings_field : string → list (string * json) → option (list string) :=
  slice (fun j => match j with JNull => Some "" | _ => json_string j end) [].

(** A map field: objects add to it, null empties it. *)
Fixpoint map_field {X} (elem : json → option X) (m : gmap string X) (name : string)
    (fs : list (string * json)) : option (gmap string X) :=
  match fs with
  | [] => Some m
  | (k, v) :: r =>
      if String.eqb (fold_name k) (fold_name name) then
        match v with
        | JNull => map_field elem ∅ name r
        | JObj entries =>
            kvs ← mapM (fun kv => x ← elem kv.2; Some (kv.1, x)) entries;
            map_field elem (foldl (fun m kv => <[kv.1 := kv.2]> m) m kvs) name r
        | _ => None
        end
      else map_field elem m name r
  end.

(** A value decoded into an interface and encoded again; a number out of range is
    an error. *)
Fixpoint iface (j : json) : option json :=
  match j with
  | JNum lit => JNum <$> (Float.format_json <$> Float.ParseFloat lit)
  | JArr l =>
      JArr <$> (fix go (l : list json) : option (list json) :=
        match l with
        | [] => Some []
        | x :: r => a ← iface x; as_ ← go r; Some (a :: as_)
        end) l
  | JObj fs =>
      (fun m : gmap string json => map_json m) <$>
        (fix go (m : gmap string json) (fs : list (string * json)) : option (gmap string json) :=
          match fs with
          | [] => Some m
          | (k, x) :: r => a ← iface x; go (<[k := a]> m) r
          end) ∅ fs
  | _ => Some j
  end.

Definition decode_plan_fields (fs : list (string * json)) : option Plan.Plan :=
  name ← str "name" fs;
  id ← str "id" fs;
  description ← str "description" fs;
  plan_description ← str "plan_description" fs;
  vm_type ← str "vm_type" fs;
  disk_type ← str "disk_type" fs;
  memory ← int "memory" fs;
  azs ← strings_field "azs" fs;
  features ← map_field (fun j => match j with JNull => Some false | _ => json_bool j end) ∅ "features" fs;
  metadata ← map_field iface ∅ "metadata" fs;
  Some {| Plan.Name := name; Plan.ID := id; Plan.Description := description;
          Plan.PlanDescription := plan_description; Plan.VMType := vm_type;
          Plan.DiskType := disk_type; Plan.Memory := memory; Plan.AZs := azs;
          Plan.Features := features; Plan.Metadata := metadata |}.

Definition decode_plan (j : json) : option Plan.Plan :=
  match j with
  | JObj fs => decode_plan_fields fs
  | JNull => decode_plan_fields []
  | _ => None
  end.

Definition plans_field : string → list (string * json) → option (list Plan.Plan) :=
  slice decode_plan [].

Definition decode_Auth (fs : list (string * json)) : option Auth.Auth :=
  username ← str "username" fs;
  password ← str "password" fs;
  Some {| Auth.Username := username;
          Auth.Password := password |}.

Definition decode_BOSH (fs : list (string * json)) : option BOSH.BOSH :=
  directorurl ← str "director_url" fs;
  uaaurl ← str "uaa_url" fs;
  clientid ← str "client_id" fs;
  clientsecret ← str "client_secret" fs;
  cacert ← str "ca_cert" fs;
  Some {| BOSH.DirectorURL := directorurl;
          BOSH.UaaURL := uaaurl;
          BOSH.ClientID := clientid;
          BOSH.ClientSecret := clientsecret;
          BOSH.CACert := cacert |}.

Definition decode_AgentDefaults (fs : list (string * json)) : option AgentDefaults.AgentDefaults :=
  openclawversion ← str "openclaw_version" fs;
  stemcell ← str "stemcell" fs;
  network ← str "network" fs;
  az ← str "az" fs;
  Some {| AgentDefaults.OpenClawVersion := openclawversion;
          AgentDefaults.Stemcell := stemcell;
          AgentDefaults.Network := network;
          AgentDefaults.AZ := az |}.

Definition decode_Security (fs : list (string * json)) : option Security.Security :=
  minopenclawversion ← str "min_openclaw_version" fs;
  sandboxmode ← str "sandbox_mode" fs;
  blockedcommands ← str "blocked_commands" fs;
  ssoenabled ← boolean "sso_enabled" fs;
  ssooidcissuerurl ← str "sso_oidc_issuer_url" fs;
  ssoallowedemaildomains ← str "sso_allowed_email_domains" fs;
  ssosessiontimeouthours ← int "sso_session_timeout_hours" fs;
  Some {| Security.MinOpenClawVersion := minopenclawversion;
          Security.SandboxMode := sandboxmode;
          Security.BlockedCommands := blockedcommands;
          Security.SSOEnabled := ssoenabled;
          Security.SSOOIDCIssuerURL := ssooidcissuerurl;
          Security.SSOAllowedEmailDomains := ssoallowedemaildomains;
          Security.SSOSessionTimeoutHours := ssosessiontimeouthours |}.

Definition decode_CFUAA (fs : list (string * json)) : option CFUAA.CFUAA :=
  url ← str "url" fs;
  adminclientid ← str "admin_client_id" fs;
  adminclientsecret ← str "admin_client_secret" fs;
  Some {| CFUAA.URL := url;
          CFUAA.AdminClientID := adminclientid;
          CFUAA.AdminClientSecret := adminclientsecret |}.

Definition decode_GenAI (fs : list (string * json)) : option GenAI.GenAI :=
  provider ← str "provider" fs;
  endpoint ← str "endpoint" fs;
  apikey ← str "api_key" fs;
  model ← str "model" fs;
  preferredmodel ← str "preferred_model" fs;
  apiendpoint ← str "api_endpoint" fs;
  offeringname ← str "offering_name" fs;
  planname ← str "plan_name" fs;
  Some {| GenAI.Provider := provider;
          GenAI.Endpoint := endpoint;
          GenAI.APIKey := apikey;
          GenAI.Model := model;
          GenAI.PreferredModel := preferredmodel;
          GenAI.APIEndpoint := apiendpoint;
          GenAI.OfferingName := offeringname;
          GenAI.PlanName := planname |}.

Definition decode_TLS (fs : list (string * json)) : option TLS.TLS :=
  enabled ← boolean "enabled" fs;
  clientcert ← str "client_cert" fs;
  clientkey ← str "client_key" fs;
  cacert ← str "ca_cert" fs;
  Some {| TLS.Enabled := enabled;
          TLS.ClientCert := clientcert;
          TLS.ClientKey := clientkey;
          TLS.CACert := cacert |}.

Definition decode_OnDemand (fs : list (string * json)) : option OnDemand.OnDemand :=
  servicename ← str "service_name" fs;
  plans ← plans_field "plans" fs;
  stemcellos ← str "stemcell_os" fs;
  stemcellversion ← str "stemcell_version" fs;
  network ← str "network" fs;
  azs ← strings_field "azs" fs;
  openclawreleaseversion ← str "openclaw_release_version" fs;
  bpmreleaseversion ← str "bpm_release_version" fs;
  routingreleaseversion ← str "routing_release_version" fs;
  Some {| OnDemand.ServiceName := servicename;
          OnDemand.Plans := plans;
          OnDemand.StemcellOS := stemcellos;
          OnDemand.StemcellVersion := stemcellversion;
          OnDemand.Network := network;
          OnDemand.AZs := azs;
          OnDemand.OpenClawReleaseVersion := openclawreleaseversion;
          OnDemand.BPMReleaseVersion := bpmreleaseversion;
          OnDemand.RoutingReleaseVersion := routingreleaseversion |}.

Definition decode_CF (fs : list (string * json)) : option CF.CF :=
  systemdomain ← str "system_domain" fs;
  appsdomain ← str "apps_domain" fs;
  deploymentname ← str "deployment_name" fs;
  apiurl ← str "api_url" fs;
  adminusername ← str "admin_username" fs;
  adminpassword ← str "admin_password" fs;
  skipsslvalidation ← boolean "skip_ssl_validation" fs;
  Some {| CF.SystemDomain := systemdomain;
          CF.AppsDomain := appsdomain;
          CF.DeploymentName := deploymentname;
          CF.APIURL := apiurl;
          CF.AdminUsername := adminusername;
          CF.AdminPassword := adminpassword;
          CF.SkipSSLValidation := skipsslvalidation |}.

Definition decode_Limits (fs : list (string * json)) : option Limits.Limits :=
  maxinstances ← int "max_instances" fs;
  maxinstancesperorg ← int "max_instances_per_org" fs;
  Some {| Limits.MaxInstances := maxinstances;
          Limits.MaxInstancesPerOrg := maxinstancesperorg |}.

Definition decode_config (fs : list (string * json)) : option Config :=
  port ← int "port" fs;
  auth ← section "auth" fs ≫= decode_Auth;
  bosh ← section "bosh" fs ≫= decode_BOSH;
  agent ← section "agent_defaults" fs ≫= decode_AgentDefaults;
  security ← section "security" fs ≫= decode_Security;
  cf_uaa ← section "cf_uaa" fs ≫= decode_CFUAA;
  genai ← section "genai" fs ≫= decode_GenAI;
  nats ← ((section "nats" fs ≫= section "tls") ≫= decode_TLS);
  on_demand ← section "on_demand" fs ≫= decode_OnDemand;
  cf ← section "cf" fs ≫= decode_CF;
  plans ← plans_field "plans" fs;
  limits ← section "limits" fs ≫= decode_Limits;
  Some {| Config.Port := port; Config.Auth := auth; Config.BOSH := bosh;
          Config.AgentDefaults := agent; Config.Security := security; Config.CFUAA := cf_uaa;
          Config.GenAI := genai; Config.NATS := nats; Config.OnDemand := on_demand;
          Config.CF := cf; Config.Plans := plans; Config.Limits := limits |}.

(** What os.ReadFile of a file gives. *)
Definition JsonFile : Type := result GoError string.

Definition default_port (c : Config) : Config :=
  {| Config.Port := if (Config.Port c =? 0)%Z then 8080%Z else Config.Port c;
     Config.Auth := Config.Auth c; Config.BOSH := Config.BOSH c;
     Config.AgentDefaults := Config.AgentDefaults c; Config.Security := Config.Security c;
     Config.CFUAA := Config.CFUAA c; Config.GenAI := Config.GenAI c; Config.NATS := Config.NATS c;
     Config.OnDemand := Config.OnDemand c; Config.CF := Config.CF c;
     Config.Plans := Config.Plans c; Config.Limits := Config.Limits c |}.

Definition loadConfig (file : JsonFile) : result GoError Config :=
  data ←? file;
  match Unmarshal data with
  | Some (JObj fs) =>
      match decode_config fs with
      | Some c => Ok (default_port c)
      | None => Err (Errorf "json: cannot unmarshal into Go struct" [])
      end
  | Some JNull =>
      match decode_config [] with
      | Some c => Ok (default_port c)
      | None => Err (Errorf "json: cannot unmarshal into Go struct" [])
      end
  | _ => Err (Errorf "invalid JSON" [])
  end.

(** ** GenAI credentials *)

Module GenAIEndpoint.
Record GenAIEndpoint : Type := {
  APIBase : string;
  APIKey : string;
  ConfigURL : string;
  Name : string;
}.
End GenAIEndpoint.

(** GenAIServiceKeyCreds; the endpoint is a pointer. *)
Module Creds.
Record Creds : Type := {
  APIBase : string;
  APIKey : string;
  ModelName : string;
  Endpoint : option GenAIEndpoint.GenAIEndpoint;
}.
End Creds.

(** A pointer to a struct: nil when never given or last given as null, else the
    fields of the objects given since. *)
Fixpoint pointer (acc : option (list (string * json))) (name : string)
    (fs : list (string * json)) : option (option (list (string * json))) :=
  match fs with
  | [] => Some acc
  | (k, v) :: r =>
      if String.eqb (fold_name k) (fold_name name) then
        match v with
        | JNull => pointer None name r
        | JObj l => pointer (Some (default [] acc ++ l)) name r
        | _ => None
        end
      else pointer acc name r
  end.

Definition decode_endpoint (fs : list (string * json)) : option GenAIEndpoint.GenAIEndpoint :=
  base ← str "api_base" fs; key ← str "api_key" fs; url ← str "config_url" fs; name ← str "name" fs;
  Some {| GenAIEndpoint.APIBase := base; GenAIEndpoint.APIKey := key;
          GenAIEndpoint.ConfigURL := url; GenAIEndpoint.Name := name |}.

(** The value behind a pointer. *)
Definition behind {X Y} (f : X → option Y) (p : option X) : option (option Y) :=
  match p with None => Some None | Some x => Some <$> f x end.

Definition decode_creds (fs : list (string * json)) : option Creds.Creds :=
  base ← str "api_base" fs; key ← str "api_key" fs; model ← str "model_name" fs;
  endpoint ← (pointer None "endpoint" fs ≫= behind decode_endpoint);
  Some {| Creds.APIBase := base; Creds.APIKey := key; Creds.ModelName := model;
          Creds.Endpoint := endpoint |}.

(** GenAIServiceKey: the wrapped credentials, and those at the top level. *)
Definition decode_service_key (data : string) : option (option Creds.Creds * Creds.Creds) :=
  fs ← match Unmarshal data with Some (JObj fs) => Some fs | Some JNull => Some [] | _ => None end;
  wrapped ← (pointer None "credentials" fs ≫= behind decode_creds);
  top ← decode_creds fs;
  Some (wrapped, top).

(** The wrapped credentials count when they have a base, a key or an endpoint. *)
Definition chosen_creds (wrapped : option Creds.Creds) (top : Creds.Creds) : Creds.Creds :=
  match wrapped with
  | Some c =>
      if negb (String.eqb (Creds.APIBase c) "") || negb (String.eqb (Creds.APIKey c) "")
         || bool_decide (is_Some (Creds.Endpoint c))
      then c else top
  | None => top
  end.

(** The field, or else the one of the endpoint. *)
Definition or_endpoint (s : string) (get : GenAIEndpoint.GenAIEndpoint → string)
    (endpoint : option GenAIEndpoint.GenAIEndpoint) : string :=
  if String.eqb s "" then match endpoint with Some e => get e | None => s end else s.

(** ** discoverChatModel *)

Module Model.
Record Model : Type := {
  Name : string;
  Capabilities : list string;
}.
End Model.

Definition decode_model (j : json) : option Model.Model :=
  fs ← match j with JObj fs => Some fs | JNull => Some [] | _ => None end;
  name ← str "name" fs;
  capabilities ← strings_field "capabilities" fs;
  Some {| Model.Name := name; Model.Capabilities := capabilities |}.

Definition decode_models (body : string) : option (list Model.Model) :=
  fs ← match Decode body with Some (JObj fs) => Some fs | Some JNull => Some [] | _ => None end;
  slice decode_model [] "advertisedModels" fs.

Definition is_chat (m : Model.Model) : bool := existsb (String.eqb "CHAT") (Model.Capabilities m).

(** The two nested loops: the first model with the capability. *)
Definition chat_model (resp : HttpResponse) : result GoError string :=
  if negb (rs_status resp =? 200)%Z then
    Err (Errorf "config URL returned status %d" [Itoa (rs_status resp)])
  else match decode_models (rs_body resp) with
  | None => Err (Errorf "parsing config response: %w" [])
  | Some models =>
      match find is_chat models with
      | Some m => Ok (Model.Name m)
      | None => Err (Errorf "no model with CHAT capability found" [])
      end
  end.

Section Start.
Context {S : Type}.

Definition discover_client : HttpClient :=
  {| Timeout := 10; RootCAs := None; InsecureSkipVerify := false; FollowRedirects := true |}.

Definition discover_request (configURL apiKey : string) : HttpRequest :=
  {| rq_client := discover_client; rq_method := "GET"; rq_url := configURL;
     rq_headers := [("Authorization", "Bearer " +:+ apiKey)]; rq_body := NoBody |}.

Definition discoverChatModel (configURL apiKey : string) : prog S (result GoError string) :=
  if negb (Url.url_ok configURL) then Ret (Err (Errorf "creating request: %w" [configURL]))
  else Http (discover_request configURL apiKey) (fun res =>
    match res with
    | Err e => Ret (Err (Wrapf "fetching config URL: %w" [] e))
    | Ok resp => Ret (chat_model resp)
    end).

(** Endpoint, key and model; a model that cannot be discovered stays empty. *)
Definition loadGenAICredentials (file : JsonFile) : prog S (result GoError (string * string * string)) :=
  match file with
  | Err e => Ret (Err (Wrapf "reading %s: %w" ["genai-credentials.json"] e))
  | Ok data =>
      match decode_service_key data with
      | None => Ret (Err (Errorf "parsing %s: %w" ["genai-credentials.json"]))
      | Some (wrapped, top) =>
          let creds := chosen_creds wrapped top in
          let endpoint := or_endpoint (Creds.APIBase creds) GenAIEndpoint.APIBase (Creds.Endpoint creds) in
          let apiKey := or_endpoint (Creds.APIKey creds) GenAIEndpoint.APIKey (Creds.Endpoint creds) in
          let model := Creds.ModelName creds in
          if String.eqb endpoint "" || String.eqb apiKey "" then
            Ret (Err (Errorf "genai-credentials.json missing api_base or api_key" []))
          else match Creds.Endpoint creds with
          | Some e =>
              if String.eqb model "" && negb (String.eqb (GenAIEndpoint.ConfigURL e) "") then
                r ⇐ discoverChatModel (GenAIEndpoint.ConfigURL e) apiKey;
                Ret (Ok (endpoint, apiKey, match r with Ok m => m | Err _ => model end))
              else Ret (Ok (endpoint, apiKey, model))
          | None => Ret (Ok (endpoint, apiKey, model))
          end
      end
  end.
End Start.

(** ** main, up to the server *)

Definition with_credentials (endpoint apiKey model : string) (g : GenAI.GenAI) : GenAI.GenAI :=
  {| GenAI.Provider := GenAI.Provider g; GenAI.Endpoint := endpoint; GenAI.APIKey := apiKey;
     GenAI.Model := if negb (String.eqb model "") && String.eqb (GenAI.Model g) ""
                    then model else GenAI.Model g;
     GenAI.PreferredModel := GenAI.PreferredModel g; GenAI.APIEndpoint := GenAI.APIEndpoint g;
     GenAI.OfferingName := GenAI.OfferingName g; GenAI.PlanName := GenAI.PlanName g |}.

(** The broker configuration that main assembles. *)
Definition brokerCfg (c : Config) (genai : GenAI.GenAI) : BrokerConfig :=
  let security := Config.Security c in
  let od := Config.OnDemand c in
  let nats := Config.NATS c in
  {| BrokerConfig.MinOpenClawVersion := Security.MinOpenClawVersion security;
     BrokerConfig.SandboxMode := Security.SandboxMode security;
     BrokerConfig.OpenClawVersion := AgentDefaults.OpenClawVersion (Config.AgentDefaults c);
     BrokerConfig.Plans := match OnDemand.Plans od with [] => Config.Plans c | plans => plans end;
     BrokerConfig.AppsDomain := CF.AppsDomain (Config.CF c);
     BrokerConfig.Network := OnDemand.Network od;
     BrokerConfig.AZs := OnDemand.AZs od;
     BrokerConfig.StemcellOS := OnDemand.StemcellOS od;
     BrokerConfig.StemcellVersion := OnDemand.StemcellVersion od;
     BrokerConfig.CFDeploymentName := CF.DeploymentName (Config.CF c);
     BrokerConfig.OpenClawReleaseVersion := OnDemand.OpenClawReleaseVersion od;
     BrokerConfig.BPMReleaseVersion := OnDemand.BPMReleaseVersion od;
     BrokerConfig.RoutingReleaseVersion := OnDemand.RoutingReleaseVersion od;
     BrokerConfig.SSOEnabled := Security.SSOEnabled security;
     BrokerConfig.SSOOIDCIssuerURL := Security.SSOOIDCIssuerURL security;
     BrokerConfig.SSOAllowedEmailDomains := Security.SSOAllowedEmailDomains security;
     BrokerConfig.SSOSessionTimeoutHours := Security.SSOSessionTimeoutHours security;
     BrokerConfig.CFUaaURL := CFUAA.URL (Config.CFUAA c);
     BrokerConfig.CFUaaAdminClientID := CFUAA.AdminClientID (Config.CFUAA c);
     BrokerConfig.CFUaaAdminClientSecret := CFUAA.AdminClientSecret (Config.CFUAA c);
     BrokerConfig.MaxInstances := Limits.MaxInstances (Config.Limits c);
     BrokerConfig.MaxInstancesPerOrg := Limits.MaxInstancesPerOrg (Config.Limits c);
     BrokerConfig.LLMProvider := GenAI.Provider genai;
     BrokerConfig.LLMEndpoint := GenAI.Endpoint genai;
     BrokerConfig.LLMAPIKey := GenAI.APIKey genai;
     BrokerConfig.LLMModel := GenAI.Model genai;
     BrokerConfig.LLMPreferredModel := GenAI.PreferredModel genai;
     BrokerConfig.LLMAPIEndpoint := GenAI.APIEndpoint genai;
     BrokerConfig.GenAIOfferingName := GenAI.OfferingName genai;
     BrokerConfig.GenAIPlanName := GenAI.PlanName genai;
     BrokerConfig.BlockedCommands := Security.BlockedCommands security;
     BrokerConfig.NATSTLSEnabled := TLS.Enabled nats;
     BrokerConfig.NATSTLSClientCert := TLS.ClientCert nats;
     BrokerConfig.NATSTLSClientKey := TLS.ClientKey nats;
     BrokerConfig.NATSTLSCACert := TLS.CACert nats;
     BrokerConfig.StateDir := "/var/vcap/store/openclaw-broker" |}.

(** main before it listens: the broker and the credentials the middleware asks
    for, or the error it dies with. *)
Definition main (config_file genai_file : JsonFile) :
    prog Store (result GoError (Broker * string * string)) :=
  match loadConfig config_file with
  | Err e => Ret (Err (Wrapf "Failed to load config: %v" [] e))
  | Ok cfg =>
      let username := Auth.Username (Config.Auth cfg) in
      let password := Auth.Password (Config.Auth cfg) in
      if String.eqb username "" || String.eqb password "" then
        Ret (Err (Errorf "Broker auth credentials must not be empty (username=%q)" [username]))
      else
        genai ⇐ (if String.eqb (GenAI.Provider (Config.GenAI cfg)) "tanzu_genai" then
                   r ⇐ loadGenAICredentials genai_file;
                   Ret (match r with
                        | Err e => Err (Wrapf "Failed to load GenAI marketplace credentials: %v" [] e)
                        | Ok (endpoint, apiKey, model) =>
                            Ok (with_credentials endpoint apiKey model (Config.GenAI cfg))
                        end)
                 else Ret (Ok (Config.GenAI cfg)));
        match genai with
        | Err e => Ret (Err e)
        | Ok genai =>
            let bosh := Config.BOSH cfg in
            let director := Bosh.NewClient (BOSH.DirectorURL bosh) (BOSH.ClientID bosh)
              (BOSH.ClientSecret bosh) (BOSH.CACert bosh) (BOSH.UaaURL bosh) in
            let b := New (brokerCfg cfg genai) (Bosh.bosh_director director) in
            loadState b >>> Ret (Ok (b, username, password))
        end
  end.

(** * Properties *)

Lemma find_first {A} (p : A → bool) l x : find p l = Some x →
  ∃ pre post, l = pre ++ x :: post ∧ p x = true ∧ Forall (fun y => p y = false) pre.
Proof.
  induction l as [|y l IH]; [done|]. simpl. destruct (p y) eqn:E.
  - intros [= ->]. exists [], l. done.
  - intros (pre & post & -> & Hp & Hpre)%IH. exists (y :: pre), post. split_and!; [done..|].
    by constructor.
Qed.

Lemma is_chat_spec m : is_chat m = true ↔ "CHAT" ∈ Model.Capabilities m.
Proof.
  unfold is_chat. rewrite existsb_exists. split.
  - intros (x & Hx & <-%String.eqb_eq). by apply list_elem_of_In.
  - intros H. exists "CHAT". by rewrite <- list_elem_of_In.
Qed.

(** Model discovery asks the configuration URL once, authorized by the key, and
    reports the first advertised model with the capability CHAT of a 200 answer;
    every other answer is an error. *)
Theorem discoverChatModel_spec {S} configURL apiKey (s : S) tr :
  wp (discoverChatModel configURL apiKey) s tr (fun r s' tr' => s' = s ∧
    ∀ name, r = Ok name → ∃ resp pre m post,
      tr' = tr ++ [EvHttp {| rq_client := discover_client; rq_method := "GET"; rq_url := configURL;
        rq_headers := [("Authorization", "Bearer " +:+ apiKey)]; rq_body := NoBody |} (Ok resp)] ∧
      rs_status resp = 200%Z ∧ decode_models (rs_body resp) = Some (pre ++ m :: post) ∧
      "CHAT" ∈ Model.Capabilities m ∧ Model.Name m = name ∧
      Forall (fun m' => "CHAT" ∉ Model.Capabilities m') pre).
Proof.
  unfold discoverChatModel. destruct (negb _); [done|]. intros [resp|e]; [|done].
  split; [done|]. intros name. unfold chat_model.
  destruct (rs_status resp =? 200)%Z eqn:E; [|done]. cbn [negb].
  destruct (decode_models _) as [models|] eqn:Em; [|done].
  destruct (find is_chat models) as [m|] eqn:Ef; [|done]. intros [= <-]. bool_prop.
  apply find_first in Ef as (pre & post & -> & Hm & Hpre).
  exists resp, pre, m, post. split_and!; try done; [by apply is_chat_spec|].
  eapply Forall_impl; [exact Hpre|]. intros m' Hf Hin. apply is_chat_spec in Hin. congruence.
Qed.

Lemma loadGenAICredentials_wp {S} file (s : S) tr :
  wp (loadGenAICredentials file) s tr (fun r _ _ =>
    ∀ endpoint apiKey model, r = Ok (endpoint, apiKey, model) → endpoint ≠ "" ∧ apiKey ≠ "").
Proof.
  unfold loadGenAICredentials. destruct file as [body|e]; [|done].
  destruct (decode_service_key body) as [[wrapped top]|]; [|done]. cbv zeta.
  set (creds := chosen_creds wrapped top). set (ep := or_endpoint _ _ _). set (key := or_endpoint _ _ _).
  destruct (String.eqb_spec ep ""), (String.eqb_spec key ""); try done. cbn [orb].
  destruct (Creds.Endpoint creds) as [e|]; [|by intros ??? [= <- <- _]].
  destruct (_ && _); [|by intros ??? [= <- <- _]].
  apply wp_bind. eapply wp_mono, wp_true. intros r s2 tr2 _ ep2 key2 m2 [= <- <- _]. done.
Qed.

Lemma loadConfig_port file cfg : loadConfig file = Ok cfg → Config.Port cfg ≠ 0%Z.
Proof.
  assert (H : ∀ c, Config.Port (default_port c) ≠ 0%Z).
  { intros c. unfold default_port. simpl. destruct (Z.eqb_spec (Config.Port c) 0); done. }
  unfold loadConfig. destruct file as [data|]; cbn [rbind]; [|done].
  destruct (Unmarshal data) as [[]|]; try done;
    (destruct (decode_config _); [|done]); intros [= <-]; apply H.
Qed.

(** C39. The broker never starts open or half configured: if main gets as far as
    serving, the credentials the middleware asks for are those of the configuration
    file and neither is empty, and with the marketplace provider the endpoint and
    the key of the language model are not empty either. *)
Theorem main_safe config_file genai_file s tr :
  wp (main config_file genai_file) s tr (fun r _ _ =>
    ∀ b username password, r = Ok (b, username, password) →
      username ≠ "" ∧ password ≠ "" ∧
      (∃ cfg, loadConfig config_file = Ok cfg ∧
         username = Auth.Username (Config.Auth cfg) ∧ password = Auth.Password (Config.Auth cfg) ∧
         (0 ≤ Config.Port cfg → 0 < Config.Port cfg)%Z) ∧
      (BrokerConfig.LLMProvider (config b) = "tanzu_genai" →
         BrokerConfig.LLMEndpoint (config b) ≠ "" ∧ BrokerConfig.LLMAPIKey (config b) ≠ "")).
Proof.
  unfold main. destruct (loadConfig config_file) as [cfg|e] eqn:Ec; [|done]. cbv zeta.
  destruct (String.eqb_spec (Auth.Username (Config.Auth cfg)) ""); [done|].
  destruct (String.eqb_spec (Auth.Password (Config.Auth cfg)) ""); [done|]. cbn [orb].
  set (ok := fun g : GenAI.GenAI => GenAI.Provider g = "tanzu_genai" → GenAI.Endpoint g ≠ "" ∧ GenAI.APIKey g ≠ "").
  apply wp_bind. apply (wp_mono _ _ _ (fun r _ _ => ∀ g, r = Ok g → ok g)).
  - intros [g|e] s' tr' Hg; [|done]. apply wp_bind. eapply wp_mono, wp_true.
    intros [] s2 tr2 _ b u p [= <- <- <-]. split_and!; [done..| |].
    + exists cfg. split_and!; [done..|]. intros Hp.
      apply loadConfig_port in Ec. lia.
    + apply (Hg g eq_refl).
  - destruct (String.eqb_spec (GenAI.Provider (Config.GenAI cfg)) "tanzu_genai") as [Hp|Hp].
    + apply wp_bind. eapply wp_mono, loadGenAICredentials_wp.
      intros [[[ep key] m]|e] s' tr' H; [|done]. intros g [= <-] _. by apply (H ep key m).
    + intros g [= <-] Hg. congruence.
Qed.
