(* ===== verification/System.v ===== *)
(** * The system: from the configuration file to the instances

    [main] reads its files, the router reads raw requests, the handlers run, the
    process is killed and starts again: the invariants of the records hold without
    any assumption on configurations or bodies, because what is decoded from JSON is
    well-formed UTF-8 whatever the bytes. *)

From S2P Require Import Prelude GoStrings Json JsonFacts JsonRead Floats Prog BoshClient UaaClient Broker Http StateFile Store Provision Update Deprovision Admin Concurrency Typed Restarts Server Config.

(** ** Bodies *)

Lemma valid_join sep l : valid_utf8 sep = true → all_utf8 l → valid_utf8 (join sep l) = true.
Proof.
  intros Hs H. induction H as [|s l H1 H2 IH]; [done|]. destruct l as [|t l]; [done|].
  rewrite join_cons by done. by repeat apply valid_app.
Qed.

Definition any_utf8 (a : any) : Prop := valid_utf8 (fmt_v a) = true.

Lemma fmt_list l : Forall any_utf8 l → any_utf8 (AnyList l).
Proof.
  intros H. unfold any_utf8. cbn [fmt_v]. apply valid_app; [done|]. apply valid_app; [|done].
  apply valid_join; [done|]. by apply Forall_fmap.
Qed.

Definition entry_utf8 (ka : string * any) : Prop := valid_utf8 ka.1 = true ∧ any_utf8 ka.2.

Lemma fmt_map l : Forall entry_utf8 l → any_utf8 (AnyMap l).
Proof.
  intros H. unfold any_utf8. cbn [fmt_v]. apply (valid_app "map["); [done|]. apply valid_app; [|done].
  apply valid_join; [done|]. apply Forall_fmap. eapply Forall_impl; [exact H|].
  intros [k a] [Hk Ha]. simpl in *. by repeat apply valid_app.
Qed.

Lemma insert_entry_utf8 k a l : entry_utf8 (k, a) → Forall entry_utf8 l → Forall entry_utf8 (insert_entry k a l).
Proof.
  intros Hk H. induction H as [|[k' a'] l H1 H2 IH]; [by apply Forall_singleton|].
  cbn [insert_entry]. destruct (String.eqb k k'); [by apply Forall_cons|].
  destruct (String.ltb k k'); by repeat (apply Forall_cons; split).
Qed.

Lemma any_of_utf8 j a : utf8_json j = j → any_of j = Some a → any_utf8 a.
Proof.
  revert a. induction j as [|b|lit|s|l IH|fs IH] using json_strong_ind; intros a.
  - intros _ [= <-]. done.
  - intros _ [= <-]. by destruct b.
  - intros _. cbn [any_of]. destruct (Float.ParseFloat lit) as [f|]; [|done]. intros [= <-]. apply valid_ascii, Float.ascii_format_v.
  - intros [= Hs] [= <-]. by apply valid_utf8_eq.
  - intros Hl%utf8_elements. cbn [any_of]. set (go := fix go l := match l with [] => Some [] | _ => _ end).
    intros H. assert (Hgo : ∀ as_, go l = Some as_ → Forall any_utf8 as_).
    { clear H. induction l as [|x l IHl]; intros as_; [by intros [= <-]|].
      apply Forall_cons in IH as [Hx IH]. apply Forall_cons in Hl as [Hx' Hl]. cbn [go].
      destruct (any_of x) as [a'|]; [|done]. cbn [mbind option_bind].
      destruct (go l) as [r|] eqn:E; [|done]. intros [= <-]. constructor; auto. }
    destruct (go l) as [as_|]; [|done]. injection H as <-. apply fmt_list; auto.
  - intros Hl%utf8_members. cbn [any_of]. set (go := fix go acc fs := match fs with [] => Some acc | _ => _ end).
    intros H. assert (Hgo : ∀ acc l', Forall entry_utf8 acc → go acc fs = Some l' → Forall entry_utf8 l').
    { clear H. induction fs as [|[k x] fs IHl]; intros acc l' Hacc; [by intros [= <-]|].
      apply Forall_cons in IH as [Hx IH]. apply Forall_cons in Hl as [[Hk Hx'] Hl]. cbn [go]. simpl in *.
      destruct (any_of x) as [a'|]; [|done]. cbn [mbind option_bind].
      apply IHl; [done..|]. apply insert_entry_utf8; [split; [done|by apply Hx]|done]. }
    destruct (go [] fs) as [l'|] eqn:E; [|done]. injection H as <-. by eapply fmt_map, Hgo.
Qed.

Definition params_utf8 (m : gmap string any) : Prop := map_Forall (fun _ => any_utf8) m.

Lemma add_entries_utf8 m fs m' : params_utf8 m → Forall utf8_field fs →
  add_entries m fs = Some m' → params_utf8 m'.
Proof.
  intros Hm H. revert m Hm. induction H as [|[k x] fs [_ Hx] _ IH]; intros m Hm; [by intros [= <-]|].
  cbn [add_entries]. destruct (any_of x) as [a|] eqn:E; [|done]. cbn [mbind option_bind].
  apply IH, map_Forall_insert_2; [|done]. by eapply any_of_utf8.
Qed.

Lemma decode_map_utf8 name m fs m' : params_utf8 m → Forall utf8_field fs →
  decode_map name m fs = Some m' → params_utf8 m'.
Proof.
  intros Hm H. revert m Hm. induction H as [|[k v] fs [_ Hv] _ IH]; intros m Hm; [by intros [= <-]|].
  cbn [decode_map]. simpl in Hv. destruct (String.eqb _ _); [|by apply IH]. destruct v; try done; [by apply IH, map_Forall_empty|].
  destruct (add_entries m fields) as [m1|] eqn:E; [|done]. cbn [mbind option_bind].
  apply IH. eapply add_entries_utf8, E; [done|]. by apply utf8_members.
Qed.

Lemma decode_parameters_utf8 text m :
  decode_parameters (Decode text) = Some m → params_utf8 m.
Proof.
  unfold decode_parameters. destruct (Decode text) as [v|] eqn:E; [|done]. apply Decode_utf8 in E.
  destruct v; try done; [intros [= <-]; apply map_Forall_empty|].
  apply decode_map_utf8; [apply map_Forall_empty|by apply utf8_members].
Qed.

Lemma string_field_utf8 name text s : string_field name (Decode text) = Some s → valid_utf8 s = true.
Proof.
  unfold string_field, decode_field. destruct (Decode text) as [v|] eqn:E; [|done]. apply Decode_utf8 in E.
  destruct v; try done; [by intros [= <-]|]. intros H. apply (str_valid name fields); [by apply utf8_fields_Forall, utf8_members|].
  done.
Qed.

Lemma decode_provision_utf8 text req : decode_provision (Decode text) = Some req →
  all_utf8 [ProvisionRequest.OrganizationGUID req; ProvisionRequest.SpaceGUID req; request_owner req].
Proof.
  unfold decode_provision. intros H. simplify_option_eq.
  repeat constructor; [by eapply string_field_utf8..|].
  unfold request_owner. cbn [ProvisionRequest.Parameters].
  match goal with H : decode_parameters _ = Some ?m |- _ => apply decode_parameters_utf8 in H;
    destruct (m !! "owner") as [a|] eqn:Ea; [exact (H _ _ Ea)|done] end.
Qed.

(** ** The configuration *)

Lemma section_utf8 name fs l : Forall utf8_field fs → section name fs = Some l → Forall utf8_field l.
Proof.
  intros H. revert l. induction H as [|[k v] fs [_ Hv] _ IH]; intros l; [by intros [= <-]|].
  cbn [section]. simpl in Hv. destruct (String.eqb _ _); [|by apply IH]. destruct v; try done; [by apply IH|].
  destruct (section name fs) as [l'|]; [|done]. intros [= <-]. apply Forall_app.
  split; [by apply utf8_members|by apply IH].
Qed.

Lemma overlay_utf8 old new : utf8_json old = old → utf8_json new = new → utf8_json (overlay old new) = overlay old new.
Proof.
  intros Ho Hn. destruct new; try done. destruct old; try done. cbn [overlay].
  apply utf8_members, Forall_app. by split; apply utf8_members.
Qed.

Lemma overlays_utf8 old new : Forall (fun v => utf8_json v = v) old → Forall (fun v => utf8_json v = v) new →
  Forall (fun v => utf8_json v = v) (overlays old new).
Proof.
  intros Ho Hn. revert old Ho. induction Hn as [|x new Hx Hn IH]; intros old Ho; [by destruct old|].
  destruct Ho as [|y old Hy Ho]; cbn [overlays]; constructor; auto using overlay_utf8.
Qed.

Lemma slice_utf8 {X} (elem : json → option X) (P : X → Prop) acc name fs xs :
  (∀ j x, utf8_json j = j → elem j = Some x → P x) →
  Forall (fun v => utf8_json v = v) acc → Forall utf8_field fs → slice elem acc name fs = Some xs → Forall P xs.
Proof.
  intros He Ha H. revert acc Ha. induction H as [|[k v] fs [_ Hv] _ IH]; intros acc Ha; cbn [slice].
  - intros Hm%mapM_Some. induction Hm as [|j x l xs Hj _ IH]; [done|].
    apply Forall_cons in Ha as [Hj' Ha]. constructor; [by eapply He|by apply IH].
  - simpl in Hv. destruct (String.eqb _ _); [|by apply IH]. destruct v; try done; [by apply IH|].
    destruct (mapM elem l) as [ys|]; [|done]. cbn [mbind option_bind]. apply IH, overlays_utf8; [done|].
    by apply utf8_elements.
Qed.

Lemma decode_plan_fields_typed fs p : Forall utf8_field fs →
  decode_plan_fields fs = Some p → typed_plan p.
Proof.
  intros Hf%utf8_fields_Forall. unfold decode_plan_fields. intros H. simplify_option_eq.
  repeat constructor; by eapply str_valid.
Qed.

Lemma decode_plan_typed j p : utf8_json j = j → decode_plan j = Some p → typed_plan p.
Proof.
  destruct j; try done; cbn [decode_plan].
  - intros _. by apply decode_plan_fields_typed.
  - intros H%utf8_members. by apply decode_plan_fields_typed.
Qed.

Lemma normalizePlan_typed p : typed_plan p → typed_plan (normalizePlan p).
Proof.
  unfold typed_plan, all_utf8. rewrite !Forall_cons. intros (Hid & Hn & Hv & Hd & _).
  unfold normalizePlan. cbn [Plan.ID Plan.Name Plan.VMType Plan.DiskType]. split_and!; [|done..].
  destruct (_ && _); [|done]. apply (valid_app "openclaw-"); [done|]. by apply valid_app.
Qed.

(** What the records take from the configuration. *)
Definition config_utf8 (c : Config) : Prop :=
  all_utf8 [CF.AppsDomain (Config.CF c); AgentDefaults.OpenClawVersion (Config.AgentDefaults c)] ∧
  Forall typed_plan (OnDemand.Plans (Config.OnDemand c)) ∧ Forall typed_plan (Config.Plans c).

Lemma decode_config_utf8 fs c : Forall utf8_field fs →
  decode_config fs = Some c → config_utf8 c.
Proof.
  intros Hf H.
  assert (Hp : ∀ name l ps, Forall utf8_field l → plans_field name l = Some ps → Forall typed_plan ps).
  { intros name l ps Hl. apply slice_utf8; [apply decode_plan_typed|done|done]. }
  unfold decode_config in H. simplify_option_eq.
  repeat match goal with H : section ?n fs = Some ?l |- _ => apply (section_utf8 n fs l Hf) in H end.
  unfold decode_AgentDefaults, decode_OnDemand, decode_CF in *. simplify_option_eq.
  split_and!; [|by eapply Hp; [|eassumption]..].
  repeat constructor; (eapply str_valid; [|eassumption]; by apply utf8_fields_Forall).
Qed.

Lemma loadConfig_utf8 file c : loadConfig file = Ok c → config_utf8 c.
Proof.
  unfold loadConfig. destruct file as [data|]; cbn [rbind]; [|done].
  destruct (Unmarshal data) as [v|] eqn:E; [|done]. apply Unmarshal_Decode, Decode_utf8 in E.
  assert (H : ∀ fs, Forall utf8_field fs → match decode_config fs with
    | Some c => Ok (default_port c) | None => Err (Errorf "json: cannot unmarshal into Go struct" []) end = Ok c →
    config_utf8 c).
  { intros fs Hfs. destruct (decode_config fs) as [c'|] eqn:Ec; [|done]. intros [= <-].
    exact (decode_config_utf8 _ _ Hfs Ec). }
  destruct v; try done; [apply (H []), Forall_nil_2|]. by apply H, utf8_members.
Qed.

Lemma brokerCfg_typed c genai d : config_utf8 c → typed_config (config (New (brokerCfg c genai) d)).
Proof.
  intros (Ht & Ho & Hp). split; [done|]. cbn [New config with_plans BrokerConfig.Plans].
  apply Forall_fmap. eapply Forall_impl; [|apply normalizePlan_typed].
  unfold brokerCfg. cbn [BrokerConfig.Plans]. by destruct (OnDemand.Plans (Config.OnDemand c)).
Qed.

(** ** The start *)


Lemma loadGenAICredentials_steps I (G : Store → Store → Prop) file :
  steps_in I G (loadGenAICredentials file).
Proof.
  unfold loadGenAICredentials. destruct file as [data|e]; [|done].
  destruct (decode_service_key data) as [[wrapped top]|]; [|done]. cbv zeta.
  destruct (_ || _); [done|]. destruct (Creds.Endpoint _) as [e|]; [|done]. destruct (_ && _); [|done].
  apply steps_in_bind; [|done]. unfold discoverChatModel. destruct (negb _); [done|]. by intros [resp|e'].
Qed.

Lemma main_steps config_file genai_file :
  steps_in sound keeps_sound (main config_file genai_file).
Proof.
  unfold main. destruct (loadConfig config_file) as [cfg|e]; [|done]. cbv zeta.
  destruct (_ || _); [done|]. apply steps_in_bind.
  - destruct (String.eqb _ _); [|done]. apply steps_in_bind; [apply loadGenAICredentials_steps|].
    by intros [[[ep key] m]|e].
  - intros [g|e]; [|done]. apply steps_in_bind; [apply loadState_sound|done].
Qed.

(** The broker main builds. *)
Definition built (b : Broker) : Prop :=
  typed_config (config b) ∧ ∃ c d, b = New c (Bosh.bosh_director d).

Lemma main_yields config_file genai_file :
  yields (fun r => ∀ b u p, r = Ok (b, u, p) → built b) (main config_file genai_file).
Proof.
  unfold main. destruct (loadConfig config_file) as [cfg|e] eqn:Ec; [|done]. cbv zeta.
  destruct (_ || _); [done|]. apply (yields_bind (fun _ => True)); [apply yields_true|].
  intros [g|e] _; [|done]. apply (yields_bind (fun _ => True)); [apply yields_true|].
  intros _ _ b u p [= <- _ _]. split; [|by eexists _, _].
  apply brokerCfg_typed. by eapply loadConfig_utf8.
Qed.

(** What the programs of a pool yield when no other is spawned. *)
Lemma pool_yields {A} (Q : A → Prop) c c' : rtc (pool (S := Store) (fun _ : prog Store A => False)) c c' →
  Forall (yields Q) c.2 → Forall (yields Q) c'.2.
Proof.
  induction 1 as [|c1 c2 c3 Hst _ IH]; [done|]. intros Hps. apply IH.
  destruct Hst as [|s ps1 p ps2 s' p' Hp]; [done|]. simpl in *.
  apply Forall_app in Hps as [H1 H2]. apply Forall_cons in H2 as [H2 H3].
  apply Forall_app; split; [done|]. apply Forall_cons; split; [|done]. destruct Hp; simpl in H2; auto.
Qed.

(** What a program that ran to its end returned. *)
Lemma pool_returns {A} (Q : A → Prop) (p : prog Store A) s s' a :
  yields Q p → rtc (pool (fun _ => False)) (s, [p]) (s', [Ret a]) → Q a.
Proof.
  intros Hp Hr. pose proof (pool_yields Q _ _ Hr) as H. cbn [snd] in H.
  rewrite !Forall_singleton in H. by apply H.
Qed.

(** ** Requests as they arrive *)

Section Requests.
Context (is_print : N → bool) (b : Broker) `{!GoodBroker b} (Hconfig : typed_config (config b)).

Lemma match_segments_utf8 template segs vars : all_utf8 segs →
  match_segments template segs = Some vars → all_utf8 vars.
Proof.
  intros H. revert template vars. induction H as [|s segs Hs _ IH]; intros [|t template] vars.
  - intros [= <-]. constructor.
  - by destruct t.
  - done.
  - destruct t as [lit|]; cbn [match_segments].
    + destruct (String.eqb lit s); [|done]. apply IH.
    + destruct (String.eqb s ""); [done|]. destruct (match_segments template segs) as [vs|] eqn:E; [|done].
      intros [= <-]. constructor; [done|]. by eapply IH.
Qed.

(** A well-formed path leads to a request with well-formed texts. *)
Lemma route_typed q mismatch r : valid_utf8 (path q) = true →
  find_route q mismatch routes = Ok r → typed_request r.
Proof.
  intros Hq.
  assert (Hv : ∀ t vars, match_segments t (split_on "/" (path q)) = Some vars →
      valid_utf8 (default "" (head vars)) = true).
  { intros t vars H. apply match_segments_utf8 in H; [|by apply valid_split_on].
    by destruct H as [|v vars H _]. }
  assert (Hall : Forall (fun route => ∀ vars, match_segments route.1.2 (split_on "/" (path q)) = Some vars →
      typed_request (route.2 vars q)) routes).
  { unfold routes. repeat (constructor; [intros vars Hm; cbn [fst snd] in Hm |- *|]); try constructor; try done.
    - destruct (decode_provision (Decode (payload q))) as [req|] eqn:E; [|done].
      exact (decode_provision_utf8 _ _ E).
    - exact (Hv _ _ Hm).
    - exact (Hv _ _ Hm). }
  revert mismatch. induction Hall as [|[[m t] h] rs Hr _ IH]; intros mismatch; cbn [find_route]; [done|].
  destruct (match_segments t _) as [vars|] eqn:Em; [|apply IH].
  destruct (String.eqb _ _); [|apply IH]. intros [= <-]. by apply Hr.
Qed.

Lemma ServeHTTP_soundly username password q : valid_utf8 (path q) = true →
  steps_in sound soundly (ServeHTTP is_print username password b q).
Proof.
  intros Hq. unfold ServeHTTP, basicAuthMiddleware. destruct (negb _); [done|].
  destruct (find_route q false routes) as [r|code] eqn:E.
  - destruct (authorized _ _ _); [|done]. apply steps_in_bind; [|done].
    apply (handle_soundly b Hconfig). by eapply route_typed.
  - by repeat case_match.
Qed.
End Requests.

(** ** The life of the system *)

Section Life.
Context (is_print : N → bool).

(** [main] starts on the state directory [d], with some contents of its two files,
    and goes on to serve. *)
Definition booted (d : FileSys.t) (b : Broker) (username password : string) (s : Store) : Prop :=
  ∃ config_file genai_file,
    rtc (pool (fun _ => False)) (initial_store d, [main config_file genai_file])
      (s, [Ret (Ok (b, username, password))]).

(** The process while it serves; after SIGINT or SIGTERM, when it accepts no more
    and waits for its handlers; and after its end, with the exit status. *)
Inductive Phase : Type := Serving | Draining | Exited (code : Z).

Definition alive (ph : Phase) : bool := match ph with Exited _ => false | _ => true end.

Record Process : Type := mkProcess {
  phase : Phase;
  served_by : Broker;
  user : string;
  pass : string;
  memory : Store;
  running : list (prog Store Answer);
}.

Definition answered (h : prog Store Answer) : Prop := ∃ r, h = Ret r.

(** From the listener on. Shutdown returns when all handlers have returned, or with
    an error after 30 seconds; that error, like one of the listener, is fatal. *)
Inductive process_step : Process → Process → Prop :=
| accepting b u p s ps q :
    valid_utf8 (path q) = true →
    process_step (mkProcess Serving b u p s ps)
      (mkProcess Serving b u p s (ps ++ [ServeHTTP is_print u p b q]))
| working ph b u p s ps1 h ps2 s' h' :
    alive ph = true → pstep s h s' h' →
    process_step (mkProcess ph b u p s (ps1 ++ h :: ps2)) (mkProcess ph b u p s' (ps1 ++ h' :: ps2))
| listener_failed b u p s ps :
    process_step (mkProcess Serving b u p s ps) (mkProcess (Exited 1) b u p s ps)
| signalled b u p s ps :
    process_step (mkProcess Serving b u p s ps) (mkProcess Draining b u p s ps)
| drained b u p s ps :
    Forall answered ps →
    process_step (mkProcess Draining b u p s ps) (mkProcess (Exited 0) b u p s ps)
| deadline_passed b u p s ps :
    process_step (mkProcess Draining b u p s ps) (mkProcess (Exited 1) b u p s ps).

(** All states of all processes since the state directory was empty. A process may be
    killed at any moment; the configuration files may change between two starts. *)
Inductive reachable : Process → Prop :=
| install b u p s : booted FileSys.empty b u p s → reachable (mkProcess Serving b u p s [])
| proceed c c' : reachable c → process_step c c' → reachable c'
| restart c b u p s :
    reachable c → booted (disk (memory c)) b u p s → reachable (mkProcess Serving b u p s []).

Lemma booted_sound d b u p s : sound (initial_store d) → booted d b u p s → sound s ∧ built b.
Proof.
  intros Hd (cf & gf & Hr). split.
  - edestruct (pool_steps_in (A := result GoError (Broker * string * string)) (fun _ => False) sound keeps_sound)
      as (_ & H & _); [| |exact Hr|done| |exact H].
    + by intros s1 s2 H1 H2; apply H2.
    + done.
    + repeat constructor. apply main_steps.
  - by eapply (pool_returns _ _ _ _ _ (main_yields cf gf) Hr).
Qed.

(** What holds of every process. *)
Record process_ok (c : Process) : Prop := {
  ok_store : sound (memory c);
  ok_broker : built (served_by c);
  ok_running : Forall (steps_in sound soundly) (running c);
  ok_exit : phase c = Exited 0 → Forall answered (running c);
}.

Lemma process_step_ok c c' : process_ok c → process_step c c' → process_ok c'.
Proof.
  intros [Hs Hb Hr He]. destruct 1 as [b u p s ps q Hq|ph b u p s ps1 h ps2 s' h' Ha Hp| | | |];
    simpl in *; try by split.
  - split; simpl; [done|done| |done]. apply Forall_app; split; [done|]. apply Forall_singleton.
    destruct Hb as (Hc & c & d & ->). apply ServeHTTP_soundly; [apply _|done|done].
  - apply Forall_app in Hr as [H1 H2]. apply Forall_cons in H2 as [H2 H3].
    destruct (pstep_steps_in sound soundly _ _ _ _ Hp Hs H2) as [Hg Hh].
    split; simpl; [by eapply soundly_sound|done| |by destruct ph].
    apply Forall_app; split; [done|]. by apply Forall_cons.
Qed.

Lemma booted_ok d b u p s : sound (initial_store d) → booted d b u p s →
  process_ok (mkProcess Serving b u p s []).
Proof. intros Hd Hb. by destruct (booted_sound _ _ _ _ _ Hd Hb). Qed.

Lemma reachable_ok c : reachable c → process_ok c.
Proof.
  induction 1 as [b u p s Hb|c c' _ IH Hst|c b u p s _ IH Hb].
  - eapply booted_ok, Hb. split; [exact initial_demo_wf|apply initial_typed, empty_holds].
  - by eapply process_step_ok.
  - eapply booted_ok, Hb. by apply initial_sound, IH.
Qed.

(** Handlers at work. *)
Lemma reachable_working ph b u p c c' : alive ph = true →
  rtc (pool (fun _ => False)) c c' →
  reachable (mkProcess ph b u p c.1 c.2) → reachable (mkProcess ph b u p c'.1 c'.2).
Proof.
  intros Hp. induction 1 as [|c1 c2 c3 Hst _ IH]; [done|]. intros Hr. apply IH.
  destruct Hst as [|s ps1 h ps2 s' h' Hh]; [done|]. eapply proceed; [exact Hr|]. by apply working.
Qed.
End Life.

(** * Property *)


(** ** Witness: installed, asked for an instance, shut down, started again *)

Definition demo_config_file : string := MarshalIndent (JObj
  [("auth", JObj [("username", JStr "broker"); ("password", JStr "s3cret")]);
   ("bosh", JObj [("director_url", JStr "https://10.0.0.6:25555"); ("client_id", JStr "admin")]);
   ("agent_defaults", JObj [("openclaw_version", JStr "2026.1.30")]);
   ("cf", JObj [("apps_domain", JStr "apps.example.com")]);
   ("on_demand", JObj [("azs", JArr [JStr "z1"])])]).

Definition demo_put : HttpQuery :=
  {| method := "PUT"; path := "/v2/service_instances/i-1"; rawquery := "accepts_incomplete=true";
     authorization := (Bosh.BasicHeader "broker" "s3cret").2;
     payload := Marshal (JObj
       [("service_id", JStr "openclaw-service"); ("plan_id", JStr "openclaw-team-plan");
        ("organization_guid", JStr "org"); ("space_guid", JStr "space");
        ("parameters", JObj [("owner", JStr "alice@example.com"); ("seats", JNum "3")])]) |}.

(** The broker a start gives, and whether it asks for the credentials of the file. *)
Definition built_of (ps : list (prog Store (result GoError (Broker * string * string)))) : Broker :=
  match ps with [Ret (Ok (b, _, _))] => b | _ => demo_broker end.

Definition started (ps : list (prog Store (result GoError (Broker * string * string)))) : bool :=
  match ps with [Ret (Ok (_, u, p))] => String.eqb u "broker" && String.eqb p "s3cret" | _ => false end.

Lemma started_eq ps : started ps = true → ps = [Ret (Ok (built_of ps, "broker", "s3cret"))].
Proof.
  destruct ps as [|[[[[b u] p]|e]| | | | | | | | |] [|? ?]]; try done.
  simpl. by intros [->%String.eqb_eq ->%String.eqb_eq]%andb_true_iff.
Qed.

(** A run of main on [d]. *)
Definition boot (o : Oracle) (cf gf : JsonFile)
    (schedule : list nat) (d : FileSys.t) :
    Store * list event * list (prog Store (result GoError (Broker * string * string))) :=
  execute o schedule (initial_store d) [] [main cf gf].

Lemma boot_booted o `{!ValidOracle o} cf gf schedule d :
  started (boot o cf gf schedule d).2 = true →
  booted d (built_of (boot o cf gf schedule d).2) "broker" "s3cret"
    (boot o cf gf schedule d).1.1.
Proof.
  intros E%started_eq. exists cf, gf. rewrite <- E. unfold boot. by apply execute_pool.
Qed.

Notation boot_on := (boot (demo_oracle 302 302 "done") (Ok demo_config_file)
  (Err (Errorf "no such file" [])) [0; 0; 0]).

Definition first_broker : Broker := built_of (boot_on FileSys.empty).2.

Notation after_put := (execute (demo_oracle 302 302 "done") (repeat 0 40) (boot_on FileSys.empty).1.1 []
  [ServeHTTP ascii_only "broker" "s3cret" first_broker demo_put]).

(** One request of a process that has none, run to its answer; then shut down. *)
Lemma one_request o `{!ValidOracle o} is_print schedule b u p s q :
  let x := execute o schedule s [] [ServeHTTP is_print u p b q] in
  valid_utf8 (path q) = true →
  match x.2 with [Ret _] => true | _ => false end = true →
  reachable is_print (mkProcess Serving b u p s []) →
  reachable is_print (mkProcess (Exited 0) b u p x.1.1 x.2).
Proof.
  intros x Hq Ha Hr.
  assert (H : reachable is_print (mkProcess Serving b u p x.1.1 x.2)).
  { apply (reachable_working is_print Serving b u p (s, [ServeHTTP is_print u p b q]) (_, _));
      [done|by apply execute_pool|].
    eapply proceed; [exact Hr|by apply (accepting is_print _ _ _ _ [] q)]. }
  eapply proceed; [eapply proceed; [exact H|apply signalled]|]. apply drained.
  destruct x as [? [|[r| | | | | | | | |] [|? ?]]]; try discriminate Ha. repeat constructor. by exists r.
Qed.

Lemma after_put_reachable :
  reachable ascii_only
    (mkProcess (Exited 0) first_broker "broker" "s3cret" after_put.1.1 after_put.2).
Proof.
  apply (one_request (demo_oracle 302 302 "done") ascii_only (repeat 0 40)
    first_broker "broker" "s3cret" (boot_on FileSys.empty).1.1 demo_put).
  - reflexivity.
  - vm_compute. reflexivity.
  - apply install, boot_booted; [apply _|]. vm_compute. reflexivity.
Qed.

Lemma second_boot :
  reachable ascii_only
    (mkProcess Serving (built_of (boot_on (disk after_put.1.1)).2) "broker" "s3cret"
      (boot_on (disk after_put.1.1)).1.1 []).
Proof.
  eapply restart; [exact after_put_reachable|]. apply boot_booted; [apply _|]. vm_compute. reflexivity.
Qed.

