(* ===== verification/Routes.v ===== *)
(** * The routes of the instances

    Hostname shows what uniqueRouteHostname makes of one id; here: the routes of all
    the instances a broker knows, whenever and by whichever handler they were filed. *)

From S2P Require Import Prelude GoStrings Json Floats Prog Hostname Tokens BoshClient UaaClient Broker Http StateFile Store Provision Update Concurrency Typed Server Config System.

(** The route of a known instance. *)
Lemma route_made is_print c id i : reachable is_print c → view (memory c) !! id = Some i →
  Instance.RouteHostname i = "" ∨
  ∃ owner, Instance.RouteHostname i = Hostname.uniqueRouteHostname (Hostname.sanitizedOwner owner) id.
Proof.
  intros Hr Hi. destruct (reachable_ok is_print _ Hr) as [[Hw Ht] _ _ _].
  destruct (view_record_ok _ _ _ Hw Hi) as [E _]. rewrite <- E. by apply (typed_view _ Ht id).
Qed.

(** C27. The routes of a running broker: in every state of the whole system, over any number
    of processes, the route of an instance whose id Provision admits is empty (an orphan
    filed for the deletion of its deployment) or a DNS label; and two instances whose
    ids are canonical and of the same length, as the ids of platforms are, never share
    a route, whoever owns them, whether they were provisioned or recovered by an update,
    and whichever process filed them. *)
Theorem routes_distinct is_print c :
  reachable is_print c →
  let known := view (memory c) in
  (∀ id i, known !! id = Some i → Hostname.validInstanceID id = true →
     Instance.RouteHostname i = "" ∨ Hostname.is_dns_label (Instance.RouteHostname i) = true) ∧
  (∀ id1 id2 i1 i2, known !! id1 = Some i1 → known !! id2 = Some i2 →
     Hostname.canonical id1 = true → Hostname.canonical id2 = true →
     String.length id1 = String.length id2 →
     Instance.RouteHostname i1 ≠ "" → Instance.RouteHostname i1 = Instance.RouteHostname i2 → id1 = id2).
Proof.
  intros Hr known. split.
  - intros id i Hi Hv. destruct (route_made is_print c id i Hr Hi) as [H|[owner ->]]; [by left|right].
    by apply Hostname.uniqueRouteHostname_dns_label.
  - intros id1 id2 i1 i2 H1 H2 C1 C2 Hl Hne E.
    destruct (route_made is_print c id1 i1 Hr H1) as [R1|[o1 R1]]; [done|].
    destruct (route_made is_print c id2 i2 Hr H2) as [R2|[o2 R2]]; [congruence|].
    rewrite R1, R2 in E. by eapply Hostname.uniqueRouteHostname_inj.
Qed.

(** ** Witness: one owner, two instances *)

Definition put (id : string) : HttpQuery :=
  {| method := "PUT"; path := "/v2/service_instances/" +:+ id; rawquery := rawquery demo_put;
     authorization := authorization demo_put; payload := payload demo_put |}.

(** One more request of a process, run for some steps. *)
Lemma one_more o `{!ValidOracle o} is_print schedule b u p s ps q :
  let x := execute o schedule s [] (ps ++ [ServeHTTP is_print u p b q]) in
  valid_utf8 (path q) = true →
  reachable is_print (mkProcess Serving b u p s ps) →
  reachable is_print (mkProcess Serving b u p x.1.1 x.2).
Proof.
  intros x Hq Hr.
  apply (reachable_working is_print Serving b u p (s, ps ++ [ServeHTTP is_print u p b q]) (_, _));
    [done|by apply execute_pool|].
  eapply proceed; [exact Hr|]. by apply accepting.
Qed.

Notation first_boot := (boot (demo_oracle 302 302 "done") (Ok demo_config_file)
  (Err (Errorf "no such file" [])) [0; 0; 0] FileSys.empty).
Notation after_one := (execute (demo_oracle 302 302 "done") (repeat 0 40) first_boot.1.1 []
  ([] ++ [ServeHTTP ascii_only "broker" "s3cret" first_broker (put "7f3c-01")])).
Notation after_two := (execute (demo_oracle 302 302 "done") (repeat 1 40) after_one.1.1 []
  (after_one.2 ++ [ServeHTTP ascii_only "broker" "s3cret" first_broker (put "7f3c-02")])).

Lemma routes_distinct_witness :
  ∃ i1 i2, view after_two.1.1 !! "7f3c-01" = Some i1 ∧ view after_two.1.1 !! "7f3c-02" = Some i2 ∧
    Hostname.is_dns_label (Instance.RouteHostname i1) = true ∧
    Instance.RouteHostname i1 ≠ Instance.RouteHostname i2.
Proof.
  destruct (routes_distinct ascii_only (mkProcess Serving first_broker "broker" "s3cret" after_two.1.1 after_two.2))
    as [Hd Hr].
  - apply one_more; [apply _|reflexivity|]. apply one_more; [apply _|reflexivity|].
    apply install, boot_booted; [apply _|]. vm_compute. reflexivity.
  - cbn [memory] in Hd, Hr.
    destruct (view after_two.1.1 !! "7f3c-01") as [i1|] eqn:E1; [|vm_compute in E1; discriminate].
    destruct (view after_two.1.1 !! "7f3c-02") as [i2|] eqn:E2; [|vm_compute in E2; discriminate].
    exists i1, i2. split; [reflexivity|]. split; [reflexivity|].
    assert (Hne : Instance.RouteHostname i1 ≠ "")
      by (vm_compute in E1; injection E1 as <-; vm_compute; discriminate).
    assert (Hv : Hostname.validInstanceID "7f3c-01" = true) by reflexivity.
    specialize (Hd _ _ E1 Hv). specialize (Hr _ _ _ _ E1 E2 eq_refl eq_refl eq_refl Hne).
    clear E1 E2 Hv. split; [destruct Hd as [Hd|Hd]; [destruct (Hne Hd)|exact Hd]|].
    intros E. discriminate (Hr E).
Defined.
