(* ===== verification/Wire.v ===== *)
(** * What a client reads: every answer is one JSON document

    The bodies the handlers build hold number literals that JSON reads and are nested
    a few levels deep, and so is what the configuration adds to the catalog; so the
    bytes of an answer decode to the response of the handler. *)

From S2P Require Import Prelude GoStrings Json JsonFacts JsonRead Floats Encoding Hostname Prog Url Policy Manifest Tokens BoshClient UaaClient Broker Http StateFile Store Provision Update Deprovision LastOperation Binding Catalog Admin Concurrency Server Config System.

(** ** Numbers and depth of a value *)

Fixpoint numbers_ok (j : json) : bool :=
  match j with
  | JNum lit => number_ok lit
  | JArr l => forallb numbers_ok l
  | JObj fs => forallb (fun kv : string * json => let (_, v) := kv in numbers_ok v) fs
  | _ => true
  end.

Fixpoint json_depth (j : json) : nat :=
  match j with
  | JArr l => S (list_max (map json_depth l))
  | JObj fs => S (list_max (map (fun kv : string * json => let (_, v) := kv in json_depth v) fs))
  | _ => 0
  end.

Lemma json_ok_depth j k : numbers_ok j = true → (json_depth j <= k)%nat → json_ok k j = true.
Proof.
  revert k. induction j as [|b|lit|s|l IH|fs IH] using json_strong_ind; intros k Hn Hk; try (by destruct k).
  - destruct k as [|k]; [cbn in Hk; lia|]. cbn [numbers_ok json_depth json_ok] in *.
    apply le_S_n, list_max_le in Hk. rewrite forallb_forall in *. rewrite !Forall_forall in *.
    intros x Hx. apply IH; [by apply list_elem_of_In|by apply Hn|]. apply Hk, list_elem_of_In.
    by apply in_map.
  - destruct k as [|k]; [cbn in Hk; lia|]. cbn [numbers_ok json_depth json_ok] in *.
    apply le_S_n, list_max_le in Hk. rewrite forallb_forall in *. rewrite !Forall_forall in *.
    intros [key x] Hx. apply (IH (key, x)); [by apply list_elem_of_In|by apply (Hn (key, x))|].
    apply Hk, list_elem_of_In. by apply (in_map (fun kv : string * json => let (_, v) := kv in json_depth v) _ (key, x)).
Qed.

(** ** What the configuration is encoded to *)

Definition numbers_in (m : gmap string json) : Prop := map_Forall (fun _ j => numbers_ok j = true) m.

Lemma numbers_map_json m : numbers_in m → numbers_ok (map_json m) = true.
Proof.
  intros H. cbn [map_json numbers_ok]. apply forallb_forall. intros [k j] Hin%list_elem_of_In.
  rewrite sorted_entries_perm in Hin. apply elem_of_map_to_list in Hin. exact (H k j Hin).
Qed.

(** A number in an interface is encoded as a number. *)
Lemma iface_numbers j j' : iface j = Some j' → numbers_ok j' = true.
Proof.
  revert j'. induction j as [|b|lit|s|l IH|fs IH] using json_strong_ind; intros j'; try (by intros [= <-]).
  - cbn [iface]. destruct (Float.ParseFloat lit) as [f|] eqn:E; [|done]. intros [= <-].
    by eapply Float.format_json_number, Float.ParseFloat_valid.
  - cbn [iface]. set (go := fix go l := match l with [] => Some [] | _ => _ end).
    assert (Hgo : ∀ as_, go l = Some as_ → forallb numbers_ok as_ = true).
    { induction IH as [|x l Hx _ IHl]; intros as_; [by intros [= <-]|]. cbn [go].
      destruct (iface x) as [a|]; [|done]. cbn [mbind option_bind].
      destruct (go l) as [r|] eqn:E; [|done]. intros [= <-]. cbn [forallb]. by rewrite Hx, IHl. }
    destruct (go l) as [as_|]; [|done]. intros [= <-]. by apply Hgo.
  - cbn [iface]. set (go := fix go m fs := match fs with [] => Some m | _ => _ end).
    assert (Hgo : ∀ m m', numbers_in m → go m fs = Some m' → numbers_in m').
    { induction IH as [|[k x] fs Hx _ IHl]; intros m m' Hm; [by intros [= <-]|]. cbn [go].
      destruct (iface x) as [a|] eqn:E; [|done]. cbn [mbind option_bind].
      apply IHl, map_Forall_insert_2; [by apply Hx|done]. }
    destruct (go ∅ fs) as [m|] eqn:E; [|done]. intros [= <-].
    eapply numbers_map_json, Hgo, E. apply map_Forall_empty.
Qed.

Lemma map_field_Forall {X} (elem : json → option X) (P : X → Prop) m name fs m' :
  (∀ j x, elem j = Some x → P x) → map_Forall (fun _ => P) m →
  map_field elem m name fs = Some m' → map_Forall (fun _ => P) m'.
Proof.
  intros He. revert m. induction fs as [|[k v] fs IH]; intros m Hm; cbn [map_field]; [by intros [= <-]|].
  destruct (String.eqb _ _); [|by apply IH]. destruct v; try done; [apply IH, map_Forall_empty|].
  destruct (mapM _ fields) as [kvs|] eqn:E; [|done]. cbn [mbind option_bind]. apply IH.
  apply mapM_Some in E. revert m Hm. induction E as [|[k1 j] [k2 x] l kvs Hx _ IHl]; intros m Hm; [done|].
  cbn [foldl]. apply IHl, map_Forall_insert_2; [|done]. cbn in Hx.
  destruct (elem j) as [y|] eqn:Ey; [|done]. injection Hx as <- <-. by eapply He.
Qed.

Lemma slice_Forall {X} (elem : json → option X) (P : X → Prop) acc name fs xs :
  (∀ j x, elem j = Some x → P x) → slice elem acc name fs = Some xs → Forall P xs.
Proof.
  intros He. revert acc. induction fs as [|[k v] fs IH]; intros acc; cbn [slice].
  - intros Hm%mapM_Some. induction Hm as [|j x l xs Hj _ IH]; constructor; [by eapply He|done].
  - destruct (String.eqb _ _); [|by apply IH]. destruct v; try done; [by apply IH|].
    destruct (mapM elem l) as [ys|]; [|done]. by apply IH.
Qed.

Definition printable_plan (p : Plan) : Prop := numbers_in (Plan.Metadata p).

Lemma decode_plan_fields_printable fs p : decode_plan_fields fs = Some p → printable_plan p.
Proof.
  unfold decode_plan_fields. intros H. simplify_option_eq. unfold printable_plan. cbn [Plan.Metadata].
  eapply (map_field_Forall iface); [apply iface_numbers|apply map_Forall_empty|eassumption].
Qed.

Lemma decode_plan_printable j p : decode_plan j = Some p → printable_plan p.
Proof. destruct j; try done; apply decode_plan_fields_printable. Qed.

Lemma plans_printable name fs ps : plans_field name fs = Some ps → Forall printable_plan ps.
Proof. apply slice_Forall, decode_plan_printable. Qed.

Lemma decode_config_printable fs c : decode_config fs = Some c →
  Forall printable_plan (OnDemand.Plans (Config.OnDemand c)) ∧ Forall printable_plan (Config.Plans c).
Proof.
  unfold decode_config. intros H. simplify_option_eq. unfold decode_OnDemand in *. simplify_option_eq.
  split; by eapply plans_printable.
Qed.

Lemma loadConfig_printable file c : loadConfig file = Ok c →
  Forall printable_plan (OnDemand.Plans (Config.OnDemand c)) ∧ Forall printable_plan (Config.Plans c).
Proof.
  unfold loadConfig. destruct file as [data|]; cbn [rbind]; [|done].
  assert (H : ∀ fs, match decode_config fs with
    | Some c => Ok (default_port c) | None => Err (Errorf "json: cannot unmarshal into Go struct" []) end = Ok c →
    Forall printable_plan (OnDemand.Plans (Config.OnDemand c)) ∧ Forall printable_plan (Config.Plans c)).
  { intros fs. destruct (decode_config fs) as [c'|] eqn:E; [|done]. intros [= <-].
    exact (decode_config_printable _ _ E). }
  destruct (Unmarshal data) as [[]|]; try done; [apply (H [])|apply H].
Qed.

(** The plans of a broker main builds: those of the configuration, or the defaults. *)
Definition printable_broker (b : Broker) : Prop := Forall printable_plan (plans_of (config b)).

Lemma normalizePlan_printable p : printable_plan p → printable_plan (normalizePlan p).
Proof. done. Qed.

Lemma brokerCfg_printable cfg genai d :
  Forall printable_plan (OnDemand.Plans (Config.OnDemand cfg)) → Forall printable_plan (Config.Plans cfg) →
  printable_broker (New (brokerCfg cfg genai) d).
Proof.
  intros Ho Hp. unfold printable_broker, plans_of. cbn [New config with_plans BrokerConfig.Plans].
  assert (H : Forall printable_plan (normalizePlans (BrokerConfig.Plans (brokerCfg cfg genai)))).
  { apply Forall_fmap. eapply Forall_impl; [|apply normalizePlan_printable].
    unfold brokerCfg. cbn [BrokerConfig.Plans]. by destruct (OnDemand.Plans (Config.OnDemand cfg)). }
  destruct (normalizePlans _); [|done]. repeat constructor; apply map_Forall_empty.
Qed.

Lemma main_printable config_file genai_file :
  yields (fun r => ∀ b u p, r = Ok (b, u, p) → printable_broker b) (main config_file genai_file).
Proof.
  unfold main. destruct (loadConfig config_file) as [cfg|e] eqn:Ec; [|done]. cbv zeta.
  apply loadConfig_printable in Ec as [Ho Hp].
  destruct (_ || _); [done|]. apply (yields_bind (fun _ => True)); [apply yields_true|].
  intros [g|e] _; [|done]. apply (yields_bind (fun _ => True)); [apply yields_true|].
  intros _ _ b u p [= <- _ _]. by apply brokerCfg_printable.
Qed.

Lemma booted_printable d b u p s : booted d b u p s → printable_broker b.
Proof.
  intros (cf & gf & Hr). by eapply (pool_returns _ _ _ _ _ (main_printable cf gf) Hr).
Qed.

(** ** The bodies of the handlers *)

(** At most [n] levels deep, with numbers JSON reads. *)
Definition fits (n : nat) (r : Response) : Prop := json_ok n (body r) = true.

Section Bodies.
Context (b : Broker) (n : nat).

(** Results that are refusals fit. *)
Definition refusal_fits {A} (r : result Response A) : Prop := ∀ resp, r = Err resp → fits (3 + n) resp.

Lemma render_fits params msg : yields refusal_fits (render_and_deploy b params msg).
Proof.
  unfold render_and_deploy. destruct (Manifest.RenderAgentManifest params); [|by intros ? [= <-]].
  apply (yields_bind (fun _ => True)); [apply yields_true|]. intros [] _; [by intros ? [=]|by intros ? [= <-]].
Qed.

Lemma checks_fit id req s : refusal_fits (checks b id req s).
Proof. unfold checks. intros resp E. repeat case_match; by simplify_eq. Qed.

Lemma admit_fits id req bs s : refusal_fits (admit_and_reserve b id req bs s).2.
Proof.
  unfold admit_and_reserve, admission. pose proof (checks_fit id req s) as H. intros resp.
  destruct (checks b id req s) as [plan|e]; cbn [rbind]; [|intros [= <-]; by apply H].
  unfold misconfigured. intros E. repeat case_match; by simplify_eq/=.
Qed.

Lemma prepare_fits id planID t1 t2 s : refusal_fits (prepare_update b id planID t1 t2 s).2.
Proof. unfold prepare_update. intros resp E. repeat case_match; by simplify_eq/=. Qed.

Lemma yields_locked {S X} (Q : X → Prop) gens (g : list string → S → S * X) :
  (∀ bs s, Q (g bs s).2) → yields Q (locked gens g).
Proof. intros H s xs. apply H. Qed.

(** The rest of a program whose first part can return anything. *)
Lemma yields_then {S X Y} (Q : Y → Prop) (p : prog S X) (h : X → prog S Y) :
  (∀ x, yields Q (h x)) → yields Q (bind p h).
Proof. intros H. apply (yields_bind (fun _ => True)); [apply yields_true|]. intros x _. apply H. Qed.

Lemma Provision_fits id accepts req : yields (fits (3 + n)) (Provision b id accepts req).
Proof.
  unfold Provision. destruct (negb _); [done|]. destruct (negb _); [done|]. destruct req as [req|]; [|done].
  apply (yields_bind refusal_fits); [apply yields_locked; intros; apply admit_fits|].
  intros [l|resp] Hr; [|by apply Hr]. unfold deploy_reserved. do 2 (apply yields_then; intros ?).
  apply (yields_bind refusal_fits); [apply render_fits|].
  intros [t|resp] Ht; apply yields_then; intros _; [|by apply Ht]. by apply yields_then.
Qed.

Lemma Update_fits id accepts req : yields (fits (3 + n)) (Update b id accepts req).
Proof.
  unfold Update. destruct (negb _); [done|]. destruct req as [req|]; [|done].
  apply (yields_bind refusal_fits); [apply yields_locked; intros; apply prepare_fits|].
  intros [[l params]|resp] Hr; [|by apply Hr].
  apply (yields_bind refusal_fits); [apply render_fits|].
  intros [t|resp] Ht; [|by apply Ht]. by do 2 (apply yields_then; intros ?).
Qed.

Lemma delete_fits id d l undo failed : fits (3 + n) failed →
  yields (fits (3 + n)) (delete_deployment b id d l undo failed).
Proof.
  intros Hf. unfold delete_deployment. do 2 (apply yields_then; intros ?).
  case_match; apply yields_then; intros ?; [by apply yields_then|done].
Qed.

Lemma Deprovision_fits id accepts : yields (fits (3 + n)) (Deprovision b id accepts).
Proof.
  unfold Deprovision. destruct (negb _); [done|]. apply yields_then. intros [l| |l st d]; [|done|];
    by apply delete_fits.
Qed.

Lemma LastOperation_fits id : yields (fits (3 + n)) (LastOperation b id).
Proof.
  unfold LastOperation. apply yields_then. intros [[[l st] t]|]; [|done].
  repeat first [done|case_match|apply yields_then; intros ?].
Qed.

Lemma Bind_fits id : yields (fits (3 + n)) (Bind id).
Proof. intros s. cbn. unfold bind_response. by repeat case_match. Qed.

Lemma AdminListInstances_fits : yields (fits (3 + n)) AdminListInstances.
Proof.
  unfold AdminListInstances. apply yields_then. intros m keys. unfold fits. cbn [yields body writeJSON].
  generalize (List.filter (fun i => negb (deprovisioning i)) (visit m keys).*2). intros l.
  change (forallb (json_ok (2 + n)) (map instance_info l) = true). by induction l.
Qed.

Lemma AdminUpgrade_fits req : yields (fits (3 + n)) (AdminUpgrade b req).
Proof.
  unfold AdminUpgrade. destruct req as [req|]; [|done]. destruct (_ <=? 0)%Z; [done|].
  apply yields_then. intros m keys. do 2 (apply yields_then; intros ?). unfold fits. cbn. by rewrite number_ok_Itoa.
Qed.

Lemma AdminUpgradeStatus_fits : yields (fits (3 + n)) (AdminUpgradeStatus b).
Proof.
  unfold AdminUpgradeStatus. apply yields_then. intros m keys. do 2 (apply yields_then; intros ?).
  unfold fits. cbn. by rewrite !number_ok_Itoa.
Qed.

(** The catalog adds five levels to the metadata of its plans. *)
Definition shallow (p : Plan) : Prop := (json_depth (map_json (Plan.Metadata p)) <= n)%nat.

Lemma plan_fits p : printable_plan p → shallow p → json_ok (1 + n) (plan_json (service_plan p)) = true.
Proof.
  intros Hp Hs. unfold plan_json. cbn [service_plan ServicePlan.Metadata].
  apply numbers_map_json in Hp. pose proof (json_ok_depth _ n Hp Hs) as H.
  destruct (bool_decide _); cbn [app Nat.add json_ok forallb andb]; rewrite ?H; by destruct n.
Qed.

Lemma Catalog_fits : printable_broker b → Forall shallow (plans_of (config b)) →
  yields (fits (5 + n)) (Catalog b).
Proof.
  intros Hp Hs. unfold fits. cbn [Catalog yields body writeJSON].
  assert (H : forallb (json_ok (1 + n)) (map plan_json (buildServicePlans (config b))) = true).
  { unfold buildServicePlans. revert Hp Hs. unfold printable_broker. generalize (plans_of (config b)).
    induction 1 as [|p l Hp _ IH]; [done|]. intros [Hs Hl]%Forall_cons. cbn [map forallb].
    by rewrite plan_fits, IH. }
  unfold catalog_json. cbn [CatalogResponse.Services map]. unfold service_json, openclaw_service.
  cbn [Nat.add json_ok forallb andb Service.Plans Service.Metadata Service.Tags map] in *. by rewrite H.
Qed.

End Bodies.

Lemma handle_fits b n r : printable_broker b → Forall (shallow n) (plans_of (config b)) →
  yields (fits (5 + n)) (handle b r).
Proof.
  intros Hp Hs. destruct r.
  - by apply Catalog_fits.
  - apply (Provision_fits b (2 + n)).
  - apply (Update_fits b (2 + n)).
  - apply (Deprovision_fits b (2 + n)).
  - apply (LastOperation_fits b (2 + n)).
  - apply (Bind_fits (2 + n)).
  - done.
  - apply (AdminListInstances_fits (2 + n)).
  - apply (AdminUpgrade_fits b (2 + n)).
  - apply (AdminUpgradeStatus_fits b (2 + n)).
Qed.

(** ** The bytes *)

Lemma response_json_ok is_print n r : fits n r → json_ok n (response_json is_print r) = true.
Proof.
  unfold fits, response_json. destruct (cause r) as [e|]; [|done].
  destruct (body r) as [| | | | |fs]; try done. by destruct n as [|[|n]].
Qed.

Lemma json_answer_reads is_print n r : fits n r → (N.of_nat n <= 10000)%N →
  Unmarshal (text (json_answer is_print r)) = Some (utf8_json (response_json is_print r)).
Proof.
  intros Hr Hn. cbn [json_answer text]. unfold Unmarshal, Marshal.
  rewrite (decode_printed (fun _ => "") "" n); [done|done|done|by apply response_json_ok|done|].
  by apply tail_ok_stops.
Qed.

Lemma yields_wp {S A} (P : A → Prop) (p : prog S A) s tr Q : yields P p → wp p s tr Q →
  wp p s tr (fun a s' tr' => P a ∧ Q a s' tr').
Proof. revert s tr. induction p; cbn [yields wp]; eauto 10. Qed.

(** ** The property *)

(** C8. From the bytes of the configuration to the bytes of an answer: whatever a
    started broker read at its start and whatever a request asks, what the handler of
    a matched and authorized request returns is sent with its status, as
    application/json, and the bytes of the body are one JSON document that decodes
    to the body of the response, with encoding errors replaced by U+FFFD; so what the
    handler guarantees of its response is what the client reads. The metadata of
    plans may be nested 9995 deep, where the limit of JSON decoders is not reached. *)
Theorem answers_decode is_print d b username password s0 n q r s tr Q :
  booted d b username password s0 →
  (N.of_nat n <= 9995)%N → Forall (shallow n) (plans_of (config b)) →
  cleanPath (path q) = path q → find_route q false routes = Ok r →
  authorized username password (authorization q) = true →
  wp (handle b r) s tr Q →
  wp (ServeHTTP is_print username password b q) s tr (fun a s' tr' =>
    ∃ resp, Q resp s' tr' ∧ code a = status resp ∧
      headers a = [("Content-Type", "application/json")] ∧
      Unmarshal (text a) = Some (utf8_json (response_json is_print resp))).
Proof.
  intros Hb Hn Hs Hc Hr Ha H. unfold ServeHTTP, basicAuthMiddleware. rewrite Hc, String.eqb_refl, Hr, Ha. cbn [negb].
  apply wp_bind. eapply wp_mono, yields_wp, H; [|by eapply handle_fits, Hs; eapply booted_printable].
  intros resp s' tr' [Hf HQ]. exists resp. split_and!; [done..|].
  eapply json_answer_reads; [exact Hf|lia].
Qed.

(** ** Witness: the catalog of a started broker *)

Definition demo_catalog : HttpQuery :=
  demo_query "GET" "/v2/catalog" (Bosh.BasicHeader "broker" "s3cret").2.

Lemma answers_decode_witness :
  let a := (run (demo_oracle 302 302 "done") (ServeHTTP ascii_only "broker" "s3cret" first_broker demo_catalog)
    (initial_store FileSys.empty) []).1.1 in
  code a = 200%Z ∧ ∃ resp, Unmarshal (text a) = Some (utf8_json (response_json ascii_only resp)).
Proof.
  pose proof (wp_run (demo_oracle 302 302 "done") _ _ _ _
    (answers_decode ascii_only FileSys.empty first_broker "broker" "s3cret" _ 5 demo_catalog GetCatalog
      (initial_store FileSys.empty) [] (fun r _ _ => status r = 200%Z)
      ltac:(apply boot_booted; [apply _|vm_compute; reflexivity])
      ltac:(discriminate)
      ltac:(unfold shallow; apply (bool_decide_unpack _); vm_compute; exact I)
      ltac:(vm_compute; reflexivity) ltac:(vm_compute; reflexivity) ltac:(vm_compute; reflexivity)
      ltac:(reflexivity))) as H.
  destruct (run _ _ _ _) as [[a s'] tr']. destruct H as (resp & Hs & Hc & _ & Hd).
  cbn [fst]. split; [by rewrite Hc|]. by exists resp.
Defined.
