(* ===== verification/Metadata.v ===== *)
(** * The metadata of plans: from the configuration to the catalog

    The metadata of a plan are values of interface type: main decodes them from the
    configuration, the catalog encodes them, a client decodes them again. What it gets
    is what the file says ([metadata_kept]), floating-point numbers included. *)

From stdpp Require Import sorting.
From S2P Require Import Prelude GoStrings Json JsonFacts JsonRead Floats FloatFacts Encoding Prog BoshClient UaaClient Broker Http StateFile Store Provision Update Deprovision Catalog Admin Concurrency Server Config System Wire.

(** ** The order of keys *)

Lemma compare_trans s t u : String.compare s t ≠ Gt → String.compare t u ≠ Gt →
  String.compare s u ≠ Gt ∧ (String.compare s u = Eq → String.compare s t = Eq).
Proof.
  revert t u. induction s as [|c s IH]; intros [|d t] [|e u]; try done.
  cbn [String.compare]. unfold Ascii.compare.
  destruct (N.compare_spec (N_of_ascii c) (N_of_ascii d)), (N.compare_spec (N_of_ascii d) (N_of_ascii e)),
    (N.compare_spec (N_of_ascii c) (N_of_ascii e)); try done; try lia. apply IH.
Qed.

Definition before_key {A} (x y : string * A) : Prop := String.ltb x.1 y.1 = true.

#[export] Instance before_trans {A} : Transitive (@before_key A).
Proof.
  intros x y z. unfold before_key, String.ltb. pose proof (compare_trans x.1 y.1 z.1) as H.
  destruct (String.compare x.1 y.1), (String.compare y.1 z.1); try done.
  intros _ _. destruct H as [H1 H2]; [done..|]. destruct (String.compare x.1 z.1); try done. by specialize (H2 eq_refl).
Qed.

Lemma before_ne {A} (x y : string * A) : before_key x y → x.1 ≠ y.1.
Proof.
  unfold before_key, String.ltb. intros H E. rewrite E in H. pose proof (String.compare_antisym y.1 y.1).
  by destruct (String.compare y.1 y.1).
Qed.

Lemma not_leb_before {A} (x y : string * A) : String.leb x.1 y.1 = false → before_key y x.
Proof. unfold before_key, String.leb, String.ltb. rewrite (String.compare_antisym y.1 x.1). by destruct (String.compare x.1 y.1). Qed.

Lemma leb_before {A} (x y : string * A) : String.leb x.1 y.1 = true → x.1 ≠ y.1 → before_key x y.
Proof.
  unfold before_key, String.leb, String.ltb. intros H Hne.
  destruct (String.compare x.1 y.1) eqn:E; try done. by apply String.compare_eq_iff in E.
Qed.

(** ** Sorted entries *)

Lemma insert_key_sorted {A} (kv : string * A) l : kv.1 ∉ l.*1 → StronglySorted before_key l →
  StronglySorted before_key (insert_key kv l).
Proof.
  intros Hk H. induction H as [|x l Hl IH Hx]; [by repeat constructor|].
  rewrite fmap_cons, not_elem_of_cons in Hk. destruct Hk as [Hk1 Hk2]. cbn [insert_key].
  destruct (String.leb kv.1 x.1) eqn:E.
  - assert (Hb : before_key kv x) by by apply leb_before. constructor; [by constructor|].
    constructor; [done|]. eapply Forall_impl; [exact Hx|]. intros y Hy. by etrans.
  - constructor; [by apply IH|]. rewrite insert_key_perm. constructor; [by apply not_leb_before|done].
Qed.

Lemma sorted_entries_sorted {A} (m : gmap string A) : StronglySorted before_key (sorted_entries m).
Proof.
  unfold sorted_entries. pose proof (NoDup_fst_map_to_list m) as H.
  induction (map_to_list m) as [|kv l IH]; [constructor|]. cbn [foldr]. rewrite fmap_cons in H.
  apply NoDup_cons in H as [Hk H]. apply insert_key_sorted; [|by apply IH].
  intros Hin. apply Hk. clear -Hin. revert Hin.
  assert (foldr insert_key [] l ≡ₚ l) as -> by (induction l as [|x l IH]; [done|]; cbn; by rewrite insert_key_perm, IH).
  done.
Qed.

Lemma elem_insert_entry k a l kv : StronglySorted before_key l →
  kv ∈ insert_entry k a l ↔ kv = (k, a) ∨ kv ∈ l ∧ kv.1 ≠ k.
Proof.
  induction 1 as [|[k' a'] l Hl IH Hx]; cbn [insert_entry].
  - rewrite list_elem_of_singleton. set_solver.
  - rewrite Forall_forall in Hx. destruct (String.eqb_spec k k') as [<-|Hne].
    + rewrite !elem_of_cons. split; [|naive_solver]. intros [->|Hin]; [by left|]. right. split; [by right|].
      specialize (Hx kv Hin). apply before_ne in Hx. cbn in Hx. congruence.
    + destruct (String.ltb k k') eqn:E.
      * rewrite !elem_of_cons. split; [|naive_solver]. intros [->|[->|Hin]]; [by left|right; split; [by left|cbn; congruence]|].
        right. split; [by right|]. intros <-. specialize (Hx kv Hin).
        apply (before_ne (kv.1, a) kv); [|done]. etrans; [|exact Hx]. exact E.
      * rewrite !elem_of_cons, IH. split; [|naive_solver].
        intros [->|[->|[Hin Hk]]]; [right; split; [by left|cbn; congruence]|by left|right; split; [by right|done]].
Qed.

Lemma insert_entry_sorted k a l : StronglySorted before_key l → StronglySorted before_key (insert_entry k a l).
Proof.
  intros H. induction H as [|[k' a'] l Hl IH Hx]; cbn [insert_entry]; [by repeat constructor|].
  destruct (String.eqb_spec k k') as [<-|Hne]; [by constructor|].
  destruct (String.ltb k k') eqn:E.
  - constructor; [by constructor|]. constructor; [exact E|]. eapply Forall_impl; [exact Hx|].
    intros y Hy. etrans; [|exact Hy]. exact E.
  - constructor; [done|]. apply Forall_forall. intros kv [->|[Hin Hk]]%elem_insert_entry; [|by rewrite Forall_forall in Hx; apply Hx|done].
    apply not_leb_before. cbn. unfold String.ltb, String.leb in *. destruct (String.compare k k') eqn:Ec; try done.
    by apply String.compare_eq_iff in Ec.
Qed.

Lemma sorted_NoDup {A} (l : list (string * A)) : StronglySorted before_key l → NoDup l.
Proof.
  induction 1 as [|x l _ IH Hx]; constructor; [|done]. intros Hin. rewrite Forall_forall in Hx.
  by apply Hx, before_ne in Hin.
Qed.

(** A decoded entry goes where the map sorts it. *)
Lemma insert_entry_map k a (m : gmap string any) : insert_entry k a (sorted_entries m) = sorted_entries (<[k := a]> m).
Proof.
  pose proof (insert_entry_sorted k a _ (sorted_entries_sorted m)) as H1.
  pose proof (sorted_entries_sorted (<[k := a]> m)) as H2.
  eapply StronglySorted_unique_strong; [|exact H1|exact H2|].
  - intros x y _ _ Hxy Hyx. exfalso. by apply (before_ne x x); [etrans|].
  - apply NoDup_Permutation; [by apply sorted_NoDup..|]. intros [k' a'].
    rewrite elem_insert_entry by apply sorted_entries_sorted. rewrite !sorted_entries_perm, !elem_of_map_to_list.
    cbn [fst]. rewrite lookup_insert_Some. naive_solver.
Qed.

(** ** Values decoded, encoded and decoded again *)

(** A map of encoded values, and the values they decode to. *)
Definition decodes_to (m : gmap string json) (m' : gmap string any) : Prop := any_of <$> m = Some <$> m'.

Lemma decodes_insert k j a m m' : any_of j = Some a → decodes_to m m' → decodes_to (<[k := j]> m) (<[k := a]> m').
Proof. unfold decodes_to. intros Hj H. by rewrite !fmap_insert, Hj, H. Qed.

Lemma decodes_empty : decodes_to ∅ ∅.
Proof. unfold decodes_to. by rewrite !fmap_empty. Qed.

Lemma decodes_lookup k j m m' : decodes_to m m' → m !! k = Some j → ∃ a, any_of j = Some a.
Proof.
  intros H Hk. apply (f_equal (lookup k)) in H. rewrite !lookup_fmap, Hk in H. cbn in H.
  destruct (m' !! k) as [a|]; [|done]. injection H as H. by exists a.
Qed.

(** The loops of [any_of] over elements and members. *)
Definition any_elements (l : list json) : option (list any) := mapM any_of l.

Fixpoint any_members (acc : list (string * any)) (fs : list (string * json)) : option (list (string * any)) :=
  match fs with
  | [] => Some acc
  | (k, x) :: r => a ← any_of x; any_members (insert_entry k a acc) r
  end.

Lemma any_of_array l : any_of (JArr l) = AnyList <$> any_elements l.
Proof. reflexivity. Qed.

Lemma any_of_object fs : any_of (JObj fs) = AnyMap <$> any_members [] fs.
Proof. reflexivity. Qed.

(** Members decode to the sorted entries of the map of their values. *)
Lemma any_members_map fs m m' : Forall (fun kx : string * json => ∃ a, any_of kx.2 = Some a) fs → decodes_to m m' →
  ∃ m1, any_members (sorted_entries m') fs = Some (sorted_entries m1) ∧
    decodes_to (foldl (fun m kx => <[kx.1 := kx.2]> m) m fs) m1.
Proof.
  intros H. revert m m'. induction H as [|[k x] fs [a Ha] _ IH]; intros m m' Hm; [by exists m'|].
  cbn in Ha. cbn [any_members foldl fst snd]. rewrite Ha. cbn [mbind option_bind]. rewrite insert_entry_map.
  apply IH. by apply decodes_insert.
Qed.

(** The values of an encoded map decode to the entries they came from. *)
Lemma any_of_map_json m m' : decodes_to m m' → any_of (map_json m) = Some (AnyMap (sorted_entries m')).
Proof.
  intros H. unfold map_json. rewrite any_of_object.
  destruct (any_members_map (sorted_entries m) ∅ ∅) as (m1 & Hm & Hd); [|apply decodes_empty|].
  - apply Forall_forall. intros [k j] Hin. rewrite sorted_entries_perm in Hin. apply elem_of_map_to_list in Hin.
    by eapply decodes_lookup.
  - change (sorted_entries ∅) with (@nil (string * any)) in Hm. rewrite Hm. cbn. do 2 f_equal.
    rewrite fold_sorted_entries in Hd. unfold decodes_to in *. rewrite H in Hd. f_equal.
    symmetry. by apply (inj (fmap Some)) in Hd.
Qed.

(** The loops of [iface]. *)
Fixpoint iface_members (m : gmap string json) (fs : list (string * json)) : option (gmap string json) :=
  match fs with
  | [] => Some m
  | (k, x) :: r => a ← iface x; iface_members (<[k := a]> m) r
  end.

Lemma iface_array l : iface (JArr l) = JArr <$> mapM iface l.
Proof. reflexivity. Qed.

Lemma iface_object fs : iface (JObj fs) = map_json <$> iface_members ∅ fs.
Proof. reflexivity. Qed.

(** Encoding a value of interface type and decoding it again changes nothing. *)
Lemma iface_decodes j j' : iface j = Some j' → ∃ a, any_of j = Some a ∧ any_of j' = Some a.
Proof.
  revert j'. induction j as [|b|lit|s|l IH|fs IH] using json_strong_ind; intros j'.
  - intros [= <-]. by eexists.
  - intros [= <-]. by eexists.
  - cbn [iface]. destruct (Float.ParseFloat lit) as [f|] eqn:E; [|done]. intros [= <-].
    exists (AnyFloat f). cbn [any_of]. rewrite E. split; [done|].
    by rewrite FloatFacts.ParseFloat_format_json by by eapply Float.ParseFloat_valid.
  - intros [= <-]. by eexists.
  - rewrite iface_array, any_of_array. destruct (mapM iface l) as [l'|] eqn:E; [|done]. intros [= <-].
    assert (H : ∃ as_, any_elements l = Some as_ ∧ any_elements l' = Some as_).
    { unfold any_elements. revert l' E. induction IH as [|x l Hx _ IHl]; intros l' E; cbn in E.
      - injection E as <-. by exists [].
      - destruct (iface x) as [x'|]; [|done]. destruct (mapM iface l) as [r|]; [|done]. injection E as <-.
        destruct (Hx x' eq_refl) as (a & Ha & Ha'), (IHl r eq_refl) as (as_ & H1 & H2).
        exists (a :: as_). cbn. by rewrite Ha, Ha', H1, H2. }
    destruct H as (as_ & H1 & H2). exists (AnyList as_). by rewrite any_of_array, H1, H2.
  - rewrite iface_object, any_of_object. destruct (iface_members ∅ fs) as [m|] eqn:E; [|done]. intros [= <-].
    assert (H : ∀ m0 m0' m, decodes_to m0 m0' → iface_members m0 fs = Some m →
      ∃ m', any_members (sorted_entries m0') fs = Some (sorted_entries m') ∧ decodes_to m m').
    { clear m E. induction IH as [|[k x] fs Hx _ IHf]; intros m0 m0' m Hm; [intros [= <-]; by exists m0'|].
      cbn [iface_members any_members]. destruct (iface x) as [x'|] eqn:E; [|done]. cbn [mbind option_bind].
      destruct (Hx x' E) as (a & Ha & Ha'). cbn [snd] in Ha. rewrite Ha. cbn [mbind option_bind].
      rewrite insert_entry_map. apply IHf. by apply decodes_insert. }
    destruct (H ∅ ∅ m decodes_empty E) as (m' & Hm & Hd).
    change (sorted_entries ∅) with (@nil (string * any)) in Hm. rewrite Hm.
    exists (AnyMap (sorted_entries m')). split; [done|]. by apply any_of_map_json.
Qed.

(** ** The field of the plan *)

Lemma add_entries_decode l m m' : Forall (fun kx : string * json => ∃ a, any_of kx.2 = Some a) l → decodes_to m m' →
  ∃ m1, add_entries m' l = Some m1 ∧ decodes_to (foldl (fun m kx => <[kx.1 := kx.2]> m) m l) m1.
Proof.
  intros H. revert m m'. induction H as [|[k x] l [a Ha] _ IH]; intros m m' Hm; [by exists m'|].
  cbn in Ha. cbn [add_entries foldl fst snd]. rewrite Ha. cbn [mbind option_bind]. apply IH. by apply decodes_insert.
Qed.

Lemma add_entries_iface l kvs m m' : mapM (fun kx : string * json => x ← iface kx.2; Some (kx.1, x)) l = Some kvs →
  decodes_to m m' → ∃ m1, add_entries m' l = Some m1 ∧ decodes_to (foldl (fun m kx => <[kx.1 := kx.2]> m) m kvs) m1.
Proof.
  intros E%mapM_Some. revert m m'. induction E as [|[k x] [k' x'] l kvs Hx _ IH]; intros m m' Hm; [by exists m'|].
  cbn in Hx. destruct (iface x) as [y|] eqn:Ey; [|done]. injection Hx as <- <-.
  destruct (iface_decodes x y Ey) as (a & Ha & Ha'). cbn [add_entries foldl fst snd]. rewrite Ha.
  cbn [mbind option_bind]. apply IH. by apply decodes_insert.
Qed.

Lemma map_field_decode name m m' fs m1 : decodes_to m m' → map_field iface m name fs = Some m1 →
  ∃ m1', decode_map name m' fs = Some m1' ∧ decodes_to m1 m1'.
Proof.
  revert m m'. induction fs as [|[k v] fs IH]; intros m m' Hm; cbn [map_field decode_map]; [intros [= <-]; by exists m'|].
  destruct (String.eqb _ _); [|by apply IH]. destruct v; try done; [apply IH, decodes_empty|].
  destruct (mapM _ fields) as [kvs|] eqn:E; [|done]. cbn [mbind option_bind].
  destruct (add_entries_iface fields kvs m m' E Hm) as (m2 & H2 & Hd). rewrite H2. cbn [mbind option_bind].
  by apply IH.
Qed.

Lemma decodes_inj m m1 m2 : decodes_to m m1 → decodes_to m m2 → m1 = m2.
Proof. unfold decodes_to. intros H1 H2. rewrite H1 in H2. by apply (inj (fmap Some)) in H2. Qed.

(** A client that decodes the encoded map gets the values back. *)
Lemma add_sorted_entries m m' : decodes_to m m' → add_entries ∅ (sorted_entries m) = Some m'.
Proof.
  intros H. destruct (add_entries_decode (sorted_entries m) ∅ ∅) as (m1 & Hm & Hd); [|apply decodes_empty|].
  - apply Forall_forall. intros [k j] Hin. rewrite sorted_entries_perm in Hin. apply elem_of_map_to_list in Hin.
    by eapply decodes_lookup.
  - rewrite fold_sorted_entries in Hd. by rewrite Hm, (decodes_inj m m1 m').
Qed.

(** ** Well-formed texts *)

Definition utf8_map (m : gmap string json) : Prop :=
  map_Forall (fun k j => valid_utf8 k = true ∧ utf8_json j = j) m.

Lemma utf8_map_json m : utf8_map m → utf8_json (map_json m) = map_json m.
Proof.
  intros H. apply utf8_members, Forall_forall. intros [k j] Hin.
  rewrite sorted_entries_perm in Hin. apply elem_of_map_to_list in Hin. exact (H k j Hin).
Qed.

Lemma iface_utf8 j j' : utf8_json j = j → iface j = Some j' → utf8_json j' = j'.
Proof.
  revert j'. induction j as [|b|lit|s|l IH|fs IH] using json_strong_ind; intros j' Hu; try (by intros [= <-]).
  - cbn [iface]. destruct (Float.ParseFloat lit); [|done]. by intros [= <-].
  - apply utf8_elements in Hu. rewrite iface_array. destruct (mapM iface l) as [l'|] eqn:E; [|done]. intros [= <-].
    apply utf8_elements. apply mapM_Some in E. induction E as [|x y l l' Hx _ IHl]; [done|].
    apply Forall_cons in IH as [Hy IH]. apply Forall_cons in Hu as [Hux Hu]. constructor; auto.
  - apply utf8_members in Hu. rewrite iface_object. destruct (iface_members ∅ fs) as [m|] eqn:E; [|done]. intros [= <-].
    apply utf8_map_json. assert (H : ∀ m0 m, utf8_map m0 → iface_members m0 fs = Some m → utf8_map m).
    { clear m E. induction fs as [|[k x] fs IHf]; intros m0 m Hm; [by intros [= <-]|].
      apply Forall_cons in IH as [Hx IH]. apply Forall_cons in Hu as [[Hk Hux] Hu]. cbn [iface_members fst snd] in *.
      destruct (iface x) as [x'|] eqn:E; [|done]. cbn [mbind option_bind].
      apply IHf; [done..|]. apply map_Forall_insert_2; [|done]. split; [done|by apply Hx]. }
    eapply H, E. apply map_Forall_empty.
Qed.

Lemma map_field_utf8 name m fs m1 : utf8_map m → Forall utf8_field fs → map_field iface m name fs = Some m1 → utf8_map m1.
Proof.
  intros Hm H. revert m Hm. induction H as [|[k v] fs [_ Hv] _ IH]; intros m Hm; cbn [map_field]; [by intros [= <-]|].
  destruct (String.eqb _ _); [|by apply IH]. destruct v; try done; [apply IH, map_Forall_empty|].
  destruct (mapM _ fields) as [kvs|] eqn:E; [|done]. cbn [mbind option_bind]. apply IH.
  cbn [snd] in Hv. apply utf8_members in Hv. apply mapM_Some in E. clear IH. revert m Hm Hv.
  induction E as [|[k1 x] [k2 x'] l kvs Hx _ IHl]; intros m Hm Hl; [done|].
  apply Forall_cons in Hl as [[Hk Hux] Hl]. cbn [foldl fst snd] in *. apply IHl; [|done].
  destruct (iface x) as [y|] eqn:Ey; [|done]. injection Hx as <- <-.
  apply map_Forall_insert_2; [|done]. split; [done|by eapply iface_utf8].
Qed.

(** ** The property *)

Lemma decode_metadata fs p : decode_plan_fields fs = Some p → map_field iface ∅ "metadata" fs = Some (Plan.Metadata p).
Proof. unfold decode_plan_fields. intros H. simplify_option_eq. done. Qed.

(** C9. The metadata of a plan reach the platform as the operator wrote them: the
    values that a client decodes from the metadata of the plan in the catalog are the
    ones that decode from the plan in the configuration file, every number to the last
    bit of its 64-bit floating-point value, however the numbers and the members were
    written there. *)
Theorem metadata_kept text fs p : Decode text = Some (JObj fs) → decode_plan_fields fs = Some p →
  (N.of_nat (json_depth (map_json (Plan.Metadata p))) < 10000)%N →
  ∃ values fs', decode_map "metadata" ∅ fs = Some values ∧
    Unmarshal (Marshal (plan_json (service_plan (normalizePlan p)))) = Some (JObj fs') ∧
    decode_map "metadata" ∅ fs' = Some values.
Proof.
  intros Hu%Decode_utf8%utf8_members Hp Hd. pose proof (decode_metadata fs p Hp) as Hm.
  pose proof (map_field_utf8 _ _ _ _ (map_Forall_empty _) Hu Hm) as Hmu.
  destruct (map_field_decode _ _ _ _ _ decodes_empty Hm) as (values & Hv & Hdec). exists values.
  set (sp := service_plan (normalizePlan p)). set (n := json_depth (map_json (Plan.Metadata p))) in *.
  assert (Hok : json_ok (1 + n) (plan_json sp) = true).
  { apply plan_fits; [exact (decode_plan_fields_printable fs p Hp)|]. unfold shallow. by subst n. }
  assert (Hr : Unmarshal (Marshal (plan_json sp)) = Some (utf8_json (plan_json sp))).
  { unfold Unmarshal, Marshal. rewrite <- (app_nil_r_s (print _ _ _ _)).
    by rewrite (decode_printed (fun _ => "") "" (1 + n)) by (done || lia). }
  rewrite Hr. unfold plan_json. change (ServicePlan.Metadata sp) with (Plan.Metadata p).
  eexists (utf8_fields _). split; [done|]. split; [reflexivity|]. clearbody sp. unfold utf8_fields. rewrite map_app.
  destruct (bool_decide (Plan.Metadata p = ∅)) eqn:E.
  - apply bool_decide_eq_true in E. rewrite E in Hdec. cbn. f_equal. by apply (decodes_inj ∅); [apply decodes_empty|].
  - cbn [map]. rewrite (utf8_map_json _ Hmu). unfold map_json. pose proof (add_sorted_entries _ _ Hdec) as Ha.
    revert Ha. generalize (sorted_entries (Plan.Metadata p)). intros l Ha. cbn. by rewrite Ha.
Qed.

(** ** Witness *)

Definition demo_plan : string :=
  MarshalIndent (JObj [("name", JStr "large"); ("metadata", JObj [("weight", JNum "0.10"); ("bullets", JArr [JStr "8 GB"; JNum "1e2"]);
    ("limits", JObj [("b", JNum "9007199254740993"); ("a", JNull)])])]).

Lemma metadata_kept_witness :
  ∃ fs p values fs', Decode demo_plan = Some (JObj fs) ∧ decode_plan_fields fs = Some p ∧
    values !! "weight" = Some (AnyFloat {| Float.neg := false; Float.mant := 7205759403792794; Float.expo := -56 |}) ∧
    Unmarshal (Marshal (plan_json (service_plan (normalizePlan p)))) = Some (JObj fs') ∧
    decode_map "metadata" ∅ fs' = Some values.
Proof.
  destruct (Decode demo_plan) as [[| | | | |fs]|] eqn:Et; try (vm_compute in Et; discriminate).
  destruct (decode_plan_fields fs) as [p|] eqn:Ep;
    [|vm_compute in Et; injection Et as <-; vm_compute in Ep; discriminate].
  destruct (metadata_kept demo_plan fs p Et Ep) as (values & fs' & Hv & Hm & Hd).
  - vm_compute in Et. injection Et as <-. vm_compute in Ep. injection Ep as <-. vm_compute. reflexivity.
  - exists fs, p, values, fs'. split_and!; [done..| |done|done].
    vm_compute in Et. injection Et as <-. vm_compute in Hv. injection Hv as <-. vm_compute. reflexivity.
Defined.
