(* ===== verification/Connections.v ===== *)
(** * Where the broker connects to, and whom it trusts

    Every request a handler can send goes to the director, to the UAA of the director
    or to the UAA of the platform, over the http.Client main built for it. *)

From S2P Require Import Prelude GoStrings Json Encoding Prog Url Manifest Tokens BoshClient UaaClient Broker StateFile Store Provision Update Deprovision LastOperation Binding Catalog Admin Concurrency Effects Config System.

(** ** The servers *)

Section Servers.
Context (c : BrokerConfig) (d : Bosh.Client).

(** To the director: below its URL, with the credentials of the configuration when
    it has no UAA, else with a token, which the UAA of the director gives for the same
    credentials. *)
Definition to_director (r : HttpRequest) : Prop :=
  (∃ method p hs h body,
     r = {| rq_client := Bosh.httpClient d; rq_method := method;
            rq_url := Bosh.directorURL d +:+ "/" +:+ p; rq_headers := hs ++ [h]; rq_body := body |} ∧
     (Bosh.uaaURL d = "" ∧ h = Bosh.BasicHeader (Bosh.clientID d) (Bosh.clientSecret d) ∨
      Bosh.uaaURL d ≠ "" ∧ ∃ tok, h = Bosh.BearerHeader tok)) ∨
  (Bosh.uaaURL d ≠ "" ∧ r = Bosh.token_request d).

(** The UAA client of [New], when there is one. *)
Definition uaa_of : Uaa.Client :=
  Uaa.NewClient (BrokerConfig.CFUaaURL c) (BrokerConfig.CFUaaAdminClientID c)
    (BrokerConfig.CFUaaAdminClientSecret c) true.

Definition uaa_used : bool :=
  BrokerConfig.SSOEnabled c && negb (String.eqb (BrokerConfig.CFUaaURL c) "")
    && negb (String.eqb (BrokerConfig.CFUaaAdminClientSecret c) "").

(** To the UAA of the platform. *)
Definition to_uaa (r : HttpRequest) : Prop :=
  uaa_used = true ∧
  (r = Uaa.token_request uaa_of ∨ (∃ tok o, r = Uaa.create_request uaa_of tok o) ∨
   ∃ tok id, r = Uaa.delete_request uaa_of tok id).

Definition expected (r : HttpRequest) : Prop := to_director r ∨ to_uaa r.

(** ** The two clients *)

Notation asks_expected := (asks (S := Store) expected).

Lemma getToken_asks : Bosh.uaaURL d ≠ "" → asks_expected (Bosh.getToken d).
Proof.
  intros Hu. assert (Hf : asks_expected (Bosh.fetch_token d)).
  { unfold Bosh.fetch_token. destruct (negb _); [done|]. split; [by left; right|].
    intros [resp|e]; [|done]. by destruct (Bosh.read_token resp) as [[tok exp]|]. }
  cbn [asks Bosh.getToken]. apply asks_bind; [|done]. intros s. cbn. destruct (token s); [|exact Hf].
  intros now. destruct (_ <? _)%Z; [done|exact Hf].
Qed.

(** What is known of the header of a request to the director. *)
Definition header_ok (h : result GoError (string * string)) : Prop := ∀ h', h = Ok h' →
  Bosh.uaaURL d = "" ∧ h' = Bosh.BasicHeader (Bosh.clientID d) (Bosh.clientSecret d) ∨
  Bosh.uaaURL d ≠ "" ∧ ∃ tok, h' = Bosh.BearerHeader tok.

Lemma setAuth_yields : yields (S := Store) header_ok (Bosh.setAuth d).
Proof.
  unfold Bosh.setAuth. destruct (String.eqb_spec (Bosh.uaaURL d) "") as [E|E].
  - intros h' [= <-]. by left.
  - apply (yields_bind (fun _ => True)); [apply yields_true|]. intros [tok|e] _; [|done].
    intros h' [= <-]. right. eauto.
Qed.

Lemma director_request_asks {A} m p hs body f (k : HttpResponse → result GoError A) :
  asks_expected (Bosh.director_request d m (Bosh.directorURL d +:+ "/" +:+ p) hs body f k).
Proof.
  unfold Bosh.director_request. destruct (negb _); [done|].
  apply (asks_bind_yields header_ok); [apply setAuth_yields| |].
  - unfold Bosh.setAuth. destruct (String.eqb_spec (Bosh.uaaURL d) ""); [done|].
    apply asks_bind; [by apply getToken_asks|done].
  - intros [h|e] Hh; [|done]. split; [|by intros []]. left; left.
    exists m, p, hs, h, body. split; [done|]. by apply Hh.
Qed.

Lemma director_asks : 
  (∀ m, asks_expected (@Deploy _ (Bosh.bosh_director d) m)) ∧
  (∀ n, asks_expected (@DeleteDeployment _ (Bosh.bosh_director d) n)) ∧
  (∀ t, asks_expected (@TaskStatus _ (Bosh.bosh_director d) t)).
Proof. split_and!; intros; apply director_request_asks. Qed.

Lemma send_asks {A} r b f (k : HttpResponse → result GoError A) :
  to_uaa r → asks_expected (Uaa.send r b f k).
Proof. intros Hr. unfold Uaa.send. destruct (negb _); [done|]. split; [by right|by intros []]. Qed.

Lemma registry_asks : uaa_used = true →
  (∀ o, asks_expected (@Prog.CreateClient _ (Uaa.uaa_registry uaa_of) o)) ∧
  (∀ id, asks_expected (@Prog.DeleteClient _ (Uaa.uaa_registry uaa_of) id)).
Proof.
  intros Hu. split; intros x; (apply asks_bind; [apply send_asks; split; [done|by left]|]);
    intros [tok|e]; try done; apply asks_bind; try (by intros []); apply send_asks; split; try done; right; eauto.
Qed.

(** ** The handlers *)

Notation b := (New c (Bosh.bosh_director d)).

#[export] Instance asks_closed : Closed (fun A => @asks Store A expected).
Proof. split; intros; by (apply asks_bind || cbn [asks]). Qed.

Lemma uaa_client_asks uaa : uaaClient b = Some uaa →
  (∀ o, asks_expected (@Prog.CreateClient _ uaa o)) ∧ (∀ id, asks_expected (@Prog.DeleteClient _ uaa id)).
Proof.
  cbn [New uaaClient]. intros H. assert (Hu : uaa_used = true ∧ uaa = Uaa.uaa_registry uaa_of).
  { revert H. unfold uaa_used. by destruct (_ && _); intros [= <-]. }
  destruct Hu as [Hu ->]. by apply registry_asks.
Qed.

Lemma handle_asks r : asks_expected (handle b r).
Proof.
  destruct director_asks as (Hp & Hd & Ht).
  apply (handle_closed b (fun A => @asks Store A expected)); try done;
    intros uaa x H; by destruct (uaa_client_asks uaa H).
Qed.
End Servers.

(** ** The property *)

(** The director client of main. *)
Definition director_of (cfg : Config) : Bosh.Client :=
  let bosh := Config.BOSH cfg in
  Bosh.NewClient (BOSH.DirectorURL bosh) (BOSH.ClientID bosh) (BOSH.ClientSecret bosh)
    (BOSH.CACert bosh) (BOSH.UaaURL bosh).

Lemma main_built config_file genai_file :
  yields (fun r => ∀ b u p, r = Ok (b, u, p) → ∃ cfg genai, loadConfig config_file = Ok cfg ∧
    b = New (brokerCfg cfg genai) (Bosh.bosh_director (director_of cfg))) (main config_file genai_file).
Proof.
  unfold main. destruct (loadConfig config_file) as [cfg|e]; [|done]. cbv zeta.
  destruct (_ || _); [done|]. apply (yields_bind (fun _ => True)); [apply yields_true|].
  intros [g|e] _; [|done]. apply (yields_bind (fun _ => True)); [apply yields_true|].
  intros _ _ b u p [= <- _ _]. by exists cfg, g.
Qed.

(** To the director, whose certificate is checked, against the configured CA when
    there is one; redirects are not followed. *)
Definition verified (cfg : Config) (r : HttpRequest) : Prop :=
  to_director (director_of cfg) r ∧
  let ca := BOSH.CACert (Config.BOSH cfg) in
  rq_client r = {| Timeout := 60; RootCAs := if String.eqb ca "" then None else Some ca;
                   InsecureSkipVerify := false; FollowRedirects := false |}.

(** To the UAA of the platform, for single sign-on only; any certificate will do. *)
Definition unverified (cfg : Config) (r : HttpRequest) : Prop :=
  Security.SSOEnabled (Config.Security cfg) = true ∧
  (∃ genai, to_uaa (brokerCfg cfg genai) r) ∧
  rq_client r = {| Timeout := 30; RootCAs := None; InsecureSkipVerify := true; FollowRedirects := true |}.

Lemma expected_client cfg genai r : expected (brokerCfg cfg genai) (director_of cfg) r →
  verified cfg r ∨ unverified cfg r.
Proof.
  intros [H|H]; [left|right].
  - split; [done|]. destruct H as [(m & p & hs & h & body & -> & _)|[_ ->]]; reflexivity.
  - destruct H as [Hu H]. split; [|split; [by exists genai|]].
    + revert Hu. unfold uaa_used. cbn [brokerCfg BrokerConfig.SSOEnabled]. by destruct (Security.SSOEnabled _).
    + destruct H as [->|[(tok & o & ->)|(tok & id & ->)]]; reflexivity.
Qed.


(** ** Witness: single sign-on, with skip_ssl_validation switched off *)

Definition sso_config_file : string := MarshalIndent (JObj
  [("auth", JObj [("username", JStr "broker"); ("password", JStr "s3cret")]);
   ("bosh", JObj [("director_url", JStr "https://10.0.0.6:25555"); ("client_id", JStr "admin")]);
   ("agent_defaults", JObj [("openclaw_version", JStr "2026.1.30")]);
   ("security", JObj [("sso_enabled", JBool true)]);
   ("cf_uaa", JObj [("url", JStr "https://uaa.example.com"); ("admin_client_secret", JStr "adm1n")]);
   ("cf", JObj [("apps_domain", JStr "apps.example.com"); ("skip_ssl_validation", JBool false)]);
   ("on_demand", JObj [("azs", JArr [JStr "z1"])])]).

Notation sso_boot := (boot (demo_oracle 302 302 "done") (Ok sso_config_file)
  (Err (Errorf "no such file" [])) [0; 0; 0] FileSys.empty).

Definition insecure (e : event) : bool :=
  match e with EvHttp q _ => InsecureSkipVerify (rq_client q) | _ => false end.

