(* ===== verification/Shutdown.v ===== *)
(** * Package main, main.go: a graceful shutdown comes to its end

    Handlers are finite programs, and one that has not answered can always go on,
    whatever it is told: without the deadline of Shutdown every draining process
    answers all its requests and exits with status 0. *)

From S2P Require Import Prelude GoStrings Json Floats Prog BoshClient UaaClient Broker Http StateFile Store Concurrency Server System.

(** ** Programs are never stuck *)

Lemma program_moves {S A} (s : S) (p : prog S A) : (∃ a, p = Ret a) ∨ ∃ s' p', pstep s p s' p'.
Proof.
  destruct p as [a|f k|r k|k|n k|op k|l k|n f k|k|k]; [by left; eexists|right; eexists _, _..].
  - apply pstep_step.
  - apply (pstep_http _ _ _ (Err (Errorf "" []))).
  - apply (pstep_now _ _ 0%Z).
  - apply (pstep_rand _ _ _ (Float.zeros n)), Float.zeros_length.
  - apply (pstep_fs _ _ _ None).
  - by apply (pstep_order _ l).
  - apply (pstep_draw _ _ _ _ (map Float.zeros (n s))). rewrite map_map, <- map_id.
    apply map_ext, Float.zeros_length.
  - apply pstep_lock.
  - apply pstep_unlock.
Qed.

(** ** Draining *)

Section Shutdown.
Context (is_print : N → bool).

(** A step of a process whose shutdown is not cut short by the deadline. *)
Definition patient_step (c c' : Process) : Prop := process_step is_print c c' ∧ phase c' ≠ Exited 1.

(** Draining starts nothing: a handler goes on, or all have answered. *)
Lemma draining_step c c' : phase c = Draining → patient_step c c' →
  (phase c' = Exited 0 ∧ Forall answered (running c') ∧ running c' = running c) ∨
  (phase c' = Draining ∧ one_goes_on goes_on (running c) (running c')).
Proof.
  intros Hph [Hst Hne]. destruct Hst as [|ph b u p s ps1 h ps2 s' h' _ Hp| | | |]; simpl in *; try done.
  - right. split; [done|]. exists ps1, h, h', ps2. split_and!; [done..|]. by exists s, s'.
  - by left.
Qed.

Lemma exited_step c c' code : phase c = Exited code → ¬ patient_step c c'.
Proof. intros Hph [Hst _]. destruct Hst; simpl in *; simplify_eq; done. Qed.

(** What a shutdown has become of the [n] requests that were being served. *)
Definition shutting_down (n : nat) (c : Process) : Prop :=
  length (running c) = n ∧ (phase c = Draining ∨ phase c = Exited 0 ∧ Forall answered (running c)).

Lemma shutting_down_step n c c' : shutting_down n c → patient_step c c' → shutting_down n c'.
Proof.
  intros [Hn [Hph|[Hph _]]] Hst; [|by destruct (exited_step _ _ _ Hph Hst)].
  destruct (draining_step _ _ Hph Hst) as [(Hph' & Ha & E)|[Hph' Hr]]; split.
  - by rewrite E.
  - by right.
  - by rewrite (one_goes_on_length _ _ _ Hr).
  - by left.
Qed.

Lemma answered_or_moves (s : Store) hs : Forall answered hs ∨
  ∃ ps1 h ps2 s' h', hs = ps1 ++ h :: ps2 ∧ pstep s h s' h'.
Proof.
  induction hs as [|h hs [IH|(ps1 & h0 & ps2 & s' & h' & -> & Hp)]]; [by left| |].
  - destruct (program_moves s h) as [Ha|(s' & h' & Hp)]; [left; by constructor|].
    right. by exists [], h, hs, s', h'.
  - right. by exists (h :: ps1), h0, ps2, s', h'.
Qed.

(** Some handler goes on, or the process is done. *)
Lemma draining_moves c : phase c = Draining → ∃ c', patient_step c c'.
Proof.
  destruct c as [ph b u p s hs]. cbn [phase]. intros ->.
  destruct (answered_or_moves s hs) as [Ha|(ps1 & h & ps2 & s' & h' & -> & Hp)]; eexists.
  - split; [by apply drained|done].
  - split; [by apply working|done].
Qed.

End Shutdown.

(** ** Witness: the signal arrives while an instance is being created *)

Lemma steps_end {X} (R : relation X) (P : X → Prop) x : Acc (flip R) x →
  (∀ y, rtc R x y → P y ∨ ∃ z, R y z) → ∃ y, rtc R x y ∧ P y.
Proof.
  induction 1 as [x _ IH]. intros H. destruct (H x) as [Hp|[y Hy]]; [done|by exists x|].
  destruct (IH y Hy) as (z & Hz & Hp).
  - intros z Hz. apply H. by eapply rtc_l.
  - exists z. split; [by eapply rtc_l|done].
Qed.

Definition interrupted : Process :=
  mkProcess Draining first_broker "broker" "s3cret" (initial_store FileSys.empty)
    [ServeHTTP ascii_only "broker" "s3cret" first_broker demo_put].

