(* ===== verification/Mutex.v ===== *)
(** * bosh/client.go: the mutex of the token cache

    The director client holds tokenMu while it looks at its cached token and while it
    asks the UAA for a new one.  Elsewhere a Lock is a step that succeeds at once; here
    it waits.  The clock is part of the world and the exchanges are recorded with the
    time at which they took place. *)

From S2P Require Import Prelude GoStrings Json Floats Encoding Prog Url BoshClient UaaClient Broker Http StateFile Store Concurrency Server Effects Config System.

(** ** The world *)

Section Mutex.
Context {S A : Type}.

(** Threads are numbered from 0; [holder] is the one that holds the mutex. *)
Record World : Type := mkWorld {
  clock : Z;
  holder : option nat;
  store : S;
  threads : list (prog S A);
  history : list (Z * event);
}.

(** A step that has nothing to do with the mutex, at the time [now], and what it asks. *)
Inductive effect (now : Z) : S → prog S A → list event → S → prog S A → Prop :=
| effect_step s f k : effect now s (Step f k) [] (f s) (k s)
| effect_http s r k x : effect now s (Http r k) [EvHttp r x] s (k x)
| effect_now s k : effect now s (Now k) [EvNow now] s (k now)
| effect_rand s n k x : String.length x = n → effect now s (Rand n k) [EvRand x] s (k x)
| effect_fs s op k x : effect now s (Fs op k) [EvFs op x] s (k x)
| effect_order s l k x : x ≡ₚ l → effect now s (Order l k) [EvOrder x] s (k x)
| effect_draw s n f k xs : map String.length xs = n s →
    effect now s (Draw n f k) (map EvRand xs) (f s xs) (k s xs).

(** A thread goes on. Lock waits until the mutex is free. *)
Inductive move : World → World → Prop :=
| acts t o s ts h i p s' es p' :
    ts !! i = Some p → effect t s p es s' p' →
    move (mkWorld t o s ts h) (mkWorld t o s' (<[i := p']> ts) (h ++ map (pair t) es))
| acquires t s ts h i k :
    ts !! i = Some (Lock k) → move (mkWorld t None s ts h) (mkWorld t (Some i) s (<[i := k]> ts) h)
| releases t j s ts h i k :
    ts !! i = Some (Unlock k) → move (mkWorld t (Some j) s ts h) (mkWorld t None s (<[i := k]> ts) h).

(** Time passes, a request arrives that [H] allows, or a thread goes on. *)
Inductive turn (H : prog S A → Prop) : World → World → Prop :=
| tick t t' o s ts h : (t ≤ t')%Z → turn H (mkWorld t o s ts h) (mkWorld t' o s ts h)
| arrives t o s ts h p : H p → turn H (mkWorld t o s ts h) (mkWorld t o s (ts ++ [p]) h)
| moves w w' : move w w' → turn H w w'.

(** At the time [t], nothing has arrived. *)
Definition start (t : Z) (s : S) : World := mkWorld t None s [] [].

(** ** The interleavings with the mutex are among those without *)

Lemma effect_pstep now s p es s' p' : effect now s p es s' p' → pstep s p s' p'.
Proof. by destruct 1; constructor. Qed.

Lemma pool_insert (H : prog S A → Prop) s ts i p s' p' : ts !! i = Some p → pstep s p s' p' →
  pool H (s, ts) (s', <[i := p']> ts).
Proof.
  intros Hi Hp. rewrite <- (take_drop_middle ts i p Hi) at 1.
  rewrite insert_take_drop by by eapply lookup_lt_Some. by apply pool_step.
Qed.

Lemma move_pool H w w' : move w w' → pool H (store w, threads w) (store w', threads w').
Proof.
  destruct 1; cbn [store threads]; eapply pool_insert; try done; [by eapply effect_pstep|constructor..].
Qed.

Lemma turns_pool H w w' : rtc (turn H) w w' → rtc (pool H) (store w, threads w) (store w', threads w').
Proof.
  induction 1 as [w|w1 w2 w3 Ht _ IH]; [done|]. etrans; [|exact IH].
  destruct Ht as [| |w w' Hm]; [done|by apply rtc_once, pool_spawn|by apply rtc_once, move_pool].
Qed.

(** ** Nothing goes on for ever *)

Lemma pstep_goes_on s (p : prog S A) s' p' : pstep s p s' p' → goes_on p p'.
Proof. intros. by exists s, s'. Qed.

Lemma one_goes_on_insert ts i (p p' : prog S A) : ts !! i = Some p → goes_on p p' →
  one_goes_on goes_on ts (<[i := p']> ts).
Proof.
  intros Hi Hp. exists (take i ts), p, p', (drop (Datatypes.S i) ts). split_and!; [|by apply insert_take_drop, (lookup_lt_Some _ _ _ Hi)|done].
  symmetry. by apply take_drop_middle.
Qed.

Lemma move_goes_on w w' : move w w' → one_goes_on goes_on (threads w) (threads w').
Proof.
  destruct 1; cbn [threads]; eapply one_goes_on_insert; try done.
  - by eapply pstep_goes_on, effect_pstep.
  - apply (pstep_goes_on s _ s). constructor.
  - apply (pstep_goes_on s _ s). constructor.
Qed.

Lemma moves_finite w : Acc (flip move) w.
Proof.
  assert (Hf : Acc (flip (one_goes_on (goes_on (S := S) (A := A)))) (threads w))
    by (apply list_finite, Forall_forall; intros; apply program_finite).
  remember (threads w) as ts eqn:E. revert w E. induction Hf as [ts _ IH]. intros w ->.
  constructor. intros w' Hm. eapply IH; [|done]. by apply move_goes_on.
Qed.
End Mutex.
Arguments World S A : clear implicits.

(** ** Executing a schedule *)

Section Play.
Context {S A : Type} (o : Oracle).

(** A step of a program at the time [now], answered by the oracle. *)
Definition effect_with (now : Z) (h : list event) (s : S) (p : prog S A) : option (S * list event * prog S A) :=
  match p with
  | Ret _ | Lock _ | Unlock _ => None
  | Step f k => Some (f s, [], k s)
  | Http r k => let x := o_http o h r in Some (s, [EvHttp r x], k x)
  | Now k => Some (s, [EvNow now], k now)
  | Rand n k => let x := o_rand o h n in Some (s, [EvRand x], k x)
  | Fs op k => let x := o_fs o h op in Some (s, [EvFs op x], k x)
  | Order l k => let x := o_order o h l in Some (s, [EvOrder x], k x)
  | Draw n f k => let xs := (draw_all o (n s) h).1 in Some (f s xs, map EvRand xs, k s xs)
  end.

(** What a schedule consists of: it gets later, a thread starts, a thread goes on as
    far as it can but no further than [n] steps. *)
Inductive Action : Type :=
| Later (by_ : Z)
| Arrive (p : prog S A)
| Go (i n : nat).

Definition go (i : nat) (w : World S A) : World S A :=
  let 'mkWorld t held s ts h := w in
  match ts !! i with
  | Some (Lock k) => match held with None => mkWorld t (Some i) s (<[i := k]> ts) h | Some _ => w end
  | Some (Unlock k) => match held with Some _ => mkWorld t None s (<[i := k]> ts) h | None => w end
  | Some p =>
      match effect_with t (map snd h) s p with
      | Some (s', es, p') => mkWorld t held s' (<[i := p']> ts) (h ++ map (pair t) es)
      | None => w
      end
  | None => w
  end.

Definition play_one (a : Action) (w : World S A) : World S A :=
  match a with
  | Later by_ => let 'mkWorld t held s ts h := w in mkWorld (t + Z.max 0 by_) held s ts h
  | Arrive p => let 'mkWorld t held s ts h := w in mkWorld t held s (ts ++ [p]) h
  | Go i n => Nat.iter n (go i) w
  end.

Definition play (actions : list Action) (w : World S A) : World S A :=
  fold_left (fun w a => play_one a w) actions w.

Lemma effect_with_effect `{!ValidOracle o} now h s p s' es p' :
  effect_with now h s p = Some (s', es, p') → effect now s p es s' p'.
Proof.
  destruct p; intros [= <- <- <-]; constructor; try (apply valid_rand || apply valid_order).
  by apply draw_all_spec.
Qed.

Lemma go_move `{!ValidOracle o} i w : go i w = w ∨ move w (go i w).
Proof.
  destruct w as [t held s ts h]. unfold go. destruct (ts !! i) as [p|] eqn:Hi; [|by left].
  assert (Hp : ∀ s' es p', effect_with t (map snd h) s p = Some (s', es, p') →
    move (mkWorld t held s ts h) (mkWorld t held s' (<[i := p']> ts) (h ++ map (pair t) es))).
  { intros s' es p' E%effect_with_effect. by eapply acts. }
  destruct p; [by left|by right; apply Hp..|destruct held; [by left|right; by apply acquires]|
    destruct held; [right; by eapply releases|by left]].
Qed.

(** A schedule is one of the histories of the world. *)
Lemma play_turns `{!ValidOracle o} H actions w :
  Forall (fun a => match a with Arrive p => H p | _ => True end) actions →
  rtc (turn H) w (play actions w).
Proof.
  intros Ha. revert w. induction Ha as [|a actions Ha _ IH]; intros w; [done|]. cbn.
  etrans; [|apply IH]. destruct a as [by_|p|i n]; cbn [play_one].
  - destruct w. apply rtc_once, tick. lia.
  - destruct w. by apply rtc_once, arrives.
  - clear Ha. induction n as [|n IHn]; [done|]. etrans; [exact IHn|].
    change (Nat.iter (Datatypes.S n) (go i) w) with (go i (Nat.iter n (go i) w)).
    destruct (go_move i (Nat.iter n (go i) w)) as [E|Hm]; [by rewrite E|by apply rtc_once, moves].
Qed.
End Play.

(** ** Programs that unlock what they lock

    [bracketed held p]: [p] locks and unlocks in turns, starting in the critical section
    when [held], and is outside when it returns. *)

Fixpoint bracketed {S A} (held : bool) (p : prog S A) : Prop :=
  match p with
  | Ret _ => held = false
  | Step _ k => ∀ s, bracketed held (k s)
  | Http _ k => ∀ x, bracketed held (k x)
  | Now k => ∀ x, bracketed held (k x)
  | Rand _ k => ∀ x, bracketed held (k x)
  | Fs _ k => ∀ x, bracketed held (k x)
  | Order _ k => ∀ x, bracketed held (k x)
  | Draw _ _ k => ∀ s xs, bracketed held (k s xs)
  | Lock k => held = false ∧ bracketed true k
  | Unlock k => held = true ∧ bracketed false k
  end.

Lemma bracketed_bind {S A B} held (p : prog S A) (h : A → prog S B) :
  bracketed held p → (∀ a, bracketed false (h a)) → bracketed held (bind p h).
Proof.
  revert held. induction p; cbn [bracketed bind]; intros held Hp Hh; try by eauto.
  - by rewrite Hp.
  - destruct Hp. eauto.
  - destruct Hp. eauto.
Qed.

#[export] Instance bracketed_closed : Closed (fun A => @bracketed Store A false).
Proof. split; intros; by (apply bracketed_bind || cbn [bracketed]). Qed.

Section Discipline.
Context {S A : Type}.

(** Who holds the mutex is inside, everyone else is outside. *)
Definition owned (w : World S A) : Prop :=
  (∀ i p, threads w !! i = Some p → bracketed (bool_decide (holder w = Some i)) p) ∧
  ∀ i, holder w = Some i → is_Some (threads w !! i).

Lemma effect_bracketed held now s (p : prog S A) es s' p' :
  effect now s p es s' p' → bracketed held p → bracketed held p'.
Proof. destruct 1; cbn [bracketed]; auto. Qed.

(** The mutex passes from [o] to [o'] as thread [i] becomes [p']. *)
Lemma owned_insert t o o' (s s' : S) ts h h' i p' :
  owned (mkWorld t o s ts h) → i < length ts →
  bracketed (bool_decide (o' = Some i)) p' →
  (∀ j, j ≠ i → o' = Some j ↔ o = Some j) → owned (mkWorld t o' s' (<[i := p']> ts) h').
Proof.
  intros [Hp Hh] Hi Hp' Ho. cbn in *. split; cbn.
  - intros j q. rewrite list_lookup_insert. destruct (decide _) as [[<- _]|Hne].
    + by intros [= <-].
    + intros Hq. assert (i ≠ j) by naive_solver. specialize (Hp j q Hq).
      by rewrite (bool_decide_ext _ (o = Some j)) by by apply Ho.
  - intros j Hj. destruct (decide (j = i)) as [->|Hne].
    + rewrite list_lookup_insert_eq by done. eauto.
    + rewrite list_lookup_insert_ne by done. by apply Hh, Ho.
Qed.

Lemma owned_move w w' : owned w → move w w' → owned w'.
Proof.
  intros Hw. destruct 1 as [t o s ts h i p s' es p' Hi He|t s ts h i k Hi|t j s ts h i k Hi];
    pose proof (proj1 Hw _ _ Hi) as Hb; cbn in Hb; (eapply owned_insert; [exact Hw|by eapply lookup_lt_Some|..]).
  - by eapply effect_bracketed.
  - done.
  - rewrite bool_decide_true by done. by destruct Hb.
  - naive_solver.
  - rewrite bool_decide_false by done. by destruct Hb.
  - destruct Hb as [Hb%bool_decide_eq_true _]. naive_solver.
Qed.

Lemma owned_turn H w w' : (∀ p, H p → bracketed false p) → owned w → turn H w w' → owned w'.
Proof.
  intros HH Hw. destruct 1 as [t t' o s ts h _|t o s ts h p Hp|w w' Hm]; [done| |by eapply owned_move].
  destruct Hw as [Hb Hh]. cbn in *. split; cbn.
  - intros i q Hq%lookup_app_Some. destruct Hq as [Hq|[Hl Hq]]; [by apply Hb|].
    apply list_lookup_singleton_Some in Hq as [Hi <-].
    rewrite bool_decide_false; [by apply HH|]. intros E. destruct (Hh i E) as [q Hq].
    apply lookup_lt_Some in Hq. lia.
  - intros i E. destruct (Hh i E) as [q Hq]. exists q. by apply lookup_app_l_Some.
Qed.

Lemma owned_turns H w w' : (∀ p, H p → bracketed false p) → owned w → rtc (turn H) w w' → owned w'.
Proof. intros HH Hw Hr. induction Hr; [done|]. eauto using owned_turn. Qed.

Lemma owned_start t (s : S) : owned (start (A := A) t s).
Proof. by split. Qed.

(** ** Nobody waits for ever *)

Definition finished (p : prog S A) : Prop := ∃ a, p = Ret a.

Lemma thread_moves (w : World S A) i p : threads w !! i = Some p → 
  bracketed (bool_decide (holder w = Some i)) p → (∀ k, p = Lock k → holder w = None) →
  finished p ∨ ∃ w', move w w'.
Proof.
  destruct w as [t o s ts h]. cbn. intros Hi Hb Hl.
  assert (Ha : ∀ s' es p', effect t s p es s' p' → finished p ∨ ∃ w', move (mkWorld t o s ts h) w').
  { intros s' es p' He. right. eexists. by eapply acts. }
  destruct p as [a|f k|r k|k|n k|op k|l k|n f k|k|k].
  - left. by exists a.
  - eapply Ha, effect_step.
  - eapply Ha, (effect_http _ _ _ _ (Err (Errorf "" []))).
  - eapply Ha, effect_now.
  - eapply Ha, effect_rand, Float.zeros_length.
  - eapply Ha, (effect_fs _ _ _ _ None).
  - eapply Ha, effect_order. reflexivity.
  - eapply Ha, (effect_draw _ _ _ _ _ (map Float.zeros (n s))).
    rewrite map_map, <- map_id. apply map_ext, Float.zeros_length.
  - right. rewrite (Hl k eq_refl). eexists. by eapply acquires.
  - right. cbn in Hb. destruct Hb as [->%bool_decide_eq_true _]. eexists. by eapply releases.
Qed.

(** With the mutex, too, some thread goes on until all have answered. *)
Lemma progress (w : World S A) : owned w → Forall finished (threads w) ∨ ∃ w', move w w'.
Proof.
  intros [Hb Hh]. destruct (holder w) as [i|] eqn:Eo.
  - destruct (Hh i eq_refl) as [p Hi]. specialize (Hb i p Hi). rewrite bool_decide_true in Hb by done.
    destruct (thread_moves w i p Hi) as [[a ->]|Hm]; [..|done|by right].
    + by rewrite Eo, bool_decide_true by done.
    + intros k ->. by destruct Hb.
  - assert (Ht : ∀ ts, (∀ p, p ∈ ts → ∃ i, threads w !! i = Some p) → Forall finished ts ∨ ∃ w', move w w').
    { induction ts as [|p ts IH]; intros Hts; [by left|]. destruct (Hts p) as [i Hi]; [by left|].
      destruct (thread_moves w i p Hi) as [Ha|Hm]; [rewrite Eo; by apply Hb|done| |by right].
      destruct IH as [IH|Hm]; [|left; by constructor|by right]. intros q Hq. apply Hts. by right. }
    apply Ht. intros p Hp. by apply list_elem_of_lookup.
Qed.
End Discipline.
