(* ===== verification/TokenMutex.v ===== *)
(** * bosh/client.go: one token for all requests

    What the mutex of the token cache is for: however many requests are served at
    once, the UAA of the director is asked for a token only when the one it gave last
    has come to the end of its margin. *)

From S2P Require Import Prelude GoStrings Json Floats Encoding Prog Url Tokens BoshClient UaaClient Broker Http StateFile Store Concurrency Server Effects Config System Connections Shutdown Mutex.

Section TokenMutex.
Context (d : Bosh.Client).

(** ** Programs that ask for a token when they may

    What a program knows of the token cache: nothing outside the critical section
    ([Free]); inside, nothing ([Held]), what the cache holds ([Saw]), that it holds no
    token that is still good ([May]); that it has been given a token of a certain
    lifetime ([Got]), which is cached next, with an expiry of [Put]. *)
Inductive Mode : Type :=
| Free
| Held
| Saw (cached : option Bosh.uaaToken)
| May
| Got (lifetime : Z)
| Put (expiry : Z).

Definition is_free (m : Mode) : bool := match m with Free => true | _ => false end.

(** The critical section may end: a token that was given has been cached. *)
Definition settled (m : Mode) : bool := match m with Held | Saw _ | May => true | _ => false end.

Definition may_ask (m : Mode) : bool := match m with May | Saw None => true | _ => false end.

Definition clock_read (m : Mode) (now : Z) : Mode :=
  match m with
  | Saw (Some t) => if (now <? Bosh.expiresAt t)%Z then Held else May
  | Got lifetime => Put (now + Bosh.token_margin lifetime)
  | _ => m
  end.

Definition told (res : result GoError HttpResponse) : Mode :=
  match res with
  | Ok resp => match Bosh.read_token resp with Ok (_, lifetime) => Got lifetime | Err _ => Held end
  | Err _ => Held
  end.

Fixpoint thrifty (m : Mode) {A} (p : prog Store A) : Prop :=
  match p with
  | Ret _ => m = Free
  | Lock k => m = Free ∧ thrifty Held k
  | Unlock k => settled m = true ∧ thrifty Free k
  | Step f k =>
      match m with
      | Put e => ∀ s, (∃ t, token (f s) = Some t ∧ (e ≤ Bosh.expiresAt t)%Z) ∧ thrifty Held (k s)
      | Held => ∀ s, token (f s) = token s ∧ thrifty (Saw (token s)) (k s)
      | _ => ∀ s, token (f s) = token s ∧ thrifty m (k s)
      end
  | Now k => ∀ now, thrifty (clock_read m now) (k now)
  | Http r k =>
      if is_free m then r ≠ Bosh.token_request d ∧ ∀ x, thrifty Free (k x)
      else may_ask m = true ∧ r = Bosh.token_request d ∧ ∀ x, thrifty (told x) (k x)
  | Rand _ k => m = Free ∧ ∀ x, thrifty Free (k x)
  | Fs _ k => m = Free ∧ ∀ x, thrifty Free (k x)
  | Order _ k => m = Free ∧ ∀ x, thrifty Free (k x)
  | Draw _ f k => m = Free ∧ ∀ s xs, token (f s xs) = token s ∧ thrifty Free (k s xs)
  end.

Lemma thrifty_bind {A B} m (p : prog Store A) (h : A → prog Store B) :
  thrifty m p → (∀ a, thrifty Free (h a)) → thrifty m (bind p h).
Proof.
  revert m. induction p as [a|f k IH|r k IH|k IH|n k IH|op k IH|l k IH|n f k IH|k IH|k IH];
    cbn [thrifty bind]; intros m Hp Hh.
  - by rewrite Hp.
  - destruct m; intros s; specialize (Hp s) as [? ?]; auto.
  - destruct (is_free m); [|destruct Hp as [? Hp]; split; [done|]]; destruct Hp as [? Hp]; auto.
  - auto.
  - destruct Hp; auto.
  - destruct Hp; auto.
  - destruct Hp; auto.
  - destruct Hp as [? Hp]. split; [done|]. intros s xs. specialize (Hp s xs) as [? ?]. auto.
  - destruct Hp; auto.
  - destruct Hp; auto.
Qed.

#[export] Instance thrifty_closed : Closed (fun A => @thrifty Free A).
Proof.
  split.
  - done.
  - intros. by apply thrifty_bind.
  - intros A f k Hf Hk s. split; [apply Hf|apply Hk].
  - done.
  - done.
  - done.
  - intros A n f k Hf Hk. split; [done|]. intros s xs. split; [apply Hf|apply Hk].
Qed.

(** ** The director client *)

Lemma fetch_token_thrifty {A} m (h : result GoError string → prog Store A) : may_ask m = true → 
  (∀ m' r, settled m' = true → thrifty m' (h r)) → thrifty m (bind (Bosh.fetch_token d) h).
Proof.
  intros Hm Hh. unfold Bosh.fetch_token. destruct (negb _).
  - apply Hh. by destruct m as [| |[]| | |].
  - cbn [bind thrifty]. replace (is_free m) with false by (by destruct m).
    split_and!; [done..|]. intros [resp|e]; cbn [told].
    + destruct (Bosh.read_token resp) as [[tok exp]|e]; cbn [bind thrifty]; [|by apply Hh].
      intros now s. split; [by eexists|by apply Hh].
    + by apply Hh.
Qed.

Lemma getToken_thrifty : thrifty Free (Bosh.getToken (S := Store) d).
Proof.
  split; [done|]. intros s. split; [done|]. cbn.
  destruct (token s) as [t|]; [|by apply fetch_token_thrifty].
  intros now. cbn. destruct (now <? _)%Z; [done|by apply fetch_token_thrifty].
Qed.

(** The request for a token has one header, the requests to the director have an
    authorization besides their own. *)
Lemma director_request_thrifty {A} method url hs body f (k : HttpResponse → result GoError A) :
  (method ≠ "POST" ∨ hs ≠ []) → thrifty Free (Bosh.director_request (S := Store) d method url hs body f k).
Proof.
  intros Hr. unfold Bosh.director_request. destruct (negb _); [done|]. apply thrifty_bind.
  - unfold Bosh.setAuth. destruct (String.eqb _ _); [done|]. by apply thrifty_bind; [apply getToken_thrifty|].
  - intros [h|e]; [|done]. split; [|by intros []].
    intros [= Hm _ Hh _]. destruct Hr as [Hr|Hr]; [done|]. destruct hs as [|h1 [|]]; done.
Qed.

Lemma Deploy_thrifty m : thrifty Free (@Deploy Store (Bosh.bosh_director d) m).
Proof. apply director_request_thrifty. by right. Qed.
Lemma DeleteDeployment_thrifty n : thrifty Free (@DeleteDeployment Store (Bosh.bosh_director d) n).
Proof. apply director_request_thrifty. by left. Qed.
Lemma TaskStatus_thrifty t : thrifty Free (@TaskStatus Store (Bosh.bosh_director d) t).
Proof. apply director_request_thrifty. by left. Qed.

(** ** The client of the platform's UAA *)

Lemma send_thrifty {A} r b f (k : HttpResponse → result GoError A) :
  r ≠ Bosh.token_request d → thrifty Free (Uaa.send r b f k).
Proof. intros Hr. unfold Uaa.send. destruct (negb _); [done|]. split; [done|by intros []]. Qed.

Lemma CreateClient_thrifty u o : thrifty Free (@Prog.CreateClient Store (Uaa.uaa_registry u) o).
Proof.
  apply thrifty_bind; [by apply send_thrifty|]. intros [tok|e]; [|done].
  by apply thrifty_bind; [apply send_thrifty|].
Qed.

Lemma DeleteClient_thrifty u id : thrifty Free (@Prog.DeleteClient Store (Uaa.uaa_registry u) id).
Proof.
  apply thrifty_bind; [by apply send_thrifty|]. intros [tok|e]; [|done].
  apply thrifty_bind; [|done]. by apply send_thrifty.
Qed.

(** ** Tokens that were given are still good, or have been used up *)

Definition asking (e : event) : Prop := ∃ x, e = EvHttp (Bosh.token_request d) x.

(** The exchange [e] gave a token to be used until [until]. *)
Definition granted (e : Z * event) (until : Z) : Prop :=
  ∃ now resp tok lifetime, e = (now, EvHttp (Bosh.token_request d) (Ok resp)) ∧
    Bosh.read_token resp = Ok (tok, lifetime) ∧ until = (now + Bosh.token_margin lifetime)%Z.

Lemma granted_asking e until : granted e until → asking e.2.
Proof. intros (now & resp & tok & lifetime & -> & _). by eexists. Qed.

(** What a program knows is so, at the time [now]. *)
Definition knows (now : Z) (s : Store) (m : Mode) : Prop :=
  match m with
  | Saw cached => token s = cached
  | May => ∀ t, token s = Some t → (Bosh.expiresAt t ≤ now)%Z
  | _ => True
  end.

(** What was given until [until] has come to its end, is cached, or will be. *)
Definition backed (now : Z) (s : Store) (m : Mode) (until : Z) : Prop :=
  (until ≤ now)%Z ∨
  match m with
  | Got lifetime => (until ≤ now + Bosh.token_margin lifetime)%Z
  | Put expiry => (until ≤ expiry)%Z
  | _ => ∃ t, token s = Some t ∧ (until ≤ Bosh.expiresAt t)%Z
  end.

Lemma knows_later now now' s m : (now ≤ now')%Z → knows now s m → knows now' s m.
Proof. intros Hn. destruct m; cbn; try done. intros H t Ht. specialize (H t Ht). lia. Qed.

Lemma backed_later now now' s m u : (now ≤ now')%Z → backed now s m u → backed now' s m u.
Proof. intros Hn [H|H]; [left; lia|]. destruct m; try (by right). right. cbn. lia. Qed.

Lemma may_ask_spent now s m u : may_ask m = true → knows now s m → backed now s m u → (u ≤ now)%Z.
Proof.
  intros Hm Hk [H|H]; [done|]. destruct m as [| |[]| | |]; try done; cbn in *; destruct H as (t & Ht & Hu).
  - congruence.
  - specialize (Hk t Ht). lia.
Qed.

(** The record of one step of a program. *)
Record economy (now : Z) (s : Store) (m : Mode) (es : list event) (s' : Store) (m' : Mode) : Prop := {
  eco_knows : knows now s' m';
  eco_free : m = Free → m' = Free ∧ token s' = token s;
  eco_backed u : backed now s m u → backed now s' m' u;
  eco_asking e : e ∈ es → asking e → may_ask m = true;
  eco_granted e u : e ∈ es → granted (now, e) u → backed now s' m' u;
}.

Lemma economy_quiet now s m es s' : token s' = token s → knows now s m →
  (∀ e, e ∈ es → ¬ asking e) → economy now s m es s' m.
Proof.
  intros Ht Hk He. split.
  - destruct m; cbn in *; by rewrite ?Ht.
  - done.
  - unfold backed. by rewrite Ht.
  - intros e H1 H2. by destruct (He e H1).
  - intros e u H1 H2%granted_asking. by destruct (He e H1).
Qed.

Lemma economy_clock now s m : knows now s m → economy now s m [EvNow now] s (clock_read m now).
Proof.
  intros Hk. assert (Hna : ∀ e, e ∈ [EvNow now] → ¬ asking e) by (intros e ->%list_elem_of_singleton [x Hx]; done).
  destruct m as [| |[t|]| |l|e]; cbn [clock_read]; try by apply economy_quiet. 
  - split; try done.
    + cbn in Hk. destruct (Z.ltb_spec now (Bosh.expiresAt t)); [done|]. intros t'. rewrite Hk. by intros [= <-].
    + intros u Hu. by destruct (now <? _)%Z.
    + intros e H1 H2. by destruct (Hna e H1).
    + intros e u H1 H2%granted_asking. by destruct (Hna e H1).
  - split; try done.
    + intros e H1 H2. by destruct (Hna e H1).
    + intros e u H1 H2%granted_asking. by destruct (Hna e H1).
Qed.

Lemma economy_asked now s m x : may_ask m = true → knows now s m →
  economy now s m [EvHttp (Bosh.token_request d) x] s (told x).
Proof.
  intros Hm Hk. split.
  - unfold told. by destruct x as [resp|]; [destruct (Bosh.read_token resp) as [[]|]|].
  - by intros ->.
  - intros u Hu. left. by eapply may_ask_spent.
  - done.
  - intros e u ->%list_elem_of_singleton (n & resp & tok & l & [= <- ->] & Hr & ->).
    cbn [told]. rewrite Hr. right. cbn. done.
Qed.

(** Every step of a thrifty program. *)
Lemma effect_economy {A} now s (p : prog Store A) es s' p' m :
  effect now s p es s' p' → thrifty m p → knows now s m →
  ∃ m', thrifty m' p' ∧ economy now s m es s' m'.
Proof.
  intros He Hp Hk. destruct He as [s f k|s r k x|s k|s n k x Hx|s op k x|s l k x Hx|s n f k xs Hx]; cbn [thrifty] in Hp.
  - assert (Hq : token (f s) = token s → economy now s m [] (f s) m)
      by (intros; apply economy_quiet; [done..|]; by intros e ?%elem_of_nil).
    destruct m as [| |c| |l|e]; try (specialize (Hp s) as [Ht Hp]; eexists; split; [exact Hp|by apply Hq]).
    + specialize (Hp s) as [Ht Hp]. eexists; split; [exact Hp|]. destruct (Hq Ht) as [_ _ Hb Ha Hg].
      by split.
    + specialize (Hp s) as [(t & Ht & He) Hp]. exists Held. split; [exact Hp|]. split; try done.
      * intros u [Hu|Hu]; [by left|]. right. exists t. split; [done|]. cbn in Hu. lia.
      * by intros e' ?%elem_of_nil.
      * by intros e' u ?%elem_of_nil.
  - destruct (is_free m) eqn:Ef.
    + destruct m; try done. destruct Hp as [Hr Hp]. exists Free. split; [apply Hp|].
      apply economy_quiet; [done..|]. intros e ->%list_elem_of_singleton [y [= Hy _]]. done.
    + destruct Hp as (Hm & -> & Hp). exists (told x). split; [apply Hp|]. by apply economy_asked.
  - exists (clock_read m now). split; [apply Hp|]. by apply economy_clock.
  - destruct Hp as [-> Hp]. exists Free. split; [apply Hp|]. apply economy_quiet; [done..|].
    intros e ->%list_elem_of_singleton [y Hy]. done.
  - destruct Hp as [-> Hp]. exists Free. split; [apply Hp|]. apply economy_quiet; [done..|].
    intros e ->%list_elem_of_singleton [y Hy]. done.
  - destruct Hp as [-> Hp]. exists Free. split; [apply Hp|]. apply economy_quiet; [done..|].
    intros e ->%list_elem_of_singleton [y Hy]. done.
  - destruct Hp as [-> Hp]. exists Free. specialize (Hp s xs) as [Ht Hp]. split; [apply Hp|].
    apply economy_quiet; [done..|]. intros e [z [-> _]]%list_elem_of_fmap [y Hy]. done.
Qed.

(** ** The world *)

(** Whoever asks for a token asks after the end of every token given before. *)
Definition spaced (h : list (Z * event)) : Prop := ∀ i j e1 e2 until, i < j →
  h !! i = Some e1 → h !! j = Some e2 → granted e1 until → asking e2.2 → (until ≤ e2.1)%Z.

Lemma effect_asking {A} now s (p : prog Store A) es s' p' e :
  effect now s p es s' p' → e ∈ es → asking e → es = [e].
Proof.
  intros He Hin [x ->]. destruct He; try (by apply elem_of_nil in Hin);
    try (by apply list_elem_of_singleton in Hin; rewrite Hin).
  by apply list_elem_of_fmap in Hin as [? [? _]].
Qed.

Lemma spaced_app h now es : spaced h → (∀ e, e ∈ es → asking e → es = [e]) →
  (∀ e1 u e, e1 ∈ h → granted e1 u → e ∈ es → asking e → (u ≤ now)%Z) →
  spaced (h ++ map (pair now) es).
Proof.
  intros Hs Ho Hn i j e1 e2 u Hij H1 H2 Hg Ha. apply lookup_app_Some in H2 as [H2|[Hl H2]].
  - rewrite lookup_app_l in H1 by (apply lookup_lt_Some in H2; lia). by eapply (Hs i j).
  - apply list_lookup_fmap_Some in H2 as (e & -> & H2). cbn in *.
    apply list_elem_of_lookup_2 in H2 as Hin.
    apply lookup_app_Some in H1 as [H1|[Hl1 _]].
    + eapply Hn; [by eapply list_elem_of_lookup_2|done..].
    + rewrite (Ho _ Hin Ha) in H2. apply lookup_lt_Some in H2. cbn in H2. lia.
Qed.

Record economical {A} (w : World Store A) (m : Mode) : Prop := {
  econ_threads i p : threads w !! i = Some p →
    thrifty (if bool_decide (holder w = Some i) then m else Free) p;
  econ_free : holder w = None → m = Free;
  econ_holder i : holder w = Some i → i < length (threads w);
  econ_knows : knows (clock w) (store w) m;
  econ_backed e u : e ∈ history w → granted e u → backed (clock w) (store w) m u;
  econ_spaced : spaced (history w);
}.

Lemma economical_act {A} t o s (ts : list (prog Store A)) h i p s' es p' m :
  economical (mkWorld t o s ts h) m → ts !! i = Some p → effect t s p es s' p' →
  ∃ m', economical (mkWorld t o s' (<[i:=p']> ts) (h ++ map (pair t) es)) m'.
Proof.
  intros [Ht Hf Hl Hk Hb Hs] Hi He. cbn in *. set (mi := if bool_decide (o = Some i) then m else Free).
  assert (Hki : knows t s mi) by (subst mi; by case_bool_decide).
  destruct (effect_economy _ _ _ _ _ _ mi He (Ht _ _ Hi) Hki) as (mi' & Hp' & [Ek Ef Eb Ea Eg]).
  (* the new mode of the holder *)
  set (m' := if bool_decide (o = Some i) then mi' else m).
  assert (Hm' : m' = mi' ∨ m' = m ∧ mi = Free).
  { subst mi m'. case_bool_decide; auto. }
  assert (Hbm : ∀ u, backed t s m u → backed t s' m' u).
  { intros u Hu. subst mi m'. case_bool_decide; [by apply Eb|].
    destruct (Ef eq_refl) as [_ E]. revert Hu. unfold backed. by rewrite E. }
  exists m'. split; cbn.
  - intros j q. rewrite list_lookup_insert. destruct (decide _) as [[<- _]|Hne].
    + intros [= <-]. subst mi m'. case_bool_decide; [done|]. by destruct (Ef eq_refl) as [-> _].
    + intros Hq. specialize (Ht j q Hq). assert (i ≠ j).
      { intros ->. apply Hne. split; [done|]. by eapply lookup_lt_Some. }
      case_bool_decide; [|done]. subst m'. by rewrite bool_decide_false by naive_solver.
  - intros ->. subst m'. rewrite bool_decide_false by done. by apply Hf.
  - intros j. rewrite length_insert. apply Hl.
  - destruct Hm' as [->|[-> E]]; [done|]. destruct (Ef E) as [_ Et]. destruct m; cbn in *; by rewrite ?Et.
  - intros e u [Hin|Hin]%elem_of_app Hg; [eapply Hbm, Hb; done|].
    apply list_elem_of_fmap in Hin as (e' & -> & Hin). specialize (Eg e' u Hin Hg).
    specialize (Ea e' Hin (granted_asking _ _ Hg)).
    destruct Hm' as [->|[_ E]]; [done|]. by rewrite E in Ea.
  - apply spaced_app; [done|intros; by eapply effect_asking|].
    intros e1 u e Hin Hg He' Hask. specialize (Ea e He' Hask).
    eapply may_ask_spent; [exact Ea|done|]. subst mi. case_bool_decide; [by eapply Hb|done].
Qed.

Lemma economical_move {A} (w w' : World Store A) m : economical w m → move w w' → ∃ m', economical w' m'.
Proof.
  intros Hw. destruct 1 as [t o s ts h i p s' es p' Hi He|t s ts h i k Hi|t j s ts h i k Hi].
  - by eapply economical_act.
  - destruct Hw as [Ht Hf Hl Hk Hb Hs]. cbn in *. destruct (Ht _ _ Hi) as [_ Hp]. rewrite (Hf eq_refl) in Hb.
    exists Held. split; cbn; try done; [|intros j [= <-]; rewrite length_insert; by eapply lookup_lt_Some].
    intros x q. rewrite list_lookup_insert. destruct (decide _) as [[<- _]|Hne].
    + intros [= <-]. by rewrite bool_decide_true.
    + intros Hq. rewrite bool_decide_false by (intros [= ->]; apply Hne; split; [done|by eapply lookup_lt_Some]).
      exact (Ht _ _ Hq).
  - destruct Hw as [Ht Hf Hl Hk Hb Hs]. cbn in *. destruct (Ht _ _ Hi) as [Hset Hp].
    case_bool_decide as E; [|done]. injection E as ->.
    exists Free. split; cbn; try done.
    + intros x q. rewrite list_lookup_insert. destruct (decide _) as [[<- _]|Hne].
      * by intros [= <-].
      * intros Hq. specialize (Ht _ _ Hq). rewrite bool_decide_false in Ht; [done|].
        intros [= ->]. apply Hne. split; [done|]. by eapply lookup_lt_Some.
    + intros e u He Hg. specialize (Hb e u He Hg). revert Hb. by destruct m.
Qed.

Lemma economical_turn {A} (H : prog Store A → Prop) w w' m : (∀ p, H p → thrifty Free p) →
  economical w m → turn H w w' → ∃ m', economical w' m'.
Proof.
  intros HH Hw. destruct 1 as [t t' o s ts h Hle|t o s ts h p Hp|w w' Hm]; [..|by eapply economical_move].
  - exists m. destruct Hw as [Ht Hf Hl Hk Hb Hs]. split; try done; cbn in *.
    + by eapply knows_later.
    + intros e u He Hg. by eapply backed_later, Hb.
  - exists m. destruct Hw as [Ht Hf Hl Hk Hb Hs]. split; try done; cbn in *.
    + intros i q [Hq|[Hge Hq]]%lookup_app_Some; [by apply Ht|].
      apply list_lookup_singleton_Some in Hq as [Hi <-].
      rewrite bool_decide_false; [by apply HH|]. intros E%Hl. lia.
    + intros i E%Hl. rewrite length_app. lia.
Qed.

Lemma economical_turns {A} (H : prog Store A → Prop) t s w : (∀ p, H p → thrifty Free p) →
  rtc (turn H) (start t s) w → ∃ m, economical w m.
Proof.
  intros HH Hr. assert (Hw : economical (start (A := A) t s) Free).
  { split; try done. cbn. by intros e u ?%elem_of_nil. }
  revert Hw. generalize Free. induction Hr as [w|w1 w2 w3 Ht _ IH]; intros m Hw; [by exists m|].
  destruct (economical_turn H _ _ _ HH Hw Ht) as [m' Hm']. by eapply IH.
Qed.
End TokenMutex.

(** * Properties *)

(** The requests a broker serves. *)
Definition served_by_main (is_print : N → bool) (b : Broker) (username password : string) :
    relation (World Store Answer) :=
  rtc (turn (fun h => ∃ q, h = ServeHTTP is_print username password b q)).

Lemma ServeHTTP_thrifty is_print c dir u p q :
  thrifty dir Free (ServeHTTP is_print u p (New c (Bosh.bosh_director dir)) q).
Proof.
  apply (ServeHTTP_closed _ (fun A => @thrifty dir Free A)); cbn [New director uaaClient].
  - apply Deploy_thrifty.
  - apply DeleteDeployment_thrifty.
  - apply TaskStatus_thrifty.
  - intros uaa o. destruct (_ && _); [|done]. intros [= <-]. apply CreateClient_thrifty.
  - intros uaa id. destruct (_ && _); [|done]. intros [= <-]. apply DeleteClient_thrifty.
Qed.

(** C12. One token serves all requests: of a broker that main built, whatever requests
    are served, however they interleave and whatever the servers answer, between the
    answer that gave a token and the next time the UAA of the director is asked for one
    at least the lifetime of that token less its margin of 60 seconds goes by. *)
Theorem token_requests_spaced is_print config_file genai_file d b u p s t w :
  rtc (pool (fun _ => False)) (initial_store d, [main config_file genai_file])
    (s, [Ret (Ok (b, u, p))]) →
  served_by_main is_print b u p (start t s) w →
  ∃ cfg, loadConfig config_file = Ok cfg ∧
    let ask := Bosh.token_request (director_of cfg) in
    ∀ i j now resp tok lifetime now' x, i < j →
      history w !! i = Some (now, EvHttp ask (Ok resp)) → Bosh.read_token resp = Ok (tok, lifetime) →
      history w !! j = Some (now', EvHttp ask x) →
      (now + Bosh.token_margin lifetime ≤ now')%Z ∧
      ((60 ≤ lifetime ≤ 9223372096)%Z → (now + (lifetime - 60) * 1000000000 ≤ now')%Z).
Proof.
  intros Hb Hw. destruct (pool_returns _ _ _ _ _ (main_built config_file genai_file) Hb _ _ _ eq_refl)
    as (cfg & genai & Hc & ->). exists cfg. split; [done|]. intros ask i j now resp tok l now' x Hij Hi Hr Hj.
  assert (Hm : ∃ m, economical (director_of cfg) w m).
  { eapply economical_turns; [|exact Hw]. intros h [q' ->]. apply ServeHTTP_thrifty. }
  destruct Hm as [m [_ _ _ _ _ Hs]].
  assert (Hle : (now + Bosh.token_margin l ≤ now')%Z).
  { apply (Hs i j _ _ _ Hij Hi Hj); [|by eexists]. by exists now, resp, tok, l. }
  split; [done|]. intros Hl. rewrite Bosh.token_margin_eq in Hle by lia. lia.
Qed.

Lemma getToken_bracketed dir : bracketed false (Bosh.getToken (S := Store) dir).
Proof.
  assert (Hf : bracketed true (bind (Bosh.fetch_token (S := Store) dir) (fun r => Unlock (Ret r)))).
  { unfold Bosh.fetch_token. destruct (negb _); [done|]. intros [resp|e]; cbn [bind]; [|done].
    by destruct (Bosh.read_token resp) as [[tok exp]|e]. }
  split; [done|]. intros s. cbn. destruct (token s); [|exact Hf]. intros now.
  destruct (now <? _)%Z; [done|exact Hf].
Qed.

Lemma director_request_bracketed {A} dir m url hs body f (k : HttpResponse → result GoError A) :
  bracketed false (Bosh.director_request (S := Store) dir m url hs body f k).
Proof.
  unfold Bosh.director_request. destruct (negb _); [done|]. apply bracketed_bind.
  - unfold Bosh.setAuth. destruct (String.eqb _ _); [done|]. by apply bracketed_bind; [apply getToken_bracketed|].
  - intros [h|e]; [|done]. by intros [].
Qed.

Lemma send_bracketed {A} r b f (k : HttpResponse → result GoError A) :
  bracketed false (Uaa.send (S := Store) r b f k).
Proof. unfold Uaa.send. destruct (negb _); [done|]. by intros []. Qed.

Lemma registry_bracketed u :
  (∀ o, bracketed false (@Prog.CreateClient Store (Uaa.uaa_registry u) o)) ∧
  (∀ id, bracketed false (@Prog.DeleteClient Store (Uaa.uaa_registry u) id)).
Proof.
  split; intros x; (apply bracketed_bind; [apply send_bracketed|]); intros [tok|e]; try done;
    by apply bracketed_bind; [apply send_bracketed|intros []].
Qed.

Lemma ServeHTTP_bracketed is_print c dir u p q :
  bracketed false (ServeHTTP is_print u p (New c (Bosh.bosh_director dir)) q).
Proof.
  apply (ServeHTTP_closed _ (fun A => @bracketed Store A false)); cbn [New director uaaClient].
  - intros. apply director_request_bracketed.
  - intros. apply director_request_bracketed.
  - intros. apply director_request_bracketed.
  - intros uaa o. destruct (_ && _); [|done]. intros [= <-]. apply (proj1 (registry_bracketed _)).
  - intros uaa id. destruct (_ && _); [|done]. intros [= <-]. apply (proj2 (registry_bracketed _)).
Qed.

(** C13. The mutex of the token cache blocks nobody for ever: of a broker that main built,
    every history of the requests it serves is one of the interleavings of their
    steps without the mutex; from any moment on, when no more requests arrive, every
    sequence of steps is finite, whatever the servers answer, and it can stop only when
    each request has been answered: never because threads wait for each other. *)
Theorem mutex_requests_answered is_print d b u p s t w :
  booted d b u p s → served_by_main is_print b u p (start t s) w →
  rtc (pool (fun h => ∃ q, h = ServeHTTP is_print u p b q)) (s, []) (store w, threads w) ∧
  Acc (flip move) w ∧
  ∀ w', rtc move w w' → length (threads w') = length (threads w) ∧
    (Forall answered (threads w') ∨ ∃ w'', move w' w'').
Proof.
  intros (cf & gf & Hb) Hw. destruct (pool_returns _ _ _ _ _ (main_built cf gf) Hb _ _ _ eq_refl)
    as (cfg & genai & _ & ->). split_and!; [by apply (turns_pool _ (start t s))|apply moves_finite|].
  assert (Hown : owned w).
  { eapply owned_turns; [|apply owned_start|exact Hw]. intros h [q ->]. apply ServeHTTP_bracketed. }
  intros w' Hm. assert (Hw' : owned w' ∧ length (threads w') = length (threads w)).
  { clear Hw. induction Hm as [|w1 w2 w3 Hm _ IH]; [done|]. destruct IH as [Ho Hl]; [by eapply owned_move|].
    split; [done|]. rewrite Hl. by apply (one_goes_on_length goes_on), move_goes_on. }
  destruct Hw' as [Ho Hl]. split; [done|]. by apply progress.
Qed.

(** ** Witness: three requests, two tokens *)

(** A director with a UAA. *)
Definition uaa_config_file : string := MarshalIndent (JObj
  [("auth", JObj [("username", JStr "broker"); ("password", JStr "s3cret")]);
   ("bosh", JObj [("director_url", JStr "https://10.0.0.6:25555"); ("client_id", JStr "admin");
                  ("uaa_url", JStr "https://10.0.0.6:8443")]);
   ("agent_defaults", JObj [("openclaw_version", JStr "2026.1.30")]);
   ("cf", JObj [("apps_domain", JStr "apps.example.com")]);
   ("on_demand", JObj [("azs", JArr [JStr "z1"])])]).
(** Its tokens live for an hour. *)
Definition hour_oracle : Oracle :=
  let o := demo_oracle 302 302 "done" in
  {| o_http := fun h r =>
       if String.eqb (rq_url r) "https://10.0.0.6:8443/oauth/token" then
         http_status 200 "" (Marshal (JObj [("access_token", JStr "tok"); ("expires_in", JNum "3600")]))
       else o_http o h r;
     o_now := o_now o; o_rand := o_rand o; o_fs := o_fs o; o_order := o_order o |}.

Definition demo_delete (id : string) : HttpQuery :=
  {| method := "DELETE"; path := "/v2/service_instances/" +:+ id; rawquery := "accepts_incomplete=true";
     authorization := (Bosh.BasicHeader "broker" "s3cret").2; payload := "" |}.

Notation uaa_boot := (boot hour_oracle (Ok uaa_config_file) (Err (Errorf "no such file" [])) [0; 0; 0] FileSys.empty).

Definition uaa_broker : Broker := built_of uaa_boot.2.

Definition arrive (id : string) : Action :=
  Arrive (ServeHTTP ascii_only "broker" "s3cret" uaa_broker (demo_delete id)).

(** A second request arrives while the first one has the mutex; another comes after
    the end of the token. *)
Definition crowd : list Action := [arrive "i-1"; arrive "i-2"; Go 0 4; Go 1 20].

Definition rush : list Action :=
  crowd ++ [Later 5000000000; Go 0 40; Go 1 40;
   Later 4000000000000; arrive "i-3"; Go 2 40].

Notation crowded := (play hour_oracle crowd (start 0 uaa_boot.1.1)).
Notation rushed := (play hour_oracle rush (start 0 uaa_boot.1.1)).

#[export] Instance hour_valid : ValidOracle hour_oracle.
Proof. split; [|done]. apply (valid_rand (o := demo_oracle 302 302 "done")). Qed.

Lemma uaa_booted : rtc (pool (fun _ => False))
  (initial_store FileSys.empty, [main (Ok uaa_config_file) (Err (Errorf "no such file" []))])
  (uaa_boot.1.1, [Ret (Ok (uaa_broker, "broker", "s3cret"))]).
Proof.
  assert (E : started uaa_boot.2 = true) by (vm_compute; reflexivity). apply started_eq in E.
  unfold uaa_broker. rewrite <- E. unfold boot. apply execute_pool. apply _.
Qed.

Lemma played actions : Forall (fun a => match a with
    Arrive p => ∃ q, p = ServeHTTP ascii_only "broker" "s3cret" uaa_broker q | _ => True end) actions →
  served_by_main ascii_only uaa_broker "broker" "s3cret" (start 0 uaa_boot.1.1)
    (play hour_oracle actions (start 0 uaa_boot.1.1)).
Proof. intros H. apply (play_turns hour_oracle). exact H. Qed.

Definition token_asked (te : Z * event) : bool :=
  match te.2 with EvHttp r _ => String.eqb (rq_url r) "https://10.0.0.6:8443/oauth/token" | _ => false end.

Lemma token_requests_spaced_witness :
  map (fun h => match h with Ret a => code a | _ => 0%Z end) (threads rushed) = [202; 202; 202]%Z ∧
  map fst (List.filter token_asked (history rushed)) = [0; 4005000000000]%Z ∧
  (0 + (3600 - 60) * 1000000000 ≤ 4005000000000)%Z.
Proof.
  split; [vm_compute; reflexivity|]. split; [vm_compute; reflexivity|].
  destruct (token_requests_spaced ascii_only _ _ _ _ _ _ _ 0 rushed uaa_booted) as (cfg & Hc & H).
  - apply played. repeat (apply Forall_cons; split); try done; by eexists.
  - vm_compute in Hc. injection Hc as <-. cbv zeta in H.
    destruct (history rushed !! 0) as [[t1 e1]|] eqn:E1; [|vm_compute in E1; discriminate].
    destruct (history rushed !! 12) as [[t2 e2]|] eqn:E2; [|vm_compute in E2; discriminate].
    vm_compute in E1, E2. injection E1 as <- <-. injection E2 as <- <-.
    eapply (H 0 12); [lia|vm_compute; reflexivity|vm_compute; reflexivity|vm_compute; reflexivity|lia].
Defined.

(** The second request waits for the mutex, and yet both are answered. *)
Lemma mutex_requests_answered_witness :
  holder crowded = Some 0 ∧
  match threads crowded !! 1 with Some (Lock _) => true | _ => false end = true ∧
  ∃ w, rtc move crowded w ∧ length (threads w) = 2 ∧ Forall answered (threads w).
Proof.
  split; [vm_compute; reflexivity|]. split; [vm_compute; reflexivity|].
  destruct (mutex_requests_answered ascii_only FileSys.empty uaa_broker "broker" "s3cret"
    uaa_boot.1.1 0 crowded) as (_ & Hacc & Hend).
  - eexists _, _. exact uaa_booted.
  - apply played. repeat (apply Forall_cons; split); try done; by eexists.
  - destruct (steps_end _ (fun w => length (threads w) = 2 ∧ Forall answered (threads w)) _ Hacc)
      as (w & Hw & Hl & Ha); [|by exists w].
    intros w Hw. destruct (Hend w Hw) as [Hl [Ha|Hm]]; [|by right].
    left. split; [|done]. rewrite Hl. vm_compute. reflexivity.
Defined.
