(* ===== verification/Budget.v ===== *)
(** * How long a request may wait for others

    The clients of the broker give up after a time, 60 seconds for the director and 30
    for the UAA of the platform.  What a handler may wait for all its exchanges together
    is bounded by the requests it can send. *)

From S2P Require Import Prelude GoStrings Json Floats Encoding Prog Url Manifest Tokens BoshClient UaaClient Broker Http StateFile Store Provision Update Deprovision LastOperation Binding Catalog Admin Concurrency Server Effects Config System Connections.

(** ** The seconds an exchange may take *)

Definition seconds (e : event) : Z :=
  match e with EvHttp r _ => Timeout (rq_client r) | _ => 0 end.

Fixpoint waited (tr : list event) : Z :=
  match tr with [] => 0 | e :: tr => seconds e + waited tr end.

Lemma waited_app tr tr' : waited (tr ++ tr') = (waited tr + waited tr')%Z.
Proof. induction tr as [|e tr IH]; cbn; [done|]. rewrite IH. lia. Qed.

Lemma waited_rand xs : waited (map EvRand xs) = 0%Z.
Proof. by induction xs. Qed.

(** The requests of [p] take no more than [n] seconds, whatever it is told. *)
Fixpoint within {S A} (n : Z) (p : prog S A) : Prop :=
  match p with
  | Ret _ => (0 ≤ n)%Z
  | Step _ k => ∀ s, within n (k s)
  | Http r k => ∀ x, within (n - Timeout (rq_client r)) (k x)
  | Now k => ∀ x, within n (k x)
  | Rand _ k => ∀ x, within n (k x)
  | Fs _ k => ∀ x, within n (k x)
  | Order l k => ∀ x, x ≡ₚ l → within n (k x)
  | Draw _ _ k => ∀ s xs, within n (k s xs)
  | Lock k => within n k
  | Unlock k => within n k
  end.

Section Within.
Context {S : Type}.

Lemma within_mono {A} n m (p : prog S A) : (n ≤ m)%Z → within n p → within m p.
Proof.
  revert n m. induction p as [a|f k IH|r k IH|k IH|n0 k IH|op k IH|l k IH|n0 f k IH|k IH|k IH];
    cbn [within]; intros n m Hnm Hp; eauto.
  - lia.
  - intros x. eapply IH; [|apply Hp]. lia.
Qed.

Lemma within_bind {A B} n m (p : prog S A) (h : A → prog S B) :
  within n p → (∀ a, within m (h a)) → within (n + m) (bind p h).
Proof.
  revert n. induction p as [a|f k IH|r k IH|k IH|n0 k IH|op k IH|l k IH|n0 f k IH|k IH|k IH];
    cbn [within bind]; intros n Hp Hh; eauto.
  - eapply within_mono, Hh. lia.
  - intros x. specialize (IH x _ (Hp x) Hh). eapply within_mono, IH. lia.
Qed.

(** Only the first part, or only the second, sends requests. *)
Lemma within_bind_l {A B} n (p : prog S A) (h : A → prog S B) :
  within n p → (∀ a, within 0 (h a)) → within n (bind p h).
Proof. intros Hp Hh. rewrite <- (Z.add_0_r n). by apply within_bind. Qed.

Lemma within_bind_r {A B} n (p : prog S A) (h : A → prog S B) :
  within 0 p → (∀ a, within n (h a)) → within n (bind p h).
Proof. intros Hp Hh. rewrite <- (Z.add_0_l n). by apply within_bind. Qed.

Lemma within_wp {A} n (p : prog S A) s tr tr0 :
  within (n - waited tr) p → wp p s (tr0 ++ tr) (fun _ _ tr' => ∃ new, tr' = tr0 ++ new ∧ (waited new ≤ n)%Z).
Proof.
  assert (Hs : ∀ tr e, seconds e = 0%Z → waited (tr ++ [e]) = waited tr)
    by (intros tr' e He; rewrite waited_app; cbn [waited]; lia).
  revert s tr. induction p as [a|f k IH|r k IH|k IH|n0 k IH|op k IH|l k IH|n0 f k IH|k IH|k IH];
    cbn [within wp]; intros s tr Hp; auto.
  - exists tr. split; [done|]. lia.
  - intros x. rewrite <- app_assoc. apply IH. rewrite waited_app. cbn [waited seconds].
    eapply within_mono, Hp. lia.
  - intros x. rewrite <- app_assoc. apply IH. by rewrite Hs.
  - intros x Hx. rewrite <- app_assoc. apply IH. by rewrite Hs.
  - intros x. rewrite <- app_assoc. apply IH. by rewrite Hs.
  - intros x Hx. rewrite <- app_assoc. apply IH. rewrite Hs by done. by apply Hp.
  - intros xs Hxs. rewrite <- app_assoc. apply IH. by rewrite waited_app, waited_rand, Z.add_0_r.
Qed.
End Within.

(** ** The clients *)

Section Clients.
Context {S : Type} `{!Bosh.TokenStore S} (d : Bosh.Client) (u : Uaa.Client).

Notation patience := (Timeout (Bosh.httpClient d)).

(** One exchange for the token, if there is a UAA, and one with the director. *)
Definition director_seconds : Z := if String.eqb (Bosh.uaaURL d) "" then patience else (2 * patience)%Z.

Hypothesis patient : (0 ≤ patience)%Z.

Lemma getToken_within : within patience (Bosh.getToken (S := S) d).
Proof.
  assert (Hf : within patience (Bosh.fetch_token (S := S) d)).
  { unfold Bosh.fetch_token. destruct (negb _); [done|]. cbn. intros [resp|e]; [|cbn; lia].
    destruct (Bosh.read_token resp) as [[tok exp]|e]; cbn; lia. }
  cbn [within Bosh.getToken]. apply within_bind_l; [|done]. intros s. cbn. destruct (Bosh.token_of s); [|done].
  intros now. destruct (now <? _)%Z; [done|exact Hf].
Qed.

Lemma director_request_within {A} m url hs body f (k : HttpResponse → result GoError A) :
  within director_seconds (Bosh.director_request (S := S) d m url hs body f k).
Proof.
  unfold director_seconds, Bosh.director_request, Bosh.setAuth. destruct (String.eqb _ _).
  - destruct (negb _); [done|]. cbn. intros [resp|e]; cbn; lia.
  - destruct (negb _); [cbn; lia|]. replace (2 * patience)%Z with (patience + patience)%Z by lia.
    apply within_bind; [apply within_bind_l; [apply getToken_within|done]|].
    intros [h|e]; [|done]. cbn. intros [resp|e]; cbn; lia.
Qed.

Notation uaa_patience := (Timeout (Uaa.httpClient u)).
Hypothesis uaa_patient : (0 ≤ uaa_patience)%Z.

Lemma send_within {A} r b f (k : HttpResponse → result GoError A) : (0 ≤ Timeout (rq_client r))%Z →
  within (Timeout (rq_client r)) (Uaa.send (S := S) r b f k).
Proof. intros Hr. unfold Uaa.send. destruct (negb _); [done|]. intros [resp|e]; cbn; lia. Qed.

Lemma registry_within :
  (∀ o, within (2 * uaa_patience) (@Prog.CreateClient S (Uaa.uaa_registry u) o)) ∧
  (∀ id, within (2 * uaa_patience) (@Prog.DeleteClient S (Uaa.uaa_registry u) id)).
Proof.
  replace (2 * uaa_patience)%Z with (uaa_patience + uaa_patience)%Z by lia.
  split; intros x; (apply within_bind; [by apply (send_within (Uaa.token_request u))|]);
    intros [tok|e]; try done; (apply within_bind_l; [|by intros []]).
  - by apply (send_within (Uaa.create_request u tok x)).
  - by apply (send_within (Uaa.delete_request u tok x)).
Qed.
End Clients.

(** ** The handlers *)

#[export] Instance within_closed : Closed (fun A => @within Store A 0).
Proof. split; intros; by (apply within_bind_l || cbn [within]). Qed.

Section Handlers.
Context (b : Broker) (D U : Z) (D_nonneg : (0 ≤ D)%Z) (U_nonneg : (0 ≤ U)%Z).
Hypothesis deploy_within : ∀ m, within D (@Deploy _ (director b) m).
Hypothesis delete_within : ∀ n, within D (@DeleteDeployment _ (director b) n).
Hypothesis status_within : ∀ t, within D (@TaskStatus _ (director b) t).
Hypothesis create_within : ∀ uaa o, uaaClient b = Some uaa → within U (@Prog.CreateClient _ uaa o).
Hypothesis remove_within : ∀ uaa id, uaaClient b = Some uaa → within U (@Prog.DeleteClient _ uaa id).

Lemma saveState_within : within 0 (saveState b).
Proof. by apply (saveState_closed b (fun A => @within Store A 0)). Qed.

Lemma save_then_within {A} n (x : A) : (0 ≤ n)%Z → within n (saveState b >>> Ret x).
Proof. intros. by apply within_bind_r; [apply saveState_within|]. Qed.

(** A branch without requests. *)
Ltac silent := solve [done | cbn [within]; lia].

Lemma render_within params msg : within D (render_and_deploy b params msg).
Proof.
  unfold render_and_deploy. destruct (Manifest.RenderAgentManifest params); [|silent].
  apply within_bind_l; [apply deploy_within|]. by intros [].
Qed.

Lemma setup_sso_within id h l : within U (setup_sso b id h l).
Proof.
  intros s. cbn [bind reads]. destruct (Instance.SSOEnabled _); [|silent].
  destruct (uaaClient b) as [uaa|] eqn:E; [|intros s'; silent]. intros x y. cbn [bind].
  apply within_bind_l; [by apply create_within|]. intros [e|]; cbn; done.
Qed.

Lemma Provision_within id accepts req : within (U + D) (Provision b id accepts req).
Proof.
  unfold Provision. do 2 (destruct (negb _); [silent|]). destruct req as [req|]; [|silent].
  apply within_bind_r; [silent|]. intros [l|resp]; [|silent].
  apply within_bind; [apply setup_sso_within|]. intros _ s. cbn [bind].
  apply within_bind_l; [apply render_within|]. intros [t|resp]; [|silent].
  intros s'. by apply save_then_within.
Qed.

Lemma Update_within id accepts req : within D (Update b id accepts req).
Proof.
  unfold Update. destruct (negb _); [silent|]. destruct req as [req|]; [|silent].
  apply within_bind_r; [silent|]. intros [[l params]|resp]; [|silent].
  apply within_bind_l; [apply render_within|]. intros [t|resp]; [|silent].
  intros s'. by apply save_then_within.
Qed.

Lemma delete_deployment_within id n l undo failed : within (U + D) (delete_deployment b id n l undo failed).
Proof.
  unfold delete_deployment, deleteUAAClient. apply within_bind.
  - destruct (uaaClient b) as [uaa|] eqn:E; [|silent]. by apply within_bind_l; [apply remove_within|].
  - intros _. apply within_bind_l; [apply delete_within|]. intros [t|e]; [|silent].
    intros s'. by apply save_then_within.
Qed.

Lemma Deprovision_within id accepts : within (U + D) (Deprovision b id accepts).
Proof.
  unfold Deprovision. destruct (negb _); [silent|]. intros s. cbn [bind].
  destruct (mark_deprovisioning id s).2; [apply delete_deployment_within|silent|apply delete_deployment_within].
Qed.

Lemma LastOperation_within id : within D (LastOperation b id).
Proof.
  intros s. cbn [bind reads]. destruct (poll id s) as [[[l st] t]|]; [|silent].
  destruct (String.eqb st "provisioning"); [|destruct (String.eqb st "deprovisioning");
    [|repeat case_match; silent]];
    (destruct (t =? 0)%Z; [silent|]; apply within_bind_l; [by apply within_bind_l|]; intros ts;
     destruct (String.eqb ts "done"); [intros s'; by apply save_then_within|];
     destruct (task_failed ts); try silent; intros s'; by apply save_then_within).
Qed.

Lemma upgrade_all_within version l n : within (D * Z.of_nat (length l)) (upgrade_all b version l n).
Proof.
  revert n. induction l as [|x l IH]; intros n; [cbn; lia|]. intros s. cbn [bind].
  replace (D * Z.of_nat (length (x :: l)))%Z with (D + D * Z.of_nat (length l))%Z by (cbn [length]; lia).
  apply within_bind; [apply render_within|]. intros [t|e]; [intros s1 s2|]; apply IH.
Qed.

Lemma check_all_within l n : within (D * Z.of_nat (length l)) (check_all b l n).
Proof.
  revert n. induction l as [|[id t] l IH]; intros n; [cbn; lia|]. cbn [check_all].
  replace (D * Z.of_nat (length ((id, t) :: l)))%Z with (D + D * Z.of_nat (length l))%Z by (cbn [length]; lia).
  apply within_bind; [apply status_within|]. intros [st|e]; [|apply IH].
  destruct (String.eqb st "done"); [intros s; apply IH|].
  destruct (task_failed st); [intros s; apply IH|apply IH].
Qed.

Lemma visit_length {A} (m : gmap string A) keys : keys ≡ₚ (map_to_list m).*1 → length (visit m keys) = size m.
Proof. intros H%visit_perm. by rewrite H, length_map_to_list. Qed.

(** How many instances AdminUpgrade redeploys. *)
Lemma collect_length version count (l : list (nat * Instance)) : (0 < count)%Z →
  (Z.of_nat (length (collect version count [] l)) ≤ Z.min count (Z.of_nat (length l)))%Z.
Proof.
  intros Hc. rewrite collect_take by (cbn; lia). cbn. rewrite length_take, Nat.sub_0_r, length_fmap.
  pose proof (List.filter_length_le (fun ki => outdated version ki.2) l). lia.
Qed.

(** What the handler of a request may wait for, all in all, when it runs from [s]. *)
Definition budget (s : Store) (r : Request) : Z :=
  match r with
  | PutInstance _ _ _ | DeleteInstance _ _ => U + D
  | PatchInstance _ _ _ | GetLastOperation _ => D
  | PostAdminUpgrade (Some req) =>
      D * Z.max 0 (Z.min (UpgradeRequest.Count req) (Z.of_nat (size (instances s))))
  | GetAdminUpgradeStatus => D * Z.of_nat (size (upgrades s))
  | _ => 0
  end.

Lemma handle_within r s : wp (handle b r) s [] (fun _ _ tr => (waited tr ≤ budget s r)%Z).
Proof.
  assert (Hw : ∀ n (p : prog Store Response), within n p → wp p s [] (fun _ _ tr => (waited tr ≤ n)%Z)).
  { intros n p Hp. rewrite <- (app_nil_r []) at 1. eapply wp_mono, (within_wp n p s []).
    - by intros _ _ tr (new & -> & Hn).
    - cbn. by rewrite Z.sub_0_r. }
  destruct r; cbn [handle budget]; try done.
  - apply Hw, Provision_within.
  - apply Hw, Update_within.
  - apply Hw, Deprovision_within.
  - apply Hw, LastOperation_within.
  - unfold AdminUpgrade. destruct body as [req|]; [|done]. cbv zeta.
    destruct (Z.leb_spec (UpgradeRequest.Count req) 0) as [Hc|Hc]; [cbn; nia|].
    apply (Hw _ (Order _ _)). intros keys Hkeys.
    apply within_bind_l; [eapply within_mono, upgrade_all_within|intros n; by apply save_then_within].
    etrans; [apply Z.mul_le_mono_nonneg_l, collect_length; lia|].
    rewrite length_fmap, visit_length, map_size_fmap by done. nia.
  - apply (Hw _ (Order _ _)). intros keys Hkeys.
    apply within_bind_l; [eapply within_mono, check_all_within|intros n; by apply save_then_within].
    by rewrite visit_length.
Qed.
End Handlers.

(** * Property *)

(** Whether the broker registers a client per instance with the UAA of the platform. *)
Definition single_sign_on (cfg : Config) : bool :=
  Security.SSOEnabled (Config.Security cfg) && negb (String.eqb (CFUAA.URL (Config.CFUAA cfg)) "")
    && negb (String.eqb (CFUAA.AdminClientSecret (Config.CFUAA cfg)) "").

(** What one operation of the director client takes at most, and one of the UAA client. *)
Definition director_limit (cfg : Config) : Z :=
  if String.eqb (Bosh.uaaURL (director_of cfg)) "" then 60 else 120.

Definition registry_limit (cfg : Config) : Z := if single_sign_on cfg then 60 else 0.

Lemma main_uaaClient cfg genai d : uaaClient (New (brokerCfg cfg genai) d) =
  if single_sign_on cfg then Some (Uaa.uaa_registry (uaa_of (brokerCfg cfg genai))) else None.
Proof. reflexivity. Qed.

Lemma handle_limit cfg genai r s :
  wp (handle (New (brokerCfg cfg genai) (Bosh.bosh_director (director_of cfg))) r) s []
    (fun _ _ tr => (waited tr ≤ budget (director_limit cfg) (registry_limit cfg) s r)%Z).
Proof.
  assert (HD : ∀ A m url hs body f (k : HttpResponse → result GoError A),
    within (director_limit cfg) (Bosh.director_request (S := Store) (director_of cfg) m url hs body f k)).
  { intros A m url hs body f k. replace (director_limit cfg) with (director_seconds (director_of cfg)).
    - by apply director_request_within.
    - unfold director_limit, director_seconds. by destruct (String.eqb _ _). }
  assert (uaa_patience : (0 ≤ Timeout (Uaa.httpClient (uaa_of (brokerCfg cfg genai))))%Z) by done.
  apply handle_within.
  - unfold director_limit. by case_match.
  - unfold registry_limit. by case_match.
  - intros m. apply HD.
  - intros n. apply HD.
  - intros t. apply HD.
  - intros uaa o. rewrite main_uaaClient. unfold registry_limit. destruct (single_sign_on cfg); [|done].
    intros [= <-]. change 60%Z with (2 * Timeout (Uaa.httpClient (uaa_of (brokerCfg cfg genai))))%Z.
    apply (proj1 (registry_within _ uaa_patience)).
  - intros uaa id. rewrite main_uaaClient. unfold registry_limit. destruct (single_sign_on cfg); [|done].
    intros [= <-]. change 60%Z with (2 * Timeout (Uaa.httpClient (uaa_of (brokerCfg cfg genai))))%Z.
    apply (proj2 (registry_within _ uaa_patience)).
Qed.

(** C14. How long a request may wait: of a broker that main built, whatever the servers
    answer and however late, the exchanges of one request take 60 seconds at most for
    each request to the director, twice that when a token has to be asked for, and
    for the UAA of the platform, with single sign-on, 60 more; a provision or a
    deprovision makes one request to the director, an update and a poll too, an upgrade
    one for each instance it picks, the status of upgrades one for each tracked
    upgrade, and the other requests make none.  (Waiting for another request that asks
    for the token is not counted.) *)
Theorem request_seconds config_file genai_file d b username password s0 r s :
  rtc (pool (fun _ => False)) (initial_store d, [main config_file genai_file])
    (s0, [Ret (Ok (b, username, password))]) →
  ∃ cfg, loadConfig config_file = Ok cfg ∧
    wp (handle b r) s [] (fun _ _ tr => (waited tr ≤ budget (director_limit cfg) (registry_limit cfg) s r)%Z).
Proof.
  intros Hr. destruct (pool_returns _ _ _ _ _ (main_built config_file genai_file) Hr _ _ _ eq_refl)
    as (cfg & genai & Hc & ->).
  exists cfg. split; [done|]. apply handle_limit.
Qed.

(** ** Witness: a provision that may wait for three minutes *)

(** The write timeout of the server, in seconds (main.go). *)
Definition WriteTimeout : Z := 30.

Definition slow_config_file : string := MarshalIndent (JObj
  [("auth", JObj [("username", JStr "broker"); ("password", JStr "s3cret")]);
   ("bosh", JObj [("director_url", JStr "https://10.0.0.6:25555"); ("client_id", JStr "admin");
                  ("uaa_url", JStr "https://uaa.example.com")]);
   ("agent_defaults", JObj [("openclaw_version", JStr "2026.1.30")]);
   ("security", JObj [("sso_enabled", JBool true)]);
   ("cf_uaa", JObj [("url", JStr "https://uaa.example.com"); ("admin_client_secret", JStr "adm1n")]);
   ("cf", JObj [("apps_domain", JStr "apps.example.com")]);
   ("on_demand", JObj [("azs", JArr [JStr "z1"])])]).

Notation slow_boot := (boot (demo_oracle 302 302 "done") (Ok slow_config_file)
  (Err (Errorf "no such file" [])) [0; 0; 0] FileSys.empty).

Notation slow_provision :=
  (run (demo_oracle 302 302 "done") (Provision (built_of slow_boot.2) "i-1" "true" (Some demo_request))
    slow_boot.1.1 []).

Lemma request_seconds_witness :
  status slow_provision.1.1 = 202%Z ∧ waited slow_provision.2 = 180%Z ∧
  (WriteTimeout < waited slow_provision.2)%Z ∧ (waited slow_provision.2 ≤ 60 + 120)%Z.
Proof.
  split; [vm_compute; reflexivity|]. split; [vm_compute; reflexivity|]. split; [vm_compute; reflexivity|].
  assert (E : started slow_boot.2 = true) by (vm_compute; reflexivity). apply started_eq in E.
  destruct (request_seconds (Ok slow_config_file) (Err (Errorf "no such file" [])) FileSys.empty
    (built_of slow_boot.2) "broker" "s3cret" slow_boot.1.1
    (PutInstance "i-1" "true" (Some demo_request)) slow_boot.1.1) as (cfg & Hc & Hw).
  - rewrite <- E. unfold boot. apply execute_pool. apply _.
  - pose proof (wp_run (demo_oracle 302 302 "done") _ _ _ _ Hw) as H. cbn [handle] in H.
    vm_compute in Hc. injection Hc as <-.
    destruct slow_provision as [[a s'] tr']. exact H.
Defined.
