(* ===== verification/StartupLog.v ===== *)
(** * Package main, main.go: what the broker logs when it starts

    The lines [main] logs about its configuration before it serves: what they tell the
    operator about single sign-on, and that they keep the secrets. *)

From S2P Require Import Prelude GoStrings Json Floats Encoding Prog Url Tokens BoshClient UaaClient Broker Errors StateFile Store Concurrency Server Effects Config System Connections.

Section Log.
Context (is_print : N → bool).

(** The verb %v of a slice of strings, and of a bool. *)
Definition slice_v (l : list string) : string := "[" +:+ join " " l +:+ "]".
Definition bool_v (b : bool) : string := if b then "true" else "false".

Definition uaaConfigured (c : BrokerConfig) : bool :=
  negb (String.eqb (BrokerConfig.CFUaaURL c) "") && negb (String.eqb (BrokerConfig.CFUaaAdminClientSecret c) "").

Definition sso_warning : string :=
  "WARNING: SSO is enabled but CF UAA admin credentials are not configured — SSO will be disabled for all instances".

Definition startup_log (c : BrokerConfig) : list string :=
  [sprintf is_print "Broker config: AZs=%v Network=%q StemcellOS=%q CFDeployment=%q SSOEnabled=%v"
     [slice_v (BrokerConfig.AZs c); BrokerConfig.Network c; BrokerConfig.StemcellOS c;
      BrokerConfig.CFDeploymentName c; bool_v (BrokerConfig.SSOEnabled c)];
   sprintf is_print "Broker config: Plans=%d MaxInstances=%d MaxPerOrg=%d MinVersion=%q"
     [Itoa (Z.of_nat (length (BrokerConfig.Plans c))); Itoa (BrokerConfig.MaxInstances c);
      Itoa (BrokerConfig.MaxInstancesPerOrg c); BrokerConfig.MinOpenClawVersion c];
   sprintf is_print "Broker SSO: enabled=%v uaa_configured=%v issuer=%q uaa_url=%q"
     [bool_v (BrokerConfig.SSOEnabled c); bool_v (uaaConfigured c);
      BrokerConfig.SSOOIDCIssuerURL c; BrokerConfig.CFUaaURL c]] ++
  (if BrokerConfig.SSOEnabled c && negb (uaaConfigured c) then [sso_warning] else []).

(** ** Lemmas *)

(** The two configurations differ in secrets and other settings that are none of the
    log's business: user name and password, the director, keys, certificates, the
    language model. *)
Definition same_but_secrets (c c' : BrokerConfig) : Prop :=
  BrokerConfig.AZs c = BrokerConfig.AZs c' ∧ BrokerConfig.Network c = BrokerConfig.Network c' ∧
  BrokerConfig.StemcellOS c = BrokerConfig.StemcellOS c' ∧
  BrokerConfig.CFDeploymentName c = BrokerConfig.CFDeploymentName c' ∧
  BrokerConfig.SSOEnabled c = BrokerConfig.SSOEnabled c' ∧ BrokerConfig.Plans c = BrokerConfig.Plans c' ∧
  BrokerConfig.MaxInstances c = BrokerConfig.MaxInstances c' ∧
  BrokerConfig.MaxInstancesPerOrg c = BrokerConfig.MaxInstancesPerOrg c' ∧
  BrokerConfig.MinOpenClawVersion c = BrokerConfig.MinOpenClawVersion c' ∧
  BrokerConfig.SSOOIDCIssuerURL c = BrokerConfig.SSOOIDCIssuerURL c' ∧
  BrokerConfig.CFUaaURL c = BrokerConfig.CFUaaURL c' ∧
  (BrokerConfig.CFUaaAdminClientSecret c = "" ↔ BrokerConfig.CFUaaAdminClientSecret c' = "").

Lemma startup_log_secrets c c' : same_but_secrets c c' → startup_log c = startup_log c'.
Proof.
  intros (E1 & E2 & E3 & E4 & E5 & E6 & E7 & E8 & E9 & E10 & E11 & Es).
  assert (Eu : uaaConfigured c = uaaConfigured c').
  { unfold uaaConfigured. rewrite E11. f_equal. f_equal. 
    destruct (String.eqb_spec (BrokerConfig.CFUaaAdminClientSecret c) ""), (String.eqb_spec (BrokerConfig.CFUaaAdminClientSecret c') "");
      tauto. }
  unfold startup_log. by rewrite E1, E2, E3, E4, E5, E6, E7, E8, E9, E10, E11, Eu.
Qed.

(** A line that starts differently is another one. *)
Lemma warning_logged c : sso_warning ∈ startup_log c ↔ BrokerConfig.SSOEnabled c = true ∧ uaaConfigured c = false.
Proof.
  unfold startup_log. rewrite elem_of_app. split.
  - intros [H|H].
    + rewrite !elem_of_cons in H. by destruct H as [H|[H|[H|H%elem_of_nil]]].
    + destruct (BrokerConfig.SSOEnabled c), (uaaConfigured c); by try apply elem_of_nil in H.
  - intros [-> ->]. right. by apply list_elem_of_singleton.
Qed.

Lemma no_uaa_requests c d r : uaa_used c = false → asks (S := Store) (to_director d) (handle (New c (Bosh.bosh_director d)) r).
Proof.
  intros Hu. eapply asks_mono, handle_asks. intros q [H|[H _]]; [done|congruence].
Qed.

(** ** Property *)

End Log.

(** ** Witness: single sign-on without the credentials of the UAA *)

Definition half_sso_config_file : string := MarshalIndent (JObj
  [("auth", JObj [("username", JStr "broker"); ("password", JStr "s3cret")]);
   ("bosh", JObj [("director_url", JStr "https://10.0.0.6:25555"); ("client_id", JStr "admin")]);
   ("security", JObj [("sso_enabled", JBool true)]);
   ("cf_uaa", JObj [("url", JStr "https://uaa.example.com")]);
   ("on_demand", JObj [("azs", JArr [JStr "z1"; JStr "z2"]); ("network", JStr "services")])]).

Notation half_boot := (boot (demo_oracle 302 302 "done") (Ok half_sso_config_file)
  (Err (Errorf "no such file" [])) [0; 0; 0] FileSys.empty).

